(** * Jensen-Renyi divergence subsampling: a shallow embedding

    Model of the notebook [imbalanced_datasets_experiments.ipynb]:
    [JRD_sampling], [load_dataset] and [train_imbalanced], the list of the
    data sets and the cells that run the demonstration and the experiments.

    Conventions.
    - Python floats are idealised as exact rationals ([Q]); NaN and
      infinities are not represented, and the only rounding represented is
      the conversion of a float64 to float32, which is the library's.
    - An array carries its dtype; float64, float32 and int64 are
      represented.
    - Library code (numpy's generator, torch's autograd and Adam, repitl's
      divergence, pandas' reader, scikit-learn) is not part of the notebook:
      it is an interface, the class [Libs].  A library call may raise; every
      call is appended to a log together with its outcome.
    - numpy arrays and torch tensors that are mutated in place or that share
      memory live in a store addressed by locations. *)

From Stdlib Require Import Ascii String ZArith QArith Lia Lqa.
From stdpp Require Import base list strings pretty.

(** ** Exceptions and results *)

Inductive exn :=
  ValueError | IndexError | TypeError | RuntimeError | OverflowError.

Inductive result (A : Type) :=
| Ok (a : A)
| Raise (e : exn).
Arguments Ok {A} a.
Arguments Raise {A} e.

Definition is_ok {A} (r : result A) : bool :=
  match r with Ok _ => true | Raise _ => false end.

(** ** Arrays *)

(** The dtypes of numpy and torch that are represented. *)
Inductive np_dtype := Float64 | Float32 | Int64.

Definition is_floating_point (dt : np_dtype) : bool :=
  match dt with
  | Float64 | Float32 => true
  | Int64 => false
  end.

(** A two-dimensional array: [shape = (nrows, ncols)].  The column count is
    kept explicitly, as numpy does, so that an array with no row still has
    a width.  The entries of an integer array are integers. *)
Record ndarray := mk_ndarray {
  dtype : np_dtype;
  ncols : nat;
  rows : list (list Q)
}.

Definition nrows (X : ndarray) : nat := length (rows X).
Definition shape (X : ndarray) : nat * nat := (nrows X, ncols X).
Definition wf_ndarray (X : ndarray) : Prop :=
  Forall (fun r => length r = ncols X) (rows X).

(** [X[i, j]]; only used where the index is known to be in range. *)
Definition entry (X : ndarray) (i j : nat) : Q :=
  default 0%Q (rows X !! i ≫= fun r => r !! j).

(** An integer array, one- or two-dimensional. *)
Inductive intarray :=
| Int1 (v : list Z)
| Int2 (m : list (list Z)).

(** ** The store *)

Definition loc := nat.

(** One storage cell: the data buffer, and the [.grad] attribute of the torch
    tensor that owns the buffer ([None] for a buffer without gradient). *)
Record cell := mk_cell { c_data : ndarray; c_grad : option ndarray }.

(** A torch tensor is a view on a buffer. *)
Record tensor := mk_tensor { t_storage : loc; t_requires_grad : bool }.

(** ** Library calls and the log *)

Inductive site := Nested | Final.

Inductive call :=
| Print (msg : string)
| PdReadTable (path : string)
| ScalerFitTransform (X : ndarray)
| ScalerTransform (X : ndarray)
| TrainTestSplit (X : ndarray) (y : list Z) (test_size : Q) (random_state : Z)
| PairwiseDistances (X : ndarray)
| NpRandomUniform (low high : Q) (size : Z * nat)
| TorchFromNumpy (X : loc)
| TorchTensor (src : loc) (requires_grad : bool)
| OptimAdam (params : list tensor) (lr : Q)
| PltSubplots
| ZeroGrad
| DivergenceJR (X Y : ndarray) (sigma alpha : Q) (weighted : bool) (n_rff : option Z)
| Backward
| OptimizerStep
| AxCla
| AxPlot
| PlotFrame
| DetachNumpy (Y : loc)
| GridSearchFit (s : site) (X : ndarray) (y : list Q) (gamma_range C_range : list Q)
| SVCFit (s : site) (X : ndarray) (y : list Q) (C gamma : Q)
| PredictProba (s : site) (X : ndarray)
| RocAucScore (s : site) (y_true : intarray) (y_score : list Q).

Inductive outcome :=
| Returned
| ReturnedValue (v : Q)
| Raised (e : exn).

Record event := Ev { ev_call : call; ev_out : outcome }.

(** ** Pandas data *)

(** An element of a column: a Python object of an object-dtype column (a
    string, an integer of any size, a float), or a number of an int64 or a
    float64 column. *)
Inductive pyobj :=
| PStr (s : string)
| PInt (z : Z)
| PFloat (q : Q)
| NpInt (z : Z)
| NpFloat (q : Q).

Inductive column :=
| IntCol (v : list Z)
| FloatCol (v : list Q)
| ObjCol (v : list pyobj).

Definition DataFrame := list column.

(** ** The library interface *)

(** What [divergenceJR] hands back: the scalar and, for autograd, its partial
    derivatives with respect to every entry of the two arguments. *)
Record djr := mk_djr {
  djr_value : Q;
  djr_dX : nat -> nat -> Q;
  djr_dY : nat -> nat -> Q
}.

Class Libs := {
  (** the state the libraries keep between calls: numpy's and torch's global
      generators, the file system *)
  lib_state : Type;
  (** numpy: one draw of the global generator, a float of [0, 1) *)
  random_sample : lib_state -> lib_state * Q;
  (** the float32 nearest to a float64 *)
  as_float32 : Q -> Q;
  (** numpy: [np.logspace], [np.nanmedian] *)
  np_logspace : Q -> Q -> nat -> list Q;
  np_nanmedian : ndarray -> Q;
  (** torch.optim.Adam: the constructor's checks, and the update of one entry
      (learning rate, step number, moment estimates, entry, gradient) *)
  adam_cell : Type;
  adam_cell0 : adam_cell;
  adam_check : Q -> result unit;
  adam_update : Q -> nat -> adam_cell -> Q -> Q -> adam_cell * Q;
  (** repitl *)
  div_divergenceJR :
    ndarray -> ndarray -> Q -> Q -> bool -> option Z ->
    lib_state -> lib_state * result djr;
  (** matplotlib and IPython display: [plt.subplots]; [ax.cla]; the first
      [ax.plot], of two columns of [X]; the second [ax.plot], of two columns
      of [Y], with the calls that follow it up to [display.clear_output] *)
  plt_subplots : lib_state -> lib_state * result unit;
  plt_cla : lib_state -> lib_state * result unit;
  plt_plot : list Q -> list Q -> lib_state -> lib_state * result unit;
  plt_frame : list Q -> list Q -> lib_state -> lib_state * result unit;
  (** pandas *)
  pd_read_table : string -> lib_state -> lib_state * result DataFrame;
  (** scikit-learn *)
  StandardScaler : Type;
  SVC : Type;
  scaler_fit_transform :
    ndarray -> lib_state -> lib_state * result (StandardScaler * ndarray);
  scaler_transform :
    StandardScaler -> ndarray -> lib_state -> lib_state * result ndarray;
  train_test_split :
    ndarray -> list Z -> Q -> Z ->
    lib_state -> lib_state * result (ndarray * ndarray * list Z * list Z);
  pairwise_distances : ndarray -> lib_state -> lib_state * result ndarray;
  grid_search_fit :
    list Q -> list Q -> ndarray -> list Q ->
    lib_state -> lib_state * result (Q * Q);
  svc_fit :
    Q -> Q -> ndarray -> list Q -> lib_state -> lib_state * result SVC;
  svc_predict_proba :
    SVC -> ndarray -> lib_state -> lib_state * result ndarray;
  roc_auc_score :
    intarray -> list Q -> lib_state -> lib_state * result Q
}.

(** ** The monad: library state, store and log, with exceptions *)

Section Program.
Context {L : Libs}.

Record world := mk_world {
  w_lib : lib_state;
  w_heap : list cell;
  w_log : list event
}.

Definition M (A : Type) : Type := world -> world * result A.

Definition ret {A} (a : A) : M A := fun w => (w, Ok a).

Definition raise {A} (e : exn) : M A := fun w => (w, Raise e).

Definition bind {A B} (m : M A) (k : A -> M B) : M B :=
  fun w =>
    match m w with
    | (w1, Ok a) => k a w1
    | (w1, Raise e) => (w1, Raise e)
    end.

(** [try: body except ValueError: handler] *)
Definition try_except_ValueError {A} (body handler : M A) : M A :=
  fun w =>
    match body w with
    | (w1, Raise ValueError) => handler w1
    | other => other
    end.

(** [for x in xs: state = body x state] *)
Fixpoint for_each {B S} (xs : list B) (body : B -> S -> M S) (s : S) : M S :=
  match xs with
  | [] => ret s
  | x :: xs' => bind (body x s) (for_each xs' body)
  end.

Definition lift {A} (r : result A) : M A := fun w => (w, r).

Definition emit (c : call) (o : outcome) : M unit :=
  fun w => (mk_world (w_lib w) (w_heap w) (w_log w ++ [Ev c o]), Ok tt).

(** A call into a library: it may change the library state, it is logged
    with its outcome, and its exception, if any, is raised here. *)
Definition lib_call {A} (c : call) (report : A -> outcome)
    (f : lib_state -> lib_state * result A) : M A :=
  fun w =>
    let '(s1, r) := f (w_lib w) in
    (mk_world s1 (w_heap w)
       (w_log w ++ [Ev c (match r with Ok a => report a | Raise e => Raised e end)]),
     r).

Definition silent {A} (_ : A) : outcome := Returned.

(** store primitives *)
Definition alloc (c : cell) : M loc :=
  fun w => (mk_world (w_lib w) (w_heap w ++ [c]) (w_log w), Ok (length (w_heap w))).

Definition load (l : loc) : M cell :=
  fun w => match w_heap w !! l with
           | Some c => (w, Ok c)
           | None => (w, Raise RuntimeError)
           end.

Definition store (l : loc) (c : cell) : M unit :=
  fun w => (mk_world (w_lib w) (<[l := c]> (w_heap w)) (w_log w), Ok tt).

End Program.

Declare Scope prog_scope.
Delimit Scope prog_scope with prog.
Notation "x <- m ;; k" := (bind m (fun x => k))
  (at level 100, m at next level, right associativity) : prog_scope.
Notation "m ;;; k" := (bind m (fun _ => k))
  (at level 100, right associativity) : prog_scope.
Open Scope prog_scope.

(** ** numpy and torch, as far as [JRD_sampling] uses them *)

(** [P[:, j]], on an array and on a tensor *)
Definition column_of (j : nat) (P : ndarray) : result (list Q) :=
  if j <? ncols P then Ok (map (fun r => default 0%Q (r !! j)) (rows P))
  else Raise IndexError.

Section Torch.
Context {L : Libs}.

(** [np.random.uniform(low, high, size)]: every entry is
    [low + (high - low) * u] for a fresh draw [u] of the global generator;
    a negative dimension raises [ValueError]. *)
Fixpoint draw_row (low high : Q) (d : nat) (s : lib_state) : lib_state * list Q :=
  match d with
  | O => (s, [])
  | S d' =>
      let '(s1, u) := random_sample s in
      let '(s2, r) := draw_row low high d' s1 in
      (s2, (low + (high - low) * u)%Q :: r)
  end.

Fixpoint draw_rows (low high : Q) (n d : nat) (s : lib_state)
    : lib_state * list (list Q) :=
  match n with
  | O => (s, [])
  | S n' =>
      let '(s1, r) := draw_row low high d s in
      let '(s2, rs) := draw_rows low high n' d s1 in
      (s2, r :: rs)
  end.

Definition np_random_uniform (low high : Q) (size : Z * nat) : M loc :=
  A <- lib_call (NpRandomUniform low high size) silent
         (fun s =>
            if (size.1 <? 0)%Z then (s, Raise ValueError)
            else
              let '(s1, rs) := draw_rows low high (Z.to_nat size.1) size.2 s in
              (s1, Ok (mk_ndarray Float64 size.2 rs))) ;;
  alloc (mk_cell A None).

(** [torch.from_numpy(X)]: the tensor shares the array's memory. *)
Definition torch_from_numpy (X : loc) : M tensor :=
  emit (TorchFromNumpy X) Returned ;;;
  ret (mk_tensor X false).

(** The entry [q] of a float64 array, converted to another dtype: rounded to
    float32, truncated towards zero to an integer. *)
Definition convert (dt : np_dtype) (q : Q) : Q :=
  match dt with
  | Float64 => q
  | Float32 => as_float32 q
  | Int64 => inject_Z (Z.quot (Qnum q) (Zpos (Qden q)))
  end.

Definition astype (dt : np_dtype) (A : ndarray) : ndarray :=
  mk_ndarray dt (ncols A) (map (map (convert dt)) (rows A)).

(** [torch.tensor(A, requires_grad = rg, dtype = dt)] on a float64 array
    [A]: always a copy, of dtype [dt]; only a tensor of a floating point
    dtype can require gradients, another one raises [RuntimeError]. *)
Definition torch_tensor (A : loc) (rg : bool) (dt : np_dtype) : M tensor :=
  c <- load A ;;
  if rg && negb (is_floating_point dt) then
    emit (TorchTensor A rg) (Raised RuntimeError) ;;;
    raise RuntimeError
  else
    l <- alloc (mk_cell (astype dt (c_data c)) None) ;;
    emit (TorchTensor A rg) Returned ;;;
    ret (mk_tensor l rg).

(** [Y.detach().numpy()]: a numpy view of the tensor's memory. *)
Definition detach_numpy (Y : tensor) : M loc :=
  emit (DetachNumpy (t_storage Y)) Returned ;;;
  ret (t_storage Y).

(** The optimizer: its parameters, learning rate and, per parameter, the
    step count and the moment estimates of every entry. *)
Definition adam_state : Type := nat * list (list adam_cell).

Record Adam := mk_optimizer {
  opt_params : list tensor;
  opt_lr : Q;
  opt_state : list adam_state
}.

Definition optim_Adam (params : list tensor) (lr : Q)  : M Adam :=
  lib_call (OptimAdam params lr) silent (fun s => (s, adam_check lr)) ;;;
  ret (mk_optimizer params lr (map (fun _ => (O, [])) params)).

(** [optimizer.zero_grad()]: the gradients of the parameters are reset. *)
Definition zero_grad (opt : Adam) : M unit :=
  emit ZeroGrad Returned ;;;
  for_each (opt_params opt)
    (fun p _ =>
       c <- load (t_storage p) ;;
       store (t_storage p) (mk_cell (c_data c) None))
    tt.

(** A scalar produced by a differentiable computation, with the leaves of
    its graph and the partial derivatives with respect to their entries. *)
Record scalar := mk_scalar {
  s_value : Q;
  s_leaves : list (tensor * (nat -> nat -> Q))
}.

Definition divergenceJR (X Y : tensor) (sigma alpha : Q) (weighted : bool)
    (n_rff : option Z) : M scalar :=
  cX <- load (t_storage X) ;;
  cY <- load (t_storage Y) ;;
  g <- lib_call
         (DivergenceJR (c_data cX) (c_data cY) sigma alpha weighted n_rff)
         (fun g => ReturnedValue (djr_value g))
         (div_divergenceJR (c_data cX) (c_data cY) sigma alpha weighted n_rff) ;;
  ret (mk_scalar (djr_value g) [(X, djr_dX g); (Y, djr_dY g)]).

(** [.grad] after accumulating the derivative [dv] into it. *)
Definition accumulate (data : ndarray) (old : option ndarray)
    (dv : nat -> nat -> Q) : ndarray :=
  mk_ndarray (dtype data) (ncols data)
    (imap (fun i r =>
             imap (fun j (_ : Q) =>
                     match old with
                     | None => dv i j
                     | Some g => (entry g i j + dv i j)%Q
                     end) r)
          (rows data)).

(** [djr.backward()]: only leaves with [requires_grad] receive a gradient. *)
Definition backward (v : scalar) : M unit :=
  emit Backward Returned ;;;
  for_each (s_leaves v)
    (fun leaf _ =>
       if t_requires_grad leaf.1 then
         c <- load (t_storage leaf.1) ;;
         store (t_storage leaf.1)
           (mk_cell (c_data c) (Some (accumulate (c_data c) (c_grad c) leaf.2)))
       else ret tt)
    tt.

(** One Adam update of a whole parameter: entry by entry, in place. *)
Definition adam_entries (lr : Q) (t : nat) (st : list (list adam_cell))
    (data grad : ndarray) : list (list (adam_cell * Q)) :=
  imap (fun i r =>
          imap (fun j y =>
                  adam_update lr t
                    (default adam_cell0 (st !! i ≫= fun sr => sr !! j))
                    y (entry grad i j)) r)
       (rows data).

Definition step_param (lr : Q) (p : tensor) (st : adam_state) : M adam_state :=
  c <- load (t_storage p) ;;
  match c_grad c with
  | None => ret st
  | Some g =>
      let t := S st.1 in
      let upd := adam_entries lr t st.2 (c_data c) g in
      store (t_storage p)
        (mk_cell (mk_ndarray (dtype (c_data c)) (ncols (c_data c))
                    (map (map snd) upd)) (c_grad c)) ;;;
      ret (t, map (map fst) upd)
  end.

Fixpoint step_params (lr : Q) (ps : list tensor) (sts : list adam_state)
    : M (list adam_state) :=
  match ps, sts with
  | p :: ps', st :: sts' =>
      st' <- step_param lr p st ;;
      rest <- step_params lr ps' sts' ;;
      ret (st' :: rest)
  | _, _ => ret []
  end.

(** [optimizer.step()] *)
Definition step (opt : Adam)  : M Adam :=
  emit OptimizerStep Returned ;;;
  sts <- step_params (opt_lr opt) (opt_params opt) (opt_state opt) ;;
  ret (mk_optimizer (opt_params opt) (opt_lr opt) sts).

(** ** [JRD_sampling] *)

(** [range(n)] *)
Definition range (n : Z) : list Z := seqZ 0 n.

(** The redraw of the figure: [ax.cla()], [ax.plot(X[:,0], X[:,1], '.')],
    [ax.plot(Y[:,0].detach().numpy(), Y[:,1].detach().numpy(), ...)] and
    the calls that follow it.  The columns are taken by the notebook. *)
Definition redraw (X Y : tensor) : M unit :=
  lib_call AxCla silent plt_cla ;;;
  cX <- load (t_storage X) ;;
  x0 <- lift (column_of 0 (c_data cX)) ;;
  x1 <- lift (column_of 1 (c_data cX)) ;;
  lib_call AxPlot silent (plt_plot x0 x1) ;;;
  cY <- load (t_storage Y) ;;
  y0 <- lift (column_of 0 (c_data cY)) ;;
  y1 <- lift (column_of 1 (c_data cY)) ;;
  lib_call PlotFrame silent (plt_frame y0 y1).

(** The body of [for i in range(n_iter)]. *)
Definition JRD_iteration (X Y : tensor) (sigma alpha : Q) (weighted : bool)
    (n_rff : option Z) (plot : bool) (optimizer : Adam) : M Adam :=
  zero_grad optimizer ;;;
  djr <- divergenceJR X Y sigma alpha weighted n_rff ;;
  backward djr ;;;
  optimizer <- step optimizer ;;
  (if plot then redraw X Y else ret tt) ;;;
  ret optimizer.

Definition JRD_sampling (X : loc) (n_samples : Z) (sigma alpha lr : Q)
    (n_iter : Z) (weighted : bool) (n_rff : option Z) (plot : bool) : M loc :=
  cX <- load X ;;
  let n := nrows (c_data cX) in
  let d := ncols (c_data cX) in
  Y_ <- np_random_uniform (-2.0) 2.0 (n_samples, d) ;;
  X <- torch_from_numpy X ;;
  Y <- torch_tensor Y_ true (dtype (c_data cX)) ;;
  optimizer <- optim_Adam [Y] lr ;;
  (if plot then lib_call PltSubplots silent plt_subplots else ret tt) ;;;
  for_each (range n_iter)
    (fun i => JRD_iteration X Y sigma alpha weighted n_rff plot)
    optimizer ;;;
  detach_numpy Y.

(** The defaults of the signature:
    [sigma = 1, alpha = 1.01, lr = 0.1, n_iter = 120, weighted = False,
     n_rff = None, plot = False]. *)
Definition default_n_iter : Z := 120.
Definition default_plot : bool := false.

(** ** Gradient descent, stated without the store

    The loop of [JRD_sampling] as the documentation words it: evaluate the
    divergence at the current candidate, take its gradient with respect to
    the candidate, apply one Adam update.  [descent] is compared with the
    loop of the notebook in [JRD_loop_run]. *)

Record gd_state := mk_gd {
  gd_lib : lib_state;
  gd_Y : ndarray;
  gd_grad : option ndarray;
  gd_adam : adam_state
}.

Definition gradient_of (g : djr) (Yd : ndarray) : ndarray :=
  accumulate Yd None (djr_dY g).

Definition adam_step (lr : Q) (a : adam_state) (Yd grad : ndarray)
    : ndarray * adam_state :=
  let upd := adam_entries lr (S a.1) a.2 Yd grad in
  (mk_ndarray (dtype Yd) (ncols Yd) (map (map snd) upd),
   (S a.1, map (map fst) upd)).

Definition iteration_calls (Xd Yd : ndarray) (sigma alpha : Q)
    (weighted : bool) (n_rff : option Z) (v : Q) : list event :=
  [ Ev ZeroGrad Returned;
    Ev (DivergenceJR Xd Yd sigma alpha weighted n_rff) (ReturnedValue v);
    Ev Backward Returned;
    Ev OptimizerStep Returned ].

(** The outcome of a call that returns nothing. *)
Definition outcome_of (r : result unit) : outcome :=
  match r with Ok _ => Returned | Raise e => Raised e end.

(** The redraw of the points [Xd] and [Yd]: the library state it leaves, its
    calls and its result.  A point set of less than two columns has no
    column 0 or no column 1. *)
Definition redraw_calls (Xd Yd : ndarray) (s : lib_state)
    : lib_state * list event * result unit :=
  match plt_cla s with
  | (s1, Raise e) => (s1, [Ev AxCla (Raised e)], Raise e)
  | (s1, Ok _) =>
      match column_of 0 Xd, column_of 1 Xd with
      | Ok x0, Ok x1 =>
          match plt_plot x0 x1 s1 with
          | (s2, Raise e) =>
              (s2, [Ev AxCla Returned; Ev AxPlot (Raised e)], Raise e)
          | (s2, Ok _) =>
              match column_of 0 Yd, column_of 1 Yd with
              | Ok y0, Ok y1 =>
                  let '(s3, r) := plt_frame y0 y1 s2 in
                  (s3, [Ev AxCla Returned; Ev AxPlot Returned;
                        Ev PlotFrame (outcome_of r)], r)
              | _, _ =>
                  (s2, [Ev AxCla Returned; Ev AxPlot Returned], Raise IndexError)
              end
          end
      | _, _ => (s1, [Ev AxCla Returned], Raise IndexError)
      end
  end.

Definition descent_step (Xd : ndarray) (sigma alpha lr : Q) (weighted : bool)
    (n_rff : option Z) (plot : bool) (st : gd_state)
    : gd_state * list event * result unit :=
  match div_divergenceJR Xd (gd_Y st) sigma alpha weighted n_rff (gd_lib st) with
  | (s1, Raise e) =>
      (mk_gd s1 (gd_Y st) None (gd_adam st),
       [ Ev ZeroGrad Returned;
         Ev (DivergenceJR Xd (gd_Y st) sigma alpha weighted n_rff) (Raised e) ],
       Raise e)
  | (s1, Ok g) =>
      let grad := gradient_of g (gd_Y st) in
      let Ya := adam_step lr (gd_adam st) (gd_Y st) grad in
      let calls :=
        iteration_calls Xd (gd_Y st) sigma alpha weighted n_rff (djr_value g) in
      if plot then
        let '(s2, evs, r) := redraw_calls Xd Ya.1 s1 in
        (mk_gd s2 Ya.1 (Some grad) Ya.2, calls ++ evs, r)
      else (mk_gd s1 Ya.1 (Some grad) Ya.2, calls, Ok tt)
  end.

Fixpoint descent (n : nat) (Xd : ndarray) (sigma alpha lr : Q)
    (weighted : bool) (n_rff : option Z) (plot : bool) (st : gd_state)
    : gd_state * list event * result unit :=
  match n with
  | O => (st, [], Ok tt)
  | S n' =>
      match descent_step Xd sigma alpha lr weighted n_rff plot st with
      | (st1, ev1, Ok _) =>
          let '(st2, ev2, r) :=
            descent n' Xd sigma alpha lr weighted n_rff plot st1 in
          (st2, ev1 ++ ev2, r)
      | (st1, ev1, Raise e) => (st1, ev1, Raise e)
      end
  end.

(** The calls [JRD_sampling] makes before it builds the optimizer: the draw,
    the view on [X], the copy of the draw at location [l0]. *)
Definition setup_calls (X : loc) (n_samples : Z) (d : nat) (l0 : loc) : list event :=
  [ Ev (NpRandomUniform (-2.0) 2.0 (n_samples, d)) Returned;
    Ev (TorchFromNumpy X) Returned;
    Ev (TorchTensor l0 true) Returned ].

(** Counting calls in a log. *)
Definition is_divergence_call (ev : event) : bool :=
  match ev_call ev with DivergenceJR _ _ _ _ _ _ => true | _ => false end.

Definition is_step_call (ev : event) : bool :=
  match ev_call ev with OptimizerStep => true | _ => false end.

Definition count_calls (P : event -> bool) (lg : list event) : nat :=
  length (List.filter P lg).

(** The calls made between the construction of the optimizer and the
    return: the figure and the calls of the loop. *)
Definition is_loop_call (ev : event) : bool :=
  match ev_call ev with
  | PltSubplots | ZeroGrad | DivergenceJR _ _ _ _ _ _ | Backward
  | OptimizerStep | AxCla | AxPlot | PlotFrame => true
  | _ => false
  end.

(** Assumptions on the libraries, used where a statement needs them: the
    divergence, the plotting calls do not raise; the generator draws from
    [0, 1). *)
Definition divergence_total (sigma alpha : Q) (weighted : bool)
    (n_rff : option Z) : Prop :=
  forall Xd Yd s,
    is_ok (div_divergenceJR Xd Yd sigma alpha weighted n_rff s).2 = true.

Definition plotting_total (plot : bool) : Prop :=
  plot = true ->
  (forall s, is_ok (plt_subplots s).2 = true) /\
  (forall s, is_ok (plt_cla s).2 = true) /\
  (forall x y s, is_ok (plt_plot x y s).2 = true) /\
  (forall x y s, is_ok (plt_frame x y s).2 = true).


(** The candidate before the first iteration: it depends on the sample
    count, the width and the state of the global generator only. *)
Definition initial_candidate (n_samples : Z) (d : nat) (s : lib_state) : ndarray :=
  mk_ndarray Float64 d (draw_rows (-2.0) 2.0 (Z.to_nat n_samples) d s).2.

End Torch.

(** ** What a call of [JRD_sampling] is to do, stated on the libraries

    The documentation of the function, in terms of the library alone: the
    draws of the generator, the divergence and the update of Adam on one
    entry.  None of these definitions mentions the translation of the
    notebook; they are compared with it in [JRD_sampling_samples]. *)

(** A call that did not raise. *)
Definition returned (ev : event) : bool :=
  match ev_out ev with Raised _ => false | _ => true end.

(** A log that ends with a call that raised [e]. *)
Definition raised_last (e : exn) (evs : list event) : Prop :=
  exists pre c, evs = pre ++ [Ev c (Raised e)].

Section Sampling.
Context {L : Libs}.

(** What a piece of program does: from a state of the libraries, the calls
    it makes, the state it leaves and its result. *)
Definition behaviour (A : Type) : Type :=
  lib_state -> list event -> lib_state -> result A -> Prop.

(** The global generator after [k] draws, and its draw number [k], counted
    from 0. *)
Definition generator_after (k : nat) (s : lib_state) : lib_state :=
  Nat.iter k (fun s => (random_sample s).1) s.

Definition nth_draw (k : nat) (s : lib_state) : Q :=
  (random_sample (generator_after k s)).2.

(** [A] is an array of [n] rows and [d] columns drawn uniformly from
    [[low, high)] with the generator found in state [s]: its entries are, row
    after row, [low + (high - low) * u] for the successive draws [u]. *)
Definition uniform_draw (low high : Q) (n d : nat) (s : lib_state)
    (A : ndarray) : Prop :=
  dtype A = Float64 /\ ncols A = d /\ length (rows A) = n /\
  forall i, i < n ->
    exists r, rows A !! i = Some r /\ length r = d /\
      forall j, j < d ->
        r !! j = Some (low + (high - low) * nth_draw (i * d + j) s)%Q.

(** [B] is the float64 array [A] as a tensor of the floating point dtype
    [dt]: the same entries, rounded when [dt] is float32. *)
Definition as_floating (dt : np_dtype) (A B : ndarray) : Prop :=
  dtype B = dt /\ ncols B = ncols A /\
  Forall2 (Forall2 (fun a b =>
                      b = match dt with Float32 => as_float32 a | _ => a end))
    (rows A) (rows B).

(** The moment estimates Adam keeps for every entry of its parameter; those
    of the optimizer of the notebook, which are kept row by row. *)
Definition moments : Type := nat -> nat -> adam_cell.

Definition moments_of (st : list (list adam_cell)) : moments :=
  fun i j => default adam_cell0 (st !! i ≫= fun sr => sr !! j).

(** [Y'] is [Y] after step number [t] of Adam with the gradient [dY]: every
    entry went through the update of Adam, together with its moment
    estimates, and nothing else changed. *)
Definition adam_applied (lr : Q) (t : nat) (m m' : moments)
    (dY : nat -> nat -> Q) (Y Y' : ndarray) : Prop :=
  dtype Y' = dtype Y /\ ncols Y' = ncols Y /\
  length (rows Y') = length (rows Y) /\
  forall i r, rows Y !! i = Some r ->
    exists r', rows Y' !! i = Some r' /\ length r' = length r /\
      forall j y, r !! j = Some y ->
        exists y', r' !! j = Some y' /\
          adam_update lr t (m i j) y (dY i j) = (m' i j, y').

(** The redraw of the points [Xd] and of the candidate [Yd]: the axes are
    cleared, column 0 of [Xd] is plotted against its column 1, then column 0
    of [Yd] against its column 1, and the figure is displayed.  Points of
    less than two columns have no column 1, which raises [IndexError]; a
    library call that raises ends the redraw. *)
Inductive redraws (Xd Yd : ndarray) : behaviour unit :=
| redraws_cla_raised s s1 e :
    plt_cla s = (s1, Raise e) ->
    redraws Xd Yd s [Ev AxCla (Raised e)] s1 (Raise e)
| redraws_X_narrow s s1 u :
    plt_cla s = (s1, Ok u) ->
    ncols Xd < 2 ->
    redraws Xd Yd s [Ev AxCla Returned] s1 (Raise IndexError)
| redraws_plot_raised s s1 u x0 x1 s2 e :
    plt_cla s = (s1, Ok u) ->
    column_of 0 Xd = Ok x0 ->
    column_of 1 Xd = Ok x1 ->
    plt_plot x0 x1 s1 = (s2, Raise e) ->
    redraws Xd Yd s [Ev AxCla Returned; Ev AxPlot (Raised e)] s2 (Raise e)
| redraws_Y_narrow s s1 u x0 x1 s2 u' :
    plt_cla s = (s1, Ok u) ->
    column_of 0 Xd = Ok x0 ->
    column_of 1 Xd = Ok x1 ->
    plt_plot x0 x1 s1 = (s2, Ok u') ->
    ncols Yd < 2 ->
    redraws Xd Yd s [Ev AxCla Returned; Ev AxPlot Returned] s2
      (Raise IndexError)
| redraws_frame s s1 u x0 x1 s2 u' y0 y1 s3 r :
    plt_cla s = (s1, Ok u) ->
    column_of 0 Xd = Ok x0 ->
    column_of 1 Xd = Ok x1 ->
    plt_plot x0 x1 s1 = (s2, Ok u') ->
    column_of 0 Yd = Ok y0 ->
    column_of 1 Yd = Ok y1 ->
    plt_frame y0 y1 s2 = (s3, r) ->
    redraws Xd Yd s
      [Ev AxCla Returned; Ev AxPlot Returned; Ev PlotFrame (outcome_of r)]
      s3 r.

(** The redraw after a step, when frames are drawn. *)
Definition redrawn (plot : bool) (Xd Yd : ndarray) : behaviour unit :=
  fun s evs s' r =>
    if plot then redraws Xd Yd s evs s' r
    else s' = s /\ evs = [] /\ r = Ok tt.

(** [n] iterations of gradient descent on the divergence to [Xd], from the
    candidate [Y] after [t] steps of Adam with moment estimates [m]: every
    iteration resets the gradient, evaluates the divergence of the library
    at the current candidate, takes the derivative of the value with respect
    to the candidate, and applies one step of Adam to it.  It ends with the
    candidate [Y''], after the last iteration or when a call raised. *)
Inductive descends (Xd : ndarray) (sigma alpha lr : Q) (weighted : bool)
    (n_rff : option Z) (plot : bool)
    : nat -> nat -> moments -> ndarray ->
      lib_state -> list event -> lib_state -> ndarray -> result unit -> Prop :=
| descends_done t m Y s :
    descends Xd sigma alpha lr weighted n_rff plot 0 t m Y s [] s Y (Ok tt)
| descends_divergence_raised n t m Y s s1 e :
    div_divergenceJR Xd Y sigma alpha weighted n_rff s = (s1, Raise e) ->
    descends Xd sigma alpha lr weighted n_rff plot (S n) t m Y s
      [ Ev ZeroGrad Returned;
        Ev (DivergenceJR Xd Y sigma alpha weighted n_rff) (Raised e) ]
      s1 Y (Raise e)
| descends_redraw_raised n t m Y s s1 g m' Y' frame s2 e :
    div_divergenceJR Xd Y sigma alpha weighted n_rff s = (s1, Ok g) ->
    adam_applied lr (S t) m m' (djr_dY g) Y Y' ->
    redrawn plot Xd Y' s1 frame s2 (Raise e) ->
    descends Xd sigma alpha lr weighted n_rff plot (S n) t m Y s
      ([ Ev ZeroGrad Returned;
         Ev (DivergenceJR Xd Y sigma alpha weighted n_rff)
            (ReturnedValue (djr_value g));
         Ev Backward Returned;
         Ev OptimizerStep Returned ] ++ frame)
      s2 Y' (Raise e)
| descends_step n t m Y s s1 g m' Y' frame s2 evs s3 Y'' r :
    div_divergenceJR Xd Y sigma alpha weighted n_rff s = (s1, Ok g) ->
    adam_applied lr (S t) m m' (djr_dY g) Y Y' ->
    redrawn plot Xd Y' s1 frame s2 (Ok tt) ->
    descends Xd sigma alpha lr weighted n_rff plot n (S t) m' Y' s2 evs s3 Y'' r ->
    descends Xd sigma alpha lr weighted n_rff plot (S n) t m Y s
      ([ Ev ZeroGrad Returned;
         Ev (DivergenceJR Xd Y sigma alpha weighted n_rff)
            (ReturnedValue (djr_value g));
         Ev Backward Returned;
         Ev OptimizerStep Returned ] ++ frame ++ evs)
      s3 Y'' r.

(** The calls before the optimizer is built, with the outcome [o] of
    [torch.tensor]: the draw, kept at location [l0], and the view on [X]. *)
Definition sampling_setup (lX l0 : loc) (n_samples : Z) (d : nat) (o : outcome)
    : list event :=
  [ Ev (NpRandomUniform (-2.0) 2.0 (n_samples, d)) Returned;
    Ev (TorchFromNumpy lX) Returned;
    Ev (TorchTensor l0 true) o ].

(** The figure, when frames are drawn. *)
Definition figure (plot : bool) : behaviour unit :=
  fun s evs s' r =>
    if plot then plt_subplots s = (s', r) /\ evs = [Ev PltSubplots (outcome_of r)]
    else s' = s /\ evs = [] /\ r = Ok tt.

(** A call of [JRD_sampling] on the array [X], kept at location [lX], when
    the next free location is [l0]: a negative sample count raises at the
    draw; an [X] that is not of a floating point dtype raises at
    [torch.tensor]; the constructor of Adam, [plt.subplots] or a call of the
    descent may raise; otherwise the result is the candidate the descent
    ends with, of [n_iter] iterations from the draw. *)
Inductive samples (lX l0 : loc) (X : ndarray) (n_samples : Z)
    (sigma alpha lr : Q) (n_iter : Z) (weighted : bool) (n_rff : option Z)
    (plot : bool) : behaviour ndarray :=
| samples_negative s :
    (n_samples < 0)%Z ->
    samples lX l0 X n_samples sigma alpha lr n_iter weighted n_rff plot s
      [Ev (NpRandomUniform (-2.0) 2.0 (n_samples, ncols X)) (Raised ValueError)]
      s (Raise ValueError)
| samples_not_floating s :
    (0 <= n_samples)%Z ->
    is_floating_point (dtype X) = false ->
    samples lX l0 X n_samples sigma alpha lr n_iter weighted n_rff plot s
      (sampling_setup lX l0 n_samples (ncols X) (Raised RuntimeError))
      (generator_after (Z.to_nat n_samples * ncols X) s)
      (Raise RuntimeError)
| samples_adam_raised s e :
    (0 <= n_samples)%Z ->
    is_floating_point (dtype X) = true ->
    adam_check lr = Raise e ->
    samples lX l0 X n_samples sigma alpha lr n_iter weighted n_rff plot s
      (sampling_setup lX l0 n_samples (ncols X) Returned ++
       [Ev (OptimAdam [mk_tensor (S l0) true] lr) (Raised e)])
      (generator_after (Z.to_nat n_samples * ncols X) s)
      (Raise e)
| samples_figure_raised s fig s2 e :
    (0 <= n_samples)%Z ->
    is_floating_point (dtype X) = true ->
    adam_check lr = Ok tt ->
    figure plot (generator_after (Z.to_nat n_samples * ncols X) s) fig s2
      (Raise e) ->
    samples lX l0 X n_samples sigma alpha lr n_iter weighted n_rff plot s
      (sampling_setup lX l0 n_samples (ncols X) Returned ++
       Ev (OptimAdam [mk_tensor (S l0) true] lr) Returned :: fig)
      s2 (Raise e)
| samples_descent s Y_ Y0 fig s2 loop s3 Y r :
    (0 <= n_samples)%Z ->
    is_floating_point (dtype X) = true ->
    adam_check lr = Ok tt ->
    uniform_draw (-2.0) 2.0 (Z.to_nat n_samples) (ncols X) s Y_ ->
    as_floating (dtype X) Y_ Y0 ->
    figure plot (generator_after (Z.to_nat n_samples * ncols X) s) fig s2
      (Ok tt) ->
    descends X sigma alpha lr weighted n_rff plot (Z.to_nat n_iter) 0
      (fun _ _ => adam_cell0) Y0 s2 loop s3 Y r ->
    samples lX l0 X n_samples sigma alpha lr n_iter weighted n_rff plot s
      (sampling_setup lX l0 n_samples (ncols X) Returned ++
       Ev (OptimAdam [mk_tensor (S l0) true] lr) Returned :: fig ++ loop ++
       match r with
       | Ok _ => [Ev (DetachNumpy (S l0)) Returned]
       | Raise _ => []
       end)
      s3
      (match r with Ok _ => Ok Y | Raise e => Raise e end).

End Sampling.

(** ** pandas and numpy, as far as [load_dataset] uses them *)

(** The values of a column. *)
Definition col_values (c : column) : list pyobj :=
  match c with
  | IntCol v => map NpInt v
  | FloatCol v => map NpFloat v
  | ObjCol v => v
  end.

Definition col_numeric (c : column) : option (list Q) :=
  match c with
  | IntCol v => Some (map inject_Z v)
  | FloatCol v => Some v
  | ObjCol _ => None
  end.

(** The number of rows of a frame. *)
Definition df_nrows (df : DataFrame) : nat :=
  match df with
  | [] => O
  | c :: _ => length (col_values c)
  end.

(** [df._get_numeric_data()]: the columns of numeric dtype, as numbers. *)
Definition get_numeric_data (df : DataFrame) : list (list Q) :=
  omap col_numeric df.

(** The dtype of [df._get_numeric_data().to_numpy()]: int64 when there are
    numeric columns and all are of integers, float64 otherwise. *)
Definition is_float_column (c : column) : bool :=
  match c with FloatCol _ => true | _ => false end.

Definition is_int_column (c : column) : bool :=
  match c with IntCol _ => true | _ => false end.

Definition numeric_dtype (df : DataFrame) : np_dtype :=
  if existsb is_int_column df && negb (existsb is_float_column df)
  then Int64 else Float64.

(** [.to_numpy()] on [n] rows of numeric columns. *)
Definition to_numpy (dt : np_dtype) (n : nat) (cols : list (list Q)) : ndarray :=
  mk_ndarray dt (length cols)
    (map (fun i => map (fun c => default 0%Q (c !! i)) cols) (seq 0 n)).

(** [df._get_numeric_data().to_numpy()] *)
Definition numeric_array (df : DataFrame) : ndarray :=
  to_numpy (numeric_dtype df) (df_nrows df) (get_numeric_data df).

(** [df.iloc[:, -1].values]: the last column, one-dimensional; a frame
    without column has none. *)
Definition iloc_last (df : DataFrame) : result (list pyobj) :=
  match last df with
  | Some c => Ok (col_values c)
  | None => Raise IndexError
  end.

(** [df.iloc[:, -1:].values]: the slice of the last column, two-dimensional;
    slicing does not raise. *)
Definition iloc_last_slice (df : DataFrame) : list (list pyobj) :=
  match last df with
  | Some c => map (fun o => [o]) (col_values c)
  | None => []
  end.

Definition pyobj_is_str (s : string) (o : pyobj) : bool :=
  match o with
  | PStr s' => bool_decide (s' = s)
  | _ => false
  end.

(** [Y[Y == s] = z] on a one-dimensional and on a two-dimensional array. *)
Definition assign_where (s : string) (z : Z) (Y : list pyobj) : list pyobj :=
  map (fun o => if pyobj_is_str s o then PInt z else o) Y.

Definition assign_where2 (s : string) (z : Z) (Y : list (list pyobj))
    : list (list pyobj) :=
  map (assign_where s z) Y.

(** Python's [int(s)] on a string, which is what [astype(int)] applies to a
    string of an object array: surrounding white space is dropped, a sign may
    come first, then decimal digits, with single underscores allowed between
    digits.  Only ASCII is modelled. *)
Definition is_space (c : ascii) : bool :=
  let n := nat_of_ascii c in
  (n =? 32) || ((9 <=? n) && (n <=? 13)).

Definition digit_of (c : ascii) : option Z :=
  let n := nat_of_ascii c in
  if (48 <=? n) && (n <=? 57) then Some (Z.of_nat (n - 48)) else None.

Fixpoint parse_digits (acc : Z) (after_digit : bool) (cs : list ascii)
    : option Z :=
  match cs with
  | [] => if after_digit then Some acc else None
  | c :: cs' =>
      if bool_decide (c = "_"%char) then
        if after_digit then parse_digits acc false cs' else None
      else
        match digit_of c with
        | Some d => parse_digits (10 * acc + d) true cs'
        | None => None
        end
  end.

Fixpoint drop_spaces (cs : list ascii) : list ascii :=
  match cs with
  | c :: cs' => if is_space c then drop_spaces cs' else cs
  | [] => []
  end.

Definition strip (cs : list ascii) : list ascii :=
  reverse (drop_spaces (reverse (drop_spaces cs))).

Definition py_int (s : string) : option Z :=
  match strip (list_ascii_of_string s) with
  | "-"%char :: cs => Z.opp <$> parse_digits 0 false cs
  | "+"%char :: cs => parse_digits 0 false cs
  | cs => parse_digits 0 false cs
  end.

(** [astype(int)] converts to int64.  A Python integer out of its range
    raises [OverflowError]; a float64 out of its range becomes the least
    int64, as the conversion of the processor makes it on x86-64. *)
Definition in_int64 (z : Z) : bool :=
  (- 2 ^ 63 <=? z)%Z && (z <? 2 ^ 63)%Z.

Definition to_int64 (z : Z) : result Z :=
  if in_int64 z then Ok z else Raise OverflowError.

Definition truncate (q : Q) : Z := Z.quot (Qnum q) (Zpos (Qden q)).

Definition float_to_int64 (q : Q) : Z :=
  if in_int64 (truncate q) then truncate q else (- 2 ^ 63)%Z.

(** [astype(int)] on one element.  In an object array every element goes
    through [int], which keeps integers, truncates floats towards zero and
    reads strings, and the integer obtained must be an int64.  An int64
    array is left as it is, and a float64 array is truncated. *)
Definition astype_int (o : pyobj) : result Z :=
  match o with
  | PInt z => to_int64 z
  | PFloat q => to_int64 (truncate q)
  | PStr s => match py_int s with
              | Some z => to_int64 z
              | None => Raise ValueError
              end
  | NpInt z => Ok z
  | NpFloat q => Ok (float_to_int64 q)
  end.

Fixpoint astype_int1 (Y : list pyobj) : result (list Z) :=
  match Y with
  | [] => Ok []
  | o :: Y' =>
      match astype_int o with
      | Raise e => Raise e
      | Ok z => match astype_int1 Y' with
                | Raise e => Raise e
                | Ok zs => Ok (z :: zs)
                end
      end
  end.

Fixpoint astype_int2 (Y : list (list pyobj)) : result (list (list Z)) :=
  match Y with
  | [] => Ok []
  | r :: Y' =>
      match astype_int1 r with
      | Raise e => Raise e
      | Ok zs => match astype_int2 Y' with
                 | Raise e => Raise e
                 | Ok zss => Ok (zs :: zss)
                 end
      end
  end.

(** ** [load_dataset] *)

Section Loading.
Context {L : Libs}.

Definition train_file (dataset : string) (fold : Z) : string :=
  "./Imbalanced_data/" +:+ dataset +:+ "-5-" +:+ pretty fold +:+ "tra.dat".

Definition test_file (dataset : string) (fold : Z) : string :=
  "./Imbalanced_data/" +:+ dataset +:+ "-5-" +:+ pretty fold +:+ "tst.dat".

(** Returns [(Xtrain, Ytrain, Xtest, Ytest)]; [Ytrain] is one-dimensional and
    [Ytest] two-dimensional. *)
Definition load_dataset (dataset : string) (fold : Z)
    : M (ndarray * list Z * ndarray * list (list Z)) :=
  let ftrain := train_file dataset fold in
  let ftest := test_file dataset fold in
  df <- lib_call (PdReadTable ftrain) silent (pd_read_table ftrain) ;;
  dftest <- lib_call (PdReadTable ftest) silent (pd_read_table ftest) ;;
  let Xtrain := numeric_array df in
  Ytrain <- lift (iloc_last df) ;;
  let Ytrain := assign_where " positive" 1 Ytrain in
  let Ytrain := assign_where " negative" 0 Ytrain in
  let Xtest := numeric_array dftest in
  let Ytest := iloc_last_slice dftest in
  let Ytest := assign_where2 " positive" 1 Ytest in
  let Ytest := assign_where2 " negative" 0 Ytest in
  Ytrain_int <- lift (astype_int1 Ytrain) ;;
  Ytest_int <- lift (astype_int2 Ytest) ;;
  ret (Xtrain, Ytrain_int, Xtest, Ytest_int).

End Loading.

(** The label of one cell of the last column, as the documentation of the
    data words it: [' positive'] is 1, [' negative'] is 0; another string
    is the integer it is a literal of, which must be an int64, and is an
    error when it is no literal; a number is itself, truncated.  Compared
    with the two masked assignments and the conversion of the notebook in
    [relabel_label_of]. *)
Definition label_of (o : pyobj) : result Z :=
  match o with
  | PStr s =>
      if bool_decide (s = " positive") then Ok 1%Z
      else if bool_decide (s = " negative") then Ok 0%Z
      else match py_int s with
           | Some z => if in_int64 z then Ok z else Raise OverflowError
           | None => Raise ValueError
           end
  | PInt z => if in_int64 z then Ok z else Raise OverflowError
  | PFloat q =>
      if in_int64 (truncate q) then Ok (truncate q) else Raise OverflowError
  | NpInt z => Ok z
  | NpFloat q => Ok (float_to_int64 q)
  end.

Fixpoint labels_of (col : list pyobj) : result (list Z) :=
  match col with
  | [] => Ok []
  | o :: col' =>
      match label_of o with
      | Raise e => Raise e
      | Ok z => match labels_of col' with
                | Raise e => Raise e
                | Ok zs => Ok (z :: zs)
                end
      end
  end.

(** Why a label does not convert: a string that is no integer literal, or
    a Python integer, read or given, that is no int64. *)
Definition not_a_literal (o : pyobj) : Prop :=
  exists s, o = PStr s /\ s <> " positive" /\ s <> " negative" /\
            py_int s = None.

Definition beyond_int64 (o : pyobj) : Prop :=
  exists z, in_int64 z = false /\
    ((exists s, o = PStr s /\ s <> " positive" /\ s <> " negative" /\
                py_int s = Some z) \/
     o = PInt z \/
     (exists q, o = PFloat q /\ z = truncate q)).

(** A frame whose last column holds a label the notebook does not map. *)
Definition other_label_frame : DataFrame :=
  [ FloatCol [0.5; 1.5]%Q; ObjCol [PStr " positive"; PStr " 3"] ].

(** ** numpy, as far as [train_imbalanced] uses it *)

(** [np.zeros(n)] *)
Definition np_zeros (n : nat) : list Q := replicate n 0%Q.

(** [np.linspace(start, stop, num)]: [start + i * step] with
    [step = (stop - start) / (num - 1)], the first entry being [start] and,
    when there are two entries or more, the last being [stop]. *)
Definition np_linspace (start stop : Q) (num : nat) : list Q :=
  map (fun i =>
         if bool_decide (i = 0) then start
         else if bool_decide (S i = num) then stop
         else (start + inject_Z (Z.of_nat i) * ((stop - start) / inject_Z (Z.of_nat (num - 1))))%Q)
      (seq 0 num).

(** [np.bincount(y)]: negative entries raise [ValueError]. *)
Definition np_bincount (y : list Z) : result (list nat) :=
  if forallb (fun v => 0 <=? v)%Z y then
    Ok (map (fun v => length (List.filter (Z.eqb v) y))
          (seqZ 0 (foldr Z.max (-1)%Z y + 1)))
  else Raise ValueError.

(** [argmax] and [argmin]: the first index of an extremal entry; an empty
    array raises [ValueError]. *)
Fixpoint arg_best {A} (better : A -> A -> bool) (best : A) (ibest i : nat)
    (l : list A) : nat :=
  match l with
  | [] => ibest
  | x :: l' =>
      if better x best then arg_best better x i (S i) l'
      else arg_best better best ibest (S i) l'
  end.

Definition arg_first {A} (better : A -> A -> bool) (l : list A) : result nat :=
  match l with
  | [] => Raise ValueError
  | x :: l' => Ok (arg_best better x 0 1 l')
  end.

Definition Qltb (a b : Q) : bool := negb (Qle_bool b a).

Definition argmax_nat : list nat -> result nat := arg_first (fun x b => b <? x).
Definition argmin_nat : list nat -> result nat := arg_first (fun x b => x <? b).
Definition np_argmax : list Q -> result nat := arg_first (fun x b => Qltb b x).

(** [X[mask, :]]: the rows selected by a boolean mask, which must have one
    entry per row. *)
Definition mask_rows (X : ndarray) (mask : list bool) : result ndarray :=
  if length mask =? nrows X then
    Ok (mk_ndarray (dtype X) (ncols X)
          (map snd (List.filter fst (zip mask (rows X)))))
  else Raise IndexError.

(** The dtype of an array put together from arrays of two dtypes. *)
Definition result_type (a b : np_dtype) : np_dtype :=
  match a, b with
  | Int64, Int64 => Int64
  | Float32, Float32 => Float32
  | _, _ => Float64
  end.

(** [np.concatenate((A, B), axis = 0)]: the widths must agree. *)
Definition np_concatenate (A B : ndarray) : result ndarray :=
  if ncols A =? ncols B then
    Ok (mk_ndarray (result_type (dtype A) (dtype B)) (ncols A) (rows A ++ rows B))
  else Raise ValueError.

(** [a[i] = v] and [a[i]] *)
Definition np_setitem (a : list Q) (i : nat) (v : Q) : result (list Q) :=
  if i <? length a then Ok (<[i := v]> a) else Raise IndexError.

Definition np_getitem (a : list Q) (i : nat) : result Q :=
  match a !! i with
  | Some v => Ok v
  | None => Raise IndexError
  end.

(** The number of entries of an integer label array equal to a label. *)
Definition count_class (l : Z) (y : list Z) : nat :=
  length (List.filter (Z.eqb l) y).

(** The [i]-th of the 7 bandwidths of the grid search, and the [gamma] of the
    radial kernel of a bandwidth. *)
Definition grid_bandwidth (s0 : Q) (i : nat) : Q :=
  0.01 * s0 + inject_Z (Z.of_nat i) * ((3 * s0 - 0.01 * s0) / 6).

Definition gamma_of (x : Q) : Q := 1 / (2 * x ^ 2).

(** ** [train_imbalanced] *)

Section Pipeline.
Context {L : Libs}.

(** A call of [JRD_sampling] on a numpy array.  The arrays of
    [train_imbalanced] are never written to after they are built, so they
    are values here; the argument is put in the store for the call and the
    result is read from it. *)
Definition JRD_sampling_np (X : ndarray) (n_samples : Z) (sigma alpha lr : Q)
    (n_iter : Z) (weighted : bool) (n_rff : option Z) (plot : bool) : M ndarray :=
  lX <- alloc (mk_cell X None) ;;
  lY <- JRD_sampling lX n_samples sigma alpha lr n_iter weighted n_rff plot ;;
  cY <- load lY ;;
  ret (c_data cY).

(** The training set: the subsampled majority class followed by the
    minority class, and its labels. *)
Definition training_labels (maj_label min_label : Z) (Xsub Xmin : ndarray)
    : list Q :=
  replicate (nrows Xsub) (inject_Z maj_label) ++
  replicate (nrows Xmin) (inject_Z min_label).

(** Grid search of [C] and [gamma], then the SVM with the best parameters.
    The notebook has this block twice, in the nested loop and after it. *)
Definition tune_and_fit (st : site) (Xsub Xtr : ndarray) (ytr : list Q) : M SVC :=
  let C_range := np_logspace 0 3 7 in
  D <- lib_call (PairwiseDistances Xsub) silent (pairwise_distances Xsub) ;;
  let s0 := np_nanmedian D in
  let gamma_range :=
    map (fun x => (1 / (2 * x ^ 2))%Q) (np_linspace (0.01 * s0) (3 * s0) 7) in
  best <- lib_call (GridSearchFit st Xtr ytr gamma_range C_range) silent
            (grid_search_fit gamma_range C_range Xtr ytr) ;;
  lib_call (SVCFit st Xtr ytr best.1 best.2) silent
    (svc_fit best.1 best.2 Xtr ytr).

(** [roc_auc_score(y, clf.predict_proba(X)[:, 1])] *)
Definition score (st : site) (clf : SVC) (X : ndarray) (y : intarray) : M Q :=
  P <- lib_call (PredictProba st X) silent (svc_predict_proba clf X) ;;
  p1 <- lift (column_of 1 P) ;;
  lib_call (RocAucScore st y p1) ReturnedValue (roc_auc_score y p1).

(** The body of [for i, sigma in enumerate(sigmas)]. *)
Definition nested_candidate (maj_label min_label : Z) (alpha : Q)
    (n_rff : option Z) (Xmaj_cv Xmin_cv Xtest_ : ndarray) (Ytest_ : list Z)
    (i_sigma : nat * Q) (AUC_cv : list Q) : M (list Q) :=
  let i := i_sigma.1 in
  let sigma := i_sigma.2 in
  Xmaj_cv_ <- JRD_sampling_np Xmaj_cv (Z.of_nat (nrows Xmin_cv)) sigma alpha 0.1
                default_n_iter true n_rff default_plot ;;
  Xtrain_cv <- lift (np_concatenate Xmaj_cv_ Xmin_cv) ;;
  let Ytrain_cv := training_labels maj_label min_label Xmaj_cv_ Xmin_cv in
  clf <- tune_and_fit Nested Xmaj_cv_ Xtrain_cv Ytrain_cv ;;
  try_except_ValueError
    (v <- score Nested clf Xtest_ (Int1 Ytest_) ;;
     lift (np_setitem AUC_cv i v))
    (ret AUC_cv).

(** The nested cross-validation of one fold: the candidate bandwidths and
    their scores. *)
Definition nested_cv (maj_label min_label : Z) (alpha : Q) (n_sigmas : nat)
    (n_rff : option Z) (Xtrain : ndarray) (Ytrain : list Z)
    : M (list Q * list Q) :=
  split <- lib_call (TrainTestSplit Xtrain Ytrain 0.25 42) silent
             (train_test_split Xtrain Ytrain 0.25 42) ;;
  let '(Xtrain_, Xtest_, Ytrain_, Ytest_) := split in
  Xmaj_cv <- lift (mask_rows Xtrain_ (map (Z.eqb maj_label) Ytrain_)) ;;
  Xmin_cv <- lift (mask_rows Xtrain_ (map (Z.eqb min_label) Ytrain_)) ;;
  D <- lib_call (PairwiseDistances Xmaj_cv) silent (pairwise_distances Xmaj_cv) ;;
  let sigma0 := np_nanmedian D in
  let sigmas := np_linspace (0.01 * sigma0) (3 * sigma0) n_sigmas in
  let AUC_cv := np_zeros (length sigmas) in
  AUC_cv <- for_each (imap pair sigmas)
              (nested_candidate maj_label min_label alpha n_rff
                 Xmaj_cv Xmin_cv Xtest_ Ytest_)
              AUC_cv ;;
  ret (sigmas, AUC_cv).

(** The bandwidth of a fold: [sigmas[np.argmax(AUC_cv)]]. *)
Definition select_sigma (maj_label min_label : Z) (alpha : Q) (n_sigmas : nat)
    (n_rff : option Z) (Xtrain : ndarray) (Ytrain : list Z) : M Q :=
  cv <- nested_cv maj_label min_label alpha n_sigmas n_rff Xtrain Ytrain ;;
  let sigmas := cv.1 in
  let AUC_cv := cv.2 in
  best <- lift (np_argmax AUC_cv) ;;
  lift (np_getitem sigmas best).

(** The body of [for fold in range(1, 6)]. *)
Definition train_fold (dataset : string) (n_rff : option Z) (alpha : Q)
    (n_sigmas : nat) (fold : Z) (AUC : list Q) : M (list Q) :=
  emit (Print ("Processing Fold " +:+ pretty fold)) Returned ;;;
  data <- load_dataset dataset fold ;;
  let '(Xtrain, Ytrain, Xtest, Ytest) := data in
  fitted <- lib_call (ScalerFitTransform Xtrain) silent
              (scaler_fit_transform Xtrain) ;;
  let scaler := fitted.1 in
  let Xtrain := fitted.2 in
  Xtest <- lib_call (ScalerTransform Xtest) silent
             (scaler_transform scaler Xtest) ;;
  counts <- lift (np_bincount Ytrain) ;;
  maj <- lift (argmax_nat counts) ;;
  counts <- lift (np_bincount Ytrain) ;;
  min <- lift (argmin_nat counts) ;;
  let maj_label := Z.of_nat maj in
  let min_label := Z.of_nat min in
  Xmaj <- lift (mask_rows Xtrain (map (Z.eqb maj_label) Ytrain)) ;;
  Xmin <- lift (mask_rows Xtrain (map (Z.eqb min_label) Ytrain)) ;;
  sigma <- select_sigma maj_label min_label alpha n_sigmas n_rff Xtrain Ytrain ;;
  Xmaj_ <- JRD_sampling_np Xmaj (Z.of_nat (nrows Xmin)) sigma alpha 0.1
             default_n_iter true n_rff default_plot ;;
  Xtrain_ <- lift (np_concatenate Xmaj_ Xmin) ;;
  let Ytrain_ := training_labels maj_label min_label Xmaj_ Xmin in
  clf <- tune_and_fit Final Xmaj_ Xtrain_ Ytrain_ ;;
  v <- score Final clf Xtest (Int2 Ytest) ;;
  lift (np_setitem AUC (Z.to_nat (fold - 1)) v).

Definition train_imbalanced (dataset : string) (n_rff : option Z) : M (list Q) :=
  emit (Print ("Processing " +:+ dataset +:+ " dataset ")) Returned ;;;
  let AUC := np_zeros 5 in
  let alpha := 1.01%Q in
  let n_sigmas := 10 in
  AUC <- for_each (seqZ 1 5) (train_fold dataset n_rff alpha n_sigmas) AUC ;;
  emit (Print (dataset +:+ " was processed")) Returned ;;;
  ret AUC.

End Pipeline.

(** ** Reading the log *)

Section Traces.
Context {L : Libs}.

(** [traces m Q]: whatever the world, [m] only appends to the log, and the
    calls it appends and its result satisfy [Q]. *)
Definition traces {A} (m : M A) (Q : list event -> result A -> Prop) : Prop :=
  forall w, exists evs, w_log (m w).1 = w_log w ++ evs /\ Q evs (m w).2.

(** The calls whose [ValueError] the notebook catches: the two library calls
    of the statement inside [try], in the nested loop. *)
Definition is_guarded (ev : event) : bool :=
  match ev with
  | Ev (PredictProba Nested _) (Raised ValueError) => true
  | Ev (RocAucScore Nested _ _) (Raised ValueError) => true
  | _ => false
  end.

(** A call that did not raise, or whose exception was caught. *)
Definition quiet (ev : event) : bool :=
  match ev_out ev with
  | Raised _ => is_guarded ev
  | _ => true
  end.

(** How exceptions relate to results: a run that returns has only quiet
    calls; a run that raises [e] because a library call raised has that call
    last, raising [e], after quiet calls only. *)
Definition disciplined {A} (evs : list event) (r : result A) : Prop :=
  match r with
  | Ok _ => Forall (fun ev => quiet ev = true) evs
  | Raise e =>
      Forall (fun ev => quiet ev = true) evs \/
      exists pre c, evs = pre ++ [Ev c (Raised e)] /\
                    Forall (fun ev => quiet ev = true) pre
  end.

#[global] Arguments disciplined : simpl never.

(** A program all of whose runs are disciplined. *)
Definition sound {A} (m : M A) : Prop := traces m disciplined.

(** [emits P m R]: every call [m] makes satisfies [P], and a value it returns
    satisfies [R].  [total m R]: [m] returns, and its value satisfies [R]. *)
Definition emits {A} (P : event -> Prop) (m : M A) (R : A -> Prop) : Prop :=
  traces m (fun evs r => Forall P evs /\ forall a, r = Ok a -> R a).

Definition total {A} (m : M A) (R : A -> Prop) : Prop :=
  traces m (fun _ r => exists a, r = Ok a /\ R a).

(** A call that is of the guarded kind if it raises [ValueError]. *)
Definition guardable (ev : event) : Prop :=
  ev_out ev = Raised ValueError -> is_guarded ev = true.

(** Every evaluation of the divergence in a log is on the point set [Xd],
    with the given bandwidth, order, weighting and feature count. *)
Definition divergence_on (Xd : ndarray) (sigma alpha : Q) (weighted : bool)
    (n_rff : option Z) (ev : event) : Prop :=
  forall X' Y' s' a' w' n',
    ev_call ev = DivergenceJR X' Y' s' a' w' n' ->
    X' = Xd /\ s' = sigma /\ a' = alpha /\ w' = weighted /\ n' = n_rff.

(** The calls of [JRD_sampling]. *)
Definition is_jrd_call (ev : event) : bool :=
  match ev_call ev with
  | NpRandomUniform _ _ _ | TorchFromNumpy _ | TorchTensor _ _ | OptimAdam _ _
  | DetachNumpy _ => true
  | _ => is_loop_call ev
  end.

(** The number of entries of a label array equal to a label. *)
Definition count_label (l : Z) (y : list Q) : nat :=
  length (List.filter (Qeq_bool (inject_Z l)) y).

(** A call that fits a model ([grid.fit] or [clf.fit]) on [(X, y)]. *)
Definition fit_call (ev : event) (X : ndarray) (y : list Q) : Prop :=
  (exists st g C, ev_call ev = GridSearchFit st X y g C) \/
  (exists st C g, ev_call ev = SVCFit st X y C g).

(** The calls of [JRD_sampling] on the array [X]: they are jrd calls, the
    exception of a call that raised is the result, every divergence is
    evaluated on [X] with the arguments of the call, and the array returned
    has [n_samples] rows. *)
Definition JRD_post (X : ndarray) (n_samples : Z) (sigma alpha : Q)
    (weighted : bool) (n_rff : option Z)
    (evs : list event) (r : result ndarray) : Prop :=
  Forall (fun ev => is_jrd_call ev = true) evs /\
  disciplined evs r /\
  Forall (divergence_on X sigma alpha weighted n_rff) evs /\
  (forall Y, r = Ok Y ->
     shape Y = (Z.to_nat n_samples, ncols X) /\ wf_ndarray Y).

(** *** What [train_imbalanced] is to do, stated on the libraries

    The steps of a fold as the documentation words them, from the state of
    the libraries before a step to the state after it, with the calls made
    in between.  The arrays are characterised by their entries; none of
    these definitions mentions the translation of the notebook, with which
    they are compared in [train_fold_runs]. *)

(** [runs m B]: whatever the world, [m] only appends to the log, and the
    state of the libraries it starts from, the calls it appends, the state
    it leaves and its result satisfy [B]. *)
Definition runs_from {A} (s : lib_state) (m : M A)
    (Q : list event -> lib_state -> result A -> Prop) : Prop :=
  forall w, w_lib w = s ->
    exists evs, w_log (m w).1 = w_log w ++ evs /\ Q evs (w_lib (m w).1) (m w).2.

Definition runs {A} (m : M A) (B : behaviour A) : Prop :=
  forall s, runs_from s m (B s).

(** A call of [JRD_sampling] on an array, wherever it is kept. *)
Definition sampling (X : ndarray) (n_samples : Z) (sigma alpha lr : Q)
    (n_iter : Z) (weighted : bool) (n_rff : option Z) (plot : bool)
    : behaviour ndarray :=
  fun s evs s' r =>
    exists lX l0,
      samples lX l0 X n_samples sigma alpha lr n_iter weighted n_rff plot
        s evs s' r.

(** The labels of a frame: those of its last column. *)
Definition frame_labels (df : DataFrame) (y : list Z) : Prop :=
  exists c, last df = Some c /\ labels_of (col_values c) = Ok y.

(** The majority label of [np.bincount(y).argmax()]: the least label of
    maximal count.  The minority label of [np.bincount(y).argmin()]: the
    least integer between 0 and the largest label whose count is minimal;
    it need not occur in [y].  The labels are not negative. *)
Definition majority_label (y : list Z) (l : Z) : Prop :=
  Forall (fun v => (0 <= v)%Z) y /\
  0 < count_class l y /\
  (forall l', count_class l' y <= count_class l y) /\
  (forall l', (0 <= l' < l)%Z -> count_class l' y < count_class l y).

Definition minority_label (y : list Z) (l : Z) : Prop :=
  (0 <= l)%Z /\
  (exists m, m ∈ y /\ (l <= m)%Z) /\
  (forall l' m, m ∈ y -> (0 <= l' <= m)%Z ->
     count_class l y <= count_class l' y) /\
  (forall l', (0 <= l' < l)%Z -> count_class l y < count_class l' y).

(** [Xl] is [X[y == l, :]]: the rows of [X] whose label is [l], in the order
    they have in [X]. *)
Definition class_rows (l : Z) (X : ndarray) (y : list Z) (Xl : ndarray) : Prop :=
  dtype Xl = dtype X /\ ncols Xl = ncols X /\ length y = nrows X /\
  rows Xl = omap (fun p : Z * list Q =>
                    if bool_decide (p.1 = l) then Some p.2 else None)
              (zip y (rows X)).

(** [(X, y)] is the training set made of the subsample [Xsub] followed by
    the minority rows [Xmin], labelled [maj_label] and [min_label]. *)
Definition training_set (maj_label min_label : Z) (Xsub Xmin X : ndarray)
    (y : list Q) : Prop :=
  dtype X = dtype Xmin /\ ncols X = ncols Xmin /\
  rows X = rows Xsub ++ rows Xmin /\
  y = replicate (nrows Xsub) (inject_Z maj_label) ++
      replicate (nrows Xmin) (inject_Z min_label).

(** Where a fit is made: in the nested loop or after it. *)
Definition fit_site (ev : event) : site :=
  match ev_call ev with
  | GridSearchFit st _ _ _ _ | SVCFit st _ _ _ _ => st
  | _ => Final
  end.

(** The training set of a fit of [train_imbalanced(dataset, n_rff)] is
    balanced.  With [Xtrain] the normalized features of the training file
    of a fold, [Ytrain] its labels, and [(Xtr, ytr)] all of them for the
    final model of the fold and the training part of their inner split for
    a model of the nested cross-validation: the training set is a
    subsample, returned by a [JRD_sampling] on the rows of [Xtr] of the
    majority label with as many samples as there are rows of the minority
    label, followed by these rows; the labels are the majority label for
    the former and the minority label for the latter.  Both occur equally
    often; when the two labels differ, each as often as there are minority
    rows, and when they are the same there is one label only. *)
Definition balanced_fit (dataset : string) (n_rff : option Z) (alpha : Q)
    (ev : event) : Prop :=
  forall X y, fit_call ev X y ->
  exists (fold : Z) (df : DataFrame) (scaler : StandardScaler)
         (Xtrain : ndarray) (Ytrain : list Z) (maj_label min_label : Z)
         (Xtr : ndarray) (ytr : list Z) (Xmaj Xmin Xsub : ndarray) (sigma : Q),
    (exists s, (pd_read_table
                 ("./Imbalanced_data/" +:+ dataset +:+ "-5-" +:+ pretty fold +:+ "tra.dat") s).2
               = Ok df) /\
    frame_labels df Ytrain /\
    (exists s, (scaler_fit_transform (numeric_array df) s).2
               = Ok (scaler, Xtrain)) /\
    majority_label Ytrain maj_label /\
    minority_label Ytrain min_label /\
    match fit_site ev with
    | Final => Xtr = Xtrain /\ ytr = Ytrain
    | Nested =>
        exists s Xte yte,
          (train_test_split Xtrain Ytrain 0.25 42 s).2 = Ok (Xtr, Xte, ytr, yte)
    end /\
    class_rows maj_label Xtr ytr Xmaj /\
    class_rows min_label Xtr ytr Xmin /\
    (exists s evs s',
       sampling Xmaj (Z.of_nat (nrows Xmin)) sigma alpha 0.1 120
         true n_rff false s evs s' (Ok Xsub)) /\
    nrows Xsub = nrows Xmin /\
    training_set maj_label min_label Xsub Xmin X y /\
    count_label maj_label y = count_label min_label y /\
    (maj_label <> min_label ->
     count_label maj_label y = nrows Xmin /\
     count_label min_label y = nrows Xmin) /\
    (maj_label = min_label ->
     y = replicate (2 * nrows Xmin) (inject_Z maj_label)).

(** The [gamma] of the grid search, for the median [s0] of the distances:
    those of 7 bandwidths linearly spaced between [0.01 * s0] and
    [3 * s0]. *)
Definition grid_of (s0 : Q) (gamma_range : list Q) : Prop :=
  length gamma_range = 7 /\
  forall i g, gamma_range !! i = Some g ->
    (g == gamma_of (grid_bandwidth s0 i))%Q.

(** The grid search on the training set [(Xtr, ytr)] and the fit of the SVM
    with the parameters it found, which makes [clf]. *)
Definition fits (st : site) (Xsub Xtr : ndarray) (ytr : list Q) (clf : SVC)
    (s : lib_state) (evs : list event) (s' : lib_state) : Prop :=
  exists D gamma_range best s1 s2,
    pairwise_distances Xsub s = (s1, Ok D) /\
    grid_of (np_nanmedian D) gamma_range /\
    grid_search_fit gamma_range (np_logspace 0 3 7) Xtr ytr s1 = (s2, Ok best) /\
    svc_fit best.1 best.2 Xtr ytr s2 = (s', Ok clf) /\
    evs = [ Ev (PairwiseDistances Xsub) Returned;
            Ev (GridSearchFit st Xtr ytr gamma_range (np_logspace 0 3 7)) Returned;
            Ev (SVCFit st Xtr ytr best.1 best.2) Returned ].

(** [p1] is [P[:, 1]]. *)
Definition second_column (P : ndarray) (p1 : list Q) : Prop :=
  Forall2 (fun r p => p = default 0%Q (r !! 1)) (rows P) p1.

(** The AUC of [clf] on [(X, y)]: [roc_auc_score] on the second column of
    the probabilities [clf] predicts for [X].  Either library may raise,
    and a probability array without second column raises [IndexError]. *)
Inductive scored (st : site) (clf : SVC) (X : ndarray) (y : intarray)
    : behaviour Q :=
| scored_proba_raised s s1 e :
    svc_predict_proba clf X s = (s1, Raise e) ->
    scored st clf X y s [Ev (PredictProba st X) (Raised e)] s1 (Raise e)
| scored_one_column s s1 P :
    svc_predict_proba clf X s = (s1, Ok P) ->
    ncols P < 2 ->
    scored st clf X y s [Ev (PredictProba st X) Returned] s1 (Raise IndexError)
| scored_auc s s1 P p1 s2 r :
    svc_predict_proba clf X s = (s1, Ok P) ->
    2 <= ncols P ->
    second_column P p1 ->
    roc_auc_score y p1 s1 = (s2, r) ->
    scored st clf X y s
      [ Ev (PredictProba st X) Returned;
        Ev (RocAucScore st y p1)
           (match r with Ok v => ReturnedValue v | Raise e => Raised e end) ]
      s2 r.

(** One candidate [sigma] of the nested cross-validation, which gets the
    score [a]: the majority rows of the inner training part are subsampled
    with [sigma] to as many points as there are minority rows, a model is
    fitted on the training set made of the subsample and the minority rows,
    and its AUC on the inner test part is the score; the score is 0 when
    this last step raised [ValueError]. *)
Definition candidate_run (maj_label min_label : Z) (alpha : Q)
    (n_rff : option Z) (Xmaj_cv Xmin_cv Xtest_ : ndarray) (Ytest_ : list Z)
    (sigma a : Q) (s : lib_state) (evs : list event) (s' : lib_state) : Prop :=
  exists Xsub Xtr ytr clf s1 s2 ev_s ev_f ev_a r,
    sampling Xmaj_cv (Z.of_nat (nrows Xmin_cv)) sigma alpha 0.1 120
      true n_rff false s ev_s s1 (Ok Xsub) /\
    training_set maj_label min_label Xsub Xmin_cv Xtr ytr /\
    fits Nested Xsub Xtr ytr clf s1 ev_f s2 /\
    scored Nested clf Xtest_ (Int1 Ytest_) s2 ev_a s' r /\
    (r = Ok a \/ (r = Raise ValueError /\ a = 0%Q)) /\
    evs = ev_s ++ ev_f ++ ev_a.

(** The candidates, one after the other, and their scores. *)
Fixpoint candidates_run (maj_label min_label : Z) (alpha : Q)
    (n_rff : option Z) (Xmaj_cv Xmin_cv Xtest_ : ndarray) (Ytest_ : list Z)
    (sigmas scores : list Q) (s : lib_state) (evs : list event)
    (s' : lib_state) : Prop :=
  match sigmas, scores with
  | [], [] => evs = [] /\ s' = s
  | sigma :: sigmas', a :: scores' =>
      exists s1 ev1 ev2,
        candidate_run maj_label min_label alpha n_rff Xmaj_cv Xmin_cv Xtest_
          Ytest_ sigma a s ev1 s1 /\
        candidates_run maj_label min_label alpha n_rff Xmaj_cv Xmin_cv Xtest_
          Ytest_ sigmas' scores' s1 ev2 s' /\
        evs = ev1 ++ ev2
  | _, _ => False
  end.

(** [num] values linearly spaced from [start] to [stop]. *)
Definition linearly_spaced (start stop : Q) (num : nat) (l : list Q) : Prop :=
  length l = num /\
  forall i x, l !! i = Some x ->
    (x == start + inject_Z (Z.of_nat i) *
                  ((stop - start) / inject_Z (Z.of_nat (num - 1))))%Q.

(** [k] is the first index of a maximal entry of [a]. *)
Definition first_maximum (a : list Q) (k : nat) : Prop :=
  exists m, a !! k = Some m /\
    forall j v, a !! j = Some v -> (v <= m)%Q /\ (j < k -> (v < m)%Q).

(** One fold that returned, turning [AUC] into [AUC']: its data, its calls
    in the order they were made, and the states of the libraries between
    its steps. *)
Record fold_data := mk_fold_data {
  fd_df : DataFrame;     fd_dftest : DataFrame;
  fd_Xtrain0 : ndarray;  fd_Ytrain : list Z;
  fd_Xtest0 : ndarray;   fd_Ytest : list (list Z);
  fd_scaler : StandardScaler;
  fd_Xtrain : ndarray;   fd_Xtest : ndarray;
  fd_maj : nat;          fd_min : nat;
  fd_Xmaj : ndarray;     fd_Xmin : ndarray;
  fd_split : ndarray * ndarray * list Z * list Z;
  fd_Xmaj_cv : ndarray;  fd_Xmin_cv : ndarray;
  fd_D : ndarray;
  fd_sigmas : list Q;    fd_AUC_cv : list Q;
  fd_sigma : Q;
  fd_Xmaj_ : ndarray;    fd_Xtrain_ : ndarray;   fd_Ytrain_ : list Q;
  fd_clf : SVC;
  fd_auc : Q;
  fd_load : list event;      fd_normalize : list event;
  fd_nested : list event;    fd_subsample : list event;
  fd_fit : list event;       fd_score : list event;
  fd_start : lib_state;      fd_loaded : lib_state;
  fd_normalized : lib_state; fd_selected : lib_state;
  fd_subsampled : lib_state; fd_fitted : lib_state;
  fd_end : lib_state
}.

(** The selection of the bandwidth of a fold by nested cross-validation:
    the inner split of the training data, the distances [D] of the majority
    rows of its training part, the candidates, linearly spaced between
    [0.01 * sigma0] and [3 * sigma0] for the median [sigma0] of [D], their
    scores, and the candidate selected, at the first index of a maximal
    score. *)
Definition selection (maj_label min_label : Z) (alpha : Q) (n_sigmas : nat)
    (n_rff : option Z) (d : fold_data) : Prop :=
  let '(Xtrain_, Xtest_, Ytrain_, Ytest_) := fd_split d in
  let sigma0 := np_nanmedian (fd_D d) in
  exists s1 s2 ev_candidates k,
    train_test_split (fd_Xtrain d) (fd_Ytrain d) 0.25 42 (fd_normalized d)
    = (s1, Ok (fd_split d)) /\
    class_rows maj_label Xtrain_ Ytrain_ (fd_Xmaj_cv d) /\
    class_rows min_label Xtrain_ Ytrain_ (fd_Xmin_cv d) /\
    pairwise_distances (fd_Xmaj_cv d) s1 = (s2, Ok (fd_D d)) /\
    linearly_spaced (0.01 * sigma0) (3 * sigma0) n_sigmas (fd_sigmas d) /\
    candidates_run maj_label min_label alpha n_rff (fd_Xmaj_cv d)
      (fd_Xmin_cv d) Xtest_ Ytest_ (fd_sigmas d) (fd_AUC_cv d) s2
      ev_candidates (fd_selected d) /\
    first_maximum (fd_AUC_cv d) k /\
    fd_sigmas d !! k = Some (fd_sigma d) /\
    fd_nested d =
      Ev (TrainTestSplit (fd_Xtrain d) (fd_Ytrain d) 0.25 42) Returned ::
      Ev (PairwiseDistances (fd_Xmaj_cv d)) Returned :: ev_candidates.

Definition fold_calls (dataset : string) (n_rff : option Z) (alpha : Q)
    (n_sigmas : nat) (fold : Z) (AUC : list Q) (d : fold_data)
    (evs : list event) (AUC' : list Q) : Prop :=
  let maj_label := Z.of_nat (fd_maj d) in
  let min_label := Z.of_nat (fd_min d) in
  evs = Ev (Print ("Processing Fold " +:+ pretty fold)) Returned ::
        fd_load d ++ fd_normalize d ++ fd_nested d ++ fd_subsample d ++
        fd_fit d ++ fd_score d /\
  (* load the two files of the fold *)
  (exists s1,
     pd_read_table
       ("./Imbalanced_data/" +:+ dataset +:+ "-5-" +:+ pretty fold +:+ "tra.dat")
       (fd_start d) = (s1, Ok (fd_df d)) /\
     pd_read_table
       ("./Imbalanced_data/" +:+ dataset +:+ "-5-" +:+ pretty fold +:+ "tst.dat")
       s1 = (fd_loaded d, Ok (fd_dftest d))) /\
  fd_load d =
    [ Ev (PdReadTable ("./Imbalanced_data/" +:+ dataset +:+ "-5-" +:+
                       pretty fold +:+ "tra.dat")) Returned;
      Ev (PdReadTable ("./Imbalanced_data/" +:+ dataset +:+ "-5-" +:+
                       pretty fold +:+ "tst.dat")) Returned ] /\
  fd_Xtrain0 d = numeric_array (fd_df d) /\
  frame_labels (fd_df d) (fd_Ytrain d) /\
  fd_Xtest0 d = numeric_array (fd_dftest d) /\
  (exists Ytest,
     labels_of (from_option col_values [] (last (fd_dftest d))) = Ok Ytest /\
     fd_Ytest d = map (fun z => [z]) Ytest) /\
  (* standard-normalize *)
  (exists s1,
     scaler_fit_transform (fd_Xtrain0 d) (fd_loaded d)
     = (s1, Ok (fd_scaler d, fd_Xtrain d)) /\
     scaler_transform (fd_scaler d) (fd_Xtest0 d) s1
     = (fd_normalized d, Ok (fd_Xtest d))) /\
  fd_normalize d = [ Ev (ScalerFitTransform (fd_Xtrain0 d)) Returned;
                     Ev (ScalerTransform (fd_Xtest0 d)) Returned ] /\
  (* the majority and the minority class *)
  majority_label (fd_Ytrain d) maj_label /\
  minority_label (fd_Ytrain d) min_label /\
  class_rows maj_label (fd_Xtrain d) (fd_Ytrain d) (fd_Xmaj d) /\
  class_rows min_label (fd_Xtrain d) (fd_Ytrain d) (fd_Xmin d) /\
  (* sigma by nested cross-validation *)
  selection maj_label min_label alpha n_sigmas n_rff d /\
  (* subsampling of the majority class with that sigma *)
  sampling (fd_Xmaj d) (Z.of_nat (nrows (fd_Xmin d))) (fd_sigma d) alpha 0.1
    120 true n_rff false
    (fd_selected d) (fd_subsample d) (fd_subsampled d) (Ok (fd_Xmaj_ d)) /\
  training_set maj_label min_label (fd_Xmaj_ d) (fd_Xmin d) (fd_Xtrain_ d)
    (fd_Ytrain_ d) /\
  (* grid search and training *)
  fits Final (fd_Xmaj_ d) (fd_Xtrain_ d) (fd_Ytrain_ d) (fd_clf d)
    (fd_subsampled d) (fd_fit d) (fd_fitted d) /\
  (* the AUC on the test set, stored at index fold - 1 *)
  scored Final (fd_clf d) (fd_Xtest d) (Int2 (fd_Ytest d))
    (fd_fitted d) (fd_score d) (fd_end d) (Ok (fd_auc d)) /\
  Z.to_nat (fold - 1) < length AUC /\
  AUC' = <[Z.to_nat (fold - 1) := fd_auc d]> AUC.

(** A sequence of folds that returned, from the state [s] of the libraries
    to the state [s']. *)
Fixpoint folds_calls (dataset : string) (n_rff : option Z) (alpha : Q)
    (n_sigmas : nat) (folds : list Z) (AUC : list Q) (ds : list fold_data)
    (s : lib_state) (evs : list event) (s' : lib_state) (AUC' : list Q)
    : Prop :=
  match folds, ds with
  | [], [] => evs = [] /\ AUC' = AUC /\ s' = s
  | fold :: folds', d :: ds' =>
      exists ev1 ev2 AUC1,
        evs = ev1 ++ ev2 /\
        fd_start d = s /\
        fold_calls dataset n_rff alpha n_sigmas fold AUC d ev1 AUC1 /\
        folds_calls dataset n_rff alpha n_sigmas folds' AUC1 ds' (fd_end d)
          ev2 s' AUC'
  | _, _ => False
  end.

(** Assumptions under which [train_imbalanced] returns: the files are in the
    format of the repository (feature columns, then a column of
    [' positive'] and [' negative'], at least one row), and the libraries
    do not raise and keep the number of rows they are documented to keep. *)
Definition keel_frame (df : DataFrame) : Prop :=
  exists feats labels,
    df = feats ++ [ObjCol labels] /\
    labels <> [] /\
    Forall (fun o => o = PStr " positive" \/ o = PStr " negative") labels /\
    Forall (fun c => length (col_values c) = length labels) feats.

Record libs_contract : Prop := {
  lc_read : forall path s,
    exists df, (pd_read_table path s).2 = Ok df /\ keel_frame df;
  lc_fit_transform : forall X s,
    exists scaler X', (scaler_fit_transform X s).2 = Ok (scaler, X') /\
                      nrows X' = nrows X /\
                      is_floating_point (dtype X') = true;
  lc_transform : forall scaler X s,
    is_ok (scaler_transform scaler X s).2 = true;
  lc_split : forall X y ts rs s,
    nrows X = length y ->
    exists Xtr Xte ytr yte,
      (train_test_split X y ts rs s).2 = Ok (Xtr, Xte, ytr, yte) /\
      nrows Xtr = length ytr /\
      dtype Xtr = dtype X;
  lc_distances : forall X s, is_ok (pairwise_distances X s).2 = true;
  lc_adam : adam_check 0.1 = Ok tt;
  lc_divergence : forall sigma alpha weighted n_rff,
    divergence_total sigma alpha weighted n_rff;
  lc_grid : forall g C X y s, is_ok (grid_search_fit g C X y s).2 = true;
  lc_svc : forall C g X y s, is_ok (svc_fit C g X y s).2 = true;
  lc_proba : forall clf X s,
    exists P, (svc_predict_proba clf X s).2 = Ok P /\ 1 < ncols P;
  lc_roc : forall y p s, is_ok (roc_auc_score y p s).2 = true
}.

End Traces.

(** ** A small instance of the libraries

    Used to run the model on concrete inputs.  The generator is a counter,
    the divergence is the sum of the entries of the candidate, Adam is plain
    gradient descent, and scikit-learn is replaced by constants. *)

Definition toy_frame : DataFrame :=
  [ FloatCol [0.5; 1.5; 2.5; 3.5; 4.5]%Q;
    ObjCol [PStr " negative"; PStr " negative"; PStr " negative";
            PStr " positive"; PStr " positive"] ].

Definition toy_proba (X : ndarray) : ndarray :=
  mk_ndarray Float64 2 (map (fun _ => [0.5; 0.5]%Q) (rows X)).

Definition toy_libs_with (read : string -> result DataFrame)
    (proba : ndarray -> result ndarray)
    (roc : intarray -> list Q -> result Q) : Libs := {|
  lib_state := nat;
  random_sample := fun s => (S s, 1 # Pos.of_nat (s + 2));
  as_float32 := fun q => q;
  np_logspace := fun _ _ n => replicate n 1%Q;
  np_nanmedian := fun _ => 1%Q;
  adam_cell := unit;
  adam_cell0 := tt;
  adam_check := fun lr => if Qle_bool 0 lr then Ok tt else Raise ValueError;
  adam_update := fun lr _ c y g => (c, Qred (y - lr * g));
  div_divergenceJR := fun X Y _ _ _ _ s =>
    (s, Ok (mk_djr (Qred (foldr Qplus 0%Q (concat (rows Y))))
              (fun _ _ => 0%Q) (fun _ _ => 1%Q)));
  plt_subplots := fun s => (s, Ok tt);
  plt_cla := fun s => (s, Ok tt);
  plt_plot := fun _ _ s => (s, Ok tt);
  plt_frame := fun _ _ s => (s, Ok tt);
  pd_read_table := fun path s => (s, read path);
  StandardScaler := unit;
  SVC := unit;
  scaler_fit_transform := fun X s =>
    (s, Ok (tt, mk_ndarray Float64 (ncols X) (rows X)));
  scaler_transform := fun _ X s =>
    (s, Ok (mk_ndarray Float64 (ncols X) (rows X)));
  train_test_split := fun X y _ _ s => (s, Ok (X, X, y, y));
  pairwise_distances := fun X s => (s, Ok X);
  grid_search_fit := fun _ _ _ _ s => (s, Ok (1%Q, 1%Q));
  svc_fit := fun _ _ _ _ s => (s, Ok tt);
  svc_predict_proba := fun _ X s => (s, proba X);
  roc_auc_score := fun y p s => (s, roc y p)
|}.

#[local] Instance toy_libs : Libs :=
  toy_libs_with (fun _ => Ok toy_frame) (fun X => Ok (toy_proba X))
    (fun _ _ => Ok 0.5%Q).

(** Three points on a line, already in the store. *)
Definition toy_X : ndarray := mk_ndarray Float64 1 [[0.0]; [1.0]; [2.0]]%Q.
Definition toy_world : @world toy_libs := mk_world O [mk_cell toy_X None] [].

(** The world before anything ran. *)
Definition toy_start : @world toy_libs := mk_world O [] [].

(** The same library on a frame with a label that is neither [' positive']
    nor [' negative']. *)
Definition other_label_libs : Libs :=
  toy_libs_with (fun _ => Ok other_label_frame) (fun X => Ok (toy_proba X))
    (fun _ _ => Ok 0.5%Q).





(** ** More of the notebook: what the calls are, and how many

    Definitions for the statements on the edges of [JRD_sampling],
    [load_dataset] and [train_imbalanced], and the cells of the notebook
    that call them. *)

(** The calls that are counted. *)
Inductive counted :=
| Reads | Samplings | Divergences | Steps | Figures | Frames | GridFits | SVCFits.

Definition counts_as (k : counted) (ev : event) : bool :=
  match k, ev_call ev with
  | Reads, PdReadTable _
  | Samplings, NpRandomUniform _ _ _
  | Divergences, DivergenceJR _ _ _ _ _ _
  | Steps, OptimizerStep
  | Figures, PltSubplots
  | Frames, PlotFrame
  | GridFits, GridSearchFit _ _ _ _ _
  | SVCFits, SVCFit _ _ _ _ _ => true
  | _, _ => false
  end.

Section SamplingLog.
Context {L : Libs}.

(** The calls of one [JRD_sampling] on the array [X], and its result, in
    terms of the descent [d] it runs from a state [st0] that holds the
    initial candidate: the constructor of Adam raised, or the figure could
    not be made, or the descent raised, or the call returned. *)
Definition JRD_sampling_log (X : ndarray) (n_samples : Z) (sigma alpha lr : Q)
    (n_iter : Z) (weighted : bool) (n_rff : option Z) (plot : bool)
    (evs : list event) (r : result ndarray) : Prop :=
  exists (lX l0 : loc) (st0 : gd_state),
    let setup := setup_calls lX n_samples (ncols X) l0 in
    let adam := OptimAdam [mk_tensor (S l0) true] lr in
    let fig := if plot then [Ev PltSubplots Returned] else [] in
    let d := descent (Z.to_nat n_iter) X sigma alpha lr weighted n_rff plot st0 in
    shape (gd_Y st0) = (Z.to_nat n_samples, ncols X) /\
    ((is_floating_point (dtype X) = false /\
      evs = sampling_setup lX l0 n_samples (ncols X) (Raised RuntimeError) /\
      r = Raise RuntimeError) \/
     (exists e, evs = setup ++ [Ev adam (Raised e)] /\ r = Raise e) \/
     (exists e, plot = true /\
        evs = setup ++ [Ev adam Returned; Ev PltSubplots (Raised e)] /\
        r = Raise e) \/
     (exists e, d.2 = Raise e /\
        evs = setup ++ Ev adam Returned :: fig ++ d.1.2 /\
        r = Raise e) \/
     (d.2 = Ok tt /\
      evs = setup ++ Ev adam Returned :: fig ++ d.1.2 ++
            [Ev (DetachNumpy (S l0)) Returned] /\
      r = Ok (gd_Y d.1.1))).

(** What a call of [JRD_sampling] on the array [X] may ask of the
    libraries: the draw of the candidate in [[-2, 2)], one optimizer on one
    tensor with the learning rate of the call, the divergence of [X] and a
    candidate of [n_samples] rows, with the arguments of the call, and the
    plotting calls only when [plot] is set. *)
Definition JRD_call (X : ndarray) (n_samples : Z) (sigma alpha lr : Q)
    (weighted : bool) (n_rff : option Z) (plot : bool) (ev : event) : Prop :=
  match ev_call ev with
  | NpRandomUniform low high size =>
      low = (-2.0)%Q /\ high = 2.0%Q /\ size = (n_samples, ncols X)
  | OptimAdam params lr' => length params = 1 /\ lr' = lr
  | DivergenceJR X' Y' sigma' alpha' weighted' n_rff' =>
      X' = X /\ shape Y' = (Z.to_nat n_samples, ncols X) /\
      sigma' = sigma /\ alpha' = alpha /\ weighted' = weighted /\ n_rff' = n_rff
  | PltSubplots | AxCla | AxPlot | PlotFrame => plot = true
  | TorchFromNumpy _ | TorchTensor _ _ | DetachNumpy _
  | ZeroGrad | Backward | OptimizerStep => True
  | _ => False
  end.

(** [costs k m n]: a run of [m] that returns has made [n] calls of kind [k]. *)
Definition costs {A} (k : counted) (m : M A) (n : nat) : Prop :=
  traces m (fun evs r => is_ok r = true -> count_calls (counts_as k) evs = n).

End SamplingLog.

(** The calls of one [JRD_sampling] of [n_iter] iterations, of one grid
    search and fit, of one candidate of the nested loop, of one fold. *)
Definition sampling_cost (n_iter : Z) (plot : bool) (k : counted) : nat :=
  match k with
  | Samplings => 1
  | Divergences | Steps => Z.to_nat n_iter
  | Figures => if plot then 1 else 0
  | Frames => if plot then Z.to_nat n_iter else 0
  | _ => 0
  end.

Definition fit_cost (k : counted) : nat :=
  match k with GridFits | SVCFits => 1 | _ => 0 end.

Definition candidate_cost (k : counted) : nat :=
  sampling_cost default_n_iter default_plot k + fit_cost k.

Definition fold_cost (n_sigmas : nat) (k : counted) : nat :=
  (match k with Reads => 2 | _ => 0 end) +
  n_sigmas * candidate_cost k + candidate_cost k.

(** The files of a data set: the training and the test file of each of the
    five folds. *)
Definition dataset_files (dataset : string) : list string :=
  seqZ 1 5 ≫= fun fold => [train_file dataset fold; test_file dataset fold].

(** A [predict_proba] that returned. *)
Definition proba_returned (ev : event) : bool :=
  match ev with
  | Ev (PredictProba _ _) Returned => true
  | _ => false
  end.

Section PipelineCalls.
Context {L : Libs}.

(** What [train_imbalanced] may ask of the libraries. *)
Definition pipeline_call (dataset : string) (n_rff : option Z) (ev : event)
    : Prop :=
  match ev_call ev with
  | PdReadTable path => path ∈ dataset_files dataset
  | TrainTestSplit _ _ test_size random_state =>
      test_size = 0.25%Q /\ random_state = 42%Z
  | NpRandomUniform low high _ => low = (-2.0)%Q /\ high = 2.0%Q
  | OptimAdam params lr => length params = 1 /\ lr = 0.1%Q
  | DivergenceJR _ _ _ alpha weighted n_rff' =>
      alpha = 1.01%Q /\ weighted = true /\ n_rff' = n_rff
  | GridSearchFit _ _ _ gamma_range C_range =>
      length gamma_range = 7 /\ C_range = np_logspace 0 3 7
  | PltSubplots | AxCla | AxPlot | PlotFrame => False
  | _ => True
  end.

(** A classifier whose probability array has a single column, as
    scikit-learn's has when the training labels were all of one class. *)
Definition one_column_proba : Prop :=
  forall clf X s P, (svc_predict_proba clf X s).2 = Ok P -> ncols P < 2.

(** [crashes m]: in a run of [m] in which a [predict_proba] returned, the
    result is [IndexError].  [fails m]: no run of [m] returns. *)
Definition crashes {A} (m : M A) : Prop :=
  traces m (fun evs r =>
              forall ev, ev ∈ evs -> proba_returned ev = true ->
                         r = Raise IndexError).

Definition fails {A} (m : M A) : Prop :=
  traces m (fun _ r => is_ok r = false).

End PipelineCalls.

(** ** The cells of the notebook *)

(** The names of the data sets, in the order of the notebook. *)
Definition datasets : list string :=
  [ "abalone9-18"; "abalone19"; "ecoli-0_vs_1"; "ecoli-0-1-3-7_vs_2-6";
    "ecoli1"; "ecoli2"; "ecoli3"; "ecoli4"; "glass0";
    "glass-0-1-2-3_vs_4-5-6"; "glass-0-1-6_vs_2"; "glass-0-1-6_vs_5";
    "glass1"; "glass2"; "glass4"; "glass5"; "glass6"; "haberman";
    "iris0"; "new-thyroid1"; "newthyroid2"; "page-blocks0";
    "page-blocks-1-3_vs_4"; "pima"; "segment0"; "shuttle-c0-vs-c4";
    "shuttle-c2-vs-c4"; "vehicle0"; "vehicle1"; "vehicle2"; "vehicle3";
    "vowel0"; "wisconsin"; "yeast-0-5-6-7-9_vs_4"; "yeast1";
    "yeast-1_vs_7"; "yeast-1-2-8-9_vs_7"; "yeast-1-4-5-8_vs_7";
    "yeast-2_vs_4"; "yeast-2_vs_8"; "yeast3"; "yeast4"; "yeast5";
    "yeast6" ].

Section Cells.
Context {L : Libs}.

(** [dataset = datasets[0]; AUC = train_imbalanced(dataset, n_rff)]: the two
    experiments of the notebook, without and with random Fourier
    features. *)
Definition experiment (n_rff : option Z) : M (list Q) :=
  dataset <- lift (match datasets !! 0 with
                   | Some d => Ok d
                   | None => Raise IndexError
                   end) ;;
  train_imbalanced dataset n_rff.

Definition experiment_exact : M (list Q) := experiment None.
Definition experiment_rff : M (list Q) := experiment (Some 250%Z).

(** The demonstration on the moons data.  [make_moons(noise, random_state,
    n_samples)] with an integer seed has a generator of its own: it is a
    function of its arguments, it returns the points and their labels, and
    it is not among the logged calls. *)
Definition demo (make_moons : nat -> Q -> Z -> ndarray * list Z) : M ndarray :=
  let N := 300 in
  let m := 20%Z in
  let '(X, _) := make_moons N 0.08%Q 1%Z in
  fitted <- lib_call (ScalerFitTransform X) silent (scaler_fit_transform X) ;;
  let X := fitted.2 in
  JRD_sampling_np X m 0.5 1.01 0.1 300 true None true.

(** What the demonstration may ask of the libraries: the normalisation of
    the moons, then the calls of a [JRD_sampling] on the normalised
    points. *)
Definition demo_call (moons : ndarray) (ev : event) : Prop :=
  ev_call ev = ScalerFitTransform moons \/
  exists scaler X s,
    (scaler_fit_transform moons s).2 = Ok (scaler, X) /\
    JRD_call X 20 0.5 1.01 0.1 true None true ev.

End Cells.

(** ** More small instances of the libraries *)

(** A frame whose label column is numeric. *)
Definition numeric_label_frame : DataFrame :=
  [ FloatCol [0.5; 1.5; 2.5]%Q; IntCol [0; 0; 1]%Z ].

Definition numeric_label_libs : Libs :=
  toy_libs_with (fun _ => Ok numeric_label_frame) (fun X => Ok (toy_proba X))
    (fun _ _ => Ok 0.5%Q).

(** A frame with the labels [-1] and [1]. *)
Definition signed_label_frame : DataFrame :=
  [ FloatCol [0.5; 1.5; 2.5]%Q; ObjCol [PStr " -1"; PStr " -1"; PStr " 1"] ].

Definition signed_label_libs : Libs :=
  toy_libs_with (fun _ => Ok signed_label_frame) (fun X => Ok (toy_proba X))
    (fun _ _ => Ok 0.5%Q).

(** The small library with a [predict_proba] of one column. *)
Definition one_column_libs : Libs :=
  toy_libs_with (fun _ => Ok toy_frame)
    (fun X => Ok (mk_ndarray Float64 1 (map (fun _ => [1%Q]) (rows X))))
    (fun _ _ => Ok 0.5%Q).

(** Three points with integer coordinates, in the store. *)
Definition int_X : ndarray := mk_ndarray Int64 1 [[0]; [1]; [2]]%Q.
Definition int_world : @world toy_libs := mk_world O [mk_cell int_X None] [].

(** A frame with as many rows of one class as of the other. *)
Definition tie_frame : DataFrame :=
  [ FloatCol [0.5; 1.5]%Q; ObjCol [PStr " negative"; PStr " positive"] ].

Definition tie_libs : Libs :=
  toy_libs_with (fun _ => Ok tie_frame) (fun X => Ok (toy_proba X))
    (fun _ _ => Ok 0.5%Q).

(** The labels a fit is called with. *)
Definition fit_labels (ev : event) : option (list Q) :=
  match ev_call ev with
  | GridSearchFit _ _ y _ _ | SVCFit _ _ y _ _ => Some y
  | _ => None
  end.

(** Two points in place of the moons. *)
Definition toy_moons (n : nat) (noise : Q) (random_state : Z)
    : ndarray * list Z :=
  (mk_ndarray Float64 2 [[0.0; 1.0]; [1.0; 0.0]]%Q, [0; 1]%Z).

(** * Properties *)

(** Proof steps on explicit lists of calls. *)
Ltac each_call tac :=
  repeat (apply Forall_cons; split; [tac|]); try apply Forall_nil_2.

Ltac not_this_call :=
  let Hc := fresh in intros ? ? ? ? ? ? Hc; simpl in Hc; by inversion Hc.

(** The cases of a redraw. *)
Ltac redraw_cases :=
  unfold redraw_calls;
  repeat match goal with
         | |- context [plt_cla ?s] =>
             destruct (plt_cla s) as [? [[]|?]]
         | |- context [column_of ?j ?X] =>
             destruct (column_of j X) as [?|?]
         | |- context [plt_plot ?a ?b ?s] =>
             destruct (plt_plot a b s) as [? [[]|?]]
         | |- context [plt_frame ?a ?b ?s] =>
             destruct (plt_frame a b s) as [? [[]|?]]
         end.


Section TorchFacts.
Context {L : Libs}.

(** *** Running the monad *)

Lemma run_bind_ok {A B} (m : M A) (k : A -> M B) w w1 a :
  m w = (w1, Ok a) -> bind m k w = k a w1.
Proof. intros H. unfold bind. by rewrite H. Qed.

Lemma run_bind_raise {A B} (m : M A) (k : A -> M B) w w1 e :
  m w = (w1, Raise e) -> bind m k w = (w1, Raise e).
Proof. intros H. unfold bind. by rewrite H. Qed.

Lemma load_run l c s h lg :
  h !! l = Some c -> load l (mk_world s h lg) = (mk_world s h lg, Ok c).
Proof. intros H. unfold load. simpl. by rewrite H. Qed.

(** *** The torch operations on a single parameter *)

Lemma zero_grad_run (Y : tensor) lr sts c s h lg :
  h !! t_storage Y = Some c ->
  zero_grad (mk_optimizer [Y] lr sts) (mk_world s h lg) =
  (mk_world s (<[t_storage Y := mk_cell (c_data c) None]> h)
     (lg ++ [Ev ZeroGrad Returned]), Ok tt).
Proof.
  intros H. unfold zero_grad. simpl.
  unfold bind at 1. simpl. unfold bind at 1.
  erewrite run_bind_ok by (by apply load_run). reflexivity.
Qed.

Lemma divergenceJR_run (X Y : tensor) sigma alpha weighted n_rff cX cY s h lg :
  h !! t_storage X = Some cX ->
  h !! t_storage Y = Some cY ->
  divergenceJR X Y sigma alpha weighted n_rff (mk_world s h lg) =
  let '(s1, r) :=
    div_divergenceJR (c_data cX) (c_data cY) sigma alpha weighted n_rff s in
  (mk_world s1 h
     (lg ++ [Ev (DivergenceJR (c_data cX) (c_data cY) sigma alpha weighted n_rff)
               (match r with
                | Ok g => ReturnedValue (djr_value g)
                | Raise e => Raised e
                end)]),
   match r with
   | Ok g => Ok (mk_scalar (djr_value g) [(X, djr_dX g); (Y, djr_dY g)])
   | Raise e => Raise e
   end).
Proof.
  intros HX HY. unfold divergenceJR.
  erewrite run_bind_ok by (by apply load_run).
  erewrite run_bind_ok by (by apply load_run).
  unfold bind, lib_call. simpl.
  by destruct (div_divergenceJR _ _ _ _ _ _ _) as [s1 [g|e]].
Qed.

Lemma backward_run (X Y : tensor) v dX dY cY s h lg :
  t_requires_grad X = false ->
  t_requires_grad Y = true ->
  h !! t_storage Y = Some cY ->
  backward (mk_scalar v [(X, dX); (Y, dY)]) (mk_world s h lg) =
  (mk_world s
     (<[t_storage Y :=
          mk_cell (c_data cY) (Some (accumulate (c_data cY) (c_grad cY) dY))]> h)
     (lg ++ [Ev Backward Returned]), Ok tt).
Proof.
  intros HX HY H. unfold backward. simpl. rewrite HX, HY.
  unfold bind at 1. simpl. unfold bind at 1. simpl.
  unfold bind at 1.
  erewrite run_bind_ok by (by apply load_run). reflexivity.
Qed.

Lemma step_run (Y : tensor) lr a Yd g s h lg :
  h !! t_storage Y = Some (mk_cell Yd (Some g)) ->
  step (mk_optimizer [Y] lr [a]) (mk_world s h lg) =
  (mk_world s (<[t_storage Y := mk_cell (adam_step lr a Yd g).1 (Some g)]> h)
     (lg ++ [Ev OptimizerStep Returned]),
   Ok (mk_optimizer [Y] lr [(adam_step lr a Yd g).2])).
Proof.
  intros H. unfold step, step_params, step_param, adam_step.
  unfold bind, emit, load, store, ret. simpl. by rewrite H.
Qed.

Lemma redraw_run (X Y : tensor) cX cY s h lg :
  h !! t_storage X = Some cX ->
  h !! t_storage Y = Some cY ->
  redraw X Y (mk_world s h lg) =
  let '(s', evs, r) := redraw_calls (c_data cX) (c_data cY) s in
  (mk_world s' h (lg ++ evs), r).
Proof.
  intros HX HY. unfold redraw, redraw_calls.
  unfold bind at 1, lib_call at 1. simpl.
  destruct (plt_cla s) as [s1 [[]|e]]; simpl; [|done].
  erewrite run_bind_ok by (by apply load_run).
  unfold bind at 1, lift at 1.
  destruct (column_of 0 (c_data cX)) as [x0|e0] eqn:H0.
  2: { unfold column_of in H0. destruct (0 <? _); [done|]. by injection H0 as <-. }
  unfold bind at 1, lift at 1.
  destruct (column_of 1 (c_data cX)) as [x1|e1] eqn:H1.
  2: { unfold column_of in H1. destruct (1 <? _); [done|]. by injection H1 as <-. }
  unfold bind at 1, lib_call at 1. simpl.
  destruct (plt_plot x0 x1 s1) as [s2 [[]|e]]; simpl;
    [|by rewrite <- !(assoc_L (++))].
  erewrite run_bind_ok by (by apply load_run).
  unfold bind at 1, lift at 1.
  destruct (column_of 0 (c_data cY)) as [y0|e0] eqn:H0'.
  2: { unfold column_of in H0'. destruct (0 <? _); [done|].
       injection H0' as <-. by rewrite <- !(assoc_L (++)). }
  unfold bind at 1, lift at 1.
  destruct (column_of 1 (c_data cY)) as [y1|e1] eqn:H1'.
  2: { unfold column_of in H1'. destruct (1 <? _); [done|].
       injection H1' as <-. by rewrite <- !(assoc_L (++)). }
  unfold lib_call. simpl.
  destruct (plt_frame y0 y1 s2) as [s3 [[]|e]]; simpl;
    by rewrite <- !(assoc_L (++)).
Qed.

Lemma JRD_iteration_run (X Y : tensor) (sigma alpha lr : Q) (weighted : bool)
    (n_rff : option Z) (plot : bool) (cX : cell) (st : gd_state) (w : world) :
  t_requires_grad X = false ->
  t_requires_grad Y = true ->
  t_storage X ≠ t_storage Y ->
  w_heap w !! t_storage X = Some cX ->
  w_heap w !! t_storage Y = Some (mk_cell (gd_Y st) (gd_grad st)) ->
  w_lib w = gd_lib st ->
  JRD_iteration X Y sigma alpha weighted n_rff plot
    (mk_optimizer [Y] lr [gd_adam st]) w =
  let '(st', evs, r) :=
    descent_step (c_data cX) sigma alpha lr weighted n_rff plot st in
  (mk_world (gd_lib st')
     (<[t_storage Y := mk_cell (gd_Y st') (gd_grad st')]> (w_heap w))
     (w_log w ++ evs),
   match r with
   | Ok _ => Ok (mk_optimizer [Y] lr [gd_adam st'])
   | Raise e => Raise e
   end).
Proof.
  intros HX HY Hne HlX HlY Hlib.
  destruct w as [s h lg]. simpl in *. subst s.
  assert (Hlt : t_storage Y < length h) by (by eapply lookup_lt_Some).
  unfold JRD_iteration, descent_step.
  erewrite run_bind_ok by (by eapply zero_grad_run).
  unfold bind at 1.
  erewrite divergenceJR_run; [| by rewrite list_lookup_insert_ne | by rewrite list_lookup_insert_eq ].
  simpl.
  destruct (div_divergenceJR _ _ _ _ _ _ _) as [s1 [g|e]]; simpl.
  2: { by rewrite <- (assoc_L (++)). }
  erewrite run_bind_ok;
    [| apply backward_run; [done | done | by rewrite list_lookup_insert_eq] ].
  simpl. rewrite list_insert_insert_eq.
  unfold bind at 1.
  erewrite step_run; [| by rewrite list_lookup_insert_eq ].
  rewrite list_insert_insert_eq.
  rewrite <- !(assoc_L (++)). simpl.
  destruct plot.
  - unfold bind at 1.
    erewrite redraw_run;
      [| by rewrite list_lookup_insert_ne | by rewrite list_lookup_insert_eq ].
    simpl c_data. unfold gradient_of.
    destruct (redraw_calls _ _ _) as [[s2 evf] [[]|e]]; simpl;
      by rewrite <- ?(assoc_L (++)).
  - reflexivity.
Qed.

Lemma JRD_loop_run {B} (xs : list B) (X Y : tensor) (sigma alpha lr : Q)
    (weighted : bool) (n_rff : option Z) (plot : bool) (cX : cell)
    (st : gd_state) (w : world) :
  t_requires_grad X = false ->
  t_requires_grad Y = true ->
  t_storage X ≠ t_storage Y ->
  w_heap w !! t_storage X = Some cX ->
  w_heap w !! t_storage Y = Some (mk_cell (gd_Y st) (gd_grad st)) ->
  w_lib w = gd_lib st ->
  for_each xs (fun _ => JRD_iteration X Y sigma alpha weighted n_rff plot)
    (mk_optimizer [Y] lr [gd_adam st]) w =
  let '(st', evs, r) :=
    descent (length xs) (c_data cX) sigma alpha lr weighted n_rff plot st in
  (mk_world (gd_lib st')
     (<[t_storage Y := mk_cell (gd_Y st') (gd_grad st')]> (w_heap w))
     (w_log w ++ evs),
   match r with
   | Ok _ => Ok (mk_optimizer [Y] lr [gd_adam st'])
   | Raise e => Raise e
   end).
Proof.
  intros HX HY Hne. revert st w.
  induction xs as [|x xs IH]; intros st w HlX HlY Hlib.
  - destruct w as [s h lg]. simpl in *. subst s.
    unfold ret. rewrite list_insert_id by done. by rewrite (right_id_L [] (++)).
  - simpl. unfold bind.
    rewrite (JRD_iteration_run X Y sigma alpha lr weighted n_rff plot cX st w)
      by done.
    destruct (descent_step _ _ _ _ _ _ _ _) as [[st1 ev1] [[]|e]]; [|done].
    assert (Hlt : t_storage Y < length (w_heap w)) by (by eapply lookup_lt_Some).
    rewrite (IH st1); simpl.
    + destruct (descent _ _ _ _ _ _ _ _ _) as [[st2 ev2] r].
      by rewrite list_insert_insert_eq, (assoc_L (++)).
    + by rewrite list_lookup_insert_ne.
    + by rewrite list_lookup_insert_eq.
    + done.
Qed.

(** *** The set-up calls *)

Lemma np_random_uniform_run low high (n : Z) (d : nat) s h lg :
  (0 <= n)%Z ->
  np_random_uniform low high (n, d) (mk_world s h lg) =
  let '(s1, rs) := draw_rows low high (Z.to_nat n) d s in
  (mk_world s1 (h ++ [mk_cell (mk_ndarray Float64 d rs) None])
     (lg ++ [Ev (NpRandomUniform low high (n, d)) Returned]),
   Ok (length h)).
Proof.
  intros Hn. unfold np_random_uniform, bind, lib_call, alloc. simpl.
  destruct (n <? 0)%Z eqn:Hneg; [lia|].
  by destruct (draw_rows _ _ _ _ _) as [s1 rs].
Qed.

Lemma torch_tensor_run A rg dt c s h lg :
  h !! A = Some c ->
  rg && negb (is_floating_point dt) = false ->
  torch_tensor A rg dt (mk_world s h lg) =
  (mk_world s (h ++ [mk_cell (astype dt (c_data c)) None])
     (lg ++ [Ev (TorchTensor A rg) Returned]),
   Ok (mk_tensor (length h) rg)).
Proof.
  intros H Hdt. unfold torch_tensor.
  erewrite run_bind_ok by (by apply load_run). by rewrite Hdt.
Qed.

Lemma torch_tensor_raise A rg dt c s h lg :
  h !! A = Some c ->
  rg && negb (is_floating_point dt) = true ->
  torch_tensor A rg dt (mk_world s h lg) =
  (mk_world s h (lg ++ [Ev (TorchTensor A rg) (Raised RuntimeError)]),
   Raise RuntimeError).
Proof.
  intros H Hdt. unfold torch_tensor.
  erewrite run_bind_ok by (by apply load_run). by rewrite Hdt.
Qed.

Lemma optim_Adam_run ps lr s h lg :
  optim_Adam ps lr (mk_world s h lg) =
  (mk_world s h
     (lg ++ [Ev (OptimAdam ps lr)
               (match adam_check lr with Ok _ => Returned | Raise e => Raised e end)]),
   match adam_check lr with
   | Ok _ => Ok (mk_optimizer ps lr (map (fun _ => (O, [])) ps))
   | Raise e => Raise e
   end).
Proof.
  unfold optim_Adam, bind, lib_call, ret. simpl.
  by destruct (adam_check lr) as [[]|e].
Qed.

(** *** The whole function

    [JRD_sampling] on an allocated array of a floating point dtype and a
    non-negative sample count: the draw, the two allocations (the numpy
    array of the draw and the tensor copied from it), the optimizer, the
    figure when plotting, then the descent on the copy. *)

Lemma JRD_sampling_run (X : loc) (n_samples : Z) (sigma alpha lr : Q)
    (n_iter : Z) (weighted : bool) (n_rff : option Z) (plot : bool)
    (cX : cell) (w : world) :
  w_heap w !! X = Some cX ->
  (0 <= n_samples)%Z ->
  is_floating_point (dtype (c_data cX)) = true ->
  JRD_sampling X n_samples sigma alpha lr n_iter weighted n_rff plot w =
  let d := ncols (c_data cX) in
  let '(s1, rs) := draw_rows (-2.0) 2.0 (Z.to_nat n_samples) d (w_lib w) in
  let Y_ := mk_ndarray Float64 d rs in
  let Y0 := astype (dtype (c_data cX)) Y_ in
  let l0 := length (w_heap w) in
  let Y := mk_tensor (S l0) true in
  let h1 := w_heap w ++ [mk_cell Y_ None; mk_cell Y0 None] in
  let pre := w_log w ++ setup_calls X n_samples d l0 in
  match adam_check lr with
  | Raise e => (mk_world s1 h1 (pre ++ [Ev (OptimAdam [Y] lr) (Raised e)]), Raise e)
  | Ok _ =>
      let pre := pre ++ [Ev (OptimAdam [Y] lr) Returned] in
      let '(s2, r2, fig) :=
        if plot then
          let '(s2, r) := plt_subplots s1 in
          (s2, r,
           [Ev PltSubplots (match r with Ok _ => Returned | Raise e => Raised e end)])
        else (s1, Ok tt, []) in
      match r2 with
      | Raise e => (mk_world s2 h1 (pre ++ fig), Raise e)
      | Ok _ =>
          let '(st', evs, r) :=
            descent (Z.to_nat n_iter) (c_data cX) sigma alpha lr weighted n_rff
              plot (mk_gd s2 Y0 None (O, [])) in
          let h2 := <[S l0 := mk_cell (gd_Y st') (gd_grad st')]> h1 in
          match r with
          | Ok _ =>
              (mk_world (gd_lib st') h2
                 (pre ++ fig ++ evs ++ [Ev (DetachNumpy (S l0)) Returned]),
               Ok (S l0))
          | Raise e => (mk_world (gd_lib st') h2 (pre ++ fig ++ evs), Raise e)
          end
      end
  end.
Proof.
  intros HX Hn Hdt. destruct w as [s h lg]. simpl in *.
  unfold JRD_sampling.
  erewrite run_bind_ok by (by apply load_run).
  unfold bind at 1. rewrite np_random_uniform_run by done.
  destruct (draw_rows _ _ _ _ _) as [s1 rs].
  unfold bind at 1. unfold torch_from_numpy at 1, bind at 1, emit at 1, ret at 1.
  simpl.
  unfold bind at 1.
  erewrite torch_tensor_run;
    [| by rewrite lookup_app_r, Nat.sub_diag | by rewrite Hdt ].
  simpl c_data. rewrite length_app. simpl length. rewrite Nat.add_1_r.
  unfold bind at 1. rewrite optim_Adam_run.
  cbv zeta. unfold setup_calls. rewrite <- !(assoc_L (++)). simpl app.
  destruct (adam_check lr) as [[]|e]; [|by rewrite <- !(assoc_L (++))].
  set (X' := mk_tensor X false). set (Y := mk_tensor (S (length h)) true).
  set (Y_ := mk_ndarray Float64 (ncols (c_data cX)) rs).
  set (Y0 := astype (dtype (c_data cX)) Y_).
  set (h1 := h ++ [mk_cell Y_ None; mk_cell Y0 None]).
  assert (Hne : t_storage X' ≠ t_storage Y).
  { simpl. apply lookup_lt_Some in HX. lia. }
  assert (H1 : h1 !! t_storage X' = Some cX).
  { unfold h1. simpl. by rewrite lookup_app_l by (by eapply lookup_lt_Some). }
  assert (H2 : h1 !! t_storage Y = Some (mk_cell Y0 None)).
  { unfold h1. simpl. rewrite lookup_app_r by lia.
    by replace (S (length h) - length h) with 1 by lia. }
  pose proof (fun s2 lg2 =>
    JRD_loop_run (range n_iter) X' Y sigma alpha lr weighted n_rff plot cX
      (mk_gd s2 Y0 None (O, [])) (mk_world s2 h1 lg2)
      eq_refl eq_refl Hne H1 H2 eq_refl) as Hloop.
  simpl in Hloop. unfold range in *. rewrite length_seqZ in Hloop.
  destruct plot.
  - unfold bind at 1. unfold lib_call at 1. simpl.
    destruct (plt_subplots s1) as [s2 [[]|e]]; simpl; [|done].
    unfold bind at 1. rewrite Hloop.
    destruct (descent _ _ _ _ _ _ _ _ _) as [[st' evs] [[]|e]]; simpl.
    + unfold detach_numpy, bind, emit, ret. simpl.
      by rewrite <- !(assoc_L (++)).
    + by rewrite <- !(assoc_L (++)).
  - unfold bind at 1. unfold ret at 1. simpl.
    unfold bind at 1. rewrite Hloop.
    destruct (descent _ _ _ _ _ _ _ _ _) as [[st' evs] [[]|e]]; simpl.
    + unfold detach_numpy, bind, emit, ret. simpl.
      by rewrite <- !(assoc_L (++)).
    + by rewrite <- !(assoc_L (++)).
Qed.

(** *** Shapes *)

Lemma draw_row_length low high d s : length (draw_row low high d s).2 = d.
Proof.
  revert s. induction d as [|d IH]; intros s; simpl; [done|].
  destruct (random_sample s) as [s1 u]. specialize (IH s1).
  destruct (draw_row low high d s1) as [s2 r]. simpl in *. by rewrite IH.
Qed.

Lemma draw_rows_shape low high n d s :
  length (draw_rows low high n d s).2 = n /\
  Forall (fun r => length r = d) (draw_rows low high n d s).2.
Proof.
  revert s. induction n as [|n IH]; intros s; simpl; [by split|].
  pose proof (draw_row_length low high d s) as Hr.
  destruct (draw_row low high d s) as [s1 r]. specialize (IH s1).
  destruct (draw_rows low high n d s1) as [s2 rs]. simpl in *.
  destruct IH as [IH1 IH2]. split; [by rewrite IH1 | by constructor].
Qed.

Lemma adam_step_dtype lr a Yd g : dtype (adam_step lr a Yd g).1 = dtype Yd.
Proof. done. Qed.

Lemma adam_step_shape lr a Yd g :
  shape (adam_step lr a Yd g).1 = shape Yd /\
  (wf_ndarray Yd -> wf_ndarray (adam_step lr a Yd g).1).
Proof.
  unfold adam_step, adam_entries, shape, nrows, wf_ndarray. simpl. split.
  - by rewrite length_map, length_imap.
  - intros Hwf. rewrite Forall_map. apply Forall_forall.
    intros r Hr. apply list_elem_of_lookup in Hr as [i Hr].
    rewrite list_lookup_imap in Hr.
    destruct (rows Yd !! i) as [r0|] eqn:Hi; [|done].
    simpl in Hr. injection Hr as <-.
    rewrite length_map, length_imap.
    eapply Forall_lookup_1 in Hwf; eauto.
Qed.

Lemma descent_step_shape Xd sigma alpha lr weighted n_rff plot st :
  let st' := (descent_step Xd sigma alpha lr weighted n_rff plot st).1.1 in
  shape (gd_Y st') = shape (gd_Y st) /\
  (wf_ndarray (gd_Y st) -> wf_ndarray (gd_Y st')).
Proof.
  unfold descent_step.
  destruct (div_divergenceJR _ _ _ _ _ _ _) as [s1 [g|e]]; simpl; [|done].
  destruct plot; [destruct (redraw_calls _ _ _) as [[s2 evf] r]|];
    simpl; apply adam_step_shape.
Qed.

Lemma descent_step_dtype Xd sigma alpha lr weighted n_rff plot st :
  dtype (gd_Y (descent_step Xd sigma alpha lr weighted n_rff plot st).1.1)
  = dtype (gd_Y st).
Proof.
  unfold descent_step.
  destruct (div_divergenceJR _ _ _ _ _ _ _) as [s1 [g|e]]; simpl; [|done].
  by destruct plot; [destruct (redraw_calls _ _ _) as [[s2 evf] r]|].
Qed.

Lemma descent_dtype n Xd sigma alpha lr weighted n_rff plot st :
  dtype (gd_Y (descent n Xd sigma alpha lr weighted n_rff plot st).1.1)
  = dtype (gd_Y st).
Proof.
  revert st. induction n as [|n IH]; intros st; simpl; [done|].
  pose proof (descent_step_dtype Xd sigma alpha lr weighted n_rff plot st) as Hs.
  destruct (descent_step _ _ _ _ _ _ _ _) as [[st1 ev1] [[]|e]]; simpl in *;
    [|done].
  specialize (IH st1).
  destruct (descent _ _ _ _ _ _ _ _ _) as [[st2 ev2] r]. simpl in *.
  by rewrite IH.
Qed.

Lemma descent_shape n Xd sigma alpha lr weighted n_rff plot st :
  let st' := (descent n Xd sigma alpha lr weighted n_rff plot st).1.1 in
  shape (gd_Y st') = shape (gd_Y st) /\
  (wf_ndarray (gd_Y st) -> wf_ndarray (gd_Y st')).
Proof.
  revert st. induction n as [|n IH]; intros st; simpl; [done|].
  pose proof (descent_step_shape Xd sigma alpha lr weighted n_rff plot st) as Hs.
  destruct (descent_step _ _ _ _ _ _ _ _) as [[st1 ev1] [[]|e]]; simpl in *;
    [|done].
  specialize (IH st1).
  destruct (descent _ _ _ _ _ _ _ _ _) as [[st2 ev2] r]. simpl in *.
  destruct Hs as [Hs1 Hs2], IH as [IH1 IH2]. split.
  - by rewrite IH1.
  - auto.
Qed.

(** *** When the libraries do not raise *)

Lemma column_of_ok j P : j < ncols P -> exists c, column_of j P = Ok c.
Proof.
  intros H. unfold column_of.
  destruct (Nat.ltb_spec j (ncols P)); [by eauto | lia].
Qed.

Lemma redraw_calls_ok Xd Yd s :
  plotting_total true ->
  2 <= ncols Xd -> 2 <= ncols Yd ->
  (redraw_calls Xd Yd s).2 = Ok tt.
Proof.
  intros Hp HX HY. destruct (Hp eq_refl) as (_ & Hc & Hpl & Hf).
  unfold redraw_calls.
  specialize (Hc s). destruct (plt_cla s) as [s1 [[]|e]]; [|done].
  destruct (column_of_ok 0 Xd) as [x0 ->]; [lia|].
  destruct (column_of_ok 1 Xd) as [x1 ->]; [lia|].
  specialize (Hpl x0 x1 s1). destruct (plt_plot x0 x1 s1) as [s2 [[]|e]]; [|done].
  destruct (column_of_ok 0 Yd) as [y0 ->]; [lia|].
  destruct (column_of_ok 1 Yd) as [y1 ->]; [lia|].
  specialize (Hf y0 y1 s2). by destruct (plt_frame y0 y1 s2) as [s3 [[]|e]].
Qed.

Lemma descent_step_ok Xd sigma alpha lr weighted n_rff plot st :
  divergence_total sigma alpha weighted n_rff ->
  plotting_total plot ->
  (plot = true -> 2 <= ncols Xd) ->
  ncols (gd_Y st) = ncols Xd ->
  (descent_step Xd sigma alpha lr weighted n_rff plot st).2 = Ok tt.
Proof.
  intros Hd Hp H2 Hc. unfold descent_step.
  specialize (Hd Xd (gd_Y st) (gd_lib st)).
  destruct (div_divergenceJR _ _ _ _ _ _ _) as [s1 [g|e]]; simpl in *; [|done].
  destruct plot; [|done].
  set (Y' := (adam_step lr (gd_adam st) (gd_Y st) (gradient_of g (gd_Y st))).1).
  assert (HY : 2 <= ncols Y').
  { unfold Y'. simpl. rewrite Hc. by apply H2. }
  pose proof (redraw_calls_ok Xd Y' s1 Hp (H2 eq_refl) HY) as Hr.
  by destruct (redraw_calls _ _ _) as [[s2 evf] r].
Qed.

Lemma descent_ok n Xd sigma alpha lr weighted n_rff plot st :
  divergence_total sigma alpha weighted n_rff ->
  plotting_total plot ->
  (plot = true -> 2 <= ncols Xd) ->
  ncols (gd_Y st) = ncols Xd ->
  (descent n Xd sigma alpha lr weighted n_rff plot st).2 = Ok tt.
Proof.
  intros Hd Hp H2. revert st. induction n as [|n IH]; intros st Hc; simpl; [done|].
  pose proof (descent_step_ok Xd sigma alpha lr weighted n_rff plot st Hd Hp H2 Hc)
    as Hs.
  pose proof (descent_step_shape Xd sigma alpha lr weighted n_rff plot st)
    as [Hsh _].
  destruct (descent_step _ _ _ _ _ _ _ _) as [[st1 ev1] r1]. simpl in Hs, Hsh.
  subst r1. specialize (IH st1).
  destruct (descent _ _ _ _ _ _ _ _ _) as [[st2 ev2] r]. apply IH.
  unfold shape in Hsh. injection Hsh as _ Hn. by rewrite Hn.
Qed.

(** *** Outside the main path *)

Lemma JRD_sampling_integer X n_samples sigma alpha lr n_iter weighted n_rff
    plot cX (w : world) :
  w_heap w !! X = Some cX ->
  (0 <= n_samples)%Z ->
  is_floating_point (dtype (c_data cX)) = false ->
  JRD_sampling X n_samples sigma alpha lr n_iter weighted n_rff plot w =
  let d := ncols (c_data cX) in
  let '(s1, rs) := draw_rows (-2.0) 2.0 (Z.to_nat n_samples) d (w_lib w) in
  let l0 := length (w_heap w) in
  (mk_world s1 (w_heap w ++ [mk_cell (mk_ndarray Float64 d rs) None])
     (w_log w ++
      [ Ev (NpRandomUniform (-2.0) 2.0 (n_samples, d)) Returned;
        Ev (TorchFromNumpy X) Returned;
        Ev (TorchTensor l0 true) (Raised RuntimeError) ]),
   Raise RuntimeError).
Proof.
  intros HX Hn Hdt. destruct w as [s h lg]. simpl in *.
  unfold JRD_sampling.
  erewrite run_bind_ok by (by apply load_run).
  unfold bind at 1. rewrite np_random_uniform_run by done.
  destruct (draw_rows _ _ _ _ _) as [s1 rs].
  unfold bind at 1. unfold torch_from_numpy at 1, bind at 1, emit at 1, ret at 1.
  simpl.
  unfold bind at 1.
  erewrite torch_tensor_raise;
    [| by rewrite lookup_app_r, Nat.sub_diag | by rewrite Hdt ].
  by rewrite <- !(assoc_L (++)).
Qed.

Lemma JRD_sampling_unallocated X n_samples sigma alpha lr n_iter weighted n_rff
    plot (w : world) :
  w_heap w !! X = None ->
  JRD_sampling X n_samples sigma alpha lr n_iter weighted n_rff plot w =
  (w, Raise RuntimeError).
Proof. intros H. unfold JRD_sampling, bind, load. by rewrite H. Qed.

Lemma JRD_sampling_negative X n_samples sigma alpha lr n_iter weighted n_rff
    plot cX (w : world) :
  w_heap w !! X = Some cX ->
  (n_samples < 0)%Z ->
  JRD_sampling X n_samples sigma alpha lr n_iter weighted n_rff plot w =
  (mk_world (w_lib w) (w_heap w)
     (w_log w ++ [Ev (NpRandomUniform (-2.0) 2.0 (n_samples, ncols (c_data cX)))
                    (Raised ValueError)]),
   Raise ValueError).
Proof.
  intros H Hn. destruct w as [s h lg]. unfold JRD_sampling.
  erewrite run_bind_ok by (by apply load_run).
  unfold bind, np_random_uniform, bind, lib_call. simpl.
  by destruct (n_samples <? 0)%Z eqn:E; [|lia].
Qed.

(** *** Counting the calls *)

Lemma count_calls_app P l1 l2 :
  count_calls P (l1 ++ l2) = count_calls P l1 + count_calls P l2.
Proof. unfold count_calls. by rewrite List.filter_app, length_app. Qed.

Lemma descent_step_counts Xd sigma alpha lr weighted n_rff plot st :
  let '(_, evs, r) := descent_step Xd sigma alpha lr weighted n_rff plot st in
  count_calls is_divergence_call evs = 1 /\
  count_calls is_step_call evs <= 1 /\
  (is_ok r = true -> count_calls is_step_call evs = 1).
Proof.
  unfold descent_step.
  destruct (div_divergenceJR _ _ _ _ _ _ _) as [s1 [g|e]];
    [|by cbn; repeat split; (lia || done)].
  destruct plot; [redraw_cases|];
    cbn; repeat split; (lia || done).
Qed.

Lemma descent_counts n Xd sigma alpha lr weighted n_rff plot st :
  let '(_, evs, r) := descent n Xd sigma alpha lr weighted n_rff plot st in
  count_calls is_divergence_call evs <= n /\
  count_calls is_step_call evs <= n /\
  (is_ok r = true ->
   count_calls is_divergence_call evs = n /\ count_calls is_step_call evs = n).
Proof.
  revert st. induction n as [|n IH]; intros st; simpl; [by auto|].
  pose proof (descent_step_counts Xd sigma alpha lr weighted n_rff plot st) as Hs.
  destruct (descent_step _ _ _ _ _ _ _ _) as [[st1 ev1] [[]|e]].
  - specialize (IH st1).
    destruct (descent _ _ _ _ _ _ _ _ _) as [[st2 ev2] r].
    rewrite !count_calls_app.
    destruct Hs as (Hd & _ & Hs), IH as (IH1 & IH2 & IH3).
    specialize (Hs eq_refl).
    split; [lia|]. split; [lia|].
    intros Hr. destruct (IH3 Hr). lia.
  - destruct Hs as (Hd & Hs & _). split; [lia|]. split; [lia|]. done.
Qed.

Lemma descent_calls n Xd sigma alpha lr weighted n_rff plot st :
  Forall (fun ev => is_loop_call ev = true)
    (descent n Xd sigma alpha lr weighted n_rff plot st).1.2.
Proof.
  revert st. induction n as [|n IH]; intros st; simpl; [done|].
  assert (Hs : Forall (fun ev => is_loop_call ev = true)
                 (descent_step Xd sigma alpha lr weighted n_rff plot st).1.2).
  { unfold descent_step.
    destruct (div_divergenceJR _ _ _ _ _ _ _) as [s1 [g|e]];
      [|by repeat constructor].
    destruct plot; [redraw_cases|];
      by repeat constructor. }
  destruct (descent_step _ _ _ _ _ _ _ _) as [[st1 ev1] [[]|e]]; [|done].
  specialize (IH st1).
  destruct (descent _ _ _ _ _ _ _ _ _) as [[st2 ev2] r]. simpl in *.
  by apply Forall_app.
Qed.

Lemma JRD_sampling_counts X n_samples sigma alpha lr n_iter weighted n_rff plot
    (w : world) :
  let run := JRD_sampling X n_samples sigma alpha lr n_iter weighted n_rff plot w in
  exists evs,
    w_log run.1 = w_log w ++ evs /\
    count_calls is_divergence_call evs <= Z.to_nat n_iter /\
    count_calls is_step_call evs <= Z.to_nat n_iter /\
    (is_ok run.2 = true ->
     count_calls is_divergence_call evs = Z.to_nat n_iter /\
     count_calls is_step_call evs = Z.to_nat n_iter).
Proof.
  intros run. subst run.
  destruct (w_heap w !! X) as [cX|] eqn:HX.
  2: { rewrite JRD_sampling_unallocated by done. exists []. cbn.
       rewrite (right_id_L [] (++)). repeat split; (lia || done). }
  destruct (Z.lt_ge_cases n_samples 0) as [Hn|Hn].
  { rewrite (JRD_sampling_negative _ _ _ _ _ _ _ _ _ cX) by done.
    eexists. split; [reflexivity|]. cbn. repeat split; (lia || done). }
  destruct (is_floating_point (dtype (c_data cX))) eqn:Hdt.
  2: { rewrite (JRD_sampling_integer _ _ _ _ _ _ _ _ _ cX) by done. cbv zeta.
       destruct (draw_rows _ _ _ _ _) as [s1 rs].
       eexists. split; [reflexivity|]. cbn. repeat split; (lia || done). }
  rewrite (JRD_sampling_run _ _ _ _ _ _ _ _ _ cX) by done. cbv zeta.
  destruct (draw_rows _ _ _ _ _) as [s1 rs].
  destruct (adam_check lr) as [[]|e].
  2: { simpl. rewrite <- (assoc_L (++)). eexists. split; [reflexivity|].
       cbn. repeat split; (lia || done). }
  assert (Hfig : exists s2 r2 fig,
    (if plot then
       let '(s2, r) := plt_subplots s1 in
       (s2, r, [Ev PltSubplots
                  (match r with Ok _ => Returned | Raise e => Raised e end)])
     else (s1, Ok tt, [])) = (s2, r2, fig) /\
    count_calls is_divergence_call fig = 0 /\ count_calls is_step_call fig = 0).
  { destruct plot; [|by eauto 10].
    destruct (plt_subplots s1) as [s2 r]. by eauto 10. }
  destruct Hfig as (s2 & r2 & fig & -> & Hf1 & Hf2).
  destruct r2 as [[]|e].
  2: { simpl. rewrite <- !(assoc_L (++)). eexists. split; [reflexivity|].
       rewrite !count_calls_app, Hf1, Hf2. cbn.
       repeat split; (lia || done). }
  pose proof (descent_counts (Z.to_nat n_iter) (c_data cX) sigma alpha lr
                weighted n_rff plot
                (mk_gd s2 (astype (dtype (c_data cX))
                             (mk_ndarray Float64 (ncols (c_data cX)) rs))
                   None (O, [])))
    as Hc.
  destruct (descent _ _ _ _ _ _ _ _ _) as [[st' evs] [[]|e]];
    destruct Hc as (Hc1 & Hc2 & Hc3); simpl;
    rewrite <- !(assoc_L (++)); (eexists; split; [reflexivity|]);
    rewrite !count_calls_app, Hf1, Hf2.
  - destruct (Hc3 eq_refl) as [-> ->]. cbn. repeat split; lia.
  - cbn. repeat split; (lia || done).
Qed.

(** *** The result of [JRD_sampling] *)

Lemma astype_shape dt A :
  shape (astype dt A) = shape A /\ (wf_ndarray A -> wf_ndarray (astype dt A)).
Proof.
  unfold astype, shape, nrows, wf_ndarray. simpl. rewrite length_map.
  split; [done|]. intros Hwf. rewrite Forall_map.
  eapply Forall_impl; [exact Hwf|]. intros r Hr. simpl. by rewrite length_map.
Qed.

Lemma initial_shape (dt : np_dtype) (n d : nat) (s : lib_state) :
  let Y0 := astype dt (mk_ndarray Float64 d (draw_rows (-2.0) 2.0 n d s).2) in
  shape Y0 = (n, d) /\ wf_ndarray Y0 /\ dtype Y0 = dt.
Proof.
  intros Y0. destruct (draw_rows_shape (-2.0) 2.0 n d s) as [Hlen Hwf].
  destruct (astype_shape dt (mk_ndarray Float64 d (draw_rows (-2.0) 2.0 n d s).2))
    as [Hs Hw].
  split; [|split; [|done]].
  - unfold Y0. rewrite Hs. unfold shape, nrows. simpl. by rewrite Hlen.
  - by apply Hw.
Qed.

(** A redraw that raises although it had its columns, and a step that
    raises then, have a library call that raised last. *)
Lemma redraw_calls_raise_last Xd Yd s e :
  2 <= ncols Xd -> 2 <= ncols Yd ->
  (redraw_calls Xd Yd s).2 = Raise e ->
  exists pre c, (redraw_calls Xd Yd s).1.2 = pre ++ [Ev c (Raised e)].
Proof.
  intros HX HY. unfold redraw_calls.
  destruct (plt_cla s) as [s1 [[]|e1]].
  2: { intros [= ->]. by exists [], AxCla. }
  destruct (column_of_ok 0 Xd) as [x0 ->]; [lia|].
  destruct (column_of_ok 1 Xd) as [x1 ->]; [lia|].
  destruct (plt_plot x0 x1 s1) as [s2 [[]|e2]].
  2: { intros [= ->]. by exists [Ev AxCla Returned], AxPlot. }
  destruct (column_of_ok 0 Yd) as [y0 ->]; [lia|].
  destruct (column_of_ok 1 Yd) as [y1 ->]; [lia|].
  destruct (plt_frame y0 y1 s2) as [s3 [[]|e3]]; [done|].
  intros [= ->]. by exists [Ev AxCla Returned; Ev AxPlot Returned], PlotFrame.
Qed.

(** A descent of at least one step on points of less than two columns
    raises when it redraws. *)
Lemma redraw_calls_no_column Xd Yd s :
  ncols Xd < 2 ->
  is_ok (redraw_calls Xd Yd s).2 = false /\
  (Forall (fun ev => returned ev = true) (redraw_calls Xd Yd s).1.2 ->
   (redraw_calls Xd Yd s).2 = Raise IndexError).
Proof.
  intros H2. unfold redraw_calls.
  destruct (plt_cla s) as [s1 [[]|e1]].
  2: { split; [done|]. intros H. by apply Forall_cons in H as [H _]. }
  assert (Hcol : forall x0 x1,
            column_of 0 Xd = Ok x0 -> column_of 1 Xd = Ok x1 -> False).
  { intros x0 x1 _. unfold column_of.
    destruct (Nat.ltb_spec 1 (ncols Xd)); [lia | done]. }
  destruct (column_of 0 Xd) as [x0|e0]; [|done].
  destruct (column_of 1 Xd) as [x1|e1']; [|done].
  by destruct (Hcol x0 x1).
Qed.

Lemma JRD_sampling_returns (X : loc) (n_samples : Z) (sigma alpha lr : Q)
    (n_iter : Z) (weighted : bool) (n_rff : option Z) (plot : bool)
    (cX : cell) (w : world) :
  w_heap w !! X = Some cX ->
  (0 <= n_samples)%Z ->
  is_floating_point (dtype (c_data cX)) = true ->
  (plot = true -> 2 <= ncols (c_data cX)) ->
  adam_check lr = Ok tt ->
  divergence_total sigma alpha weighted n_rff ->
  plotting_total plot ->
  let run := JRD_sampling X n_samples sigma alpha lr n_iter weighted n_rff plot w in
  exists Y cY,
    run.2 = Ok Y /\
    w_heap run.1 !! Y = Some cY /\
    shape (c_data cY) = (Z.to_nat n_samples, ncols (c_data cX)) /\
    wf_ndarray (c_data cY).
Proof.
  intros HX Hn Hdt H2 Hlr Hd Hp run. subst run.
  rewrite (JRD_sampling_run _ _ _ _ _ _ _ _ _ cX) by (done || lia).
  cbv zeta.
  pose proof (initial_shape (dtype (c_data cX)) (Z.to_nat n_samples)
                (ncols (c_data cX)) (w_lib w)) as (Hsh0 & Hwf0 & _).
  destruct (draw_rows _ _ _ _ _) as [s1 rs]. simpl in Hsh0, Hwf0.
  rewrite Hlr.
  assert (Hfig : exists s2 fig,
    (if plot then
       let '(s2, r) := plt_subplots s1 in
       (s2, r, [Ev PltSubplots
                  (match r with Ok _ => Returned | Raise e => Raised e end)])
     else (s1, Ok tt, [])) = (s2, Ok tt, fig)).
  { destruct plot; [|by eauto].
    destruct (Hp eq_refl) as [Hs _]. specialize (Hs s1).
    destruct (plt_subplots s1) as [s2 [[]|e]]; [by eauto | done]. }
  destruct Hfig as (s2 & fig & ->).
  set (Y0 := astype _ _) in *.
  set (st0 := mk_gd s2 Y0 None (O, [])).
  assert (Hc0 : ncols (gd_Y st0) = ncols (c_data cX)) by done.
  pose proof (descent_ok (Z.to_nat n_iter) (c_data cX) sigma alpha lr weighted
                n_rff plot st0 Hd Hp H2 Hc0) as Hok.
  pose proof (descent_shape (Z.to_nat n_iter) (c_data cX) sigma alpha lr
                weighted n_rff plot st0) as [Hsh Hw].
  destruct (descent _ _ _ _ _ _ _ _ _) as [[st' evs] r]. simpl in *. subst r.
  exists (S (length (w_heap w))), (mk_cell (gd_Y st') (gd_grad st')).
  simpl. split; [done|]. split.
  - apply list_lookup_insert_eq. rewrite length_app. simpl. lia.
  - rewrite Hsh. split; [done|]. by apply Hw.
Qed.

(** *** The translation does what the documentation says *)

Lemma generator_after_add (a b : nat) (s : lib_state) :
  generator_after (a + b) s = generator_after b (generator_after a s).
Proof.
  unfold generator_after. by rewrite (Nat.add_comm a b), Nat.iter_add.
Qed.

Lemma nth_draw_add (a j : nat) (s : lib_state) :
  nth_draw (a + j) s = nth_draw j (generator_after a s).
Proof. unfold nth_draw. by rewrite generator_after_add. Qed.

Lemma draw_row_draws low high d s :
  (draw_row low high d s).1 = generator_after d s /\
  length (draw_row low high d s).2 = d /\
  forall j, j < d ->
    (draw_row low high d s).2 !! j
    = Some (low + (high - low) * nth_draw j s)%Q.
Proof.
  revert s. induction d as [|d IH]; intros s; simpl.
  { split; [done|]. split; [done|]. intros j Hj. lia. }
  destruct (random_sample s) as [s1 u] eqn:Hs.
  destruct (IH s1) as (IH1 & IH2 & IH3).
  destruct (draw_row low high d s1) as [s2 r]. simpl in *.
  assert (Hs1 : s1 = generator_after 1 s).
  { unfold generator_after. simpl. by rewrite Hs. }
  split; [|split].
  - rewrite IH1, Hs1. by rewrite <- generator_after_add.
  - by rewrite IH2.
  - intros [|j] Hj; simpl.
    + unfold nth_draw, generator_after. simpl. by rewrite Hs.
    + rewrite IH3 by lia. rewrite Hs1. by rewrite <- nth_draw_add.
Qed.

Lemma draw_rows_draws low high n d s :
  (draw_rows low high n d s).1 = generator_after (n * d) s /\
  uniform_draw low high n d s (mk_ndarray Float64 d (draw_rows low high n d s).2).
Proof.
  unfold uniform_draw. simpl.
  revert s. induction n as [|n IH]; intros s; simpl.
  { split; [done|]. do 3 (split; [done|]). intros i Hi. lia. }
  destruct (draw_row_draws low high d s) as (Hr1 & Hr2 & Hr3).
  destruct (draw_row low high d s) as [s1 r]. simpl in *.
  destruct (IH s1) as (IH1 & _ & _ & IH2 & IH3).
  destruct (draw_rows low high n d s1) as [s2 rs]. simpl in *.
  split; [|do 2 (split; [done|]); split].
  - by rewrite IH1, Hr1, <- generator_after_add.
  - by rewrite IH2.
  - intros [|i] Hi; simpl.
    + exists r. by eauto.
    + destruct (IH3 i) as (r' & Hi' & Hlen & Hj); [lia|].
      exists r'. split; [done|]. split; [done|].
      intros j Hj'. rewrite (Hj j Hj'), Hr1.
      by rewrite <- nth_draw_add, (assoc_L Nat.add).
Qed.

Lemma astype_as_floating dt A :
  is_floating_point dt = true -> as_floating dt A (astype dt A).
Proof.
  intros Hdt. unfold as_floating, astype. simpl. do 2 (split; [done|]).
  apply Forall2_fmap_r, Forall_Forall2_diag, Forall_forall. intros r _.
  apply Forall2_fmap_r, Forall_Forall2_diag, Forall_forall. intros a _.
  by destruct dt.
Qed.

Lemma adam_step_applied lr (a : adam_state) (Y : ndarray) (g : djr) :
  adam_applied lr (S a.1) (moments_of a.2)
    (moments_of (adam_step lr a Y (gradient_of g Y)).2.2) (djr_dY g)
    Y (adam_step lr a Y (gradient_of g Y)).1.
Proof.
  unfold adam_applied, adam_step, adam_entries. simpl.
  do 2 (split; [done|]). split; [by rewrite length_map, length_imap|].
  intros i r Hi. rewrite !list_lookup_fmap, list_lookup_imap, Hi. simpl.
  eexists. split; [done|]. split; [by rewrite length_map, length_imap|].
  intros j y Hj. rewrite !list_lookup_fmap, list_lookup_imap, Hj. simpl.
  eexists. split; [done|].
  unfold moments_of at 2.
  rewrite !list_lookup_fmap, list_lookup_imap, Hi. simpl.
  rewrite !list_lookup_fmap, list_lookup_imap, Hj. simpl.
  assert (Hg : entry (gradient_of g Y) i j = djr_dY g i j).
  { unfold entry, gradient_of, accumulate. simpl.
    rewrite list_lookup_imap, Hi. simpl. by rewrite list_lookup_imap, Hj. }
  rewrite Hg. by destruct (adam_update _ _ _ _ _).
Qed.

Lemma column_of_narrow j P : ncols P <= j -> column_of j P = Raise IndexError.
Proof.
  intros H. unfold column_of. by destruct (Nat.ltb_spec j (ncols P)); [lia|].
Qed.

(** The redraw of the translation is the redraw as documented. *)
Lemma redraw_calls_redraws Xd Yd s s' evs r :
  redraw_calls Xd Yd s = (s', evs, r) <-> redraws Xd Yd s evs s' r.
Proof.
  unfold redraw_calls. split.
  - destruct (plt_cla s) as [s1 [u|e]] eqn:Hcla.
    2: { intros [= <- <- <-]. by constructor. }
    destruct (column_of 0 Xd) as [x0|e0] eqn:Hx0.
    2: { intros [= <- <- <-]. eapply redraws_X_narrow; [done|].
         unfold column_of in Hx0.
         destruct (Nat.ltb_spec 0 (ncols Xd)); [done | lia]. }
    destruct (column_of 1 Xd) as [x1|e1] eqn:Hx1.
    2: { intros [= <- <- <-]. eapply redraws_X_narrow; [done|].
         unfold column_of in Hx1.
         destruct (Nat.ltb_spec 1 (ncols Xd)); [done | lia]. }
    destruct (plt_plot x0 x1 s1) as [s2 [u'|e]] eqn:Hplot.
    2: { intros [= <- <- <-]. by eapply redraws_plot_raised. }
    destruct (column_of 0 Yd) as [y0|e0] eqn:Hy0.
    2: { intros [= <- <- <-]. eapply redraws_Y_narrow; try done.
         unfold column_of in Hy0.
         destruct (Nat.ltb_spec 0 (ncols Yd)); [done | lia]. }
    destruct (column_of 1 Yd) as [y1|e1] eqn:Hy1.
    2: { intros [= <- <- <-]. eapply redraws_Y_narrow; try done.
         unfold column_of in Hy1.
         destruct (Nat.ltb_spec 1 (ncols Yd)); [done | lia]. }
    destruct (plt_frame y0 y1 s2) as [s3 r'] eqn:Hframe.
    intros [= <- <- <-]. by eapply redraws_frame.
  - intros H.
    destruct H as [s s1 e Hcla|s s1 u Hcla HX|s s1 u x0 x1 s2 e Hcla Hx0 Hx1 Hplot
                   |s s1 u x0 x1 s2 u' Hcla Hx0 Hx1 Hplot HY
                   |s s1 u x0 x1 s2 u' y0 y1 s3 r Hcla Hx0 Hx1 Hplot Hy0 Hy1 Hf];
      rewrite Hcla; try done.
    + rewrite (column_of_narrow 1 Xd) by lia. by destruct (column_of 0 Xd).
    + by rewrite Hx0, Hx1, Hplot.
    + rewrite Hx0, Hx1, Hplot, (column_of_narrow 1 Yd) by lia.
      by destruct (column_of 0 Yd).
    + by rewrite Hx0, Hx1, Hplot, Hy0, Hy1, Hf.
Qed.

Lemma descent_descends n Xd sigma alpha lr weighted n_rff plot st st' evs r :
  descent n Xd sigma alpha lr weighted n_rff plot st = (st', evs, r) ->
  descends Xd sigma alpha lr weighted n_rff plot n (gd_adam st).1
    (moments_of (gd_adam st).2) (gd_Y st) (gd_lib st) evs (gd_lib st')
    (gd_Y st') r.
Proof.
  revert st st' evs r.
  induction n as [|n IH]; intros st st' evs r; simpl.
  { intros [= <- <- <-]. by constructor. }
  unfold descent_step.
  destruct (div_divergenceJR Xd (gd_Y st) sigma alpha weighted n_rff (gd_lib st))
    as [s1 [g|e]] eqn:Hdiv.
  2: { intros [= <- <- <-]. by constructor. }
  pose proof (adam_step_applied lr (gd_adam st) (gd_Y st) g) as Hadam.
  set (Ya := adam_step lr (gd_adam st) (gd_Y st) (gradient_of g (gd_Y st))) in *.
  destruct plot.
  - destruct (redraw_calls Xd Ya.1 s1) as [[s2 evf] [[]|e]] eqn:Hredraw;
      apply redraw_calls_redraws in Hredraw.
    + destruct (descent n _ _ _ _ _ _ _ _) as [[st2 ev2] r2] eqn:Hd.
      intros [= <- <- <-]. apply IH in Hd.
      by eapply (descends_step _ _ _ _ _ _ _ _ _ _ _ _ _ _ _ _ evf).
    + intros [= <- <- <-].
      by eapply (descends_redraw_raised _ _ _ _ _ _ _ _ _ _ _ _ _ _ _ _ evf).
  - destruct (descent n _ _ _ _ _ _ _ _) as [[st2 ev2] r2] eqn:Hd.
    intros [= <- <- <-]. apply IH in Hd.
    by eapply (descends_step _ _ _ _ _ _ _ _ _ _ _ _ _ _ _ _ []).
Qed.

(** [JRD_sampling] on an allocated array is a sampling as documented; the
    draw stays at the first new location, and the array it returns is at
    the second. *)
Lemma JRD_sampling_samples (X : loc) (n_samples : Z) (sigma alpha lr : Q)
    (n_iter : Z) (weighted : bool) (n_rff : option Z) (plot : bool)
    (cX : cell) (w : world) :
  w_heap w !! X = Some cX ->
  let run := JRD_sampling X n_samples sigma alpha lr n_iter weighted n_rff plot w in
  let l0 := length (w_heap w) in
  exists evs r,
    w_log run.1 = w_log w ++ evs /\
    samples X l0 (c_data cX) n_samples sigma alpha lr n_iter weighted n_rff plot
      (w_lib w) evs (w_lib run.1) r /\
    match r with
    | Ok Y => run.2 = Ok (S l0) /\
              exists g, w_heap run.1 !! S l0 = Some (mk_cell Y g)
    | Raise e => run.2 = Raise e
    end.
Proof.
  intros HX run l0. subst run l0.
  destruct (Z.lt_ge_cases n_samples 0) as [Hn|Hn].
  { rewrite (JRD_sampling_negative _ _ _ _ _ _ _ _ _ cX) by done.
    eexists _, (Raise ValueError). split; [reflexivity|]. simpl.
    split; [by constructor | done]. }
  destruct (is_floating_point (dtype (c_data cX))) eqn:Hdt.
  2: { rewrite (JRD_sampling_integer _ _ _ _ _ _ _ _ _ cX) by done. cbv zeta.
       destruct (draw_rows_draws (-2.0) 2.0 (Z.to_nat n_samples)
                   (ncols (c_data cX)) (w_lib w)) as [Hs1 _].
       destruct (draw_rows _ _ _ _ _) as [s1 rs]. simpl in Hs1. subst s1.
       eexists _, (Raise RuntimeError). split; [reflexivity|]. simpl.
       split; [by constructor | done]. }
  rewrite (JRD_sampling_run _ _ _ _ _ _ _ _ _ cX) by done. cbv zeta.
  destruct (draw_rows_draws (-2.0) 2.0 (Z.to_nat n_samples)
              (ncols (c_data cX)) (w_lib w)) as [Hs1 Hdraw].
  destruct (draw_rows _ _ _ _ _) as [s1 rs]. simpl in Hs1, Hdraw. subst s1.
  set (s1 := generator_after _ _).
  set (Y_ := mk_ndarray Float64 _ rs) in *.
  pose proof (astype_as_floating (dtype (c_data cX)) Y_ Hdt) as Hcast.
  set (Y0 := astype _ Y_) in *.
  unfold setup_calls.
  destruct (adam_check lr) as [[]|e] eqn:Hlr.
  2: { eexists _, (Raise e). rewrite <- (assoc_L (++)).
       split; [reflexivity|]. simpl. split; [|done].
       by apply samples_adam_raised. }
  assert (Hfig : exists s2 r2 fig,
    (if plot then
       let '(s2, r) := plt_subplots s1 in
       (s2, r, [Ev PltSubplots
                  (match r with Ok _ => Returned | Raise e => Raised e end)])
     else (s1, Ok tt, [])) = (s2, r2, fig) /\
    figure plot s1 fig s2 r2).
  { unfold figure. destruct plot; [|by eauto 10].
    destruct (plt_subplots s1) as [s2 r]. by eauto 10. }
  destruct Hfig as (s2 & r2 & fig & -> & Hfig).
  destruct r2 as [[]|e].
  2: { eexists _, (Raise e). rewrite <- !(assoc_L (++)).
       split; [reflexivity|]. simpl. split; [|done].
       by apply samples_figure_raised. }
  destruct (descent _ _ _ _ _ _ _ _ _) as [[st' evs] r] eqn:Hd.
  apply descent_descends in Hd. simpl in Hd.
  change (moments_of []) with (fun _ _ : nat => adam_cell0) in Hd.
  pose proof (samples_descent X (length (w_heap w)) (c_data cX) n_samples sigma
                alpha lr n_iter weighted n_rff plot (w_lib w) Y_ Y0 fig s2 evs
                (gd_lib st') (gd_Y st') r Hn Hdt Hlr Hdraw Hcast Hfig Hd) as Hs.
  destruct r as [[]|e]; simpl in *.
  - eexists _, (Ok (gd_Y st')). rewrite <- !(assoc_L (++)).
    split; [reflexivity|]. split; [exact Hs|]. split; [done|].
    eexists. apply list_lookup_insert_eq. rewrite length_app. simpl. lia.
  - eexists _, (Raise e). rewrite <- !(assoc_L (++)).
    split; [reflexivity|]. split; [|done].
    by rewrite (right_id_L [] (++)) in Hs.
Qed.

(** *** What follows from the documentation *)

Lemma raised_last_one c e : raised_last e [Ev c (Raised e)].
Proof. by exists [], c. Qed.

Lemma raised_last_app l1 l2 e : raised_last e l2 -> raised_last e (l1 ++ l2).
Proof.
  intros (pre & c & ->). exists (l1 ++ pre), c. by rewrite (assoc_L (++)).
Qed.

Lemma raised_last_cons ev l e : raised_last e l -> raised_last e (ev :: l).
Proof. apply (raised_last_app [ev]). Qed.

Lemma adam_applied_shape lr t m m' dY Y Y' :
  adam_applied lr t m m' dY Y Y' ->
  shape Y' = shape Y /\ dtype Y' = dtype Y /\ (wf_ndarray Y -> wf_ndarray Y').
Proof.
  intros (Hdt & Hc & Hl & Hrows).
  split; [by unfold shape, nrows; rewrite Hc, Hl|]. split; [done|].
  unfold wf_ndarray. intros Hwf. apply Forall_lookup_2. intros i r' Hi.
  destruct (lookup_lt_is_Some_2 (rows Y) i) as [r Hr].
  { rewrite <- Hl. by eapply lookup_lt_Some. }
  destruct (Hrows i r Hr) as (r'' & Hr'' & Hlen & _).
  rewrite Hr'' in Hi. injection Hi as <-.
  rewrite Hlen, Hc. by eapply Forall_lookup_1 in Hwf.
Qed.

Lemma descends_shape Xd sigma alpha lr weighted n_rff plot n t m Y s evs s' Y' r :
  descends Xd sigma alpha lr weighted n_rff plot n t m Y s evs s' Y' r ->
  shape Y' = shape Y /\ dtype Y' = dtype Y /\ (wf_ndarray Y -> wf_ndarray Y').
Proof.
  induction 1 as [| |n t m Y s s1 g m' Y' frame s2 e Hdiv Hadam Hf
                  |n t m Y s s1 g m' Y' frame s2 evs s3 Y'' r Hdiv Hadam Hf Hd IH];
    try done.
  - by eapply adam_applied_shape.
  - apply adam_applied_shape in Hadam as (H1 & H2 & H3).
    destruct IH as (IH1 & IH2 & IH3).
    split; [congruence|]. split; [congruence | auto].
Qed.

(** A descent that raises although the points had the columns of a frame
    has a library call that raised as its last call. *)
Lemma descends_raised_last Xd sigma alpha lr weighted n_rff plot n t m Y s evs
    s' Y' e :
  descends Xd sigma alpha lr weighted n_rff plot n t m Y s evs s' Y' (Raise e) ->
  (plot = true -> 2 <= ncols Xd) ->
  ncols Y = ncols Xd ->
  raised_last e evs.
Proof.
  intros H. remember (Raise e) as r eqn:Hr. revert Hr.
  induction H as [| |n t m Y s s1 g m' Y' frame s2 e' Hdiv Hadam Hf
                  |n t m Y s s1 g m' Y' frame s2 evs s3 Y'' r Hdiv Hadam Hf Hd IH];
    intros Hr H2 Hc; try done.
  - injection Hr as ->. apply raised_last_cons, raised_last_one.
  - injection Hr as ->. apply raised_last_app.
    unfold redrawn in Hf. destruct plot; [|by destruct Hf as (_ & _ & ?)].
    apply redraw_calls_redraws in Hf.
    apply adam_applied_shape in Hadam as [Hsh _].
    unfold shape in Hsh. injection Hsh as _ Hn.
    pose proof (redraw_calls_raise_last Xd Y' s1 e (H2 eq_refl)) as Hl.
    rewrite Hf in Hl. simpl in Hl. apply Hl; [|done]. rewrite Hn, Hc. by apply H2.
  - apply raised_last_app, raised_last_app, IH; [done | done |].
    apply adam_applied_shape in Hadam as [Hsh _].
    unfold shape in Hsh. injection Hsh as _ Hn. by rewrite Hn.
Qed.

(** A descent of at least one iteration on points of less than two columns
    raises when it draws the frame. *)
Lemma descends_no_column Xd sigma alpha lr weighted n_rff n t m Y s evs s' Y' r :
  descends Xd sigma alpha lr weighted n_rff true (S n) t m Y s evs s' Y' r ->
  ncols Xd < 2 ->
  is_ok r = false /\
  (Forall (fun ev => returned ev = true) evs -> r = Raise IndexError).
Proof.
  intros H H2.
  inversion H as [| |n' t' m0 Y0 s0 s1 g m' Y1 frame s2 e Hdiv Hadam Hf
                  |n' t' m0 Y0 s0 s1 g m' Y1 frame s2 evs' s3 Y'' r' Hdiv Hadam Hf Hd];
    subst.
  - split; [done|]. intros Hall. apply Forall_cons in Hall as [_ Hall].
    by apply Forall_cons in Hall as [Hall _].
  - split; [done|]. intros Hall. rewrite Forall_app in Hall.
    destruct Hall as [_ Hall]. unfold redrawn in Hf.
    apply redraw_calls_redraws in Hf.
    match type of Hf with
    | redraw_calls _ ?Y1 ?s1 = _ =>
        destruct (redraw_calls_no_column Xd Y1 s1 H2) as [_ Hr]
    end.
    rewrite Hf in Hr. simpl in Hr. by apply Hr.
  - unfold redrawn in Hf. apply redraw_calls_redraws in Hf.
    match type of Hf with
    | redraw_calls _ ?Y1 ?s1 = _ =>
        destruct (redraw_calls_no_column Xd Y1 s1 H2) as [Hr _]
    end.
    by rewrite Hf in Hr.
Qed.

Lemma uniform_draw_shape low high n d s A :
  uniform_draw low high n d s A -> shape A = (n, d) /\ wf_ndarray A.
Proof.
  intros (_ & Hc & Hl & Hrows). split; [by unfold shape, nrows; rewrite Hc, Hl|].
  apply Forall_lookup_2. intros i r Hi.
  destruct (Hrows i) as (r' & Hr' & Hlen & _).
  { rewrite <- Hl. by eapply lookup_lt_Some. }
  rewrite Hr' in Hi. injection Hi as <-. by rewrite Hc.
Qed.

Lemma as_floating_shape dt A B :
  as_floating dt A B ->
  shape B = shape A /\ dtype B = dt /\ (wf_ndarray A -> wf_ndarray B).
Proof.
  intros (Hdt & Hc & Hrows). split; [|split; [done|]].
  - unfold shape, nrows. by rewrite Hc, (Forall2_length _ _ _ Hrows).
  - unfold wf_ndarray. intros Hwf. apply Forall_lookup_2. intros i r Hi.
    destruct (Forall2_lookup_r _ _ _ _ _ Hrows Hi) as (r0 & Hr0 & Hrr).
    rewrite <- (Forall2_length _ _ _ Hrr), Hc.
    by eapply Forall_lookup_1 in Hwf.
Qed.

(** The array of a sampling that returns; the log of one that raises; what
    the dtype and the width of [X] forbid. *)
Lemma samples_outcome lX l0 X n_samples sigma alpha lr n_iter weighted n_rff
    plot s evs s' r :
  samples lX l0 X n_samples sigma alpha lr n_iter weighted n_rff plot s evs s' r ->
  (forall Y, r = Ok Y ->
     shape Y = (Z.to_nat n_samples, ncols X) /\ wf_ndarray Y /\
     dtype Y = dtype X /\ (0 <= n_samples)%Z /\
     is_floating_point (dtype X) = true) /\
  ((plot = true -> (0 < n_iter)%Z -> 2 <= ncols X) ->
   forall e, r = Raise e -> raised_last e evs) /\
  ((0 <= n_samples)%Z -> is_floating_point (dtype X) = false ->
   r = Raise RuntimeError) /\
  (plot = true -> (0 < n_iter)%Z -> ncols X < 2 ->
   is_ok r = false /\
   (Forall (fun ev => returned ev = true) evs -> r = Raise IndexError)).
Proof.
  intros H.
  destruct H as [s Hn|s Hn Hdt|s e Hn Hdt Hlr|s fig s2 e Hn Hdt Hlr Hfig
                 |s Y_ Y0 fig s2 loop s3 Y r Hn Hdt Hlr Hdraw Hcast Hfig Hd].
  - split; [done|]. split; [|split; [intros; lia|]].
    + intros _ e [= <-]. apply raised_last_one.
    + intros _ _ _. split; [done|]. intros Hall.
      by apply Forall_cons in Hall as [Hall _].
  - split; [done|]. split; [|split; [done|]].
    + intros _ e [= <-]. unfold sampling_setup.
      do 2 apply raised_last_cons. apply raised_last_one.
    + intros _ _ _. split; [done|]. intros Hall. unfold sampling_setup in Hall.
      do 2 (apply Forall_cons in Hall as [_ Hall]).
      by apply Forall_cons in Hall as [Hall _].
  - split; [done|]. split; [|split; [congruence|]].
    + intros _ e' [= <-]. apply raised_last_app, raised_last_one.
    + intros _ _ _. split; [done|]. intros Hall.
      rewrite Forall_app in Hall. destruct Hall as [_ Hall].
      by apply Forall_cons in Hall as [Hall _].
  - assert (Hev : fig = [Ev PltSubplots (Raised e)]).
    { unfold figure in Hfig. destruct plot; [|by destruct Hfig as (_ & _ & ?)].
      by destruct Hfig as [_ ->]. }
    subst fig.
    split; [done|]. split; [|split; [congruence|]].
    + intros _ e' [= <-]. apply raised_last_app, raised_last_cons, raised_last_one.
    + intros _ _ _. split; [done|]. intros Hall.
      rewrite Forall_app in Hall. destruct Hall as [_ Hall].
      apply Forall_cons in Hall as [_ Hall].
      by apply Forall_cons in Hall as [Hall _].
  - apply uniform_draw_shape in Hdraw as [Hsh_ Hwf_].
    apply as_floating_shape in Hcast as (Hsh0 & Hdt0 & Hwf0).
    pose proof (descends_shape _ _ _ _ _ _ _ _ _ _ _ _ _ _ _ _ Hd)
      as (Hsh & Hdty & Hwf).
    assert (Hc0 : ncols Y0 = ncols X).
    { rewrite Hsh_ in Hsh0. unfold shape in Hsh0. by injection Hsh0. }
    split; [|split; [|split; [congruence|]]].
    + intros Y' HY. destruct r as [[]|e]; [|done]. injection HY as <-.
      rewrite Hsh, Hsh0, Hsh_, Hdty, Hdt0. auto.
    + intros H2 e HY. destruct r as [[]|e']; [done|]. injection HY as <-.
      rewrite (right_id_L [] (++)).
      apply raised_last_app, raised_last_cons, raised_last_app.
      eapply descends_raised_last; [exact Hd| |done].
      intros Hp. apply H2; [done|].
      destruct (Z.to_nat n_iter) eqn:Hi; [|lia].
      inversion Hd.
    + intros Hp Hi H2.
      destruct (Z.to_nat n_iter) as [|n] eqn:Hin; [lia|]. subst plot.
      destruct (descends_no_column _ _ _ _ _ _ _ _ _ _ _ _ _ _ _ Hd H2)
        as [Hr1 Hr2].
      destruct r as [[]|e]; [done|]. split; [done|]. intros Hall.
      rewrite Forall_app in Hall. destruct Hall as [_ Hall].
      apply Forall_cons in Hall as [_ Hall].
      rewrite !Forall_app in Hall. destruct Hall as (_ & Hall & _).
      by injection (Hr2 Hall) as ->.
Qed.

(** C1, amended.  For [n_samples >= 1], a call of [JRD_sampling] that
    returns has made an array of exactly [n_samples] rows and as many
    columns as [X], of the dtype of [X], whatever values the divergence
    took.  For an [X] of a floating point dtype, with two columns at least
    when frames are drawn, a call that does not return has a library call
    that raised as its last call, and raises the exception of that call.
    An [X] of an integer dtype makes the call raise [RuntimeError], at
    [torch.tensor]; an [X] of less than two columns cannot be drawn, and
    the call then raises [IndexError] unless a library call raised
    before. *)
Theorem JRD_sampling_shape (X : loc) (n_samples : Z) (sigma alpha lr : Q)
    (n_iter : Z) (weighted : bool) (n_rff : option Z) (plot : bool)
    (cX : cell) (w : world) :
  w_heap w !! X = Some cX ->
  (1 <= n_samples)%Z ->
  let run := JRD_sampling X n_samples sigma alpha lr n_iter weighted n_rff plot w in
  let Xd := c_data cX in
  exists evs,
    w_log run.1 = w_log w ++ evs /\
    (forall Y, run.2 = Ok Y ->
       exists cY, w_heap run.1 !! Y = Some cY /\
         shape (c_data cY) = (Z.to_nat n_samples, ncols Xd) /\
         wf_ndarray (c_data cY) /\
         dtype (c_data cY) = dtype Xd) /\
    (is_floating_point (dtype Xd) = true ->
     (plot = true -> (0 < n_iter)%Z -> 2 <= ncols Xd) ->
     forall e, run.2 = Raise e -> raised_last e evs) /\
    (is_floating_point (dtype Xd) = false -> run.2 = Raise RuntimeError) /\
    (plot = true -> (0 < n_iter)%Z -> ncols Xd < 2 ->
     is_ok run.2 = false /\
     (Forall (fun ev => returned ev = true) evs -> run.2 = Raise IndexError)).
Proof.
  intros HX Hn run Xd.
  destruct (JRD_sampling_samples X n_samples sigma alpha lr n_iter weighted n_rff
              plot cX w HX) as (evs & r & Hlog & Hs & Hr).
  fold run in Hlog, Hr.
  apply samples_outcome in Hs as (Hret & Hlast & Hint & Hcol).
  exists evs. split; [done|]. split; [|split; [|split]].
  - intros Y HY. destruct r as [Y'|e]; [|congruence].
    destruct Hr as [HY' [g Hg]]. rewrite HY in HY'. injection HY' as ->.
    destruct (Hret Y' eq_refl) as (H1 & H2 & H3 & _). by eauto.
  - intros _ H2 e He. destruct r as [Y'|e'].
    + destruct Hr as [HY _]. congruence.
    + rewrite He in Hr. injection Hr as ->. by apply Hlast.
  - intros Hdt. rewrite (Hint ltac:(lia) Hdt) in Hr. done.
  - intros Hp Hi H2. destruct (Hcol Hp Hi H2) as [Hno Hix].
    destruct r as [Y'|e]; [done|]. rewrite Hr. split; [done|].
    intros Hall. by injection (Hix Hall) as ->.
Qed.

(** C7.  The loop of [JRD_sampling] is bounded by [n_iter] and has no exit of
    its own: whatever the libraries answer, at most [n_iter] divergences are
    evaluated and at most [n_iter] Adam steps are taken; when the function
    returns, exactly [n_iter] of each were; and it returns whenever no
    library call raises, for an [X] of a floating point dtype that has the
    two columns a frame needs.  The model is a total function, so the loop
    terminates on every input. *)
Theorem JRD_sampling_iterations (X : loc) (n_samples : Z) (sigma alpha lr : Q)
    (n_iter : Z) (weighted : bool) (n_rff : option Z) (plot : bool)
    (cX : cell) (w : world) :
  w_heap w !! X = Some cX ->
  (0 <= n_samples)%Z ->
  (0 <= n_iter)%Z ->
  let run := JRD_sampling X n_samples sigma alpha lr n_iter weighted n_rff plot w in
  exists evs,
    w_log run.1 = w_log w ++ evs /\
    (Z.of_nat (count_calls is_divergence_call evs) <= n_iter)%Z /\
    (Z.of_nat (count_calls is_step_call evs) <= n_iter)%Z /\
    (is_ok run.2 = true ->
     Z.of_nat (count_calls is_divergence_call evs) = n_iter /\
     Z.of_nat (count_calls is_step_call evs) = n_iter) /\
    (is_floating_point (dtype (c_data cX)) = true ->
     (plot = true -> 2 <= ncols (c_data cX)) ->
     adam_check lr = Ok tt ->
     divergence_total sigma alpha weighted n_rff ->
     plotting_total plot ->
     is_ok run.2 = true).
Proof.
  intros HX Hn Hi run.
  destruct (JRD_sampling_counts X n_samples sigma alpha lr n_iter weighted n_rff
              plot w) as (evs & Hlog & Hd & Hs & Heq).
  fold run in Hlog, Heq.
  exists evs. split; [done|]. split; [lia|]. split; [lia|]. split.
  - intros Hok. destruct (Heq Hok). lia.
  - intros Hdt H2 Hlr Hdiv Hplot.
    destruct (JRD_sampling_returns X n_samples sigma alpha lr n_iter weighted
                n_rff plot cX w) as (Y & cY & HY & _); try done.
    fold run in HY. by rewrite HY.
Qed.

(** C8.  [JRD_sampling] writes to no array that existed before the call: the
    store keeps every cell it had, in particular the one of [X], whatever the
    libraries do and whether or not the call returns.  The only tensor given
    to the optimizer is the candidate, created with [requires_grad] at a
    location that did not exist before the call. *)
Theorem JRD_sampling_frame (X : loc) (n_samples : Z) (sigma alpha lr : Q)
    (n_iter : Z) (weighted : bool) (n_rff : option Z) (plot : bool) (w : world) :
  let run := JRD_sampling X n_samples sigma alpha lr n_iter weighted n_rff plot w in
  w_heap run.1 !! X = w_heap w !! X /\
  (forall l, l < length (w_heap w) -> w_heap run.1 !! l = w_heap w !! l) /\
  exists evs,
    w_log run.1 = w_log w ++ evs /\
    forall ps lr' o, Ev (OptimAdam ps lr') o ∈ evs ->
      ps = [mk_tensor (S (length (w_heap w))) true].
Proof.
  intros run. subst run.
  destruct (w_heap w !! X) as [cX|] eqn:HX.
  2: { rewrite JRD_sampling_unallocated by done. simpl.
       split; [done|]. split; [done|]. exists [].
       rewrite (right_id_L [] (++)). split; [done|].
       intros ps lr' o Hin. by apply elem_of_nil in Hin. }
  destruct (Z.lt_ge_cases n_samples 0) as [Hn|Hn].
  { rewrite (JRD_sampling_negative _ _ _ _ _ _ _ _ _ cX) by done. simpl.
    split; [done|]. split; [done|]. eexists. split; [reflexivity|].
    intros ps lr' o Hin. apply list_elem_of_singleton in Hin. done. }
  assert (HXlt : X < length (w_heap w)) by (by eapply lookup_lt_Some).
  destruct (is_floating_point (dtype (c_data cX))) eqn:Hdt.
  2: { rewrite (JRD_sampling_integer _ _ _ _ _ _ _ _ _ cX) by done. cbv zeta.
       destruct (draw_rows _ _ _ _ _) as [s1 rs]. simpl.
       split; [by rewrite lookup_app_l|].
       split; [by intros l Hl; rewrite lookup_app_l|].
       eexists. split; [reflexivity|].
       intros ps lr' o Hin.
       repeat (apply elem_of_cons in Hin as [Hin|Hin]; [by inversion Hin|]).
       by apply elem_of_nil in Hin. }
  rewrite (JRD_sampling_run _ _ _ _ _ _ _ _ _ cX) by done. cbv zeta.
  destruct (draw_rows _ _ _ _ _) as [s1 rs].
  set (Y_ := mk_ndarray _ _ rs).
  set (Y0 := astype _ Y_).
  assert (Happ : forall l, l < length (w_heap w) ->
    (w_heap w ++ [mk_cell Y_ None; mk_cell Y0 None]) !! l = w_heap w !! l).
  { intros l Hl. by rewrite lookup_app_l. }
  assert (Hins : forall c l, l < length (w_heap w) ->
    <[S (length (w_heap w)) := c]>
      (w_heap w ++ [mk_cell Y_ None; mk_cell Y0 None]) !! l = w_heap w !! l).
  { intros c l Hl. rewrite list_lookup_insert_ne by lia. by apply Happ. }
  rewrite <- HX.
  destruct (adam_check lr) as [[]|e].
  2: { simpl. split; [by apply Happ|]. split; [done|].
       rewrite <- (assoc_L (++)). eexists. split; [reflexivity|].
       intros ps lr' o Hin. simpl in Hin.
       repeat (apply elem_of_cons in Hin as [Hin|Hin]; [by inversion Hin|]).
       by apply elem_of_nil in Hin. }
  assert (Hfig : exists s2 r2 fig,
    (if plot then
       let '(s2, r) := plt_subplots s1 in
       (s2, r, [Ev PltSubplots
                  (match r with Ok _ => Returned | Raise e => Raised e end)])
     else (s1, Ok tt, [])) = (s2, r2, fig) /\
    Forall (fun ev => is_loop_call ev = true) fig).
  { destruct plot; [|by eauto 10].
    destruct (plt_subplots s1) as [s2 r]. do 3 eexists. split; [done|].
    by repeat constructor. }
  destruct Hfig as (s2 & r2 & fig & -> & Hfig).
  assert (Hno : forall evs ps lr' o,
    Forall (fun ev => is_loop_call ev = true) evs ->
    Ev (OptimAdam ps lr') o ∈ evs -> False).
  { intros evs ps lr' o Hall Hin.
    eapply Forall_forall in Hall; eauto. done. }
  destruct r2 as [[]|e].
  2: { simpl. split; [by apply Happ|]. split; [done|].
       rewrite <- !(assoc_L (++)). eexists. split; [reflexivity|].
       intros ps lr' o Hin. simpl in Hin.
       repeat (apply elem_of_cons in Hin as [Hin|Hin]; [by inversion Hin|]).
       by destruct (Hno _ _ _ _ Hfig Hin). }
  pose proof (descent_calls (Z.to_nat n_iter) (c_data cX) sigma alpha lr
                weighted n_rff plot (mk_gd s2 Y0 None (O, []))) as Hev.
  destruct (descent _ _ _ _ _ _ _ _ _) as [[st' evs] [[]|e]]; simpl in *.
  - split; [by apply Hins|]. split; [by intros; apply Hins|].
    rewrite <- !(assoc_L (++)). eexists. split; [reflexivity|].
    intros ps lr' o Hin. simpl in Hin.
    repeat (apply elem_of_cons in Hin as [Hin|Hin]; [by inversion Hin|]).
    rewrite !elem_of_app in Hin. destruct Hin as [Hin|[Hin|Hin]].
    + by destruct (Hno _ _ _ _ Hfig Hin).
    + by destruct (Hno _ _ _ _ Hev Hin).
    + apply list_elem_of_singleton in Hin. done.
  - split; [by apply Hins|]. split; [by intros; apply Hins|].
    rewrite <- !(assoc_L (++)). eexists. split; [reflexivity|].
    intros ps lr' o Hin. simpl in Hin.
    repeat (apply elem_of_cons in Hin as [Hin|Hin]; [by inversion Hin|]).
    rewrite !elem_of_app in Hin. destruct Hin as [Hin|Hin].
    + by destruct (Hno _ _ _ _ Hfig Hin).
    + by destruct (Hno _ _ _ _ Hev Hin).
Qed.

(** *** The initial candidate *)




(** *** The loop is gradient descent on the library's divergence *)

(** C2.  A call of [JRD_sampling] on an array in the store is a sampling as
    [samples] words it, from the state of the libraries it finds to the one
    it leaves, with the calls it appends to the log: after the set-up,
    every iteration resets the gradient, evaluates the divergence of the
    library at [X] and the current candidate with the arguments of the
    call, and replaces every entry of the candidate by the update of Adam
    on that entry and the derivative of the value with respect to it; the
    step count of Adam grows by one, nothing else changes the candidate,
    and the array returned is the candidate after the last iteration.  A
    call that raises has followed the same course up to the call that
    raised. *)
Theorem JRD_sampling_is_descent (X : loc) (n_samples : Z) (sigma alpha lr : Q)
    (n_iter : Z) (weighted : bool) (n_rff : option Z) (plot : bool)
    (cX : cell) (w : world) :
  w_heap w !! X = Some cX ->
  let run := JRD_sampling X n_samples sigma alpha lr n_iter weighted n_rff plot w in
  let l0 := length (w_heap w) in
  exists evs r,
    w_log run.1 = w_log w ++ evs /\
    samples X l0 (c_data cX) n_samples sigma alpha lr n_iter weighted n_rff plot
      (w_lib w) evs (w_lib run.1) r /\
    match r with
    | Ok Y => run.2 = Ok (S l0) /\
              exists g, w_heap run.1 !! S l0 = Some (mk_cell Y g)
    | Raise e => run.2 = Raise e
    end.
Proof. apply JRD_sampling_samples. Qed.

End TorchFacts.

(** ** Reasoning on logs *)

Section TraceFacts.
Context {L : Libs}.

Lemma traces_ret {A} (a : A) (Q : list event -> result A -> Prop) :
  Q [] (Ok a) -> traces (ret a) Q.
Proof. intros H w. exists []. by rewrite (right_id_L [] (++)). Qed.

Lemma traces_lift {A} (r : result A) (Q : list event -> result A -> Prop) :
  Q [] r -> traces (lift r) Q.
Proof. intros H w. exists []. by rewrite (right_id_L [] (++)). Qed.

Lemma traces_emit c o (Q : list event -> result unit -> Prop) :
  Q [Ev c o] (Ok tt) -> traces (emit c o) Q.
Proof. intros H w. by exists [Ev c o]. Qed.

Lemma traces_lib_call {A} c (report : A -> outcome) f
    (Q : list event -> result A -> Prop) :
  (forall s,
     Q [Ev c (match (f s).2 with Ok a => report a | Raise e => Raised e end)]
       (f s).2) ->
  traces (lib_call c report f) Q.
Proof.
  intros H w. unfold lib_call. specialize (H (w_lib w)).
  destruct (f (w_lib w)) as [s1 r]. simpl in *. by eexists.
Qed.

Lemma traces_bind {A B} (m : M A) (k : A -> M B)
    (Q : list event -> result B -> Prop) :
  traces m (fun evs1 r1 =>
              match r1 with
              | Ok a => traces (k a) (fun evs2 r2 => Q (evs1 ++ evs2) r2)
              | Raise e => Q evs1 (Raise e)
              end) ->
  traces (bind m k) Q.
Proof.
  intros H w. destruct (H w) as (evs1 & Hlog & Hr). unfold bind.
  destruct (m w) as [w1 [a|e]]; simpl in *.
  - destruct (Hr w1) as (evs2 & Hlog2 & HQ).
    exists (evs1 ++ evs2). by rewrite Hlog2, Hlog, (assoc_L (++)).
  - by exists evs1.
Qed.

Lemma traces_try {A} (body handler : M A)
    (Q : list event -> result A -> Prop) :
  traces body (fun evs1 r1 =>
                 match r1 with
                 | Raise ValueError =>
                     traces handler (fun evs2 r2 => Q (evs1 ++ evs2) r2)
                 | _ => Q evs1 r1
                 end) ->
  traces (try_except_ValueError body handler) Q.
Proof.
  intros H w. destruct (H w) as (evs1 & Hlog & Hr).
  unfold try_except_ValueError.
  destruct (body w) as [w1 [a|[]]]; simpl in *; try by exists evs1.
  destruct (Hr w1) as (evs2 & Hlog2 & HQ).
  exists (evs1 ++ evs2). by rewrite Hlog2, Hlog, (assoc_L (++)).
Qed.

Lemma traces_conseq {A} (m : M A) (Q Q' : list event -> result A -> Prop) :
  traces m Q -> (forall evs r, Q evs r -> Q' evs r) -> traces m Q'.
Proof.
  intros H HQ w. destruct (H w) as (evs & Hlog & Hr). exists evs. auto.
Qed.

Lemma traces_and {A} (m : M A) (Q1 Q2 : list event -> result A -> Prop) :
  traces m Q1 -> traces m Q2 -> traces m (fun evs r => Q1 evs r /\ Q2 evs r).
Proof.
  intros H1 H2 w. destruct (H1 w) as (evs & Hlog & Hr).
  destruct (H2 w) as (evs' & Hlog' & Hr'). exists evs.
  rewrite Hlog in Hlog'. apply app_inv_head in Hlog'. by subst evs'.
Qed.

(** *** Discipline of exceptions *)

Lemma disciplined_nil {A} (r : result A) : disciplined [] r.
Proof. unfold disciplined. destruct r; auto. Qed.

Lemma disciplined_app {A B} evs1 evs2 (a : A) (r : result B) :
  disciplined evs1 (Ok a) -> disciplined evs2 r -> disciplined (evs1 ++ evs2) r.
Proof.
  intros H1 H2. unfold disciplined in *. destruct r as [b|e].
  - by apply Forall_app.
  - destruct H2 as [H2|(pre & c & -> & H2)].
    + left. by apply Forall_app.
    + right. exists (evs1 ++ pre), c. rewrite (assoc_L (++)).
      split; [done|]. by apply Forall_app.
Qed.

Lemma disciplined_call {A} c (o : A -> outcome) (r : result A) :
  (forall a e, o a <> Raised e) ->
  disciplined [Ev c (match r with Ok a => o a | Raise e => Raised e end)] r.
Proof.
  intros Ho. unfold disciplined. destruct r as [a|e].
  - repeat constructor. unfold quiet. simpl.
    destruct (o a) eqn:E; try done. by destruct (Ho a e).
  - right. by exists [], c.
Qed.

Lemma disciplined_weaken {A B} evs (a : A) (r : result B) :
  disciplined evs (Ok a) -> disciplined evs r.
Proof. intros H. unfold disciplined in *. destruct r; auto. Qed.

(** *** The calls of the descent *)

Lemma descent_step_disciplined Xd sigma alpha lr weighted n_rff plot st :
  let '(_, evs, r) := descent_step Xd sigma alpha lr weighted n_rff plot st in
  disciplined evs r /\
  Forall (divergence_on Xd sigma alpha weighted n_rff) evs.
Proof.
  unfold descent_step.
  destruct (div_divergenceJR _ _ _ _ _ _ _) as [s1 [g|e]].
  - destruct plot; [redraw_cases|]; unfold disciplined; simpl;
      (split; [|each_call not_this_call]);
      try (by each_call done);
      try (by left; each_call done);
      right;
      first [ eexists [_; _; _; _], _; split; [reflexivity|]
            | eexists [_; _; _; _; _], _; split; [reflexivity|]
            | eexists [_; _; _; _; _; _], _; split; [reflexivity|] ];
      by each_call done.
  - unfold disciplined. simpl. split; [|each_call not_this_call].
    right. eexists [Ev ZeroGrad Returned], _. split; [reflexivity|].
    by each_call done.
Qed.

Lemma descent_disciplined n Xd sigma alpha lr weighted n_rff plot st :
  let '(_, evs, r) := descent n Xd sigma alpha lr weighted n_rff plot st in
  disciplined evs r /\
  Forall (divergence_on Xd sigma alpha weighted n_rff) evs.
Proof.
  revert st. induction n as [|n IH]; intros st; simpl.
  - split; [by apply Forall_nil_2 | done].
  - pose proof (descent_step_disciplined Xd sigma alpha lr weighted n_rff plot st)
      as Hs.
    destruct (descent_step _ _ _ _ _ _ _ _) as [[st1 ev1] [[]|e]]; [|done].
    specialize (IH st1).
    destruct (descent _ _ _ _ _ _ _ _ _) as [[st2 ev2] r].
    destruct Hs as [Hs1 Hs2], IH as [IH1 IH2]. split.
    + by eapply disciplined_app.
    + by apply Forall_app.
Qed.

(** *** [JRD_sampling] seen from [train_imbalanced] *)

Lemma JRD_sampling_np_spec (X : ndarray) (n_samples : Z) (sigma alpha lr : Q)
    (n_iter : Z) (weighted : bool) (n_rff : option Z) (plot : bool) :
  (0 <= n_samples)%Z ->
  traces (JRD_sampling_np X n_samples sigma alpha lr n_iter weighted n_rff plot)
    (fun evs r =>
       JRD_post X n_samples sigma alpha weighted n_rff evs r /\
       (is_floating_point (dtype X) = true ->
        (plot = true -> 2 <= ncols X) ->
        adam_check lr = Ok tt ->
        divergence_total sigma alpha weighted n_rff ->
        plotting_total plot ->
        is_ok r = true)).
Proof.
  intros Hn [s h lg].
  destruct (JRD_sampling_np _ _ _ _ _ _ _ _ _ _) as [w' r'] eqn:Hrun.
  unfold JRD_sampling_np in Hrun.
  unfold bind at 1 in Hrun. unfold alloc at 1 in Hrun. simpl in Hrun.
  unfold bind at 1 in Hrun.
  destruct (is_floating_point (dtype X)) eqn:Hdt.
  2: { rewrite (JRD_sampling_integer _ _ _ _ _ _ _ _ _ (mk_cell X None)) in Hrun;
         [| simpl; by rewrite lookup_app_r, Nat.sub_diag | done | done].
       cbv zeta in Hrun. simpl in Hrun.
       destruct (draw_rows _ _ _ _ _) as [s1 rs].
       injection Hrun as <- <-. simpl.
       eexists. split; [reflexivity|]. split; [|done]. unfold JRD_post.
       split; [by each_call done|].
       split; [|split; [each_call not_this_call | done]].
       unfold disciplined. right. eexists [_; _], _.
       split; [reflexivity|]. by each_call done. }
  rewrite (JRD_sampling_run _ _ _ _ _ _ _ _ _ (mk_cell X None)) in Hrun;
    [| simpl; by rewrite lookup_app_r, Nat.sub_diag | done | done].
  cbv zeta in Hrun. simpl in Hrun.
  pose proof (initial_shape (dtype X) (Z.to_nat n_samples) (ncols X) s)
    as (Hsh0 & Hwf0 & _).
  destruct (draw_rows _ _ _ _ _) as [s1 rs]. simpl in Hsh0, Hwf0.
  unfold setup_calls, JRD_post in *.
  destruct (adam_check lr) as [[]|e] eqn:Hlr.
  2: { injection Hrun as <- <-. simpl. rewrite <- !(assoc_L (++)).
       eexists. split; [reflexivity|].
       simpl. split; [|done]. split; [by each_call done|].
       split; [|split; [each_call not_this_call | done]].
       unfold disciplined. right. eexists [_; _; _], _.
       split; [reflexivity|]. by each_call done. }
  assert (Hfig : exists s2 r2 fig,
    (if plot then
       let '(s2, r) := plt_subplots s1 in
       (s2, r, [Ev PltSubplots
                  (match r with Ok _ => Returned | Raise e => Raised e end)])
     else (s1, Ok tt, [])) = (s2, r2, fig) /\
    Forall (fun ev => is_jrd_call ev = true) fig /\
    disciplined fig r2 /\
    Forall (divergence_on X sigma alpha weighted n_rff) fig /\
    (plotting_total plot -> is_ok r2 = true)).
  { destruct plot.
    - pose proof (fun H : plotting_total true => proj1 (H eq_refl) s1) as Hp.
      destruct (plt_subplots s1) as [s2 [[]|e]]; do 3 eexists;
        (split; [reflexivity|]); simpl in *.
      + split; [by each_call done|].
        split; [unfold disciplined; by each_call done|].
        split; [each_call not_this_call | done].
      + split; [by each_call done|].
        split; [unfold disciplined; right; by exists [], PltSubplots|].
        split; [each_call not_this_call | done].
    - do 3 eexists. split; [reflexivity|]. simpl.
      split; [done|]. split; [apply disciplined_nil|]. split; done. }
  destruct Hfig as (s2 & r2 & fig & Hfig & Hf1 & Hf2 & Hf3 & Hf4).
  rewrite Hfig in Hrun. clear Hfig.
  destruct r2 as [[]|e].
  2: { injection Hrun as <- <-. simpl. rewrite <- !(assoc_L (++)).
       eexists. split; [reflexivity|].
       simpl. split; [|by intros _ _ _ _ Hp; specialize (Hf4 Hp)].
       split; [by each_call done|].
       split; [|split; [each_call not_this_call; done | done]].
       apply (disciplined_app [_; _; _; _] fig tt);
         [unfold disciplined; by each_call done | done]. }
  set (Y0 := astype _ _) in *.
  set (st0 := mk_gd s2 Y0 None (O, [])) in *.
  pose proof (descent_calls (Z.to_nat n_iter) X sigma alpha lr weighted n_rff
                plot st0) as Hc.
  pose proof (descent_disciplined (Z.to_nat n_iter) X sigma alpha lr weighted
                n_rff plot st0) as Hd.
  pose proof (descent_shape (Z.to_nat n_iter) X sigma alpha lr weighted n_rff
                plot st0) as [Hsh Hw].
  pose proof (fun Hd Hp H2 =>
                descent_ok (Z.to_nat n_iter) X sigma alpha lr weighted n_rff
                  plot st0 Hd Hp H2 eq_refl) as Hok.
  destruct (descent _ _ _ _ _ _ _ _ _) as [[st' evs] r].
  destruct Hd as [Hd1 Hd2]. simpl in Hc, Hsh, Hw, Hok.
  assert (Hjrd : Forall (fun ev => is_jrd_call ev = true) (fig ++ evs)).
  { apply Forall_app. split; [done|].
    eapply Forall_impl; [exact Hc|]. intros ev Hev. unfold is_jrd_call.
    rewrite Hev. by destruct (ev_call ev). }
  destruct r as [[]|e]; simpl in Hrun.
  - erewrite run_bind_ok in Hrun.
    2: { apply load_run. apply list_lookup_insert_eq.
         rewrite !length_app. simpl. lia. }
    unfold ret in Hrun. injection Hrun as <- <-.
    simpl. rewrite <- !(assoc_L (++)).
    eexists. split; [reflexivity|]. simpl. split; [|done].
    split.
    { each_call done. rewrite (assoc_L (++)). apply Forall_app.
      split; [done | by each_call done]. }
    split.
    { apply (disciplined_app [_; _; _; _] _ tt);
        [unfold disciplined; by each_call done|].
      apply (disciplined_app fig _ tt); [done|].
      apply (disciplined_app evs _ tt); [done|].
      unfold disciplined. by each_call done. }
    split.
    { each_call not_this_call. rewrite (assoc_L (++)). apply Forall_app.
      split; [by apply Forall_app | each_call not_this_call]. }
    intros Y [= <-]. rewrite Hsh. split; [done|]. by apply Hw.
  - injection Hrun as <- <-. simpl. rewrite <- !(assoc_L (++)).
    eexists. split; [reflexivity|]. simpl.
    split; [|by intros _ H2 _ Hdv Hp; specialize (Hok Hdv Hp H2)].
    split; [by each_call done|].
    split; [|split; [each_call not_this_call; by apply Forall_app | done]].
    apply (disciplined_app [_; _; _; _] (fig ++ evs) tt);
      [unfold disciplined; by each_call done|].
    by apply (disciplined_app fig evs tt).
Qed.

(** *** Exceptions propagate: the rules *)

Lemma sound_ret {A} (a : A) : sound (ret a).
Proof. apply traces_ret. apply disciplined_nil. Qed.

Lemma sound_lift {A} (r : result A) : sound (lift r).
Proof. apply traces_lift. apply disciplined_nil. Qed.

Lemma sound_emit c : sound (emit c Returned).
Proof. apply traces_emit. unfold disciplined. by each_call done. Qed.

Lemma sound_lib_call {A} c (report : A -> outcome) f :
  (forall a e, report a <> Raised e) -> sound (lib_call c report f).
Proof. intros H. apply traces_lib_call. intros s. by apply disciplined_call. Qed.

Lemma sound_bind {A B} (m : M A) (k : A -> M B) :
  sound m -> (forall a, sound (k a)) -> sound (bind m k).
Proof.
  intros Hm Hk. apply traces_bind. eapply traces_conseq; [exact Hm|].
  intros evs1 [a|e] H1; [|done].
  eapply traces_conseq; [apply Hk|]. intros evs2 r2 H2.
  by eapply disciplined_app.
Qed.

Lemma sound_for_each {B S} (xs : list B) (body : B -> S -> M S) (s : S) :
  (forall x s', sound (body x s')) -> sound (for_each xs body s).
Proof.
  intros Hb. revert s. induction xs as [|x xs IH]; intros s; simpl.
  - apply sound_ret.
  - apply sound_bind; [apply Hb | apply IH].
Qed.

Lemma sound_try {A} (body handler : M A) :
  traces body (fun evs r => disciplined evs r /\ Forall guardable evs) ->
  sound handler ->
  sound (try_except_ValueError body handler).
Proof.
  intros Hb Hh. apply traces_try. eapply traces_conseq; [exact Hb|].
  intros evs1 r1 [H1 Hg]. destruct r1 as [a|e]; [done|].
  destruct e; try done.
  eapply traces_conseq; [exact Hh|]. intros evs2 r2 H2.
  apply (disciplined_app evs1 evs2 tt); [|done].
  unfold disciplined in *. destruct H1 as [H1|(pre & c & -> & H1)]; [done|].
  apply Forall_app. split; [done|]. apply Forall_cons. split; [|done].
  apply Forall_app in Hg as [_ Hg]. apply Forall_cons in Hg as [Hg _].
  unfold quiet. simpl. by apply Hg.
Qed.

(** *** Calls and returned values: the rules *)

Lemma emits_ret {A} P (a : A) (R : A -> Prop) : R a -> emits P (ret a) R.
Proof. intros H. apply traces_ret. split; [done|]. by intros ? [= <-]. Qed.

Lemma emits_lift {A} P (r : result A) (R : A -> Prop) :
  (forall a, r = Ok a -> R a) -> emits P (lift r) R.
Proof. intros H. by apply traces_lift. Qed.

Lemma emits_emit P c o (R : unit -> Prop) :
  P (Ev c o) -> R tt -> emits P (emit c o) R.
Proof.
  intros H1 H2. apply traces_emit. split; [by each_call done|].
  by intros [] _.
Qed.

Lemma emits_lib_call {A} P c (report : A -> outcome) f (R : A -> Prop) :
  (forall o, P (Ev c o)) ->
  (forall s a, (f s).2 = Ok a -> R a) ->
  emits P (lib_call c report f) R.
Proof.
  intros H1 H2. apply traces_lib_call. intros s. split; [by each_call done|].
  apply H2.
Qed.

Lemma emits_bind {A B} P (m : M A) (k : A -> M B) (R1 : A -> Prop)
    (R2 : B -> Prop) :
  emits P m R1 -> (forall a, R1 a -> emits P (k a) R2) ->
  emits P (bind m k) R2.
Proof.
  intros Hm Hk. apply traces_bind. eapply traces_conseq; [exact Hm|].
  intros evs1 [a|e] [H1 HR]; [|done].
  eapply traces_conseq; [apply Hk; by apply HR|].
  intros evs2 r2 [H2 HR2]. split; [by apply Forall_app | done].
Qed.

Lemma emits_try {A} P (body handler : M A) (R : A -> Prop) :
  emits P body R -> emits P handler R ->
  emits P (try_except_ValueError body handler) R.
Proof.
  intros Hb Hh. apply traces_try. eapply traces_conseq; [exact Hb|].
  intros evs1 [a|e] [H1 HR]; [done|]. destruct e; try done.
  eapply traces_conseq; [exact Hh|].
  intros evs2 r2 [H2 HR2]. split; [by apply Forall_app | done].
Qed.

Lemma emits_for_each {B S} P (xs : list B) (body : B -> S -> M S)
    (I : S -> Prop) (s : S) :
  I s -> (forall x s', I s' -> emits P (body x s') I) ->
  emits P (for_each xs body s) I.
Proof.
  intros Hs Hb. revert s Hs. induction xs as [|x xs IH]; intros s Hs; simpl.
  - by apply emits_ret.
  - eapply emits_bind; [by apply Hb | apply IH].
Qed.

Lemma emits_conseq {A} (P P' : event -> Prop) (m : M A) (R R' : A -> Prop) :
  emits P m R -> (forall ev, P ev -> P' ev) -> (forall a, R a -> R' a) ->
  emits P' m R'.
Proof.
  intros H HP HR. eapply traces_conseq; [exact H|].
  intros evs r [H1 H2]. split; [by eapply Forall_impl | auto].
Qed.

Lemma emits_bind_call {A B} P c (report : A -> outcome) f (k : A -> M B)
    (R : B -> Prop) :
  (forall o, P (Ev c o)) -> (forall a, emits P (k a) R) ->
  emits P (bind (lib_call c report f) k) R.
Proof.
  intros H1 H2. eapply emits_bind with (R1 := fun _ => True).
  - by apply emits_lib_call.
  - intros a _. apply H2.
Qed.

Lemma emits_bind_lift {A B} P (r : result A) (k : A -> M B) (R : B -> Prop) :
  (forall a, r = Ok a -> emits P (k a) R) -> emits P (bind (lift r) k) R.
Proof.
  intros H. eapply emits_bind with (R1 := fun a => r = Ok a).
  - by apply emits_lift.
  - done.
Qed.

Lemma emits_bind_emit {B} P c o (k : unit -> M B) (R : B -> Prop) :
  P (Ev c o) -> emits P (k tt) R -> emits P (bind (emit c o) k) R.
Proof.
  intros H1 H2. eapply emits_bind with (R1 := fun _ => True).
  - by apply emits_emit.
  - by intros [] _.
Qed.

(** *** Returning: the rules *)

Lemma total_ret {A} (a : A) (R : A -> Prop) : R a -> total (ret a) R.
Proof. intros H. apply traces_ret. eauto. Qed.

Lemma total_lift {A} (r : result A) (R : A -> Prop) :
  (exists a, r = Ok a /\ R a) -> total (lift r) R.
Proof. intros H. by apply traces_lift. Qed.

Lemma total_emit c o (R : unit -> Prop) : R tt -> total (emit c o) R.
Proof. intros H. apply traces_emit. eauto. Qed.

Lemma total_lib_call {A} c (report : A -> outcome) f (R : A -> Prop) :
  (forall s, exists a, (f s).2 = Ok a /\ R a) ->
  total (lib_call c report f) R.
Proof. intros H. apply traces_lib_call. intros s. apply H. Qed.

Lemma total_bind {A B} (m : M A) (k : A -> M B) (R1 : A -> Prop)
    (R2 : B -> Prop) :
  total m R1 -> (forall a, R1 a -> total (k a) R2) -> total (bind m k) R2.
Proof.
  intros Hm Hk. apply traces_bind. eapply traces_conseq; [exact Hm|].
  intros evs1 r1 (a & -> & HR).
  eapply traces_conseq; [by apply Hk|]. by intros evs2 r2 H2.
Qed.

Lemma total_try {A} (body handler : M A) (R : A -> Prop) :
  total body R -> total (try_except_ValueError body handler) R.
Proof.
  intros Hb. apply traces_try. eapply traces_conseq; [exact Hb|].
  intros evs1 r1 (a & -> & HR). eauto.
Qed.

Lemma total_for_each {B S} (xs : list B) (body : B -> S -> M S)
    (I : S -> Prop) (s : S) :
  I s -> (forall x s', x ∈ xs -> I s' -> total (body x s') I) ->
  total (for_each xs body s) I.
Proof.
  intros Hs Hb. revert s Hs. induction xs as [|x xs IH]; intros s Hs; simpl.
  - by apply total_ret.
  - eapply total_bind; [apply Hb; [by left | done] |].
    intros a Ha. apply IH; [|done]. intros y s' Hy. apply Hb. by right.
Qed.

Lemma total_conseq {A} (m : M A) (R R' : A -> Prop) :
  total m R -> (forall a, R a -> R' a) -> total m R'.
Proof.
  intros H HR. eapply traces_conseq; [exact H|].
  intros evs r (a & -> & Ha). eauto.
Qed.

End TraceFacts.


Ltac sound_leaf :=
  match goal with
  | |- sound (ret _) => apply sound_ret
  | |- sound (lift _) => apply sound_lift
  | |- sound (emit _ Returned) => apply sound_emit
  | |- sound (lib_call _ _ _) => apply sound_lib_call; by intros
  end.

Ltac sound_step :=
  match goal with
  | |- sound (bind (lift _) _) => apply sound_bind; [sound_leaf | intros ?]
  | |- sound (bind (emit _ _) _) => apply sound_bind; [sound_leaf | intros ?]
  | |- sound (bind (lib_call _ _ _) _) =>
      apply sound_bind; [sound_leaf | intros ?]
  | |- _ => sound_leaf
  end.



(** ** [train_imbalanced]: exceptions *)

Section Exceptions.
Context {L : Libs}.

Lemma JRD_sampling_np_sound X n_samples sigma alpha lr n_iter weighted n_rff plot :
  (0 <= n_samples)%Z ->
  sound (JRD_sampling_np X n_samples sigma alpha lr n_iter weighted n_rff plot).
Proof.
  intros Hn. eapply traces_conseq; [by apply JRD_sampling_np_spec|].
  by intros evs r [(_ & H & _) _].
Qed.

Lemma load_dataset_sound dataset fold : sound (load_dataset dataset fold).
Proof. unfold load_dataset. repeat sound_step. Qed.

Lemma tune_and_fit_sound st Xsub Xtr ytr : sound (tune_and_fit st Xsub Xtr ytr).
Proof. unfold tune_and_fit. repeat sound_step. Qed.

Lemma score_sound st clf X y : sound (score st clf X y).
Proof. unfold score. repeat sound_step. Qed.

Lemma score_nested_guardable clf X y :
  emits guardable (score Nested clf X y) (fun _ => True).
Proof.
  unfold score.
  eapply emits_bind; [apply emits_lib_call with (R := fun _ => True)|].
  - intros o Ho. simpl in Ho. by subst o.
  - done.
  - intros P _.
    eapply emits_bind; [apply emits_lift with (R := fun _ => True); done|].
    intros p1 _. apply emits_lib_call; [|done].
    intros o Ho. simpl in Ho. by subst o.
Qed.

Lemma nested_candidate_sound maj_label min_label alpha n_rff Xmaj_cv Xmin_cv
    Xtest_ Ytest_ i_sigma AUC_cv :
  sound (nested_candidate maj_label min_label alpha n_rff Xmaj_cv Xmin_cv
           Xtest_ Ytest_ i_sigma AUC_cv).
Proof.
  unfold nested_candidate.
  apply sound_bind; [apply JRD_sampling_np_sound; lia | intros Xmaj_cv_].
  apply sound_bind; [apply sound_lift | intros Xtrain_cv].
  apply sound_bind; [apply tune_and_fit_sound | intros clf].
  apply sound_try; [|apply sound_ret].
  apply traces_bind.
  eapply traces_conseq;
    [apply traces_and; [apply score_sound | apply score_nested_guardable]|].
  intros evs1 [v|e] [H1 [H2 _]]; [|done].
  apply traces_lift. rewrite (right_id_L [] (++)). split; [|done].
  by eapply disciplined_weaken.
Qed.

Lemma nested_cv_sound maj_label min_label alpha n_sigmas n_rff Xtrain Ytrain :
  sound (nested_cv maj_label min_label alpha n_sigmas n_rff Xtrain Ytrain).
Proof.
  unfold nested_cv.
  apply sound_bind; [by apply sound_lib_call | intros [[[Xtrain_ Xtest_] Ytrain_] Ytest_]].
  repeat sound_step.
  apply sound_bind; [|intros AUC_cv; sound_step].
  apply sound_for_each. intros i_sigma AUC_cv. apply nested_candidate_sound.
Qed.

Lemma select_sigma_sound maj_label min_label alpha n_sigmas n_rff Xtrain Ytrain :
  sound (select_sigma maj_label min_label alpha n_sigmas n_rff Xtrain Ytrain).
Proof.
  unfold select_sigma.
  apply sound_bind; [apply nested_cv_sound | intros cv].
  repeat sound_step.
Qed.



(** *** The guard *)






End Exceptions.


(** ** [load_dataset] *)

Section LoadingFacts.
Context {L : Libs}.

Lemma relabel_label_of (o : pyobj) :
  astype_int
    (if pyobj_is_str " negative"
          (if pyobj_is_str " positive" o then PInt 1 else o)
     then PInt 0
     else if pyobj_is_str " positive" o then PInt 1 else o) = label_of o.
Proof.
  destruct o as [s|z|q|z|q]; simpl; try done.
  repeat case_bool_decide; simpl; try done.
  - by subst.
  - by rewrite bool_decide_eq_false_2.
Qed.

Lemma astype_int1_labels_of (col : list pyobj) :
  astype_int1 (assign_where " negative" 0 (assign_where " positive" 1 col)) =
  labels_of col.
Proof.
  induction col as [|o col IH]; [done|].
  unfold assign_where in *. simpl map.
  cbn [astype_int1 labels_of]. rewrite relabel_label_of.
  destruct (label_of o); [|done]. by rewrite IH.
Qed.

Lemma astype_int2_labels_of (col : list pyobj) :
  astype_int2
    (assign_where2 " negative" 0
       (assign_where2 " positive" 1 (map (fun o => [o]) col))) =
  match labels_of col with
  | Ok zs => Ok (map (fun z => [z]) zs)
  | Raise e => Raise e
  end.
Proof.
  induction col as [|o col IH]; [done|].
  unfold assign_where2, assign_where in *. simpl map.
  cbn [astype_int2 astype_int1 labels_of]. rewrite relabel_label_of.
  destruct (label_of o); [|done]. rewrite IH.
  by destruct (labels_of col).
Qed.

Lemma labels_of_length col zs : labels_of col = Ok zs -> length zs = length col.
Proof.
  revert zs. induction col as [|o col IH]; intros zs; simpl.
  - by intros [= <-].
  - destruct (label_of o); [|done].
    destruct (labels_of col) as [zs'|]; [|done].
    intros [= <-]. simpl. by rewrite (IH zs').
Qed.

Lemma labels_of_raise col e :
  labels_of col = Raise e -> exists o, o ∈ col /\ label_of o = Raise e.
Proof.
  induction col as [|o col IH]; simpl; [done|].
  destruct (label_of o) as [z|e'] eqn:Ho.
  - destruct (labels_of col) as [zs|e'']; [done|]. intros [= ->].
    destruct (IH eq_refl) as (o' & Hin & ?). exists o'. split; [by right | done].
  - intros [= ->]. exists o. split; [by left | done].
Qed.

Lemma label_of_raise o e :
  label_of o = Raise e ->
  (e = ValueError /\ not_a_literal o) \/ (e = OverflowError /\ beyond_int64 o).
Proof.
  unfold not_a_literal, beyond_int64.
  destruct o as [s|z|q|z|q]; simpl; try done.
  - repeat case_bool_decide; try done.
    destruct (py_int s) as [z|] eqn:Hs.
    + destruct (in_int64 z) eqn:Hz; [done|]. intros [= <-]. right.
      split; [done|]. exists z. split; [done|]. left. by exists s.
    + intros [= <-]. left. split; [done|]. by exists s.
  - destruct (in_int64 z) eqn:Hz; [done|]. intros [= <-]. right.
    split; [done|]. exists z. auto.
  - destruct (in_int64 (truncate q)) eqn:Hz; [done|]. intros [= <-]. right.
    split; [done|]. exists (truncate q). split; [done|]. right. right.
    by exists q.
Qed.

Lemma in_int64_range (z : Z) :
  in_int64 z = true <->
  (-9223372036854775808 <= z <= 9223372036854775807)%Z.
Proof. unfold in_int64. change (2 ^ 63)%Z with 9223372036854775808%Z. lia. Qed.

(** C9, amended.  [load_dataset] reads the two files of the fold; with
    [ctrain] and [ctest] the last columns of the two frames:
    - exactly [' positive'] is mapped to 1 and [' negative'] to 0; any other
      string is left as it is and goes through [int] and the conversion to
      int64: it raises [ValueError] when it is no integer literal and
      [OverflowError] when the integer is not between [-2^63] and
      [2^63 - 1], and is that integer otherwise;
    - the call returns when every label of both files converts, and
      otherwise raises the exception of the first label that does not, in
      the training file first;
    - the two label arrays are integer arrays, [Ytrain] one-dimensional of
      length [n], [Ytest] two-dimensional of shape [(n_test, 1)]; the two
      feature arrays are the numeric columns of the frames. *)
Theorem load_dataset_labels (dataset : string) (fold : Z) (w : world)
    (df dftest : DataFrame) (s1 s2 : lib_state) (ctrain ctest : column) :
  pd_read_table (train_file dataset fold) (w_lib w) = (s1, Ok df) ->
  pd_read_table (test_file dataset fold) s1 = (s2, Ok dftest) ->
  last df = Some ctrain ->
  last dftest = Some ctest ->
  let run := load_dataset dataset fold w in
  run.2 =
    match labels_of (col_values ctrain), labels_of (col_values ctest) with
    | Ok Ytrain, Ok Ytest =>
        Ok (numeric_array df, Ytrain, numeric_array dftest,
            map (fun z => [z]) Ytest)
    | Raise e, _ => Raise e
    | Ok _, Raise e => Raise e
    end /\
  (forall Xtrain Ytrain Xtest Ytest,
     run.2 = Ok (Xtrain, Ytrain, Xtest, Ytest) ->
     length Ytrain = length (col_values ctrain) /\
     length Ytest = length (col_values ctest) /\
     Forall (fun r => length r = 1) Ytest) /\
  (forall e, run.2 = Raise e ->
     exists o, o ∈ col_values ctrain ++ col_values ctest /\
       ((e = ValueError /\ not_a_literal o) \/
        (e = OverflowError /\ beyond_int64 o))) /\
  label_of (PStr " positive") = Ok 1%Z /\
  label_of (PStr " negative") = Ok 0%Z /\
  (forall s, s <> " positive" -> s <> " negative" ->
     label_of (PStr s) =
       match py_int s with
       | Some z => if in_int64 z then Ok z else Raise OverflowError
       | None => Raise ValueError
       end) /\
  (forall z, in_int64 z = true <->
     (-9223372036854775808 <= z <= 9223372036854775807)%Z).
Proof.
  intros H1 H2 Hl1 Hl2 run.
  assert (Hrun : run.2 =
    match labels_of (col_values ctrain), labels_of (col_values ctest) with
    | Ok Ytrain, Ok Ytest =>
        Ok (numeric_array df, Ytrain, numeric_array dftest,
            map (fun z => [z]) Ytest)
    | Raise e, _ => Raise e
    | Ok _, Raise e => Raise e
    end).
  { subst run. destruct w as [s h lg]. simpl in H1.
    unfold load_dataset, bind, lib_call, lift, ret, iloc_last, iloc_last_slice.
    simpl. rewrite H1. simpl. rewrite H2. simpl. rewrite Hl1, Hl2.
    rewrite astype_int1_labels_of, astype_int2_labels_of.
    destruct (labels_of (col_values ctrain)); [|done].
    by destruct (labels_of (col_values ctest)). }
  split; [exact Hrun|]. rewrite Hrun. clear Hrun.
  split; [|split; [|split; [done|split; [done|split]]]].
  - intros Xtrain Ytrain Xtest Ytest.
    destruct (labels_of (col_values ctrain)) as [ys|] eqn:E1; [|done].
    destruct (labels_of (col_values ctest)) as [yt|] eqn:E2; [|done].
    intros [= <- <- <- <-].
    split; [by apply labels_of_length|].
    rewrite length_map. split; [by apply labels_of_length|].
    by apply Forall_map, Forall_true.
  - intros e.
    destruct (labels_of (col_values ctrain)) as [ys|e1] eqn:E1.
    + destruct (labels_of (col_values ctest)) as [yt|e2] eqn:E2; [done|].
      intros [= <-].
      destruct (labels_of_raise _ _ E2) as (o & Hin & Ho).
      exists o. rewrite elem_of_app. split; [by right|].
      by apply label_of_raise.
    + intros [= <-].
      destruct (labels_of_raise _ _ E1) as (o & Hin & Ho).
      exists o. rewrite elem_of_app. split; [by left|].
      by apply label_of_raise.
  - intros s Hp Hn. simpl. by rewrite !bool_decide_eq_false_2.
  - apply in_int64_range.
Qed.

End LoadingFacts.

(** ** numpy: [argmax] and [linspace] *)

Lemma Qltb_lt (a b : Q) : Qltb a b = true <-> (a < b)%Q.
Proof.
  unfold Qltb. rewrite negb_true_iff. split.
  - intros H. apply Qnot_le_lt. intros Hle.
    apply Qle_bool_iff in Hle. congruence.
  - intros H. destruct (Qle_bool b a) eqn:E; [|done].
    apply Qle_bool_iff in E. by apply Qlt_not_le in H.
Qed.

Lemma arg_best_first_max (l pre : list Q) (best : Q) (ibest : nat) :
  pre !! ibest = Some best ->
  (forall j v, pre !! j = Some v -> (v <= best)%Q /\ (j < ibest -> (v < best)%Q)) ->
  let k := arg_best (fun x b => Qltb b x) best ibest (length pre) l in
  exists m,
    (pre ++ l) !! k = Some m /\
    forall j v, (pre ++ l) !! j = Some v -> (v <= m)%Q /\ (j < k -> (v < m)%Q).
Proof.
  revert pre best ibest. induction l as [|x l IH]; intros pre best ibest Hb Hall.
  - simpl. exists best. by rewrite (right_id_L [] (++)).
  - simpl. destruct (Qltb best x) eqn:Hx.
    + apply Qltb_lt in Hx.
      specialize (IH (pre ++ [x]) x (length pre)).
      rewrite length_app, Nat.add_1_r, <- (assoc_L (++)) in IH. apply IH.
      * by rewrite lookup_app_r, Nat.sub_diag.
      * intros j v Hj. destruct (decide (j < length pre)) as [Hlt|Hge].
        -- rewrite lookup_app_l in Hj by done.
           destruct (Hall j v Hj) as [Hle _]. split.
           ++ apply Qlt_le_weak. by eapply Qle_lt_trans.
           ++ intros _. by eapply Qle_lt_trans.
        -- rewrite lookup_app_r in Hj by lia.
           destruct (j - length pre) as [|n] eqn:E; simpl in Hj; [|done].
           injection Hj as <-. split; [apply Qle_refl | lia].
    + assert (Hle : (x <= best)%Q).
      { destruct (Qlt_le_dec best x) as [H|H]; [|done].
        apply Qltb_lt in H. congruence. }
      specialize (IH (pre ++ [x]) best ibest).
      rewrite length_app, Nat.add_1_r, <- (assoc_L (++)) in IH. apply IH.
      * rewrite lookup_app_l; [done | by eapply lookup_lt_Some].
      * intros j v Hj. destruct (decide (j < length pre)) as [Hlt|Hge].
        -- rewrite lookup_app_l in Hj by done. by apply Hall.
        -- rewrite lookup_app_r in Hj by lia.
           destruct (j - length pre) as [|n] eqn:E; simpl in Hj; [|done].
           injection Hj as <-. split; [done|].
           apply lookup_lt_Some in Hb. lia.
Qed.

(** [np.argmax] returns the first index of a maximal entry. *)
Lemma np_argmax_first_max (a : list Q) (k : nat) :
  np_argmax a = Ok k ->
  exists m,
    a !! k = Some m /\
    forall j v, a !! j = Some v -> (v <= m)%Q /\ (j < k -> (v < m)%Q).
Proof.
  destruct a as [|x l]; [done|]. intros [= <-].
  apply (arg_best_first_max l [x] x 0); [done|].
  intros [|j] v Hj; simpl in Hj; [|done].
  injection Hj as <-. split; [apply Qle_refl | lia].
Qed.

Lemma np_argmax_ok (a : list Q) :
  a <> [] -> exists k, np_argmax a = Ok k /\ k < length a.
Proof.
  destruct a as [|x l]; [done|]. intros _. eexists. split; [reflexivity|].
  destruct (np_argmax_first_max (x :: l) _ eq_refl) as (m & Hk & _).
  by eapply lookup_lt_Some.
Qed.

Lemma np_linspace_length start stop num : length (np_linspace start stop num) = num.
Proof. unfold np_linspace. by rewrite length_map, length_seq. Qed.

(** The entries of [np.linspace(start, stop, num)] are
    [start + i * (stop - start) / (num - 1)]. *)
Lemma np_linspace_spaced start stop num :
  linearly_spaced start stop num (np_linspace start stop num).
Proof.
  split; [apply np_linspace_length|]. intros i x Hx. unfold np_linspace in Hx.
  rewrite list_lookup_fmap in Hx.
  destruct (seq 0 num !! i) as [i'|] eqn:Hi; [|done].
  apply lookup_seq in Hi as [-> Hi]. simpl in Hx. injection Hx as <-.
  case_bool_decide as Hfirst.
  { subst i. simpl. unfold Qdiv. ring. }
  case_bool_decide as Hlast; [|reflexivity].
  replace (num - 1) with i by lia.
  assert (Hnz : ~ (inject_Z (Z.of_nat i) == 0)%Q).
  { unfold Qeq. simpl. lia. }
  field. exact Hnz.
Qed.

Lemma np_linspace_lookup start stop num i s :
  2 <= num ->
  np_linspace start stop num !! i = Some s ->
  i < num /\
  (s == start + inject_Z (Z.of_nat i) *
               ((stop - start) / inject_Z (Z.of_nat (num - 1))))%Q.
Proof.
  intros _ Hs. split.
  - apply lookup_lt_Some in Hs. by rewrite np_linspace_length in Hs.
  - by apply np_linspace_spaced in Hs.
Qed.

(** With a non-negative bandwidth scale the first candidate is the least. *)
Lemma np_linspace_first_least (sigma0 : Q) (num : nat) i s :
  2 <= num ->
  (0 <= sigma0)%Q ->
  np_linspace (0.01 * sigma0) (3 * sigma0) num !! i = Some s ->
  (0.01 * sigma0 <= s)%Q.
Proof.
  intros Hnum H0 Hs. apply np_linspace_lookup in Hs as [Hi ->]; [|done].
  assert (Hi' : (0 <= inject_Z (Z.of_nat i))%Q).
  { unfold Qle. simpl. lia. }
  assert (Hn : (0 < inject_Z (Z.of_nat (num - 1)))%Q).
  { unfold Qlt. simpl. lia. }
  assert (Hstep : (0 <= (3 * sigma0 - 0.01 * sigma0) /
                        inject_Z (Z.of_nat (num - 1)))%Q).
  { apply Qle_shift_div_l; [done|]. lra. }
  pose proof (Qmult_le_0_compat _ _ Hi' Hstep). lra.
Qed.

(** *** The first index of a best entry *)

Lemma arg_best_spec {A} (better : A -> A -> bool) (le : A -> A -> Prop)
    (l pre : list A) (best : A) (ibest : nat) :
  (forall x y, if better x y then ~ le x y else le x y) ->
  (forall x y z, le x y -> le y z -> le x z) ->
  (forall x y, le x y \/ le y x) ->
  pre !! ibest = Some best ->
  (forall j v, pre !! j = Some v -> le v best /\ (j < ibest -> ~ le best v)) ->
  let k := arg_best better best ibest (length pre) l in
  exists m,
    (pre ++ l) !! k = Some m /\
    forall j v, (pre ++ l) !! j = Some v -> le v m /\ (j < k -> ~ le m v).
Proof.
  intros Hb Ht Htot. revert pre best ibest.
  induction l as [|x l IH]; intros pre best ibest Hbest Hall.
  - simpl. exists best. by rewrite (right_id_L [] (++)).
  - simpl. destruct (better x best) eqn:Hx.
    + specialize (Hb x best). rewrite Hx in Hb. rename Hb into Hx'.
      assert (Hlt : le best x) by (by destruct (Htot best x)).
      specialize (IH (pre ++ [x]) x (length pre)).
      rewrite length_app, Nat.add_1_r, <- (assoc_L (++)) in IH. apply IH.
      * by rewrite lookup_app_r, Nat.sub_diag.
      * intros j v Hj. destruct (decide (j < length pre)) as [Hj'|Hj'].
        -- rewrite lookup_app_l in Hj by done.
           destruct (Hall j v Hj) as [Hle _]. split; [by eapply Ht|].
           intros _ Hxv. apply Hx'. by eapply Ht.
        -- rewrite lookup_app_r in Hj by lia.
           destruct (j - length pre) as [|n] eqn:E; simpl in Hj; [|done].
           injection Hj as <-. split; [|lia].
           by destruct (Htot x x).
    + assert (Hle : le x best).
      { specialize (Hb x best). by rewrite Hx in Hb. }
      specialize (IH (pre ++ [x]) best ibest).
      rewrite length_app, Nat.add_1_r, <- (assoc_L (++)) in IH. apply IH.
      * rewrite lookup_app_l; [done | by eapply lookup_lt_Some].
      * intros j v Hj. destruct (decide (j < length pre)) as [Hj'|Hj'].
        -- rewrite lookup_app_l in Hj by done. by apply Hall.
        -- rewrite lookup_app_r in Hj by lia.
           destruct (j - length pre) as [|n] eqn:E; simpl in Hj; [|done].
           injection Hj as <-. split; [done|].
           apply lookup_lt_Some in Hbest. lia.
Qed.

Lemma argmax_nat_spec (l : list nat) (k : nat) :
  argmax_nat l = Ok k ->
  exists m, l !! k = Some m /\
            forall j v, l !! j = Some v -> v <= m /\ (j < k -> v < m).
Proof.
  destruct l as [|x l]; [done|]. intros [= <-].
  destruct (arg_best_spec (fun x b => b <? x) le l [x] x 0) as (m & Hm & Hall).
  - intros a b. cbn beta. destruct (Nat.ltb_spec b a); lia.
  - lia.
  - lia.
  - done.
  - intros [|j] v Hj; simpl in Hj; [|done]. injection Hj as <-. lia.
  - exists m. split; [done|]. intros j v Hj.
    destruct (Hall j v Hj) as [H1 H2]. split; [done|].
    intros Hjk. specialize (H2 Hjk). lia.
Qed.

Lemma argmin_nat_spec (l : list nat) (k : nat) :
  argmin_nat l = Ok k ->
  exists m, l !! k = Some m /\
            forall j v, l !! j = Some v -> m <= v /\ (j < k -> m < v).
Proof.
  destruct l as [|x l]; [done|]. intros [= <-].
  destruct (arg_best_spec (fun x b => x <? b) ge l [x] x 0) as (m & Hm & Hall).
  - intros a b. cbn beta. destruct (Nat.ltb_spec a b); lia.
  - lia.
  - lia.
  - done.
  - intros [|j] v Hj; simpl in Hj; [|done]. injection Hj as <-. lia.
  - exists m. split; [done|]. intros j v Hj.
    destruct (Hall j v Hj) as [H1 H2]. split; [lia|].
    intros Hjk. specialize (H2 Hjk). lia.
Qed.

(** *** Counting the labels *)

Lemma count_class_cons l v y :
  count_class l (v :: y) = (if (l =? v)%Z then 1 else 0) + count_class l y.
Proof. unfold count_class. simpl. by destruct (l =? v)%Z. Qed.

Lemma count_class_pos l y : 0 < count_class l y <-> l ∈ y.
Proof.
  induction y as [|v y IH].
  - split; [by cbn; lia | by intros ?%elem_of_nil].
  - rewrite count_class_cons, elem_of_cons.
    destruct (Z.eqb_spec l v) as [->|Hne]; [split; [by left | lia]|].
    simpl. rewrite IH. split; [by right | by intros [?|?]].
Qed.

Lemma count_class_absent l y : l ∉ y -> count_class l y = 0.
Proof. rewrite <- count_class_pos. lia. Qed.

Lemma foldr_max_upper (y : list Z) (m : Z) :
  m ∈ y -> (m <= foldr Z.max (-1)%Z y)%Z.
Proof.
  induction y as [|v y IH]; [by intros ?%elem_of_nil|].
  rewrite elem_of_cons. simpl. intros [->|H]; [lia|]. specialize (IH H). lia.
Qed.

Lemma foldr_max_attained (y : list Z) :
  Forall (fun v => (0 <= v)%Z) y -> y <> [] -> foldr Z.max (-1)%Z y ∈ y.
Proof.
  induction 1 as [|v y Hv Hy IH]; [done|]. intros _. simpl.
  destruct y as [|v' y].
  - simpl. replace (Z.max v (-1)%Z) with v by lia. by left.
  - specialize (IH ltac:(done)).
    destruct (Z.max_spec v (foldr Z.max (-1)%Z (v' :: y))) as [[_ ->]|[_ ->]];
      [by right | by left].
Qed.

Lemma np_bincount_spec (y : list Z) (counts : list nat) :
  np_bincount y = Ok counts ->
  Forall (fun v => (0 <= v)%Z) y /\
  (forall i c, counts !! i = Some c -> c = count_class (Z.of_nat i) y) /\
  (forall l, l ∈ y -> Z.to_nat l < length counts) /\
  (forall i, i < length counts -> exists m, m ∈ y /\ (Z.of_nat i <= m)%Z).
Proof.
  unfold np_bincount. destruct (forallb _ y) eqn:Hall; [|done].
  intros [= <-].
  assert (Hnn : Forall (fun v => (0 <= v)%Z) y).
  { apply Forall_forall. intros v Hv. rewrite forallb_forall in Hall.
    apply list_elem_of_In, Hall in Hv. lia. }
  split; [done|]. rewrite length_map, length_seqZ. split; [|split].
  - intros i c. rewrite list_lookup_fmap.
    destruct (seqZ _ _ !! i) as [v|] eqn:E; [|done].
    apply lookup_seqZ in E as [-> _]. by intros [= <-].
  - intros l Hl. pose proof (foldr_max_upper y l Hl).
    eapply Forall_forall in Hnn; [|exact Hl]. simpl in Hnn. lia.
  - intros i Hi. destruct y as [|v y]; [simpl in Hi; lia|].
    exists (foldr Z.max (-1)%Z (v :: y)).
    split; [by apply foldr_max_attained | lia].
Qed.

Lemma filter_zip_mask {A} (mask : list bool) (rs : list A) :
  length mask = length rs ->
  length (List.filter fst (zip mask rs)) = length (List.filter id mask).
Proof.
  revert rs. induction mask as [|b mask IH]; intros [|r rs]; simpl; try done.
  intros [= H]. destruct b; simpl; by rewrite IH.
Qed.

Lemma mask_rows_nrows (X X' : ndarray) (l : Z) (y : list Z) :
  mask_rows X (map (Z.eqb l) y) = Ok X' -> nrows X' = count_class l y.
Proof.
  unfold mask_rows. destruct (Nat.eqb_spec (length (map (Z.eqb l) y)) (nrows X));
    [|done].
  intros [= <-]. unfold nrows at 1. simpl. rewrite length_map.
  rewrite filter_zip_mask by done. unfold count_class.
  clear. induction y as [|v y IH]; [done|]. simpl.
  destruct (l =? v)%Z; simpl; by rewrite IH.
Qed.


(** *** The grid of [gamma] *)

Lemma grid_bandwidth_eq s0 i :
  (grid_bandwidth s0 i ==
   (1 # 100) * s0 + inject_Z (Z.of_nat i) * ((299 # 600) * s0))%Q.
Proof. unfold grid_bandwidth. field. Qed.

Lemma grid_bandwidth_pos s0 i : (0 < s0)%Q -> (0 < grid_bandwidth s0 i)%Q.
Proof.
  intros Hs. rewrite grid_bandwidth_eq.
  assert (0 <= inject_Z (Z.of_nat i))%Q.
  { change 0%Q with (inject_Z 0). rewrite <- Zle_Qle. lia. }
  nra.
Qed.

Lemma grid_bandwidth_lt s0 i j :
  (0 < s0)%Q -> i < j -> (grid_bandwidth s0 i < grid_bandwidth s0 j)%Q.
Proof.
  intros Hs Hij. rewrite !grid_bandwidth_eq.
  assert (inject_Z (Z.of_nat i) < inject_Z (Z.of_nat j))%Q.
  { rewrite <- Zlt_Qlt. lia. }
  nra.
Qed.

Lemma gamma_of_pos x : (0 < x)%Q -> (0 < gamma_of x)%Q.
Proof.
  intros Hx. unfold gamma_of, Qdiv. rewrite Qmult_1_l.
  apply Qinv_lt_0_compat. simpl. nra.
Qed.

Lemma gamma_of_lt x y : (0 < x)%Q -> (x < y)%Q -> (gamma_of y < gamma_of x)%Q.
Proof.
  intros Hx Hxy. unfold gamma_of, Qdiv. rewrite !Qmult_1_l.
  apply -> Qinv_lt_contravar; simpl; nra.
Qed.

#[global] Instance gamma_of_proper : Proper (Qeq ==> Qeq) gamma_of.
Proof. intros x y Hxy. unfold gamma_of. by rewrite Hxy. Qed.

Lemma gamma_range_lookup (s0 : Q) (i : nat) (g : Q) :
  map (fun x => (1 / (2 * x ^ 2))%Q) (np_linspace (0.01 * s0) (3 * s0) 7) !! i
    = Some g ->
  i < 7 /\ (g == gamma_of (grid_bandwidth s0 i))%Q.
Proof.
  rewrite list_lookup_fmap.
  destruct (np_linspace _ _ _ !! i) as [x|] eqn:Hx; [|done].
  intros [= <-]. apply np_linspace_lookup in Hx as [Hi Hx]; [|lia].
  split; [done|]. fold (gamma_of x). by rewrite Hx.
Qed.


(** ** [train_imbalanced]: the steps of a fold *)

Section RunFacts.
Context {L : Libs}.

(** *** Runs from a state of the libraries: the rules *)

Lemma runs_from_ret {A} s (a : A) (Q : list event -> lib_state -> result A -> Prop) :
  Q [] s (Ok a) -> runs_from s (ret a) Q.
Proof. intros H w <-. exists []. by rewrite (right_id_L [] (++)). Qed.

Lemma runs_from_lift {A} s (r : result A)
    (Q : list event -> lib_state -> result A -> Prop) :
  Q [] s r -> runs_from s (lift r) Q.
Proof. intros H w <-. exists []. by rewrite (right_id_L [] (++)). Qed.

Lemma runs_from_emit s c o (Q : list event -> lib_state -> result unit -> Prop) :
  Q [Ev c o] s (Ok tt) -> runs_from s (emit c o) Q.
Proof. intros H w <-. by exists [Ev c o]. Qed.

Lemma runs_from_lib_call {A} s c (report : A -> outcome) f
    (Q : list event -> lib_state -> result A -> Prop) :
  Q [Ev c (match (f s).2 with Ok a => report a | Raise e => Raised e end)]
    (f s).1 (f s).2 ->
  runs_from s (lib_call c report f) Q.
Proof.
  intros H w <-. unfold lib_call.
  destruct (f (w_lib w)) as [s1 r]. simpl in *. by eexists.
Qed.

Lemma runs_from_bind {A B} s (m : M A) (k : A -> M B)
    (Q : list event -> lib_state -> result B -> Prop) :
  runs_from s m (fun evs1 s1 r1 =>
                   match r1 with
                   | Ok a => runs_from s1 (k a)
                               (fun evs2 s2 r2 => Q (evs1 ++ evs2) s2 r2)
                   | Raise e => Q evs1 s1 (Raise e)
                   end) ->
  runs_from s (bind m k) Q.
Proof.
  intros H w Hw. destruct (H w Hw) as (evs1 & Hlog & Hr). unfold bind.
  destruct (m w) as [w1 [a|e]]; simpl in *.
  - destruct (Hr w1 eq_refl) as (evs2 & Hlog2 & HQ).
    exists (evs1 ++ evs2). by rewrite Hlog2, Hlog, (assoc_L (++)).
  - by exists evs1.
Qed.

Lemma runs_from_try {A} s (body handler : M A)
    (Q : list event -> lib_state -> result A -> Prop) :
  runs_from s body (fun evs1 s1 r1 =>
                      match r1 with
                      | Raise ValueError =>
                          runs_from s1 handler
                            (fun evs2 s2 r2 => Q (evs1 ++ evs2) s2 r2)
                      | _ => Q evs1 s1 r1
                      end) ->
  runs_from s (try_except_ValueError body handler) Q.
Proof.
  intros H w Hw. destruct (H w Hw) as (evs1 & Hlog & Hr).
  unfold try_except_ValueError.
  destruct (body w) as [w1 [a|[]]]; simpl in *; try by exists evs1.
  destruct (Hr w1 eq_refl) as (evs2 & Hlog2 & HQ).
  exists (evs1 ++ evs2). by rewrite Hlog2, Hlog, (assoc_L (++)).
Qed.

Lemma runs_from_conseq {A} s (m : M A)
    (Q Q' : list event -> lib_state -> result A -> Prop) :
  runs_from s m Q -> (forall evs s' r, Q evs s' r -> Q' evs s' r) ->
  runs_from s m Q'.
Proof.
  intros H HQ w Hw. destruct (H w Hw) as (evs & Hlog & Hr). exists evs. auto.
Qed.

(** A run as a trace. *)
Lemma runs_from_traces {A} (m : M A)
    (Q : lib_state -> list event -> lib_state -> result A -> Prop) :
  (forall s, runs_from s m (Q s)) ->
  traces m (fun evs r => exists s s', Q s evs s' r).
Proof.
  intros H w. destruct (H (w_lib w) w eq_refl) as (evs & Hlog & HQ).
  exists evs. eauto.
Qed.

(** *** [JRD_sampling] on an array *)

Lemma JRD_sampling_np_runs (X : ndarray) (n_samples : Z) (sigma alpha lr : Q)
    (n_iter : Z) (weighted : bool) (n_rff : option Z) (plot : bool) :
  runs (JRD_sampling_np X n_samples sigma alpha lr n_iter weighted n_rff plot)
    (sampling X n_samples sigma alpha lr n_iter weighted n_rff plot).
Proof.
  intros s [s0 h lg] Hs. simpl in Hs. subst s0.
  pose proof (JRD_sampling_samples (length h) n_samples sigma alpha lr n_iter
                weighted n_rff plot (mk_cell X None)
                (mk_world s (h ++ [mk_cell X None]) lg)) as H.
  simpl in H. rewrite lookup_app_r, Nat.sub_diag in H by lia.
  destruct (H eq_refl) as (evs & r & Hlog & Hsam & Hr). clear H.
  exists evs. unfold JRD_sampling_np, bind, alloc. simpl.
  destruct (JRD_sampling _ _ _ _ _ _ _ _ _ _) as [[s2 h2 lg2] r2]. simpl in *.
  destruct r as [Y|e].
  - destruct Hr as [-> (g & Hg)]. rewrite (load_run _ _ _ _ _ Hg). simpl.
    split; [done|]. by eexists _, _.
  - subst r2. simpl. split; [done|]. by eexists _, _.
Qed.

Lemma sampling_returned X n sigma alpha lr n_iter weighted n_rff plot s evs s' Y :
  sampling X (Z.of_nat n) sigma alpha lr n_iter weighted n_rff plot s evs s'
    (Ok Y) ->
  nrows Y = n /\ ncols Y = ncols X /\ dtype Y = dtype X /\ wf_ndarray Y /\
  is_floating_point (dtype X) = true.
Proof.
  intros (lX & l0 & H). apply samples_outcome in H as (H & _).
  destruct (H Y eq_refl) as (Hsh & Hwf & Hdt & _ & Hfl).
  unfold shape in Hsh. rewrite Nat2Z.id in Hsh. by injection Hsh.
Qed.

(** The calls of a sampling: those of [JRD_sampling], every divergence on
    the array and with the arguments of the call. *)
Lemma redraw_calls_plotting Xd Yd s s' evs r :
  redraw_calls Xd Yd s = (s', evs, r) ->
  Forall (fun ev => ev_call ev = AxCla \/ ev_call ev = AxPlot \/
                    ev_call ev = PlotFrame) evs.
Proof.
  unfold redraw_calls. intros H.
  repeat match type of H with
         | context [match ?x with _ => _ end] => destruct x
         | (let '(_, _) := ?x in _) = _ => destruct x
         end;
    injection H as <- <- <-; by each_call auto.
Qed.

Lemma redrawn_calls plot Xd Yd X sigma alpha weighted n_rff s evs s' r :
  redrawn plot Xd Yd s evs s' r ->
  Forall (fun ev => is_jrd_call ev = true /\
                    divergence_on X sigma alpha weighted n_rff ev) evs.
Proof.
  unfold redrawn. destruct plot.
  - intros H%redraw_calls_redraws%redraw_calls_plotting.
    eapply Forall_impl; [exact H|].
    intros [c o] Hc. simpl in Hc. unfold divergence_on. simpl.
    destruct Hc as [-> | [-> | ->]]; by split.
  - by intros (_ & -> & _).
Qed.

Lemma descends_calls Xd sigma alpha lr weighted n_rff plot n t m Y s evs s' Y' r :
  descends Xd sigma alpha lr weighted n_rff plot n t m Y s evs s' Y' r ->
  Forall (fun ev => is_jrd_call ev = true /\
                    divergence_on Xd sigma alpha weighted n_rff ev) evs.
Proof.
  assert (Hit : forall Y v,
    Forall (fun ev => is_jrd_call ev = true /\
                      divergence_on Xd sigma alpha weighted n_rff ev)
      (iteration_calls Xd Y sigma alpha weighted n_rff v)).
  { intros Y0 v. unfold iteration_calls, divergence_on.
    each_call idtac; (split; [done|]); simpl; intros X' Y1 s1 a1 w1 n1 Hc;
      by inversion Hc. }
  induction 1 as [| n t m Y s s1 e Hdiv
                  | n t m Y s s1 g m' Y' frame s2 e Hdiv Hadam Hre
                  | n t m Y s s1 g m' Y' frame s2 evs s3 Y'' r Hdiv Hadam Hre
                      Hrest IH].
  - done.
  - unfold divergence_on.
    each_call idtac; (split; [done|]); simpl; intros X' Y1 s1' a1 w1 n1 Hc;
      by inversion Hc.
  - apply Forall_app. split; [apply Hit | by eapply redrawn_calls].
  - apply Forall_app. split; [apply Hit|].
    apply Forall_app. split; [by eapply redrawn_calls | done].
Qed.

Lemma samples_calls lX l0 X n_samples sigma alpha lr n_iter weighted n_rff plot
    s evs s' r :
  samples lX l0 X n_samples sigma alpha lr n_iter weighted n_rff plot s evs s' r ->
  Forall (fun ev => is_jrd_call ev = true /\
                    divergence_on X sigma alpha weighted n_rff ev) evs.
Proof.
  assert (Hfig : forall s fig s2 r,
    figure plot s fig s2 r ->
    Forall (fun ev => is_jrd_call ev = true /\
                      divergence_on X sigma alpha weighted n_rff ev) fig).
  { intros s0 fig s2 r0. unfold figure. destruct plot.
    - intros [_ ->]. by each_call idtac.
    - by intros (_ & -> & _). }
  intros H.
  destruct H as [s Hn|s Hn Hdt|s e Hn Hdt Hlr|s fig s2 e Hn Hdt Hlr Hf
                 |s Y_ Y0 fig s2 loop s3 Y r Hn Hdt Hlr Hdraw Hcast Hf Hd].
  - by each_call idtac.
  - by each_call idtac.
  - by each_call idtac.
  - unfold sampling_setup. simpl. each_call ltac:(by split). by eapply Hfig.
  - unfold sampling_setup. simpl. each_call ltac:(by split).
    apply Forall_app. split; [by eapply Hfig|].
    apply Forall_app. split; [by eapply descends_calls|].
    destruct r; by each_call idtac.
Qed.

(** *** numpy on the classes *)

Lemma mask_rows_class_rows (X : ndarray) (l : Z) (y : list Z) (Xl : ndarray) :
  mask_rows X (map (Z.eqb l) y) = Ok Xl -> class_rows l X y Xl.
Proof.
  unfold mask_rows. rewrite length_map.
  destruct (Nat.eqb_spec (length y) (nrows X)) as [Hlen|]; [|done].
  intros [= <-]. unfold class_rows. simpl. repeat split; try done.
  generalize (rows X). clear. induction y as [|v y IH]; intros [|r rs]; simpl;
    try done.
  destruct (Z.eqb_spec l v) as [->|Hne]; simpl.
  - rewrite bool_decide_eq_true_2 by done. simpl. f_equal. apply IH.
  - rewrite bool_decide_eq_false_2 by congruence. apply IH.
Qed.

Lemma class_rows_nrows l X y Xl :
  class_rows l X y Xl -> nrows Xl = count_class l y.
Proof.
  intros (_ & _ & Hlen & Hrows). unfold nrows in *. rewrite Hrows.
  revert Hlen. generalize (rows X). clear.
  induction y as [|v y IH]; intros [|r rs]; simpl; try done.
  intros [= Hlen]. rewrite count_class_cons. case_bool_decide as Hv.
  - subst. rewrite Z.eqb_refl. simpl. f_equal. by apply IH.
  - destruct (Z.eqb_spec l v); [congruence|]. simpl. by apply IH.
Qed.

Lemma bincount_labels (y : list Z) (counts : list nat) (maj min : nat) :
  np_bincount y = Ok counts ->
  argmax_nat counts = Ok maj ->
  argmin_nat counts = Ok min ->
  majority_label y (Z.of_nat maj) /\ minority_label y (Z.of_nat min).
Proof.
  intros Hc Hmaj Hmin.
  apply np_bincount_spec in Hc as (Hnn & Hcnt & Hin & Hbound).
  apply argmax_nat_spec in Hmaj as (cmaj & Hkmaj & Hmaxall).
  apply argmin_nat_spec in Hmin as (cmin & Hkmin & Hminall).
  pose proof (Hcnt _ _ Hkmaj) as ->. pose proof (Hcnt _ _ Hkmin) as ->.
  assert (Hlook : forall l m, m ∈ y -> (0 <= l <= m)%Z ->
            counts !! Z.to_nat l = Some (count_class l y)).
  { intros l m Hm Hl. specialize (Hin m Hm).
    destruct (lookup_lt_is_Some_2 counts (Z.to_nat l)) as [c Hc]; [lia|].
    rewrite Hc. f_equal. rewrite (Hcnt _ _ Hc). f_equal. lia. }
  assert (Hlook' : forall l k c, counts !! k = Some c -> (0 <= l < Z.of_nat k)%Z ->
            counts !! Z.to_nat l = Some (count_class l y)).
  { intros l k c Hk Hl. apply lookup_lt_Some in Hk.
    destruct (lookup_lt_is_Some_2 counts (Z.to_nat l)) as [c' Hc']; [lia|].
    rewrite Hc'. f_equal. rewrite (Hcnt _ _ Hc'). f_equal. lia. }
  assert (Hmajle : forall l, count_class l y <= count_class (Z.of_nat maj) y).
  { intros l. destruct (decide (l ∈ y)) as [Hl|Hl].
    - assert (0 <= l)%Z by (by eapply Forall_forall in Hnn; [|exact Hl]).
      destruct (Hmaxall _ _ (Hlook l l Hl ltac:(lia))). done.
    - rewrite (count_class_absent l y Hl). lia. }
  split.
  - split; [done|]. split; [|split; [done|]].
    + destruct (Hbound maj) as (m & Hm & _); [by eapply lookup_lt_Some|].
      apply count_class_pos in Hm. specialize (Hmajle m). lia.
    + intros l Hl. destruct (Hmaxall _ _ (Hlook' l _ _ Hkmaj Hl)) as [_ H].
      apply H. lia.
  - split; [lia|]. split; [|split].
    + apply Hbound. by eapply lookup_lt_Some.
    + intros l m Hm Hl. by destruct (Hminall _ _ (Hlook l m Hm Hl)).
    + intros l Hl. destruct (Hminall _ _ (Hlook' l _ _ Hkmin Hl)) as [_ H].
      apply H. lia.
Qed.

Lemma concatenate_training_set maj_label min_label Xsub Xmin X :
  np_concatenate Xsub Xmin = Ok X ->
  dtype Xsub = dtype Xmin ->
  training_set maj_label min_label Xsub Xmin X
    (training_labels maj_label min_label Xsub Xmin).
Proof.
  unfold np_concatenate.
  destruct (Nat.eqb_spec (ncols Xsub) (ncols Xmin)) as [Hc|]; [|done].
  intros [= <-] Hdt. unfold training_set. simpl. rewrite Hdt.
  split; [by destruct (dtype Xmin)|]. done.
Qed.

Lemma gamma_range_grid (s0 : Q) :
  grid_of s0
    (map (fun x => (1 / (2 * x ^ 2))%Q) (np_linspace (0.01 * s0) (3 * s0) 7)).
Proof.
  split; [by rewrite length_map, np_linspace_length|].
  intros i g Hg. by apply gamma_range_lookup in Hg as [_ Hg].
Qed.

Lemma column_of_second (P : ndarray) (p1 : list Q) :
  column_of 1 P = Ok p1 -> 2 <= ncols P /\ second_column P p1.
Proof.
  unfold column_of. destruct (Nat.ltb_spec 1 (ncols P)); [|done].
  intros [= <-]. split; [lia|]. unfold second_column.
  apply Forall2_fmap_r, Forall_Forall2_diag, Forall_true. done.
Qed.

Lemma first_maximum_unique (a : list Q) (k k' : nat) :
  first_maximum a k -> first_maximum a k' -> k = k'.
Proof.
  intros (m & Hm & Hall) (m' & Hm' & Hall').
  destruct (Nat.lt_trichotomy k k') as [Hlt|[->|Hlt]]; [|done|].
  - destruct (Hall' _ _ Hm) as [_ H1]. specialize (H1 Hlt).
    destruct (Hall _ _ Hm') as [H2 _].
    exfalso. apply (Qlt_irrefl m). by eapply Qlt_le_trans.
  - destruct (Hall _ _ Hm') as [_ H1]. specialize (H1 Hlt).
    destruct (Hall' _ _ Hm) as [H2 _].
    exfalso. apply (Qlt_irrefl m'). by eapply Qlt_le_trans.
Qed.

(** *** The steps *)

Lemma tune_and_fit_runs st Xsub Xtr ytr s :
  runs_from s (tune_and_fit st Xsub Xtr ytr)
    (fun evs s' r =>
       forall clf, r = Ok clf -> fits st Xsub Xtr ytr clf s evs s').
Proof.
  unfold tune_and_fit. apply runs_from_bind, runs_from_lib_call.
  destruct (pairwise_distances Xsub s) as [s1 [D|e]] eqn:HD; cbn [fst snd];
    [|done].
  apply runs_from_bind, runs_from_lib_call.
  destruct (grid_search_fit _ _ _ _ s1) as [s2 [best|e]] eqn:HG; cbn [fst snd];
    [|done].
  apply runs_from_lib_call.
  destruct (svc_fit _ _ _ _ s2) as [s3 [clf|e]] eqn:HS; cbn [fst snd]; [|done].
  intros ? [= <-].
  exists D, (map (fun x => (1 / (2 * x ^ 2))%Q)
               (np_linspace (0.01 * np_nanmedian D) (3 * np_nanmedian D) 7)),
    best, s1, s2.
  split; [done|]. split; [apply gamma_range_grid|]. done.
Qed.

Lemma score_runs st clf X y s :
  runs_from s (score st clf X y) (scored st clf X y s).
Proof.
  unfold score. apply runs_from_bind, runs_from_lib_call.
  destruct (svc_predict_proba clf X s) as [s1 [P|e]] eqn:HP; simpl;
    [|by constructor].
  apply runs_from_bind, runs_from_lift.
  destruct (column_of 1 P) as [p1|e] eqn:Hp.
  - apply column_of_second in Hp as [Hn Hp]. apply runs_from_lib_call.
    destruct (roc_auc_score y p1 s1) as [s2 r] eqn:HR. simpl.
    by eapply scored_auc.
  - unfold column_of in Hp. destruct (Nat.ltb_spec 1 (ncols P)); [done|].
    injection Hp as <-. simpl. eapply scored_one_column; [done | lia].
Qed.

Lemma nested_candidate_runs maj_label min_label alpha n_rff Xmaj_cv Xmin_cv
    Xtest_ Ytest_ i sigma AUC_cv s :
  dtype Xmaj_cv = dtype Xmin_cv ->
  runs_from s
    (nested_candidate maj_label min_label alpha n_rff Xmaj_cv Xmin_cv
       Xtest_ Ytest_ (i, sigma) AUC_cv)
    (fun evs s' r => forall AUC', r = Ok AUC' ->
       exists a,
         candidate_run maj_label min_label alpha n_rff Xmaj_cv Xmin_cv Xtest_
           Ytest_ sigma a s evs s' /\
         ((i < length AUC_cv /\ AUC' = <[i := a]> AUC_cv) \/
          (a = 0%Q /\ AUC' = AUC_cv))).
Proof.
  intros Hdt. unfold nested_candidate. cbn [fst snd].
  apply runs_from_bind.
  eapply runs_from_conseq; [apply JRD_sampling_np_runs|].
  intros ev_s s1 [Xsub|e] Hsam; [|done].
  pose proof (sampling_returned _ _ _ _ _ _ _ _ _ _ _ _ _ Hsam)
    as (Hn & Hc & Hd & Hwf & _).
  apply runs_from_bind, runs_from_lift.
  destruct (np_concatenate Xsub Xmin_cv) as [Xtr|e] eqn:Hcat; [|done].
  apply (concatenate_training_set maj_label min_label) in Hcat; [|congruence].
  apply runs_from_bind.
  eapply runs_from_conseq; [apply tune_and_fit_runs|].
  intros ev_f s2 [clf|e] Hfit; [|done]. specialize (Hfit _ eq_refl).
  apply runs_from_try, runs_from_bind.
  eapply runs_from_conseq; [apply score_runs|].
  intros ev_a s3 [v|e] Hsc.
  - apply runs_from_lift. unfold np_setitem.
    destruct (Nat.ltb_spec i (length AUC_cv)); [|done].
    intros ? [= <-]. exists v. split; [|by left].
    exists Xsub, Xtr, (training_labels maj_label min_label Xsub Xmin_cv), clf,
      s1, s2, ev_s, ev_f, ev_a, (Ok v).
    simpl. rewrite !(right_id_L [] (++)). repeat (split; [done|]).
    split; [by left | done].
  - destruct e; try done. apply runs_from_ret. intros ? [= <-].
    exists 0%Q. split; [|by right].
    exists Xsub, Xtr, (training_labels maj_label min_label Xsub Xmin_cv), clf,
      s1, s2, ev_s, ev_f, ev_a, (Raise ValueError).
    simpl. rewrite !(right_id_L [] (++)). repeat (split; [done|]).
    split; [by right | done].
Qed.

Lemma candidates_runs maj_label min_label alpha n_rff Xmaj_cv Xmin_cv Xtest_
    Ytest_ (sigmas : list Q) (i0 : nat) (pre : list Q) s :
  dtype Xmaj_cv = dtype Xmin_cv ->
  length pre = i0 ->
  runs_from s
    (for_each (imap (fun j sg => (i0 + j, sg)) sigmas)
       (nested_candidate maj_label min_label alpha n_rff Xmaj_cv Xmin_cv
          Xtest_ Ytest_)
       (pre ++ np_zeros (length sigmas)))
    (fun evs s' r => forall AUC', r = Ok AUC' ->
       exists scores,
         candidates_run maj_label min_label alpha n_rff Xmaj_cv Xmin_cv Xtest_
           Ytest_ sigmas scores s evs s' /\
         AUC' = pre ++ scores).
Proof.
  intros Hdt. revert i0 pre s.
  induction sigmas as [|sigma sigmas IH]; intros i0 pre s Hlen.
  - simpl. apply runs_from_ret. intros ? [= <-]. by exists [].
  - simpl. rewrite Nat.add_0_r. apply runs_from_bind.
    eapply runs_from_conseq; [by apply nested_candidate_runs|].
    intros ev1 s1 [AUC1|e] H1; [|done].
    destruct (H1 AUC1 eq_refl) as (a & Hcand & Hcase). clear H1.
    assert (HA : AUC1 = (pre ++ [a]) ++ np_zeros (length sigmas)).
    { rewrite <- (assoc_L (++)). simpl.
      destruct Hcase as [[_ ->]|[-> ->]].
      - rewrite insert_app_r_alt by lia.
        by replace (i0 - length pre) with 0 by lia.
      - done. }
    rewrite HA.
    eapply runs_from_conseq.
    + assert (Hext : imap ((fun j sg => (i0 + j, sg)) ∘ S) sigmas
                     = imap (fun j sg => (S i0 + j, sg)) sigmas).
      { apply imap_ext. intros j sg _. simpl. f_equal. lia. }
      rewrite Hext. apply (IH (S i0) (pre ++ [a])).
      rewrite length_app. simpl. lia.
    + intros ev2 s2 r2 H2 AUC' ->.
      destruct (H2 AUC' eq_refl) as (scores & Hrest & ->).
      exists (a :: scores). split; [|by rewrite <- (assoc_L (++))].
      simpl. by exists s1, ev1, ev2.
Qed.

Lemma select_sigma_runs maj_label min_label alpha n_sigmas n_rff Xtrain Ytrain s :
  runs_from s
    (select_sigma maj_label min_label alpha n_sigmas n_rff Xtrain Ytrain)
    (fun evs s' r => forall sigma, r = Ok sigma ->
       exists Xtrain_ Xtest_ Ytrain_ Ytest_ Xmaj_cv Xmin_cv D sigmas AUC_cv
              s1 s2 ev_c k,
         train_test_split Xtrain Ytrain 0.25 42 s
         = (s1, Ok (Xtrain_, Xtest_, Ytrain_, Ytest_)) /\
         class_rows maj_label Xtrain_ Ytrain_ Xmaj_cv /\
         class_rows min_label Xtrain_ Ytrain_ Xmin_cv /\
         pairwise_distances Xmaj_cv s1 = (s2, Ok D) /\
         linearly_spaced (0.01 * np_nanmedian D) (3 * np_nanmedian D) n_sigmas
           sigmas /\
         candidates_run maj_label min_label alpha n_rff Xmaj_cv Xmin_cv Xtest_
           Ytest_ sigmas AUC_cv s2 ev_c s' /\
         first_maximum AUC_cv k /\
         sigmas !! k = Some sigma /\
         evs = Ev (TrainTestSplit Xtrain Ytrain 0.25 42) Returned ::
               Ev (PairwiseDistances Xmaj_cv) Returned :: ev_c).
Proof.
  unfold select_sigma, nested_cv.
  apply runs_from_bind, runs_from_bind, runs_from_lib_call.
  destruct (train_test_split Xtrain Ytrain 0.25 42 s)
    as [s1 [[[[Xtrain_ Xtest_] Ytrain_] Ytest_]|e]] eqn:Hsplit; simpl; [|done].
  apply runs_from_bind, runs_from_lift.
  destruct (mask_rows Xtrain_ (map (Z.eqb maj_label) Ytrain_))
    as [Xmaj_cv|e] eqn:Hmaj; [|done].
  apply runs_from_bind, runs_from_lift.
  destruct (mask_rows Xtrain_ (map (Z.eqb min_label) Ytrain_))
    as [Xmin_cv|e] eqn:Hmin; [|done].
  apply mask_rows_class_rows in Hmaj, Hmin.
  apply runs_from_bind, runs_from_lib_call.
  destruct (pairwise_distances Xmaj_cv s1) as [s2 [D|e]] eqn:HD; simpl; [|done].
  apply runs_from_bind.
  set (sigmas := np_linspace _ _ _).
  eapply runs_from_conseq.
  { assert (Hext : imap pair sigmas = imap (fun j sg => (0 + j, sg)) sigmas)
      by (by apply imap_ext).
    rewrite Hext.
    apply (candidates_runs maj_label min_label alpha n_rff Xmaj_cv Xmin_cv
             Xtest_ Ytest_ sigmas 0 []); [|done].
    destruct Hmaj as (-> & _), Hmin as (-> & _). done. }
  intros ev_c s3 [AUC_cv|e] Hc; [|done].
  destruct (Hc AUC_cv eq_refl) as (scores & Hcand & ->). clear Hc.
  apply runs_from_ret. cbn [fst snd].
  apply runs_from_bind, runs_from_lift.
  destruct (np_argmax ([] ++ scores)) as [k|e] eqn:Hk; [|done].
  apply runs_from_lift. unfold np_getitem.
  destruct (sigmas !! k) as [sigma|] eqn:Hs; [|done].
  intros ? [= <-]. simpl in Hk. apply np_argmax_first_max in Hk.
  exists Xtrain_, Xtest_, Ytrain_, Ytest_, Xmaj_cv, Xmin_cv, D, sigmas, scores,
    s1, s2, ev_c, k.
  repeat (split; [done|]).
  split; [apply np_linspace_spaced|]. repeat (split; [done|]).
  simpl. by rewrite !(right_id_L [] (++)).
Qed.

Lemma load_dataset_runs dataset fold s :
  runs_from s (load_dataset dataset fold)
    (fun evs s' r => forall Xtrain Ytrain Xtest Ytest,
       r = Ok (Xtrain, Ytrain, Xtest, Ytest) ->
       exists df dftest s1 Yt,
         pd_read_table (train_file dataset fold) s = (s1, Ok df) /\
         pd_read_table (test_file dataset fold) s1 = (s', Ok dftest) /\
         evs = [ Ev (PdReadTable (train_file dataset fold)) Returned;
                 Ev (PdReadTable (test_file dataset fold)) Returned ] /\
         Xtrain = numeric_array df /\
         frame_labels df Ytrain /\
         Xtest = numeric_array dftest /\
         labels_of (from_option col_values [] (last dftest)) = Ok Yt /\
         Ytest = map (fun z => [z]) Yt).
Proof.
  unfold load_dataset. cbv zeta. apply runs_from_bind, runs_from_lib_call.
  destruct (pd_read_table (train_file dataset fold) s) as [s1 [df|e]] eqn:H1;
    simpl; [|done].
  apply runs_from_bind, runs_from_lib_call.
  destruct (pd_read_table (test_file dataset fold) s1) as [s2 [dftest|e]] eqn:H2;
    simpl; [|done].
  apply runs_from_bind, runs_from_lift. unfold iloc_last, iloc_last_slice.
  destruct (last df) as [ctrain|] eqn:Hl1; [|done].
  apply runs_from_bind, runs_from_lift. rewrite astype_int1_labels_of.
  destruct (labels_of (col_values ctrain)) as [Ytrain|e] eqn:E1; [|done].
  apply runs_from_bind, runs_from_lift.
  assert (Hslice : match last dftest with
                   | Some c => map (fun o => [o]) (col_values c)
                   | None => []
                   end
                   = map (fun o => [o]) (from_option col_values [] (last dftest)))
    by (by destruct (last dftest)).
  rewrite Hslice, astype_int2_labels_of.
  destruct (labels_of (from_option col_values [] (last dftest)))
    as [Yt|e] eqn:E2; [|done].
  apply runs_from_ret. intros ? ? ? ? [= <- <- <- <-].
  exists df, dftest, s1, Yt. repeat (split; [done|]).
  split; [by exists ctrain | done].
Qed.

Lemma train_fold_runs dataset n_rff alpha n_sigmas fold AUC s :
  runs_from s (train_fold dataset n_rff alpha n_sigmas fold AUC)
    (fun evs s' r => forall AUC', r = Ok AUC' ->
       exists d,
         fd_start d = s /\ fd_end d = s' /\
         fold_calls dataset n_rff alpha n_sigmas fold AUC d evs AUC').
Proof.
  unfold train_fold. apply runs_from_bind, runs_from_emit. apply runs_from_bind.
  eapply runs_from_conseq; [apply load_dataset_runs|].
  intros ev_load s_loaded [[[[Xtrain0 Ytrain] Xtest0] Ytest]|e] Hload; [|done].
  destruct (Hload _ _ _ _ eq_refl)
    as (df & dftest & s_r & Yt & Hr1 & Hr2 & -> & HX0 & HY & HXt0 & HYt & HYtest).
  clear Hload.
  apply runs_from_bind, runs_from_lib_call.
  destruct (scaler_fit_transform Xtrain0 s_loaded)
    as [s_f [[scaler Xtrain]|e]] eqn:Hfit; simpl; [|done].
  apply runs_from_bind, runs_from_lib_call.
  destruct (scaler_transform scaler Xtest0 s_f)
    as [s_n [Xtest|e]] eqn:Htr; simpl; [|done].
  apply runs_from_bind, runs_from_lift.
  destruct (np_bincount Ytrain) as [counts|e] eqn:Hcounts; [|done].
  apply runs_from_bind, runs_from_lift.
  destruct (argmax_nat counts) as [maj|e] eqn:Hmaj; [|done].
  apply runs_from_bind, runs_from_lift.
  apply runs_from_bind, runs_from_lift.
  destruct (argmin_nat counts) as [min|e] eqn:Hmin; [|done].
  destruct (bincount_labels _ _ _ _ Hcounts Hmaj Hmin) as [Hmajl Hminl].
  apply runs_from_bind, runs_from_lift.
  destruct (mask_rows Xtrain (map (Z.eqb (Z.of_nat maj)) Ytrain))
    as [Xmaj|e] eqn:HXmaj; [|done].
  apply runs_from_bind, runs_from_lift.
  destruct (mask_rows Xtrain (map (Z.eqb (Z.of_nat min)) Ytrain))
    as [Xmin|e] eqn:HXmin; [|done].
  apply mask_rows_class_rows in HXmaj, HXmin.
  apply runs_from_bind.
  eapply runs_from_conseq; [apply select_sigma_runs|].
  intros ev_nested s_sel [sigma|e] Hsel; [|done].
  destruct (Hsel _ eq_refl)
    as (Xtrain_ & Xtest_ & Ytrain_ & Ytest_ & Xmaj_cv & Xmin_cv & D & sigmas &
        AUC_cv & s1 & s2 & ev_c & k & Hsplit & Hcmaj & Hcmin & HD & Hlin &
        Hcand & Hk & Hsig & ->).
  clear Hsel.
  apply runs_from_bind.
  eapply runs_from_conseq; [apply JRD_sampling_np_runs|].
  intros ev_sub s_sub [Xmaj_|e] Hsam; [|done].
  pose proof (sampling_returned _ _ _ _ _ _ _ _ _ _ _ _ _ Hsam)
    as (_ & _ & Hdt & _ & _).
  apply runs_from_bind, runs_from_lift.
  destruct (np_concatenate Xmaj_ Xmin) as [Xtr|e] eqn:Hcat; [|done].
  apply (concatenate_training_set (Z.of_nat maj) (Z.of_nat min)) in Hcat.
  2: { destruct HXmaj as (Hd1 & _), HXmin as (Hd2 & _). congruence. }
  apply runs_from_bind.
  eapply runs_from_conseq; [apply tune_and_fit_runs|].
  intros ev_fit s_fit [clf|e] Hfitc; [|done].
  specialize (Hfitc _ eq_refl).
  apply runs_from_bind.
  eapply runs_from_conseq; [apply score_runs|].
  intros ev_score s_end [v|e] Hscore; [|done].
  apply runs_from_lift. unfold np_setitem.
  destruct (Nat.ltb_spec (Z.to_nat (fold - 1)) (length AUC)) as [Hidx|]; [|done].
  intros ? [= <-].
  exists (mk_fold_data df dftest Xtrain0 Ytrain Xtest0 Ytest scaler Xtrain Xtest
            maj min Xmaj Xmin (Xtrain_, Xtest_, Ytrain_, Ytest_) Xmaj_cv Xmin_cv
            D sigmas AUC_cv sigma Xmaj_ Xtr
            (training_labels (Z.of_nat maj) (Z.of_nat min) Xmaj_ Xmin) clf v
            [ Ev (PdReadTable (train_file dataset fold)) Returned;
              Ev (PdReadTable (test_file dataset fold)) Returned ]
            [ Ev (ScalerFitTransform Xtrain0) Returned;
              Ev (ScalerTransform Xtest0) Returned ]
            (Ev (TrainTestSplit Xtrain Ytrain 0.25 42) Returned ::
             Ev (PairwiseDistances Xmaj_cv) Returned :: ev_c)
            ev_sub ev_fit ev_score
            s s_loaded s_n s_sel s_sub s_fit s_end).
  split; [done|]. split; [done|].
  unfold fold_calls, selection. simpl.
  split. { by rewrite ?(right_id_L [] (++)). }
  split; [by exists s_r|]. split; [done|]. split; [done|]. split; [done|].
  split; [done|]. split; [by exists Yt|]. split; [by exists s_f|].
  split; [done|]. split; [done|]. split; [done|]. split; [done|].
  split; [done|].
  split. { exists s1, s2, ev_c, k. repeat (split; [done|]). done. }
  repeat (split; [done|]). done.
Qed.

Lemma folds_runs dataset n_rff alpha n_sigmas (folds : list Z) (AUC : list Q) s :
  runs_from s (for_each folds (train_fold dataset n_rff alpha n_sigmas) AUC)
    (fun evs s' r => forall AUC', r = Ok AUC' ->
       exists ds,
         folds_calls dataset n_rff alpha n_sigmas folds AUC ds s evs s' AUC').
Proof.
  revert AUC s. induction folds as [|fold folds IH]; intros AUC s; simpl.
  - apply runs_from_ret. intros ? [= <-]. by exists [].
  - apply runs_from_bind. eapply runs_from_conseq; [apply train_fold_runs|].
    intros ev1 s1 [AUC1|e] H1; [|done].
    destruct (H1 _ eq_refl) as (d & Hs & He & Hd). clear H1.
    eapply runs_from_conseq; [apply IH|].
    intros ev2 s2 r2 H2 AUC' ->. destruct (H2 _ eq_refl) as [ds Hds].
    exists (d :: ds). simpl. exists ev1, ev2, AUC1. rewrite He. done.
Qed.

Lemma fold_calls_store dataset n_rff alpha n_sigmas fold AUC d evs AUC' :
  fold_calls dataset n_rff alpha n_sigmas fold AUC d evs AUC' ->
  Z.to_nat (fold - 1) < length AUC /\
  AUC' = <[Z.to_nat (fold - 1) := fd_auc d]> AUC.
Proof.
  unfold fold_calls.
  intros (_ & _ & _ & _ & _ & _ & _ & _ & _ & _ & _ & _ & _ & _ & _ & _ & _ &
          _ & ? & ?).
  done.
Qed.

Lemma folds_calls_length dataset n_rff alpha n_sigmas folds AUC ds s evs s' AUC' :
  folds_calls dataset n_rff alpha n_sigmas folds AUC ds s evs s' AUC' ->
  length ds = length folds /\ length AUC' = length AUC.
Proof.
  revert AUC ds s evs. induction folds as [|fold folds IH];
    intros AUC [|d ds] s evs; simpl; try done.
  - by intros (_ & -> & _).
  - intros (ev1 & ev2 & AUC1 & _ & _ & Hf & Hrest).
    destruct (IH _ _ _ _ Hrest) as [-> ->].
    apply fold_calls_store in Hf as [_ ->].
    by rewrite length_insert.
Qed.

(** The folds [first, first + 1, ...] store their AUC at the indices
    [first - 1, first, ...]. *)
Lemma folds_calls_store dataset n_rff alpha n_sigmas (n : nat) (first : Z)
    (pre AUC : list Q) ds s evs s' AUC' :
  Z.of_nat (length pre) = (first - 1)%Z ->
  length AUC = n ->
  folds_calls dataset n_rff alpha n_sigmas (seqZ first (Z.of_nat n))
    (pre ++ AUC) ds s evs s' AUC' ->
  AUC' = pre ++ map fd_auc ds.
Proof.
  revert first pre AUC ds s evs.
  induction n as [|n IH]; intros first pre AUC ds s evs Hpre Hlen.
  - destruct AUC; [|done]. destruct ds; simpl; [|done].
    by intros (_ & -> & _).
  - rewrite Nat2Z.inj_succ, seqZ_cons by lia.
    destruct ds as [|d ds]; [done|]. simpl.
    intros (ev1 & ev2 & AUC1 & _ & _ & Hf & Hrest).
    apply fold_calls_store in Hf as [_ ->].
    destruct AUC as [|a AUC]; [done|].
    replace (Z.to_nat (first - 1)) with (length pre + 0) in Hrest by lia.
    rewrite insert_app_r in Hrest. simpl in Hrest.
    replace (Z.succ first) with (first + 1)%Z in Hrest by lia.
    replace (Z.pred (Z.succ (Z.of_nat n))) with (Z.of_nat n) in Hrest by lia.
    rewrite (cons_middle (fd_auc d) pre AUC), (assoc_L (++)) in Hrest.
    apply IH in Hrest.
    + by rewrite Hrest, <- (assoc_L (++)).
    + rewrite length_app. simpl. lia.
    + simpl in Hlen. lia.
Qed.

Lemma candidates_run_length maj_label min_label alpha n_rff Xmaj_cv Xmin_cv
    Xtest_ Ytest_ sigmas scores s evs s' :
  candidates_run maj_label min_label alpha n_rff Xmaj_cv Xmin_cv Xtest_ Ytest_
    sigmas scores s evs s' ->
  length scores = length sigmas.
Proof.
  revert scores s evs. induction sigmas as [|sigma sigmas IH];
    intros [|a scores] s evs; simpl; try done.
  intros (s1 & ev1 & ev2 & _ & Hrest & _). f_equal. by eapply IH.
Qed.

(** What a fold that returned selected: the candidates, their scores, and
    the bandwidth of every divergence of the final subsampling. *)
Lemma fold_calls_selected dataset n_rff alpha n_sigmas fold AUC d evs AUC' :
  fold_calls dataset n_rff alpha n_sigmas fold AUC d evs AUC' ->
  linearly_spaced (0.01 * np_nanmedian (fd_D d)) (3 * np_nanmedian (fd_D d))
    n_sigmas (fd_sigmas d) /\
  length (fd_AUC_cv d) = n_sigmas /\
  (exists k, first_maximum (fd_AUC_cv d) k /\
             fd_sigmas d !! k = Some (fd_sigma d)) /\
  Forall (divergence_on (fd_Xmaj d) (fd_sigma d) alpha true n_rff)
    (fd_subsample d).
Proof.
  unfold fold_calls.
  intros (_ & _ & _ & _ & _ & _ & _ & _ & _ & _ & _ & _ & _ & Hsel & Hsam & _).
  unfold selection in Hsel.
  destruct (fd_split d) as [[[Xtrain_ Xtest_] Ytrain_] Ytest_].
  destruct Hsel as (s1 & s2 & ev_c & k & _ & _ & _ & _ & Hlin & Hcand & Hk &
                    Hsig & _).
  split; [done|]. split; [|split; [by exists k|]].
  - apply candidates_run_length in Hcand. rewrite Hcand. by destruct Hlin.
  - destruct Hsam as (lX & l0 & Hsam). apply samples_calls in Hsam.
    eapply Forall_impl; [exact Hsam|]. by intros ev [_ ?].
Qed.

(** C6.  In a fold that returns, from the state of the libraries after the
    normalization:
    - the training data are split by
      [train_test_split(Xtrain, Ytrain, test_size = 0.25, random_state = 42)],
      [D] is the pairwise distances of the rows of the inner training part
      that carry the majority label, and [sigma0] is their median;
    - the candidates are 10 values linearly spaced from [0.01 * sigma0] to
      [3 * sigma0]: [0.01 * sigma0 + i * (3 * sigma0 - 0.01 * sigma0) / 9];
    - the score of a candidate is the AUC, on the inner test part, of the
      model fitted on the majority rows of the inner training part
      subsampled with that candidate, followed by its minority rows; it is 0
      when the scoring raised [ValueError];
    - the bandwidth of the final subsampling of the majority rows of the
      fold, with which every divergence of that subsampling is evaluated, is
      the candidate at the first index of a maximal score; when all scores
      are 0 this is the first candidate, [0.01 * sigma0], the least one
      when [sigma0] is not negative.
    All of this is [fold_calls], of which the arithmetic is spelled out. *)
Theorem train_fold_bandwidth (dataset : string) (n_rff : option Z) (fold : Z)
    (AUC : list Q) (w : world) :
  let run := train_fold dataset n_rff 1.01 10 fold AUC w in
  forall AUC', run.2 = Ok AUC' ->
  exists evs d,
    let sigma0 := np_nanmedian (fd_D d) in
    let sigmas := fd_sigmas d in
    let AUC_cv := fd_AUC_cv d in
    w_log run.1 = w_log w ++ evs /\
    fd_start d = w_lib w /\
    fd_end d = w_lib run.1 /\
    fold_calls dataset n_rff 1.01 10 fold AUC d evs AUC' /\
    selection (Z.of_nat (fd_maj d)) (Z.of_nat (fd_min d)) 1.01 10 n_rff d /\
    sampling (fd_Xmaj d) (Z.of_nat (nrows (fd_Xmin d))) (fd_sigma d) 1.01 0.1
      120 true n_rff false
      (fd_selected d) (fd_subsample d) (fd_subsampled d) (Ok (fd_Xmaj_ d)) /\
    length sigmas = 10 /\
    length AUC_cv = 10 /\
    (forall i s, sigmas !! i = Some s ->
       (s == 0.01 * sigma0 +
             inject_Z (Z.of_nat i) * ((3 * sigma0 - 0.01 * sigma0) / 9))%Q) /\
    Forall (divergence_on (fd_Xmaj d) (fd_sigma d) 1.01 true n_rff)
      (fd_subsample d) /\
    exists k m,
      np_argmax AUC_cv = Ok k /\
      sigmas !! k = Some (fd_sigma d) /\
      AUC_cv !! k = Some m /\
      (forall j v, AUC_cv !! j = Some v -> (v <= m)%Q /\ (j < k -> (v < m)%Q)) /\
      (Forall (fun v => (v == 0)%Q) AUC_cv ->
       k = 0 /\
       (fd_sigma d == 0.01 * sigma0)%Q /\
       ((0 <= sigma0)%Q ->
        forall i s, sigmas !! i = Some s -> (fd_sigma d <= s)%Q)).
Proof.
  intros run AUC' Hrun.
  destruct (train_fold_runs dataset n_rff 1.01 10 fold AUC (w_lib w) w eq_refl)
    as (evs & Hlog & H).
  fold run in Hlog, H. destruct (H _ Hrun) as (d & Hs & He & Hd). clear H.
  exists evs, d. cbv zeta. do 4 (split; [done|]).
  split; [by destruct Hd as (_ & _ & _ & _ & _ & _ & _ & _ & _ & _ & _ & _ & _
                             & ? & _)|].
  split; [by destruct Hd as (_ & _ & _ & _ & _ & _ & _ & _ & _ & _ & _ & _ & _
                             & _ & ? & _)|].
  destruct (fold_calls_selected _ _ _ _ _ _ _ _ _ Hd)
    as ([Hlen Hlin] & HlenA & (k & Hk & Hsig) & Hdiv).
  set (sigma0 := np_nanmedian (fd_D d)) in *.
  do 4 (split; [done|]).
  destruct Hk as (m & Hm & Hmax).
  exists k, m.
  assert (Hargmax : np_argmax (fd_AUC_cv d) = Ok k).
  { destruct (np_argmax_ok (fd_AUC_cv d)) as (k' & Hk' & _).
    { intros E. by rewrite E in HlenA. }
    rewrite Hk'. f_equal. apply np_argmax_first_max in Hk'.
    eapply first_maximum_unique; [exact Hk' | by exists m]. }
  do 4 (split; [done|]).
  intros Hzero.
  assert (Hk0 : k = 0).
  { destruct k as [|k]; [done|]. exfalso.
    destruct (fd_AUC_cv d) as [|v0 A] eqn:EA; [done|].
    destruct (Hmax 0 v0 eq_refl) as [_ Hlt]. specialize (Hlt ltac:(lia)).
    apply Forall_cons in Hzero as [Hv0 Hzero].
    assert (Hm0 : (m == 0)%Q).
    { eapply Forall_lookup_1 in Hzero; [exact Hzero|]. exact Hm. }
    rewrite Hv0, Hm0 in Hlt. by apply Qlt_irrefl in Hlt. }
  subst k. split; [done|].
  assert (Hfirst : (fd_sigma d == 0.01 * sigma0)%Q).
  { rewrite (Hlin 0 _ Hsig). simpl. field. }
  split; [done|]. intros H0 i s Hi. rewrite Hfirst.
  rewrite (Hlin i s Hi).
  assert (Hi' : (0 <= inject_Z (Z.of_nat i))%Q).
  { unfold Qle. simpl. lia. }
  assert (Hstep : (0 <= (3 * sigma0 - 0.01 * sigma0) /
                        inject_Z (Z.of_nat (10 - 1)))%Q).
  { apply Qle_shift_div_l; [done|]. lra. }
  pose proof (Qmult_le_0_compat _ _ Hi' Hstep). lra.
Qed.

End RunFacts.

(** ** [train_imbalanced]: the training sets *)

Ltac not_a_fit :=
  let H := fresh in
  intros ? ? [(? & ? & ? & H)|(? & ? & ? & H)]; simpl in H; discriminate H.

Ltac this_fit :=
  let H := fresh in
  intros ? ? [(? & ? & ? & H)|(? & ? & ? & H)]; simpl in H; by inversion H.

Section Balance.
Context {L : Libs}.

Lemma count_label_replicate l l' n :
  count_label l (replicate n (inject_Z l')) = if bool_decide (l = l') then n else O.
Proof.
  unfold count_label. induction n as [|n IH]; simpl.
  - by case_bool_decide.
  - unfold Qeq_bool at 1. simpl. rewrite !Z.mul_1_r.
    case_bool_decide as H.
    + subst. rewrite Z.eqb_refl. simpl. by rewrite IH.
    + apply Z.eqb_neq in H. by rewrite H.
Qed.

Lemma count_label_app l y1 y2 :
  count_label l (y1 ++ y2) = count_label l y1 + count_label l y2.
Proof. unfold count_label. by rewrite List.filter_app, length_app. Qed.

Lemma emits_bind_call_at {A B} P c (report : A -> outcome) f (k : A -> M B)
    (R : B -> Prop) :
  (forall o, P (Ev c o)) ->
  (forall a, (exists s, (f s).2 = Ok a) -> emits P (k a) R) ->
  emits P (bind (lib_call c report f) k) R.
Proof.
  intros H1 H2.
  eapply emits_bind with (R1 := fun a => exists s, (f s).2 = Ok a).
  - apply emits_lib_call; [done|]. intros s a Ha. by exists s.
  - done.
Qed.

Section Fold.
Variables (dataset : string) (n_rff : option Z) (alpha : Q).

Lemma jrd_call_balanced ev :
  is_jrd_call ev = true -> balanced_fit dataset n_rff alpha ev.
Proof.
  destruct ev as [c o]. intros Hc X y [(? & ? & ? & Hf)|(? & ? & ? & Hf)];
    simpl in Hf; subst c; done.
Qed.

Lemma JRD_sampling_np_balanced X n sigma lr n_iter weighted plot :
  emits (balanced_fit dataset n_rff alpha)
    (JRD_sampling_np X n sigma alpha lr n_iter weighted n_rff plot)
    (fun Y => exists s evs s',
       sampling X n sigma alpha lr n_iter weighted n_rff plot s evs s' (Ok Y)).
Proof.
  intros w.
  destruct (JRD_sampling_np_runs X n sigma alpha lr n_iter weighted n_rff plot
              (w_lib w) w eq_refl) as (evs & Hlog & Hs).
  exists evs. split; [done|]. split.
  - destruct Hs as (lX & l0 & Hs). apply samples_calls in Hs.
    eapply Forall_impl; [exact Hs|]. intros ev [H _].
    by apply jrd_call_balanced.
  - intros Y HY. rewrite HY in Hs. eauto.
Qed.

Lemma score_balanced st clf X y :
  emits (balanced_fit dataset n_rff alpha) (score st clf X y) (fun _ => True).
Proof.
  unfold score.
  apply emits_bind_call; [intros o; not_a_fit | intros P].
  apply emits_bind_lift. intros p1 _.
  apply emits_lib_call; [intros o; not_a_fit | done].
Qed.

(** The data of a fold. *)
Variables (fold : Z) (df : DataFrame) (scaler : StandardScaler)
  (Xtrain : ndarray) (Ytrain : list Z) (maj_label min_label : Z).
Hypothesis Hread : exists s, (pd_read_table (train_file dataset fold) s).2 = Ok df.
Hypothesis Hlabels : frame_labels df Ytrain.
Hypothesis Hscaled :
  exists s, (scaler_fit_transform (numeric_array df) s).2 = Ok (scaler, Xtrain).
Hypothesis Hmaj : majority_label Ytrain maj_label.
Hypothesis Hmin : minority_label Ytrain min_label.

Lemma training_set_balanced (ev : event) (st : site) Xtr ytr Xmaj Xmin Xsub
    sigma X y :
  match st with
  | Final => Xtr = Xtrain /\ ytr = Ytrain
  | Nested =>
      exists s Xte yte,
        (train_test_split Xtrain Ytrain 0.25 42 s).2 = Ok (Xtr, Xte, ytr, yte)
  end ->
  class_rows maj_label Xtr ytr Xmaj ->
  class_rows min_label Xtr ytr Xmin ->
  (exists s evs s',
     sampling Xmaj (Z.of_nat (nrows Xmin)) sigma alpha 0.1 default_n_iter
       true n_rff default_plot s evs s' (Ok Xsub)) ->
  training_set maj_label min_label Xsub Xmin X y ->
  (forall X' y', fit_call ev X' y' -> X' = X /\ y' = y /\ fit_site ev = st) ->
  balanced_fit dataset n_rff alpha ev.
Proof.
  intros Hst Hcmaj Hcmin Hsam Hts Hfit X' y' Hev.
  destruct (Hfit _ _ Hev) as (-> & -> & Hsite).
  exists fold, df, scaler, Xtrain, Ytrain, maj_label, min_label, Xtr, ytr,
    Xmaj, Xmin, Xsub, sigma.
  rewrite Hsite. do 9 (split; [done|]).
  assert (Hn : nrows Xsub = nrows Xmin).
  { destruct Hsam as (s & evs & s' & Hs).
    by apply sampling_returned in Hs as (? & _). }
  split; [done|]. split; [done|].
  destruct Hts as (_ & _ & _ & ->). rewrite Hn.
  rewrite !count_label_app, !count_label_replicate.
  split; [|split].
  - repeat case_bool_decide; try done; try lia; congruence.
  - intros Hne. repeat case_bool_decide; try done; lia.
  - intros ->. replace (2 * nrows Xmin) with (nrows Xmin + nrows Xmin) by lia.
    by rewrite replicate_add.
Qed.

Lemma tune_and_fit_balanced (st : site) Xtr ytr Xmaj Xmin Xsub sigma X :
  match st with
  | Final => Xtr = Xtrain /\ ytr = Ytrain
  | Nested =>
      exists s Xte yte,
        (train_test_split Xtrain Ytrain 0.25 42 s).2 = Ok (Xtr, Xte, ytr, yte)
  end ->
  class_rows maj_label Xtr ytr Xmaj ->
  class_rows min_label Xtr ytr Xmin ->
  (exists s evs s',
     sampling Xmaj (Z.of_nat (nrows Xmin)) sigma alpha 0.1 default_n_iter
       true n_rff default_plot s evs s' (Ok Xsub)) ->
  np_concatenate Xsub Xmin = Ok X ->
  emits (balanced_fit dataset n_rff alpha)
    (tune_and_fit st Xsub X (training_labels maj_label min_label Xsub Xmin))
    (fun _ => True).
Proof.
  intros Hst Hcmaj Hcmin Hsam Hcat.
  assert (Hts : training_set maj_label min_label Xsub Xmin X
                  (training_labels maj_label min_label Xsub Xmin)).
  { apply concatenate_training_set; [done|].
    destruct Hsam as (s & evs & s' & Hs).
    apply sampling_returned in Hs as (_ & _ & Hd & _).
    destruct Hcmaj as (Hd1 & _), Hcmin as (Hd2 & _). congruence. }
  unfold tune_and_fit.
  apply emits_bind_call; [intros o; not_a_fit | intros D].
  apply emits_bind_call; [|intros best; apply emits_lib_call; [|done]];
    intros o; eapply training_set_balanced; eauto; this_fit.
Qed.

Lemma nested_candidate_balanced Xtr ytr Xte yte Xmaj_cv Xmin_cv Xtest_ Ytest_
    i_sigma AUC_cv :
  (exists s, (train_test_split Xtrain Ytrain 0.25 42 s).2
             = Ok (Xtr, Xte, ytr, yte)) ->
  class_rows maj_label Xtr ytr Xmaj_cv ->
  class_rows min_label Xtr ytr Xmin_cv ->
  emits (balanced_fit dataset n_rff alpha)
    (nested_candidate maj_label min_label alpha n_rff Xmaj_cv Xmin_cv
       Xtest_ Ytest_ i_sigma AUC_cv)
    (fun _ => True).
Proof.
  intros [s Hsplit] Hcmaj Hcmin. unfold nested_candidate.
  eapply emits_bind; [apply JRD_sampling_np_balanced|].
  intros Xsub Hsam.
  apply emits_bind_lift. intros Xtrain_cv Hcat.
  eapply emits_bind.
  { eapply (tune_and_fit_balanced Nested Xtr ytr Xmaj_cv Xmin_cv Xsub
              i_sigma.2 Xtrain_cv);
      [by exists s, Xte, yte | done | done | exact Hsam | done]. }
  intros clf _.
  apply emits_try; [|by apply emits_ret].
  eapply emits_bind; [apply score_balanced|].
  intros v _. by apply emits_lift.
Qed.

Lemma select_sigma_balanced n_sigmas :
  emits (balanced_fit dataset n_rff alpha)
    (select_sigma maj_label min_label alpha n_sigmas n_rff Xtrain Ytrain)
    (fun _ => True).
Proof.
  unfold select_sigma, nested_cv.
  eapply emits_bind with (R1 := fun _ => True);
    [|intros cv _; apply emits_bind_lift; intros best _; by apply emits_lift].
  apply emits_bind_call_at; [intros o; not_a_fit|].
  intros [[[Xtrain_ Xtest_] Ytrain_] Ytest_] Hsplit.
  apply emits_bind_lift. intros Xmaj_cv HXmaj%mask_rows_class_rows.
  apply emits_bind_lift. intros Xmin_cv HXmin%mask_rows_class_rows.
  apply emits_bind_call; [intros o; not_a_fit | intros D].
  eapply emits_bind; [|intros AUC_cv _; by apply emits_ret].
  apply emits_for_each with (I := fun _ => True); [done|].
  intros i_sigma AUC_cv _. by eapply nested_candidate_balanced.
Qed.

End Fold.

Lemma load_dataset_frame P dataset fold :
  (forall path o, P (Ev (PdReadTable path) o)) ->
  emits P (load_dataset dataset fold)
    (fun data =>
       exists df,
         (exists s, (pd_read_table (train_file dataset fold) s).2 = Ok df) /\
         data.1.1.1 = numeric_array df /\
         frame_labels df data.1.1.2).
Proof.
  intros HP. unfold load_dataset. cbv zeta.
  apply emits_bind_call_at; [by intros o | intros df Hdf].
  apply emits_bind_call; [by intros o | intros dftest].
  apply emits_bind_lift. intros Yt HY.
  apply emits_bind_lift. intros Ytrain HYtrain.
  apply emits_bind_lift. intros Ytest _.
  apply emits_ret. exists df. split; [done|]. split; [done|]. simpl.
  unfold iloc_last in HY. destruct (last df) as [c|] eqn:Hl; [|done].
  injection HY as <-. rewrite astype_int1_labels_of in HYtrain.
  by exists c.
Qed.

Lemma train_fold_balanced dataset n_rff alpha n_sigmas fold AUC :
  emits (balanced_fit dataset n_rff alpha)
    (train_fold dataset n_rff alpha n_sigmas fold AUC) (fun _ => True).
Proof.
  unfold train_fold.
  apply emits_bind_emit; [not_a_fit|].
  eapply emits_bind; [apply load_dataset_frame; intros path o; not_a_fit|].
  intros [[[Xtrain0 Ytrain] Xtest0] Ytest] (df & Hread & HX0 & Hlabels).
  simpl in HX0, Hlabels. subst Xtrain0.
  apply emits_bind_call_at; [intros o; not_a_fit|].
  intros [scaler Xtrain] Hscaled. cbn [fst snd].
  apply emits_bind_call; [intros o; not_a_fit | intros Xtest].
  apply emits_bind_lift. intros counts Hcounts.
  apply emits_bind_lift. intros maj Hmaj.
  apply emits_bind_lift. intros counts' Hcounts'.
  apply emits_bind_lift. intros min Hmin.
  assert (counts' = counts) as -> by congruence.
  destruct (bincount_labels _ _ _ _ Hcounts Hmaj Hmin) as [Hmajl Hminl].
  apply emits_bind_lift. intros Xmaj HXmaj%mask_rows_class_rows.
  apply emits_bind_lift. intros Xmin HXmin%mask_rows_class_rows.
  eapply emits_bind; [by eapply select_sigma_balanced|].
  intros sigma _.
  eapply emits_bind; [apply JRD_sampling_np_balanced|].
  intros Xmaj_ Hsam.
  apply emits_bind_lift. intros Xtrain_ Hcat.
  eapply emits_bind.
  { eapply (tune_and_fit_balanced dataset n_rff alpha fold df scaler Xtrain
              Ytrain _ _ Hread Hlabels Hscaled Hmajl Hminl Final Xtrain Ytrain
              Xmaj Xmin Xmaj_ sigma Xtrain_);
      [done | done | done | exact Hsam | done]. }
  intros clf _.
  eapply emits_bind; [apply score_balanced|].
  intros v _. by apply emits_lift.
Qed.

(** C4, amended.  Every training set handed to the SVM by
    [train_imbalanced], in the nested cross-validation and for the final
    model of a fold, by [grid.fit] and by [clf.fit], is [balanced_fit]: a
    subsample of the majority rows, as many as there are minority rows,
    followed by the minority rows, labelled [maj_label] and [min_label].
    The two labels occur as often as each other; each as often as there are
    minority rows when they differ; when the two classes are as frequent as
    each other in the training labels, [maj_label] and [min_label] are the
    same label and the training set holds that one label only. *)
Theorem train_imbalanced_balanced (dataset : string) (n_rff : option Z)
    (w : world) :
  let run := train_imbalanced dataset n_rff w in
  exists evs,
    w_log run.1 = w_log w ++ evs /\
    Forall (balanced_fit dataset n_rff 1.01) evs.
Proof.
  intros run. subst run.
  assert (H : emits (balanced_fit dataset n_rff 1.01)
                (train_imbalanced dataset n_rff) (fun _ => True)).
  { unfold train_imbalanced.
    apply emits_bind_emit; [not_a_fit|].
    eapply emits_bind with (R1 := fun _ => True).
    - apply emits_for_each with (I := fun _ => True); [done|].
      intros fold AUC _. apply train_fold_balanced.
    - intros AUC _. apply emits_bind_emit; [not_a_fit | by apply emits_ret]. }
  destruct (H w) as (evs & Hlog & Hall & _). eauto.
Qed.

End Balance.

(** ** [train_imbalanced]: returning *)

Section Returning.
Context {L : Libs}.
Hypothesis contract : libs_contract.

(** *** The pure steps *)

Lemma labels_of_keel labels :
  Forall (fun o => o = PStr " positive" \/ o = PStr " negative") labels ->
  exists ys, labels_of labels = Ok ys /\
             length ys = length labels /\
             Forall (fun y => (0 <= y)%Z) ys.
Proof.
  induction 1 as [|o labels Ho _ (ys & IH & Hlen & Hnn)]; [by exists []|].
  simpl. rewrite IH.
  destruct Ho as [-> | ->]; simpl; eexists; (split; [reflexivity|]); simpl;
    (split; [by rewrite Hlen|]); constructor; (lia || done).
Qed.

Lemma to_numpy_nrows dt n cols : nrows (to_numpy dt n cols) = n.
Proof. unfold to_numpy, nrows. simpl. by rewrite length_map, length_seq. Qed.

Lemma numeric_array_nrows df : nrows (numeric_array df) = df_nrows df.
Proof. apply to_numpy_nrows. Qed.

Lemma keel_frame_rows df feats labels :
  df = feats ++ [ObjCol labels] ->
  Forall (fun c => length (col_values c) = length labels) feats ->
  last df = Some (ObjCol labels) /\ df_nrows df = length labels.
Proof.
  intros -> Hf. split; [by rewrite last_snoc|].
  destruct feats as [|c feats]; [done|]. simpl.
  by apply Forall_cons in Hf as [? _].
Qed.

Lemma np_bincount_ok (y : list Z) :
  y <> [] -> Forall (fun v => (0 <= v)%Z) y ->
  exists counts, np_bincount y = Ok counts /\ counts <> [].
Proof.
  intros Hne Hnn. unfold np_bincount.
  assert (Hall : forallb (fun v => (0 <=? v)%Z) y = true).
  { apply forallb_forall. intros v Hv. apply Z.leb_le.
    eapply Forall_forall in Hnn; [exact Hnn|]. by apply list_elem_of_In. }
  rewrite Hall. eexists. split; [reflexivity|].
  assert (Hmax : (0 <= foldr Z.max (-1) y)%Z).
  { destruct y as [|v y]; [done|]. simpl.
    apply Forall_cons in Hnn as [Hv _]. lia. }
  intros Hnil. apply (f_equal length) in Hnil.
  rewrite length_map, length_seqZ in Hnil. simpl in Hnil. lia.
Qed.

Lemma arg_best_bound {A} (better : A -> A -> bool) l best ibest i :
  ibest < i -> arg_best better best ibest i l < i + length l.
Proof.
  revert best ibest i. induction l as [|x l IH]; intros best ibest i Hi; simpl.
  - lia.
  - destruct (better x best).
    + specialize (IH x i (S i)). lia.
    + specialize (IH best ibest (S i)). lia.
Qed.

Lemma arg_first_ok {A} (better : A -> A -> bool) (l : list A) :
  l <> [] -> exists k, arg_first better l = Ok k /\ k < length l.
Proof.
  destruct l as [|x l]; [done|]. intros _. eexists. split; [reflexivity|].
  pose proof (arg_best_bound better l x 0 1). simpl. lia.
Qed.

Lemma mask_rows_ok X (mask : list bool) :
  length mask = nrows X ->
  exists X', mask_rows X mask = Ok X' /\ ncols X' = ncols X /\
             dtype X' = dtype X.
Proof.
  intros H. unfold mask_rows. rewrite H, Nat.eqb_refl. by eexists.
Qed.

(** *** The calls *)

Lemma is_ok_Ok {A} (r : result A) : is_ok r = true -> exists a, r = Ok a.
Proof. destruct r; [by eauto | done]. Qed.

Lemma total_call_ok {A} c (report : A -> outcome) f :
  (forall s, is_ok (f s).2 = true) ->
  total (lib_call c report f) (fun _ => True).
Proof.
  intros H. apply total_lib_call. intros s.
  destruct (is_ok_Ok _ (H s)) as [a Ha]. eauto.
Qed.

Lemma load_dataset_total dataset fold :
  total (load_dataset dataset fold)
    (fun data =>
       nrows data.1.1.1 = length data.1.1.2 /\
       data.1.1.2 <> [] /\
       Forall (fun v => (0 <= v)%Z) data.1.1.2).
Proof.
  unfold load_dataset. cbv zeta.
  eapply total_bind with (R1 := keel_frame).
  { apply total_lib_call. intros s. apply (lc_read contract). }
  intros df (feats & labels & Hdf & Hne & Hlab & Hfeat).
  eapply total_bind with (R1 := keel_frame).
  { apply total_lib_call. intros s. apply (lc_read contract). }
  intros dftest (featst & labelst & Hdft & Hnet & Hlabt & Hfeatt).
  destruct (keel_frame_rows df feats labels Hdf Hfeat) as [Hlast Hrows].
  destruct (keel_frame_rows dftest featst labelst Hdft Hfeatt) as [Hlastt _].
  destruct (labels_of_keel labels Hlab) as (ys & Hys & Hlen & Hnn).
  destruct (labels_of_keel labelst Hlabt) as (yt & Hyt & _).
  eapply total_bind with (R1 := fun Y => Y = labels).
  { apply total_lift. unfold iloc_last. rewrite Hlast. by eexists. }
  intros ? ->.
  eapply total_bind with (R1 := fun Y => Y = ys).
  { apply total_lift. rewrite astype_int1_labels_of. by eexists. }
  intros ? ->.
  eapply total_bind with (R1 := fun _ => True).
  { apply total_lift. unfold iloc_last_slice. rewrite Hlastt.
    rewrite astype_int2_labels_of. simpl. rewrite Hyt. by eexists. }
  intros Ytest _. apply total_ret. simpl.
  rewrite numeric_array_nrows, Hrows, Hlen. split; [done|]. split; [|done].
  intros ->. by destruct labels.
Qed.

Lemma JRD_sampling_np_total X n sigma alpha n_rff :
  is_floating_point (dtype X) = true ->
  total (JRD_sampling_np X (Z.of_nat n) sigma alpha 0.1 default_n_iter true
           n_rff default_plot)
    (fun Y => nrows Y = n /\ ncols Y = ncols X /\ dtype Y = dtype X).
Proof.
  intros Hdt. eapply traces_conseq.
  { apply traces_and;
      [apply JRD_sampling_np_spec; lia
      | apply runs_from_traces, JRD_sampling_np_runs]. }
  intros evs r [[_ Hok] (s & s' & Hs)].
  destruct (is_ok_Ok r) as [Y ->].
  { apply Hok; [done | done | apply (lc_adam contract)
                | apply (lc_divergence contract) |].
    intros H. discriminate H. }
  exists Y. split; [done|].
  by apply sampling_returned in Hs as (? & ? & ? & _).
Qed.

Lemma tune_and_fit_total st Xsub Xtr ytr :
  total (tune_and_fit st Xsub Xtr ytr) (fun _ => True).
Proof.
  unfold tune_and_fit.
  eapply total_bind; [apply total_call_ok, (lc_distances contract)|].
  intros D _.
  eapply total_bind; [apply total_call_ok; intros s; apply (lc_grid contract)|].
  intros best _. apply total_call_ok. intros s. apply (lc_svc contract).
Qed.

Lemma score_total st clf X y : total (score st clf X y) (fun _ => True).
Proof.
  unfold score.
  eapply total_bind with (R1 := fun P => 1 < ncols P).
  { apply total_lib_call. intros s. apply (lc_proba contract). }
  intros P HP.
  eapply total_bind with (R1 := fun _ => True).
  { apply total_lift. unfold column_of.
    apply Nat.ltb_lt in HP. rewrite HP. by eexists. }
  intros p1 _. apply total_call_ok. intros s. apply (lc_roc contract).
Qed.

Lemma nested_candidate_total maj_label min_label alpha n_rff Xmaj_cv Xmin_cv
    Xtest_ Ytest_ i sigma AUC_cv :
  i < length AUC_cv ->
  ncols Xmaj_cv = ncols Xmin_cv ->
  is_floating_point (dtype Xmaj_cv) = true ->
  total (nested_candidate maj_label min_label alpha n_rff Xmaj_cv Xmin_cv
           Xtest_ Ytest_ (i, sigma) AUC_cv)
    (fun A => length A = length AUC_cv).
Proof.
  intros Hi Hcols Hdt. unfold nested_candidate. cbn [fst snd].
  eapply total_bind; [by apply JRD_sampling_np_total|].
  intros Xmaj_cv_ (_ & Hc & _).
  eapply total_bind with (R1 := fun _ => True).
  { apply total_lift. unfold np_concatenate.
    rewrite Hc, Hcols, Nat.eqb_refl. by eexists. }
  intros Xtrain_cv _.
  eapply total_bind; [apply tune_and_fit_total|].
  intros clf _. apply total_try.
  eapply total_bind; [apply score_total|].
  intros v _. apply total_lift. unfold np_setitem.
  apply Nat.ltb_lt in Hi. rewrite Hi. eexists. split; [done|].
  by rewrite length_insert.
Qed.

Lemma nested_cv_total maj_label min_label alpha n_sigmas n_rff Xtrain Ytrain :
  nrows Xtrain = length Ytrain ->
  is_floating_point (dtype Xtrain) = true ->
  total (nested_cv maj_label min_label alpha n_sigmas n_rff Xtrain Ytrain)
    (fun cv => length cv.1 = n_sigmas /\ length cv.2 = n_sigmas).
Proof.
  intros Hrows Hdt. unfold nested_cv.
  eapply total_bind with
    (R1 := fun split => nrows split.1.1.1 = length split.1.2 /\
                        dtype split.1.1.1 = dtype Xtrain).
  { apply total_lib_call. intros s.
    destruct (lc_split contract Xtrain Ytrain 0.25 42 s Hrows)
      as (Xtr & Xte & ytr & yte & -> & Hn).
    by eexists. }
  intros [[[Xtrain_ Xtest_] Ytrain_] Ytest_] [Hn Hdt']. simpl in Hn, Hdt'.
  destruct (mask_rows_ok Xtrain_ (map (Z.eqb maj_label) Ytrain_))
    as (Xmaj_cv & Hmaj & Hcmaj & Hdmaj); [by rewrite length_map|].
  destruct (mask_rows_ok Xtrain_ (map (Z.eqb min_label) Ytrain_))
    as (Xmin_cv & Hmin & Hcmin & _); [by rewrite length_map|].
  eapply total_bind with (R1 := fun X => X = Xmaj_cv);
    [apply total_lift; by eexists|]. intros ? ->.
  eapply total_bind with (R1 := fun X => X = Xmin_cv);
    [apply total_lift; by eexists|]. intros ? ->.
  eapply total_bind; [apply total_call_ok, (lc_distances contract)|].
  intros D _.
  set (sigmas := np_linspace _ _ _).
  assert (Hlen : length sigmas = n_sigmas) by apply np_linspace_length.
  eapply total_bind with (R1 := fun A => length A = n_sigmas).
  - apply total_for_each.
    + unfold np_zeros. by rewrite length_replicate.
    + intros [i sigma] A Hin HA.
      apply elem_of_lookup_imap in Hin as (j & s & [= -> ->] & Hj).
      apply lookup_lt_Some in Hj.
      eapply total_conseq.
      * apply nested_candidate_total; [lia | congruence | congruence].
      * intros A' HA'. congruence.
  - intros A HA. by apply total_ret.
Qed.

Lemma select_sigma_total maj_label min_label alpha n_sigmas n_rff Xtrain Ytrain :
  0 < n_sigmas ->
  nrows Xtrain = length Ytrain ->
  is_floating_point (dtype Xtrain) = true ->
  total (select_sigma maj_label min_label alpha n_sigmas n_rff Xtrain Ytrain)
    (fun _ => True).
Proof.
  intros Hn Hrows Hdt. unfold select_sigma.
  eapply total_bind; [by apply nested_cv_total|].
  intros [sigmas AUC_cv] [Hs HA]. cbn [fst snd] in *.
  destruct (np_argmax_ok AUC_cv) as (k & Hk & Hlt).
  { intros ->. simpl in HA. lia. }
  eapply total_bind with (R1 := fun k' => k' = k);
    [apply total_lift; by eexists|]. intros ? ->.
  apply total_lift. unfold np_getitem.
  destruct (lookup_lt_is_Some_2 sigmas k) as [s Hsk]; [lia|].
  rewrite Hsk. by eexists.
Qed.

Lemma train_fold_total dataset n_rff alpha n_sigmas fold AUC :
  0 < n_sigmas ->
  (1 <= fold <= Z.of_nat (length AUC))%Z ->
  total (train_fold dataset n_rff alpha n_sigmas fold AUC)
    (fun A => length A = length AUC).
Proof.
  intros Hn Hfold. unfold train_fold.
  eapply total_bind with (R1 := fun _ => True); [by apply total_emit|].
  intros _ _.
  eapply total_bind; [apply load_dataset_total|].
  intros [[[Xtrain0 Ytrain] Xtest0] Ytest] (Hrows & Hne & Hnn). simpl in *.
  eapply total_bind with
    (R1 := fun fitted => nrows fitted.2 = nrows Xtrain0 /\
                         is_floating_point (dtype fitted.2) = true).
  { apply total_lib_call. intros s.
    destruct (lc_fit_transform contract Xtrain0 s) as (sc & X' & -> & HX').
    by eexists. }
  intros [scaler Xtrain] [HX Hdt]. cbn [fst snd] in *.
  eapply total_bind;
    [apply total_call_ok; intros s; apply (lc_transform contract)|].
  intros Xtest _.
  destruct (np_bincount_ok Ytrain Hne Hnn) as (counts & Hcounts & Hcne).
  destruct (arg_first_ok (fun x b => b <? x) counts Hcne) as (maj & Hmaj & _).
  destruct (arg_first_ok (fun x b => x <? b) counts Hcne) as (min & Hmin & _).
  eapply total_bind with (R1 := fun c => c = counts);
    [apply total_lift; by eexists|]. intros ? ->.
  eapply total_bind with (R1 := fun m => m = maj);
    [apply total_lift; by eexists|]. intros ? ->.
  eapply total_bind with (R1 := fun c => c = counts);
    [apply total_lift; by eexists|]. intros ? ->.
  eapply total_bind with (R1 := fun m => m = min);
    [apply total_lift; by eexists|]. intros ? ->.
  destruct (mask_rows_ok Xtrain (map (Z.eqb (Z.of_nat maj)) Ytrain))
    as (Xmaj & HXmaj & Hcmaj & Hdmaj); [rewrite length_map; congruence|].
  destruct (mask_rows_ok Xtrain (map (Z.eqb (Z.of_nat min)) Ytrain))
    as (Xmin & HXmin & Hcmin & _); [rewrite length_map; congruence|].
  eapply total_bind with (R1 := fun X => X = Xmaj);
    [apply total_lift; by eexists|]. intros ? ->.
  eapply total_bind with (R1 := fun X => X = Xmin);
    [apply total_lift; by eexists|]. intros ? ->.
  eapply total_bind; [apply select_sigma_total; [done | congruence | done]|].
  intros sigma _.
  eapply total_bind; [apply JRD_sampling_np_total; congruence|].
  intros Xmaj_ (_ & Hc & _).
  eapply total_bind with (R1 := fun _ => True).
  { apply total_lift. unfold np_concatenate.
    rewrite Hc, Hcmaj, Hcmin, Nat.eqb_refl. by eexists. }
  intros Xtrain_ _.
  eapply total_bind; [apply tune_and_fit_total|].
  intros clf _.
  eapply total_bind; [apply score_total|].
  intros v _. apply total_lift. unfold np_setitem.
  assert (Hidx : Z.to_nat (fold - 1) < length AUC) by lia.
  apply Nat.ltb_lt in Hidx. rewrite Hidx. eexists. split; [done|].
  by rewrite length_insert.
Qed.

Lemma train_imbalanced_total dataset n_rff :
  total (train_imbalanced dataset n_rff) (fun A => length A = 5).
Proof.
  unfold train_imbalanced.
  eapply total_bind with (R1 := fun _ => True); [by apply total_emit|].
  intros _ _.
  eapply total_bind with (R1 := fun A => length A = 5).
  - apply total_for_each; [done|].
    intros fold A Hin HA. apply elem_of_seqZ in Hin.
    eapply total_conseq.
    + apply train_fold_total; [lia | rewrite HA; lia].
    + intros A' HA'. congruence.
  - intros A HA.
    eapply total_bind with (R1 := fun _ => True); [by apply total_emit|].
    intros _ _. by apply total_ret.
Qed.

End Returning.

(** ** [train_imbalanced]: the folds *)

Section Folds.
Context {L : Libs}.

(** C5.  A run of [train_imbalanced] that returns has processed the folds
    1, 2, 3, 4, 5 in this order, each from the state of the libraries the
    fold before it left, and each one as [fold_calls] describes: the two
    files of the fold are read, the features are normalised, the rows of
    the majority and of the minority label are split off, the bandwidth is
    selected by the nested cross-validation, the majority rows are
    subsampled with that bandwidth, the grid search and the training of the
    SVM on the subsample and the minority rows follow, and the AUC of that
    SVM on the normalised test set is stored at index [fold - 1].  The
    array returned holds the 5 values, one per fold.  Under [libs_contract]
    the run does return. *)
Theorem train_imbalanced_folds (dataset : string) (n_rff : option Z) (w : world) :
  let run := train_imbalanced dataset n_rff w in
  (forall AUC, run.2 = Ok AUC ->
     exists evs ds,
       w_log run.1 =
         w_log w ++
         Ev (Print ("Processing " +:+ dataset +:+ " dataset ")) Returned ::
         evs ++ [Ev (Print (dataset +:+ " was processed")) Returned] /\
       folds_calls dataset n_rff 1.01 10 [1; 2; 3; 4; 5]%Z (np_zeros 5) ds
         (w_lib w) evs (w_lib run.1) AUC /\
       length ds = 5 /\
       AUC = map fd_auc ds /\
       length AUC = 5) /\
  (libs_contract -> exists AUC, run.2 = Ok AUC /\ length AUC = 5).
Proof.
  intros run. split.
  - assert (H : runs_from (w_lib w) (train_imbalanced dataset n_rff)
      (fun evs s' r => forall AUC, r = Ok AUC ->
         exists evs' ds,
           evs = Ev (Print ("Processing " +:+ dataset +:+ " dataset ")) Returned ::
                 evs' ++ [Ev (Print (dataset +:+ " was processed")) Returned] /\
           folds_calls dataset n_rff 1.01 10 (seqZ 1 5) (np_zeros 5) ds
             (w_lib w) evs' s' AUC)).
    { unfold train_imbalanced. apply runs_from_bind, runs_from_emit. cbv zeta.
      apply runs_from_bind. eapply runs_from_conseq; [apply folds_runs|].
      intros evs1 s1 [AUC1|e] H1; [|done].
      destruct (H1 _ eq_refl) as [ds Hds]. clear H1.
      apply runs_from_bind, runs_from_emit. apply runs_from_ret.
      intros ? [= <-]. exists evs1, ds. split; [|done].
      simpl. by rewrite ?(right_id_L [] (++)). }
    destruct (H w eq_refl) as (evs & Hlog & Hev). fold run in Hlog, Hev.
    intros AUC HAUC. destruct (Hev _ HAUC) as (evs' & ds & -> & Hfolds).
    exists evs', ds. split; [done|]. split; [exact Hfolds|].
    destruct (folds_calls_length _ _ _ _ _ _ _ _ _ _ _ Hfolds) as [Hds HA].
    split; [done|].
    apply (folds_calls_store dataset n_rff 1.01 10 5 1 [] (np_zeros 5))
      in Hfolds; [|done|done].
    split; [done|]. by rewrite HA.
  - intros C. destruct (train_imbalanced_total C dataset n_rff w)
      as (evs & _ & AUC & HAUC & Hlen).
    by exists AUC.
Qed.

End Folds.

(** ** [JRD_sampling]: no iteration, a negative sample count, plotting *)

Section TorchEdges.
Context {L : Libs}.

Lemma astype_float64 (A : ndarray) : dtype A = Float64 -> astype Float64 A = A.
Proof.
  destruct A as [dt c rs]. simpl. intros ->. unfold astype. simpl. f_equal.
  induction rs as [|r rs IH]; [done|]. simpl. f_equal; [|done].
  induction r as [|a r IHr]; [done|]. simpl. by f_equal.
Qed.

(** X1.  With [n_iter <= 0] the loop of [JRD_sampling] does not run.  For an
    allocated [X] of a floating point dtype, a sample count that is not
    negative, a learning rate Adam accepts and, when [plot] is set, a
    [plt.subplots] that returns: the call returns the array of the uniform
    draw as a tensor of the dtype of [X] made it, which is the draw itself
    when [X] is float64, without a gradient, and neither the divergence nor
    an Adam step was asked for, whatever the divergence would have
    answered. *)
Theorem JRD_sampling_no_iteration (X : loc) (n_samples : Z) (sigma alpha lr : Q)
    (n_iter : Z) (weighted : bool) (n_rff : option Z) (plot : bool)
    (cX : cell) (w : world) :
  w_heap w !! X = Some cX ->
  (0 <= n_samples)%Z ->
  (n_iter <= 0)%Z ->
  is_floating_point (dtype (c_data cX)) = true ->
  adam_check lr = Ok tt ->
  (plot = true -> forall s, is_ok (plt_subplots s).2 = true) ->
  let run := JRD_sampling X n_samples sigma alpha lr n_iter weighted n_rff plot w in
  let Y := S (length (w_heap w)) in
  let draw := initial_candidate n_samples (ncols (c_data cX)) (w_lib w) in
  run.2 = Ok Y /\
  uniform_draw (-2.0) 2.0 (Z.to_nat n_samples) (ncols (c_data cX)) (w_lib w)
    draw /\
  (exists Y0,
     w_heap run.1 !! Y = Some (mk_cell Y0 None) /\
     as_floating (dtype (c_data cX)) draw Y0 /\
     (dtype (c_data cX) = Float64 -> Y0 = draw)) /\
  exists evs,
    w_log run.1 = w_log w ++ evs /\
    count_calls is_divergence_call evs = 0 /\
    count_calls is_step_call evs = 0.
Proof.
  intros HX Hn Hiter Hdt Hlr Hp run Y draw. subst run Y draw.
  rewrite (JRD_sampling_run _ _ _ _ _ _ _ _ _ cX) by done. cbv zeta.
  unfold initial_candidate.
  destruct (draw_rows_draws (-2.0) 2.0 (Z.to_nat n_samples)
              (ncols (c_data cX)) (w_lib w)) as [_ Hdraw].
  destruct (draw_rows _ _ _ _ _) as [s1 rs]. rewrite Hlr. simpl in Hdraw.
  replace (Z.to_nat n_iter) with O by lia. simpl descent.
  assert (Hfig : exists s2 fig,
    (if plot then
       let '(s2, r) := plt_subplots s1 in
       (s2, r, [Ev PltSubplots
                  (match r with Ok _ => Returned | Raise e => Raised e end)])
     else (s1, Ok tt, [])) = (s2, Ok tt, fig) /\
    count_calls is_divergence_call fig = 0 /\ count_calls is_step_call fig = 0).
  { destruct plot; [|by eauto 10].
    specialize (Hp eq_refl s1).
    destruct (plt_subplots s1) as [s2 [[]|e]]; [by eauto 10 | done]. }
  destruct Hfig as (s2 & fig & -> & Hf1 & Hf2). simpl.
  split; [done|]. split; [done|]. split.
  - eexists. split; [|split].
    + apply list_lookup_insert_eq. rewrite length_app. simpl. lia.
    + by apply astype_as_floating.
    + intros E. rewrite E. by apply astype_float64.
  - rewrite <- !(assoc_L (++)). eexists. split; [reflexivity|].
    rewrite !count_calls_app, Hf1, Hf2. by cbn.
Qed.

(** X2.  A negative sample count makes [np.random.uniform] raise
    [ValueError], which [JRD_sampling] does not catch: it is the result of
    the call, the draw is the only call made, no array is created and the
    generator is left as it was. *)
Theorem JRD_sampling_negative_samples (X : loc) (n_samples : Z)
    (sigma alpha lr : Q) (n_iter : Z) (weighted : bool) (n_rff : option Z)
    (plot : bool) (cX : cell) (w : world) :
  w_heap w !! X = Some cX ->
  (n_samples < 0)%Z ->
  let run := JRD_sampling X n_samples sigma alpha lr n_iter weighted n_rff plot w in
  run.2 = Raise ValueError /\
  w_heap run.1 = w_heap w /\
  w_lib run.1 = w_lib w /\
  w_log run.1 =
    w_log w ++ [Ev (NpRandomUniform (-2.0) 2.0 (n_samples, ncols (c_data cX)))
                  (Raised ValueError)].
Proof.
  intros HX Hn run. subst run.
  by rewrite (JRD_sampling_negative _ _ _ _ _ _ _ _ _ cX) by done.
Qed.

Lemma descent_step_frames Xd sigma alpha lr weighted n_rff plot st :
  let '(_, evs, r) := descent_step Xd sigma alpha lr weighted n_rff plot st in
  count_calls (counts_as Figures) evs = 0 /\
  count_calls (counts_as Frames) evs <= count_calls is_step_call evs /\
  count_calls (counts_as Frames) evs <= 1 /\
  (plot = false -> count_calls (counts_as Frames) evs = 0) /\
  (plot = true -> is_ok r = true -> count_calls (counts_as Frames) evs = 1).
Proof.
  unfold descent_step.
  destruct (div_divergenceJR _ _ _ _ _ _ _) as [s1 [g|e]];
    [|by cbn; repeat split; (lia || done)].
  destruct plot; [redraw_cases|];
    cbn; repeat split; (lia || done).
Qed.

Lemma descent_frames n Xd sigma alpha lr weighted n_rff plot st :
  let '(_, evs, r) := descent n Xd sigma alpha lr weighted n_rff plot st in
  count_calls (counts_as Figures) evs = 0 /\
  count_calls (counts_as Frames) evs <= count_calls is_step_call evs /\
  count_calls (counts_as Frames) evs <= n /\
  (plot = false -> count_calls (counts_as Frames) evs = 0) /\
  (plot = true -> is_ok r = true -> count_calls (counts_as Frames) evs = n).
Proof.
  revert st. induction n as [|n IH]; intros st; simpl; [by auto 10|].
  pose proof (descent_step_frames Xd sigma alpha lr weighted n_rff plot st) as Hs.
  destruct (descent_step _ _ _ _ _ _ _ _) as [[st1 ev1] [[]|e]].
  - specialize (IH st1).
    destruct (descent _ _ _ _ _ _ _ _ _) as [[st2 ev2] r].
    rewrite !count_calls_app.
    destruct Hs as (H0 & H1 & H2 & H3 & H4), IH as (I0 & I1 & I2 & I3 & I4).
    split; [lia|]. split; [lia|]. split; [lia|]. split.
    + intros Hp. rewrite H3, I3 by done. lia.
    + intros Hp Hr. rewrite H4, I4 by done. lia.
  - destruct Hs as (H0 & H1 & H2 & H3 & H4).
    split; [lia|]. split; [lia|]. split; [lia|]. split; [done|]. done.
Qed.

(** X3.  Plotting in [JRD_sampling]: without [plot] no figure is made and no
    frame is drawn; in any run at most one figure is made, at most [n_iter]
    frames are drawn, and a frame is only drawn after an Adam step; a call
    with [plot] that returns has made one figure and drawn exactly [n_iter]
    frames. *)
Theorem JRD_sampling_plotting (X : loc) (n_samples : Z) (sigma alpha lr : Q)
    (n_iter : Z) (weighted : bool) (n_rff : option Z) (plot : bool) (w : world) :
  let run := JRD_sampling X n_samples sigma alpha lr n_iter weighted n_rff plot w in
  exists evs,
    w_log run.1 = w_log w ++ evs /\
    (plot = false ->
     count_calls (counts_as Figures) evs = 0 /\ count_calls (counts_as Frames) evs = 0) /\
    count_calls (counts_as Figures) evs <= 1 /\
    count_calls (counts_as Frames) evs <= Z.to_nat n_iter /\
    count_calls (counts_as Frames) evs <= count_calls is_step_call evs /\
    (plot = true -> is_ok run.2 = true ->
     count_calls (counts_as Figures) evs = 1 /\
     count_calls (counts_as Frames) evs = Z.to_nat n_iter).
Proof.
  intros run. subst run.
  destruct (w_heap w !! X) as [cX|] eqn:HX.
  2: { rewrite JRD_sampling_unallocated by done. exists []. cbn.
       rewrite (right_id_L [] (++)). repeat split; (lia || done). }
  destruct (Z.lt_ge_cases n_samples 0) as [Hn|Hn].
  { rewrite (JRD_sampling_negative _ _ _ _ _ _ _ _ _ cX) by done.
    eexists. split; [reflexivity|]. cbn. repeat split; (lia || done). }
  destruct (is_floating_point (dtype (c_data cX))) eqn:Hdt.
  2: { rewrite (JRD_sampling_integer _ _ _ _ _ _ _ _ _ cX) by done. cbv zeta.
       destruct (draw_rows _ _ _ _ _) as [s1 rs].
       eexists. split; [reflexivity|]. cbn. repeat split; (lia || done). }
  rewrite (JRD_sampling_run _ _ _ _ _ _ _ _ _ cX) by done. cbv zeta.
  destruct (draw_rows _ _ _ _ _) as [s1 rs].
  destruct (adam_check lr) as [[]|e].
  2: { simpl. rewrite <- (assoc_L (++)). eexists. split; [reflexivity|].
       cbn. repeat split; (lia || done). }
  assert (Hfig : exists s2 r2 fig,
    (if plot then
       let '(s2, r) := plt_subplots s1 in
       (s2, r, [Ev PltSubplots
                  (match r with Ok _ => Returned | Raise e => Raised e end)])
     else (s1, Ok tt, [])) = (s2, r2, fig) /\
    count_calls (counts_as Figures) fig = (if plot then 1 else 0) /\
    count_calls (counts_as Frames) fig = 0 /\ count_calls is_step_call fig = 0).
  { destruct plot; [|by eauto 10].
    destruct (plt_subplots s1) as [s2 r]. by eauto 10. }
  destruct Hfig as (s2 & r2 & fig & -> & Hf1 & Hf2 & Hf3).
  destruct r2 as [[]|e].
  2: { simpl. rewrite <- !(assoc_L (++)). eexists. split; [reflexivity|].
       rewrite !count_calls_app, Hf1, Hf2. cbn.
       destruct plot; repeat split; (lia || done). }
  pose proof (descent_frames (Z.to_nat n_iter) (c_data cX) sigma alpha lr
                weighted n_rff plot
                (mk_gd s2 (astype (dtype (c_data cX))
                             (mk_ndarray Float64 (ncols (c_data cX)) rs))
                   None (O, [])))
    as Hc.
  destruct (descent _ _ _ _ _ _ _ _ _) as [[st' evs] [[]|e]];
    destruct Hc as (Hc0 & Hc1 & Hc2 & Hc3 & Hc4); simpl;
    rewrite <- !(assoc_L (++)); (eexists; split; [reflexivity|]);
    rewrite !count_calls_app, Hf1, Hf2, Hf3, Hc0; cbn.
  - split; [intros ->; rewrite Hc3 by done; lia|].
    split; [destruct plot; lia|]. split; [lia|]. split; [lia|].
    intros -> _. rewrite Hc4 by done. lia.
  - split; [intros ->; rewrite Hc3 by done; lia|].
    split; [destruct plot; lia|]. split; [lia|]. split; [lia|].
    intros _ H. discriminate H.
Qed.

End TorchEdges.

(** ** [load_dataset]: what is read, and a numeric label column *)

Section LoadingEdges.
Context {L : Libs}.

Lemma load_dataset_reads dataset fold (w : world) df dftest s1 s2 :
  pd_read_table (train_file dataset fold) (w_lib w) = (s1, Ok df) ->
  pd_read_table (test_file dataset fold) s1 = (s2, Ok dftest) ->
  load_dataset dataset fold w =
  (mk_world s2 (w_heap w)
     (w_log w ++ [ Ev (PdReadTable (train_file dataset fold)) Returned;
                   Ev (PdReadTable (test_file dataset fold)) Returned ]),
   match last df with
   | None => Raise IndexError
   | Some ctrain =>
       match labels_of (col_values ctrain),
             labels_of (from_option col_values [] (last dftest)) with
       | Ok Ytrain, Ok Ytest =>
           Ok (numeric_array df, Ytrain, numeric_array dftest,
               map (fun z => [z]) Ytest)
       | Raise e, _ => Raise e
       | Ok _, Raise e => Raise e
       end
   end).
Proof.
  intros H1 H2. destruct w as [s h lg]. simpl in *.
  unfold load_dataset, bind, lib_call, lift, ret, iloc_last, iloc_last_slice.
  simpl. rewrite H1. simpl. rewrite H2. simpl.
  rewrite <- (assoc_L (++)). simpl app.
  destruct (last df) as [ctrain|]; [|done].
  rewrite astype_int1_labels_of.
  replace (match last dftest with
           | Some c => map (fun o => [o]) (col_values c)
           | None => []
           end)
    with (map (fun o : pyobj => [o]) (from_option col_values [] (last dftest)))
    by (by destruct (last dftest)).
  rewrite astype_int2_labels_of.
  destruct (labels_of (col_values ctrain)); [|done].
  by destruct (labels_of _).
Qed.

Lemma labels_of_ints (v : list Z) : labels_of (map NpInt v) = Ok v.
Proof. induction v as [|z v IH]; [done|]. simpl. by rewrite IH. Qed.

Lemma lookup_default_seq {A} (d : A) (l : list A) :
  map (fun i => default d (l !! i)) (seq 0 (length l)) = l.
Proof.
  apply list_eq. intros i. rewrite list_lookup_fmap.
  destruct (decide (i < length l)) as [Hi|Hi].
  - rewrite lookup_seq_lt by done. simpl.
    destruct (lookup_lt_is_Some_2 l i Hi) as [x Hx]. by rewrite Hx.
  - rewrite lookup_seq_ge by lia. simpl. symmetry.
    apply lookup_ge_None. lia.
Qed.

Lemma to_numpy_last_column dt (cols : list (list Q)) (c : list Q) :
  column_of (length cols) (to_numpy dt (length c) (cols ++ [c])) = Ok c.
Proof.
  unfold column_of, to_numpy. simpl ncols. rewrite length_app. simpl length.
  destruct (Nat.ltb_spec (length cols) (length cols + 1)) as [_|?]; [|lia].
  f_equal. simpl rows. rewrite <- list_fmap_compose.
  rewrite <- (lookup_default_seq 0%Q c) at 2.
  apply list_fmap_ext. intros i j _. simpl.
  rewrite list_lookup_fmap, lookup_app_r, Nat.sub_diag by lia. done.
Qed.

(** X4.  When the last column of the training file is numeric,
    [_get_numeric_data] keeps it: the labels that [load_dataset] returns as
    [Ytrain] are also the last column of the [Xtrain] it returns, one more
    column than the numeric feature columns. *)
Theorem load_dataset_numeric_labels (dataset : string) (fold : Z) (w : world)
    (df dftest : DataFrame) (s1 s2 : lib_state) (feats : list column)
    (v : list Z) :
  pd_read_table (train_file dataset fold) (w_lib w) = (s1, Ok df) ->
  pd_read_table (test_file dataset fold) s1 = (s2, Ok dftest) ->
  df = feats ++ [IntCol v] ->
  Forall (fun c => length (col_values c) = length v) feats ->
  let run := load_dataset dataset fold w in
  forall Xtrain Ytrain Xtest Ytest,
    run.2 = Ok (Xtrain, Ytrain, Xtest, Ytest) ->
    Ytrain = v /\
    ncols Xtrain = S (length (get_numeric_data feats)) /\
    column_of (length (get_numeric_data feats)) Xtrain = Ok (map inject_Z Ytrain).
Proof.
  intros H1 H2 -> Hlen run Xtrain Ytrain Xtest Ytest. subst run.
  rewrite (load_dataset_reads _ _ _ _ _ _ _ H1 H2). simpl.
  rewrite last_snoc. simpl col_values. rewrite labels_of_ints.
  destruct (labels_of _) as [Yt|]; [|done].
  intros [= <- <- <- <-]. split; [done|].
  assert (Hn : df_nrows (feats ++ [IntCol v]) = length (map inject_Z v)).
  { rewrite length_map. destruct feats as [|c feats]; simpl.
    - by rewrite length_map.
    - by inversion Hlen. }
  unfold numeric_array. rewrite Hn. unfold get_numeric_data.
  rewrite omap_app. simpl omap.
  split.
  - simpl. rewrite length_app. simpl. lia.
  - apply to_numpy_last_column.
Qed.

End LoadingEdges.

(** ** [train_imbalanced]: the majority and the minority class *)

Section Classes.
Context {L : Libs}.

(** X6.  The two classes of a fold that returns.  [maj_label] is the least
    label of maximal count in [Ytrain], and it occurs; [min_label] is the
    least integer between 0 and the largest label whose count is minimal,
    so a value that does not occur is preferred to a label that does; the
    rows split off for the two classes are as many as these counts.  With
    labels 0 and 1 in equal number both [maj_label] and [min_label]
    are 0. *)
Theorem train_fold_classes (dataset : string) (n_rff : option Z) (alpha : Q)
    (n_sigmas : nat) (fold : Z) (AUC : list Q) (w : world) :
  let run := train_fold dataset n_rff alpha n_sigmas fold AUC w in
  forall AUC', run.2 = Ok AUC' ->
  exists evs d,
    let y := fd_Ytrain d in
    let maj_label := Z.of_nat (fd_maj d) in
    let min_label := Z.of_nat (fd_min d) in
    w_log run.1 = w_log w ++ evs /\
    fold_calls dataset n_rff alpha n_sigmas fold AUC d evs AUC' /\
    (forall l, count_class l y <= count_class maj_label y) /\
    (forall l, (0 <= l < maj_label)%Z ->
       count_class l y < count_class maj_label y) /\
    0 < count_class maj_label y /\
    (forall l m, m ∈ y -> (0 <= l <= m)%Z ->
       count_class min_label y <= count_class l y) /\
    (forall l, (0 <= l < min_label)%Z ->
       count_class min_label y < count_class l y) /\
    (exists m, m ∈ y /\ (min_label <= m)%Z) /\
    nrows (fd_Xmaj d) = count_class maj_label y /\
    nrows (fd_Xmin d) = count_class min_label y /\
    (Forall (fun l => l = 0 \/ l = 1)%Z y ->
     count_class 0 y = count_class 1 y ->
     maj_label = 0%Z /\ min_label = 0%Z).
Proof.
  intros run AUC' Hrun. subst run.
  destruct (train_fold_runs dataset n_rff alpha n_sigmas fold AUC (w_lib w) w
              eq_refl) as (evs & Hlog & Hd).
  destruct (Hd AUC' Hrun) as (d & _ & _ & Hfold).
  exists evs, d. cbv zeta. split; [done|]. split; [done|].
  destruct Hfold as (_ & _ & _ & _ & _ & _ & _ & _ & _ & Hmajl & Hminl &
                     HXmaj & HXmin & _).
  destruct Hmajl as (Hnn & Hmajpos & Hmajle & Hmajlt).
  destruct Hminl as (Hmin0 & Hminin & Hminle & Hminlt).
  set (y := fd_Ytrain d) in *.
  repeat (split; [done|]).
  split; [by eapply class_rows_nrows|]. split; [by eapply class_rows_nrows|].
  intros Hbin Htie.
  assert (Hmaj01 : Z.of_nat (fd_maj d) = 0%Z \/ Z.of_nat (fd_maj d) = 1%Z).
  { apply count_class_pos in Hmajpos.
    by eapply Forall_forall in Hbin; [|exact Hmajpos]. }
  destruct Hminin as (m & Hm & Hle).
  assert (Hm01 : m = 0%Z \/ m = 1%Z) by (by eapply Forall_forall in Hbin; [|exact Hm]).
  split.
  - destruct Hmaj01 as [?|H1]; [done|].
    specialize (Hmajlt 0%Z ltac:(lia)). rewrite H1 in Hmajlt. lia.
  - destruct (decide (fd_min d = 0)) as [->|Hne]; [done|].
    assert (H1 : Z.of_nat (fd_min d) = 1%Z) by lia.
    specialize (Hminlt 0%Z ltac:(lia)). rewrite H1 in Hminlt. lia.
Qed.

End Classes.


(** ** [train_imbalanced]: a negative label *)

Section FoldEdges.
Context {L : Libs}.

Lemma np_bincount_negative (y : list Z) :
  Exists (fun v => (v < 0)%Z) y -> np_bincount y = Raise ValueError.
Proof.
  intros H. unfold np_bincount.
  destruct (forallb _ y) eqn:Hall; [|done].
  apply Exists_exists in H as (v & Hin & Hv).
  rewrite forallb_forall in Hall.
  apply list_elem_of_In, Hall in Hin. lia.
Qed.

(** X7.  A negative integer label (such as [' -1']) is loaded without
    error, and the fold then fails at [np.bincount]: when the two files
    are read and the scaler returns, [train_fold] raises [ValueError] after
    the normalisation, before any subsampling, and nothing was stored. *)
Theorem train_fold_negative_label (dataset : string) (n_rff : option Z)
    (alpha : Q) (n_sigmas : nat) (fold : Z) (AUC : list Q) (w : world)
    (df dftest : DataFrame) (ctrain : column) (Ytrain Ytest : list Z)
    (s1 s2 s3 s4 : lib_state) (scaler : StandardScaler)
    (Xtrain Xtest : ndarray) :
  pd_read_table (train_file dataset fold) (w_lib w) = (s1, Ok df) ->
  pd_read_table (test_file dataset fold) s1 = (s2, Ok dftest) ->
  last df = Some ctrain ->
  labels_of (col_values ctrain) = Ok Ytrain ->
  labels_of (from_option col_values [] (last dftest)) = Ok Ytest ->
  Exists (fun v => (v < 0)%Z) Ytrain ->
  let Xtrain0 := numeric_array df in
  let Xtest0 := numeric_array dftest in
  scaler_fit_transform Xtrain0 s2 = (s3, Ok (scaler, Xtrain)) ->
  scaler_transform scaler Xtest0 s3 = (s4, Ok Xtest) ->
  let run := train_fold dataset n_rff alpha n_sigmas fold AUC w in
  run.2 = Raise ValueError /\
  w_heap run.1 = w_heap w /\
  w_log run.1 =
    w_log w ++
    [ Ev (Print ("Processing Fold " +:+ pretty fold)) Returned;
      Ev (PdReadTable (train_file dataset fold)) Returned;
      Ev (PdReadTable (test_file dataset fold)) Returned;
      Ev (ScalerFitTransform Xtrain0) Returned;
      Ev (ScalerTransform Xtest0) Returned ].
Proof.
  intros H1 H2 Hlast Hy Hyt Hneg Xtrain0 Xtest0 H3 H4 run.
  assert (Hrun : run =
    (mk_world s4 (w_heap w)
       (w_log w ++
        [ Ev (Print ("Processing Fold " +:+ pretty fold)) Returned;
          Ev (PdReadTable (train_file dataset fold)) Returned;
          Ev (PdReadTable (test_file dataset fold)) Returned;
          Ev (ScalerFitTransform Xtrain0) Returned;
          Ev (ScalerTransform Xtest0) Returned ]),
     Raise ValueError)); [|by rewrite Hrun].
  subst run. destruct w as [s h lg]. simpl in H1.
  unfold train_fold. unfold bind at 1, emit at 1. simpl.
  unfold bind at 1.
  erewrite load_dataset_reads by (simpl; eassumption).
  rewrite Hlast, Hy, Hyt. simpl.
  unfold bind at 1, lib_call at 1. simpl. fold Xtrain0. rewrite H3. simpl.
  unfold bind at 1, lib_call at 1. simpl. fold Xtest0. rewrite H4. simpl.
  rewrite np_bincount_negative by done.
  unfold bind at 1, lift at 1. simpl.
  by rewrite <- !(assoc_L (++)).
Qed.

End FoldEdges.

(** ** The calls of [JRD_sampling], seen from its callers *)

Section SamplingLogFacts.
Context {L : Libs}.

Lemma JRD_sampling_np_log (X : ndarray) (n_samples : Z) (sigma alpha lr : Q)
    (n_iter : Z) (weighted : bool) (n_rff : option Z) (plot : bool) :
  (0 <= n_samples)%Z ->
  traces (JRD_sampling_np X n_samples sigma alpha lr n_iter weighted n_rff plot)
    (JRD_sampling_log X n_samples sigma alpha lr n_iter weighted n_rff plot).
Proof.
  intros Hn [s h lg].
  destruct (JRD_sampling_np _ _ _ _ _ _ _ _ _ _) as [w' r'] eqn:Hrun.
  unfold JRD_sampling_np in Hrun.
  unfold bind at 1 in Hrun. unfold alloc at 1 in Hrun. simpl in Hrun.
  unfold bind at 1 in Hrun.
  pose proof (initial_shape (dtype X) (Z.to_nat n_samples) (ncols X) s)
    as (Hsh0 & _).
  destruct (is_floating_point (dtype X)) eqn:Hdt.
  2: { rewrite (JRD_sampling_integer _ _ _ _ _ _ _ _ _ (mk_cell X None)) in Hrun;
         [| simpl; by rewrite lookup_app_r, Nat.sub_diag | done | done].
       cbv zeta in Hrun. simpl in Hrun.
       destruct (draw_rows _ _ _ _ _) as [s1 rs]. simpl in Hsh0.
       injection Hrun as <- <-. simpl.
       eexists. split; [reflexivity|].
       exists (length h), (length (h ++ [mk_cell X None])),
         (mk_gd s1 (astype (dtype X) (mk_ndarray Float64 (ncols X) rs)) None
            (O, [])).
       cbv zeta. split; [exact Hsh0|]. by left. }
  rewrite (JRD_sampling_run _ _ _ _ _ _ _ _ _ (mk_cell X None)) in Hrun;
    [| simpl; by rewrite lookup_app_r, Nat.sub_diag | done | done].
  cbv zeta in Hrun. simpl in Hrun.
  destruct (draw_rows _ _ _ _ _) as [s1 rs]. simpl in Hsh0.
  rewrite length_app in Hrun. simpl length in Hrun.
  rewrite Nat.add_1_r in Hrun.
  set (Y0 := astype _ _) in *.
  assert (Hsh : forall s2,
    shape (gd_Y (mk_gd s2 Y0 None (O, []))) = (Z.to_nat n_samples, ncols X))
    by done.
  destruct (adam_check lr) as [[]|e].
  2: { injection Hrun as <- <-. simpl. rewrite <- !(assoc_L (++)).
       eexists. split; [reflexivity|].
       exists (length h), (S (length h)), (mk_gd s1 Y0 None (O, [])).
       cbv zeta. split; [apply Hsh|]. right. left. by exists e. }
  destruct plot.
  - destruct (plt_subplots s1) as [s2 [[]|e]].
    2: { injection Hrun as <- <-. simpl. rewrite <- !(assoc_L (++)).
         eexists. split; [reflexivity|].
         exists (length h), (S (length h)), (mk_gd s1 Y0 None (O, [])).
         cbv zeta. split; [apply Hsh|]. right. right. left. by exists e. }
    set (st0 := mk_gd s2 Y0 None (O, [])) in *.
    destruct (descent _ _ _ _ _ _ _ _ st0) as [[st' evs] [[]|e]] eqn:Hd;
      simpl in Hrun.
    + erewrite run_bind_ok in Hrun.
      2: { apply load_run. apply list_lookup_insert_eq.
           rewrite !length_app. simpl. lia. }
      unfold ret in Hrun. injection Hrun as <- <-.
      simpl. rewrite <- !(assoc_L (++)).
      eexists. split; [reflexivity|].
      exists (length h), (S (length h)), st0. cbv zeta. rewrite Hd.
      split; [apply Hsh|]. do 4 right. simpl. by rewrite <- ?(assoc_L (++)).
    + injection Hrun as <- <-. simpl. rewrite <- !(assoc_L (++)).
      eexists. split; [reflexivity|].
      exists (length h), (S (length h)), st0. cbv zeta. rewrite Hd.
      split; [apply Hsh|]. do 3 right. left. exists e. simpl.
      by rewrite <- ?(assoc_L (++)).
  - set (st0 := mk_gd s1 Y0 None (O, [])) in *.
    destruct (descent _ _ _ _ _ _ _ _ st0) as [[st' evs] [[]|e]] eqn:Hd;
      simpl in Hrun.
    + erewrite run_bind_ok in Hrun.
      2: { apply load_run. apply list_lookup_insert_eq.
           rewrite !length_app. simpl. lia. }
      unfold ret in Hrun. injection Hrun as <- <-.
      simpl. rewrite <- !(assoc_L (++)).
      eexists. split; [reflexivity|].
      exists (length h), (S (length h)), st0. cbv zeta. rewrite Hd.
      split; [apply Hsh|]. do 4 right. simpl. by rewrite <- ?(assoc_L (++)).
    + injection Hrun as <- <-. simpl. rewrite <- !(assoc_L (++)).
      eexists. split; [reflexivity|].
      exists (length h), (S (length h)), st0. cbv zeta. rewrite Hd.
      split; [apply Hsh|]. do 3 right. left. exists e. simpl.
      by rewrite <- ?(assoc_L (++)).
Qed.

Lemma descent_step_JRD_calls Xd n_samples sigma alpha lr weighted n_rff plot st :
  shape (gd_Y st) = (Z.to_nat n_samples, ncols Xd) ->
  Forall (JRD_call Xd n_samples sigma alpha lr weighted n_rff plot)
    (descent_step Xd sigma alpha lr weighted n_rff plot st).1.2.
Proof.
  intros Hsh. unfold descent_step.
  destruct (div_divergenceJR _ _ _ _ _ _ _) as [s1 [g|e]];
    [|by each_call done].
  destruct plot; [redraw_cases|]; by each_call done.
Qed.

Lemma descent_JRD_calls n Xd n_samples sigma alpha lr weighted n_rff plot st :
  shape (gd_Y st) = (Z.to_nat n_samples, ncols Xd) ->
  Forall (JRD_call Xd n_samples sigma alpha lr weighted n_rff plot)
    (descent n Xd sigma alpha lr weighted n_rff plot st).1.2.
Proof.
  revert st. induction n as [|n IH]; intros st Hsh; simpl; [done|].
  pose proof (descent_step_JRD_calls Xd n_samples sigma alpha lr weighted n_rff
                plot st Hsh) as Hs.
  pose proof (descent_step_shape Xd sigma alpha lr weighted n_rff plot st)
    as [Hsh' _].
  destruct (descent_step _ _ _ _ _ _ _ _) as [[st1 ev1] [[]|e]]; [|done].
  simpl in Hs, Hsh'. specialize (IH st1 ltac:(congruence)).
  destruct (descent _ _ _ _ _ _ _ _ _) as [[st2 ev2] r]. simpl in *.
  by apply Forall_app.
Qed.

Lemma JRD_sampling_np_calls (X : ndarray) (n_samples : Z) (sigma alpha lr : Q)
    (n_iter : Z) (weighted : bool) (n_rff : option Z) (plot : bool) :
  (0 <= n_samples)%Z ->
  emits (JRD_call X n_samples sigma alpha lr weighted n_rff plot)
    (JRD_sampling_np X n_samples sigma alpha lr n_iter weighted n_rff plot)
    (fun Y => shape Y = (Z.to_nat n_samples, ncols X)).
Proof.
  intros Hn. eapply traces_conseq; [by apply JRD_sampling_np_log|].
  intros evs r (lX & l0 & st0 & Hsh & Hcases).
  pose proof (descent_JRD_calls (Z.to_nat n_iter) X n_samples sigma alpha lr
                weighted n_rff plot st0 Hsh) as Hd.
  pose proof (descent_shape (Z.to_nat n_iter) X sigma alpha lr weighted n_rff
                plot st0) as [Hsh' _].
  assert (Hfig : Forall (JRD_call X n_samples sigma alpha lr weighted n_rff plot)
                   (if plot then [Ev PltSubplots Returned] else [])).
  { destruct plot; by each_call done. }
  destruct Hcases as [(_ & -> & ->)|[(e & -> & ->)|[(e & -> & -> & ->)|
                      [(e & _ & -> & ->)|(_ & -> & ->)]]]].
  - split; [by each_call done | done].
  - split; [by each_call done | done].
  - split; [by each_call done | done].
  - split; [|done]. each_call done. by apply Forall_app.
  - split.
    + each_call done. apply Forall_app. split; [done|].
      apply Forall_app. split; [done | by each_call done].
    + intros Y [= <-]. congruence.
Qed.

Lemma count_calls_cons P ev l :
  count_calls P (ev :: l) = (if P ev then 1 else 0) + count_calls P l.
Proof. unfold count_calls. simpl. by destruct (P ev). Qed.

Lemma descent_tally (k : counted) n Xd sigma alpha lr weighted n_rff plot st :
  let '(_, evs, r) := descent n Xd sigma alpha lr weighted n_rff plot st in
  is_ok r = true ->
  count_calls (counts_as k) evs =
  n * match k with
      | Divergences | Steps => 1
      | Frames => if plot then 1 else 0
      | _ => 0
      end.
Proof.
  revert st. induction n as [|n IH]; intros st; simpl; [done|].
  assert (Hs : let '(_, evs, r) :=
                 descent_step Xd sigma alpha lr weighted n_rff plot st in
               is_ok r = true ->
               count_calls (counts_as k) evs =
               match k with
               | Divergences | Steps => 1
               | Frames => if plot then 1 else 0
               | _ => 0
               end).
  { unfold descent_step.
    destruct (div_divergenceJR _ _ _ _ _ _ _) as [s1 [g|e]]; [|done].
    destruct plot; [redraw_cases|]; by destruct k. }
  destruct (descent_step _ _ _ _ _ _ _ _) as [[st1 ev1] [[]|e]]; [|done].
  specialize (IH st1).
  destruct (descent _ _ _ _ _ _ _ _ _) as [[st2 ev2] r].
  intros Hr. rewrite count_calls_app, (Hs eq_refl), (IH Hr). lia.
Qed.

Lemma JRD_sampling_np_tally (k : counted) (X : ndarray) (n_samples : Z)
    (sigma alpha lr : Q) (n_iter : Z) (weighted : bool) (n_rff : option Z)
    (plot : bool) :
  (0 <= n_samples)%Z ->
  costs k (JRD_sampling_np X n_samples sigma alpha lr n_iter weighted n_rff plot)
    (sampling_cost n_iter plot k).
Proof.
  intros Hn. eapply traces_conseq; [by apply JRD_sampling_np_log|].
  intros evs r (lX & l0 & st0 & Hsh & Hcases) Hr.
  destruct Hcases as [(_ & _ & ->)|[(e & _ & ->)|[(e & _ & _ & ->)|
                      [(e & _ & _ & ->)|(Hok & -> & _)]]]]; try done.
  pose proof (descent_tally k (Z.to_nat n_iter) X sigma alpha lr weighted n_rff
                plot st0) as Hd.
  destruct (descent _ _ _ _ _ _ _ _ _) as [[st' devs] r']. simpl in *. subst r'.
  specialize (Hd eq_refl).
  rewrite !count_calls_cons, !count_calls_app, Hd.
  destruct k, plot; cbn; lia.
Qed.

End SamplingLogFacts.

(** ** [train_imbalanced]: counting the calls *)

Section CostRules.
Context {L : Libs}.

Lemma costs_ret {A} k (a : A) : costs k (ret a) 0.
Proof. by apply traces_ret. Qed.

Lemma costs_lift {A} k (r : result A) : costs k (lift r) 0.
Proof. by apply traces_lift. Qed.

Lemma costs_emit k c o (b : bool) :
  counts_as k (Ev c o) = b -> costs k (emit c o) (if b then 1 else 0).
Proof.
  intros <-. apply traces_emit. intros _. by rewrite count_calls_cons.
Qed.

Lemma costs_lib_call {A} k c (report : A -> outcome) f (b : bool) :
  (forall o, counts_as k (Ev c o) = b) ->
  costs k (lib_call c report f) (if b then 1 else 0).
Proof.
  intros Hb. apply traces_lib_call. intros s _.
  by rewrite count_calls_cons, Hb.
Qed.

Lemma costs_bind {A B} k (m : M A) (f : A -> M B) (n1 n2 : nat) :
  costs k m n1 -> (forall a, costs k (f a) n2) -> costs k (bind m f) (n1 + n2).
Proof.
  intros Hm Hf. apply traces_bind. eapply traces_conseq; [exact Hm|].
  intros evs1 [a|e] H1; [|done].
  eapply traces_conseq; [apply Hf|].
  intros evs2 r2 H2 Hr. by rewrite count_calls_app, H1, H2.
Qed.

Lemma costs_for_each {B S} k (xs : list B) (body : B -> S -> M S) (s : S)
    (len n : nat) :
  length xs = len ->
  (forall x s', costs k (body x s') n) ->
  costs k (for_each xs body s) (len * n).
Proof.
  intros <- Hb. revert s. induction xs as [|x xs IH]; intros s; simpl.
  - apply costs_ret.
  - by apply costs_bind.
Qed.

Lemma costs_silent {A} k (m : M A) :
  emits (fun ev => counts_as k ev = false) m (fun _ => True) -> costs k m 0.
Proof.
  intros H. eapply traces_conseq; [exact H|].
  intros evs r [Hall _] _. unfold count_calls.
  induction Hall as [|ev evs Hev _ IH]; [done|]. simpl. by rewrite Hev.
Qed.

Lemma costs_eq {A} k (m : M A) (n n' : nat) :
  costs k m n -> n = n' -> costs k m n'.
Proof. by intros H <-. Qed.

End CostRules.

Ltac costs_call :=
  first [ eapply costs_lib_call; intros ?; cbn; reflexivity
        | eapply costs_emit; cbn; reflexivity ].

Ltac costs_step :=
  match goal with
  | |- costs _ (bind (lift _) _) _ =>
      eapply costs_bind; [apply costs_lift | intros ?]
  | |- costs _ (bind (emit _ _) _) _ =>
      eapply costs_bind; [costs_call | intros ?]
  | |- costs _ (bind (lib_call _ _ _) _) _ =>
      eapply costs_bind; [costs_call | intros ?]
  | |- costs _ (ret _) _ => apply costs_ret
  | |- costs _ (lift _) _ => apply costs_lift
  | |- costs _ (lib_call _ _ _) _ => costs_call
  | |- costs _ (emit _ _) _ => costs_call
  end.

Section PipelineCosts.
Context {L : Libs}.

Lemma load_dataset_tally k dataset fold :
  costs k (load_dataset dataset fold) (match k with Reads => 2 | _ => 0 end).
Proof.
  unfold load_dataset.
  destruct k; (eapply costs_eq; [repeat costs_step | reflexivity]).
Qed.

Lemma tune_and_fit_tally k st Xsub Xtr ytr :
  costs k (tune_and_fit st Xsub Xtr ytr) (fit_cost k).
Proof.
  unfold tune_and_fit.
  destruct k; (eapply costs_eq; [repeat costs_step | reflexivity]).
Qed.

Lemma score_tally k st clf X y : costs k (score st clf X y) 0.
Proof.
  unfold score.
  destruct k; (eapply costs_eq; [repeat costs_step | reflexivity]).
Qed.

Lemma score_silent k clf X y (AUC_cv : list Q) (i : nat) :
  emits (fun ev => counts_as k ev = false)
    (try_except_ValueError
       (v <- score Nested clf X y ;; lift (np_setitem AUC_cv i v))
       (ret AUC_cv))
    (fun _ => True).
Proof.
  apply emits_try; [|by apply emits_ret].
  unfold score.
  eapply emits_bind with (R1 := fun _ => True); [|intros v _; by apply emits_lift].
  apply emits_bind_call; [intros o; by destruct k | intros P].
  apply emits_bind_lift. intros p1 _.
  apply emits_lib_call; [intros o; by destruct k | done].
Qed.

Lemma nested_candidate_tally k maj_label min_label alpha n_rff Xmaj_cv Xmin_cv
    Xtest_ Ytest_ i_sigma AUC_cv :
  costs k (nested_candidate maj_label min_label alpha n_rff Xmaj_cv Xmin_cv
             Xtest_ Ytest_ i_sigma AUC_cv)
    (candidate_cost k).
Proof.
  unfold nested_candidate, candidate_cost.
  eapply costs_eq.
  - eapply costs_bind; [apply JRD_sampling_np_tally; lia | intros Xmaj_cv_].
    costs_step.
    eapply costs_bind; [apply tune_and_fit_tally | intros clf].
    apply costs_silent, score_silent.
  - lia.
Qed.

Lemma nested_cv_tally k maj_label min_label alpha n_sigmas n_rff Xtrain Ytrain :
  costs k (nested_cv maj_label min_label alpha n_sigmas n_rff Xtrain Ytrain)
    (n_sigmas * candidate_cost k).
Proof.
  unfold nested_cv.
  eapply costs_eq.
  - eapply costs_bind; [by apply (costs_lib_call _ _ _ _ false); destruct k|].
    intros [[[Xtrain_ Xtest_] Ytrain_] Ytest_].
    do 2 costs_step.
    eapply costs_bind; [by apply (costs_lib_call _ _ _ _ false); destruct k|].
    intros D.
    eapply costs_bind; [|intros AUC_cv; apply costs_ret].
    apply costs_for_each with (len := n_sigmas).
    + by rewrite length_imap, np_linspace_length.
    + intros i_sigma AUC_cv. apply nested_candidate_tally.
  - simpl. lia.
Qed.

Lemma select_sigma_tally k maj_label min_label alpha n_sigmas n_rff Xtrain Ytrain :
  costs k (select_sigma maj_label min_label alpha n_sigmas n_rff Xtrain Ytrain)
    (n_sigmas * candidate_cost k).
Proof.
  unfold select_sigma.
  eapply costs_eq.
  - eapply costs_bind; [apply nested_cv_tally | intros cv].
    repeat costs_step.
  - lia.
Qed.

Lemma train_fold_tally k dataset n_rff alpha n_sigmas fold AUC :
  costs k (train_fold dataset n_rff alpha n_sigmas fold AUC)
    (fold_cost n_sigmas k).
Proof.
  unfold train_fold, fold_cost, candidate_cost.
  eapply costs_eq.
  - eapply costs_bind; [by apply (costs_emit _ _ _ false); destruct k|].
    intros _.
    eapply costs_bind; [apply load_dataset_tally|].
    intros [[[Xtrain Ytrain] Xtest] Ytest].
    eapply costs_bind; [by apply (costs_lib_call _ _ _ _ false); destruct k|].
    intros fitted.
    eapply costs_bind; [by apply (costs_lib_call _ _ _ _ false); destruct k|].
    intros Xtest'.
    do 6 costs_step.
    eapply costs_bind; [apply select_sigma_tally | intros sigma].
    eapply costs_bind; [apply JRD_sampling_np_tally; lia | intros Xmaj_].
    costs_step.
    eapply costs_bind; [apply tune_and_fit_tally | intros clf].
    eapply costs_bind; [apply score_tally | intros v].
    costs_step.
  - unfold candidate_cost. simpl. lia.
Qed.

Lemma train_imbalanced_tally k dataset n_rff :
  costs k (train_imbalanced dataset n_rff) (5 * fold_cost 10 k).
Proof.
  unfold train_imbalanced.
  eapply costs_eq.
  - eapply costs_bind; [by apply (costs_emit _ _ _ false); destruct k|].
    intros _.
    eapply costs_bind.
    + apply costs_for_each with (len := 5); [done|].
      intros fold AUC. apply train_fold_tally.
    + intros AUC.
      eapply costs_bind; [by apply (costs_emit _ _ _ false); destruct k|].
      intros _. apply costs_ret.
  - simpl. lia.
Qed.

(** X8.  What a run of [train_imbalanced] that returns has cost: the 10
    files of the data set were read; [JRD_sampling] was called 55 times, 11
    times per fold (10 candidates and the final subsampling); the
    divergence was evaluated 6600 times and as many Adam steps were taken,
    120 per call; 55 grid searches and 55 SVM fits were made. *)
Theorem train_imbalanced_cost (dataset : string) (n_rff : option Z) (w : world) :
  let run := train_imbalanced dataset n_rff w in
  is_ok run.2 = true ->
  exists evs,
    w_log run.1 = w_log w ++ evs /\
    Z.of_nat (count_calls (counts_as Reads) evs) = 10%Z /\
    Z.of_nat (count_calls (counts_as Samplings) evs) = 55%Z /\
    Z.of_nat (count_calls (counts_as Divergences) evs) = 6600%Z /\
    Z.of_nat (count_calls (counts_as Steps) evs) = 6600%Z /\
    Z.of_nat (count_calls (counts_as GridFits) evs) = 55%Z /\
    Z.of_nat (count_calls (counts_as SVCFits) evs) = 55%Z.
Proof.
  intros run Hok. subst run.
  destruct (train_imbalanced_tally Reads dataset n_rff w) as (evs & Hlog & H).
  exists evs. split; [done|].
  assert (Hk : forall k, count_calls (counts_as k) evs = 5 * fold_cost 10 k).
  { intros k.
    destruct (train_imbalanced_tally k dataset n_rff w) as (evs' & Hlog' & H').
    rewrite Hlog in Hlog'. apply app_inv_head in Hlog'. subst evs'. by apply H'. }
  rewrite !Hk. by vm_compute.
Qed.

End PipelineCosts.


(** ** [train_imbalanced]: the arguments of the calls *)

Section PipelineCallsFacts.
Context {L : Libs}.

Lemma emits_for_each_elem {B S} P (xs : list B) (body : B -> S -> M S)
    (I : S -> Prop) (s : S) :
  I s -> (forall x s', x ∈ xs -> I s' -> emits P (body x s') I) ->
  emits P (for_each xs body s) I.
Proof.
  intros Hs Hb. revert s Hs. induction xs as [|x xs IH]; intros s Hs; simpl.
  - by apply emits_ret.
  - eapply emits_bind; [apply Hb; [by left | done] |].
    intros a Ha. apply IH; [|done]. intros y s' Hy. apply Hb. by right.
Qed.

Lemma dataset_files_fold dataset fold :
  fold ∈ seqZ 1 5 ->
  train_file dataset fold ∈ dataset_files dataset /\
  test_file dataset fold ∈ dataset_files dataset.
Proof.
  intros Hf. unfold dataset_files.
  split; apply list_elem_of_bind; exists fold; (split; [|done]);
    rewrite !elem_of_cons; auto.
Qed.

Lemma JRD_sampling_np_pipeline dataset n_rff X n sigma :
  emits (pipeline_call dataset n_rff)
    (JRD_sampling_np X (Z.of_nat n) sigma 1.01 0.1 default_n_iter true n_rff
       default_plot)
    (fun _ => True).
Proof.
  eapply emits_conseq; [apply JRD_sampling_np_calls; lia | | done].
  intros [c o]. unfold JRD_call, pipeline_call. simpl.
  destruct c; try done; tauto.
Qed.

Lemma tune_and_fit_pipeline dataset n_rff st Xsub Xtr ytr :
  emits (pipeline_call dataset n_rff) (tune_and_fit st Xsub Xtr ytr)
    (fun _ => True).
Proof.
  unfold tune_and_fit.
  apply emits_bind_call; [done | intros D].
  apply emits_bind_call; [|intros best; by apply emits_lib_call].
  intros o. split; [|done]. by rewrite length_map, np_linspace_length.
Qed.

Lemma score_pipeline dataset n_rff st clf X y :
  emits (pipeline_call dataset n_rff) (score st clf X y) (fun _ => True).
Proof.
  unfold score.
  apply emits_bind_call; [done | intros P].
  apply emits_bind_lift. intros p1 _. by apply emits_lib_call.
Qed.

Lemma load_dataset_pipeline dataset n_rff fold :
  fold ∈ seqZ 1 5 ->
  emits (pipeline_call dataset n_rff) (load_dataset dataset fold) (fun _ => True).
Proof.
  intros Hf. destruct (dataset_files_fold dataset fold Hf) as [H1 H2].
  unfold load_dataset.
  apply emits_bind_call; [done | intros df].
  apply emits_bind_call; [done | intros dftest].
  apply emits_bind_lift. intros Ytrain _.
  apply emits_bind_lift. intros Ytrain_int _.
  apply emits_bind_lift. intros Ytest_int _.
  by apply emits_ret.
Qed.

Lemma nested_candidate_pipeline dataset maj_label min_label n_rff Xmaj_cv
    Xmin_cv Xtest_ Ytest_ i_sigma AUC_cv :
  emits (pipeline_call dataset n_rff)
    (nested_candidate maj_label min_label 1.01 n_rff Xmaj_cv Xmin_cv
       Xtest_ Ytest_ i_sigma AUC_cv)
    (fun _ => True).
Proof.
  unfold nested_candidate.
  eapply emits_bind; [apply JRD_sampling_np_pipeline|].
  intros Xmaj_cv_ _.
  apply emits_bind_lift. intros Xtrain_cv _.
  eapply emits_bind; [apply tune_and_fit_pipeline|].
  intros clf _.
  apply emits_try; [|by apply emits_ret].
  eapply emits_bind; [apply score_pipeline|].
  intros v _. by apply emits_lift.
Qed.

Lemma select_sigma_pipeline dataset maj_label min_label n_sigmas n_rff Xtrain
    Ytrain :
  emits (pipeline_call dataset n_rff)
    (select_sigma maj_label min_label 1.01 n_sigmas n_rff Xtrain Ytrain)
    (fun _ => True).
Proof.
  unfold select_sigma, nested_cv.
  eapply emits_bind with (R1 := fun _ => True);
    [|intros cv _; apply emits_bind_lift; intros best _; by apply emits_lift].
  apply emits_bind_call; [done|].
  intros [[[Xtrain_ Xtest_] Ytrain_] Ytest_].
  apply emits_bind_lift. intros Xmaj_cv _.
  apply emits_bind_lift. intros Xmin_cv _.
  apply emits_bind_call; [done | intros D].
  eapply emits_bind; [|intros AUC_cv _; by apply emits_ret].
  apply emits_for_each with (I := fun _ => True); [done|].
  intros i_sigma AUC_cv _. apply nested_candidate_pipeline.
Qed.

Lemma train_fold_pipeline dataset n_rff n_sigmas fold AUC :
  fold ∈ seqZ 1 5 ->
  emits (pipeline_call dataset n_rff)
    (train_fold dataset n_rff 1.01 n_sigmas fold AUC)
    (fun AUC' => length AUC' = length AUC).
Proof.
  intros Hf. unfold train_fold.
  apply emits_bind_emit; [done|].
  eapply emits_bind; [by apply load_dataset_pipeline|].
  intros [[[Xtrain Ytrain] Xtest] Ytest] _.
  apply emits_bind_call; [done | intros fitted].
  apply emits_bind_call; [done | intros Xtest'].
  apply emits_bind_lift. intros counts _.
  apply emits_bind_lift. intros maj _.
  apply emits_bind_lift. intros counts' _.
  apply emits_bind_lift. intros min _.
  apply emits_bind_lift. intros Xmaj _.
  apply emits_bind_lift. intros Xmin _.
  eapply emits_bind; [apply select_sigma_pipeline|].
  intros sigma _.
  eapply emits_bind; [apply JRD_sampling_np_pipeline|].
  intros Xmaj_ _.
  apply emits_bind_lift. intros Xtrain_ _.
  eapply emits_bind; [apply tune_and_fit_pipeline|].
  intros clf _.
  eapply emits_bind; [apply score_pipeline|].
  intros v _. apply emits_lift. intros AUC'. unfold np_setitem.
  destruct (_ <? _); [|done]. intros [= <-]. by rewrite length_insert.
Qed.

Lemma train_imbalanced_pipeline dataset n_rff :
  emits (pipeline_call dataset n_rff) (train_imbalanced dataset n_rff)
    (fun AUC => length AUC = 5).
Proof.
  unfold train_imbalanced.
  apply emits_bind_emit; [done|].
  eapply emits_bind with (R1 := fun AUC => length AUC = 5).
  - apply emits_for_each_elem; [done|].
    intros fold AUC Hf HA.
    eapply emits_conseq; [by apply train_fold_pipeline | done |].
    intros AUC' H. simpl in H. congruence.
  - intros AUC HA. apply emits_bind_emit; [done | by apply emits_ret].
Qed.

(** X9.  What [train_imbalanced] asks of the libraries, in any run: it reads
    no file other than the 10 files of the data set; every candidate is
    drawn in [[-2, 2)] and optimised by one Adam on one tensor with learning
    rate 0.1; every divergence is evaluated with [alpha = 1.01], weighted,
    and with the [n_rff] of the call; every inner split is made with
    [test_size = 0.25] and [random_state = 42]; every grid search is over 7
    values of [gamma] and [np.logspace(0, 3, 7)] for [C]; nothing is
    plotted. *)
Theorem train_imbalanced_calls (dataset : string) (n_rff : option Z) (w : world) :
  let run := train_imbalanced dataset n_rff w in
  exists evs,
    w_log run.1 = w_log w ++ evs /\
    Forall (pipeline_call dataset n_rff) evs /\
    dataset_files dataset =
      [ train_file dataset 1; test_file dataset 1;
        train_file dataset 2; test_file dataset 2;
        train_file dataset 3; test_file dataset 3;
        train_file dataset 4; test_file dataset 4;
        train_file dataset 5; test_file dataset 5 ].
Proof.
  intros run. subst run.
  destruct (train_imbalanced_pipeline dataset n_rff w) as (evs & Hlog & Hall & _).
  exists evs. split; [done|]. split; [done|]. reflexivity.
Qed.

End PipelineCallsFacts.

(** ** [train_imbalanced]: an exception the guard lets through *)

Section CrashesFacts.
Context {L : Libs}.

Lemma crashes_silent {A} (m : M A) :
  emits (fun ev => proba_returned ev = false) m (fun _ => True) -> crashes m.
Proof.
  intros H. eapply traces_conseq; [exact H|].
  intros evs r [Hall _] ev Hev Hp.
  eapply Forall_forall in Hall; [|exact Hev]. congruence.
Qed.

Lemma crashes_ret {A} (a : A) : crashes (ret a).
Proof. by apply crashes_silent, emits_ret. Qed.

Lemma crashes_lift {A} (r : result A) : crashes (lift r).
Proof. by apply crashes_silent, emits_lift. Qed.

Lemma crashes_emit c o : proba_returned (Ev c o) = false -> crashes (emit c o).
Proof. intros H. by apply crashes_silent, emits_emit. Qed.

Lemma crashes_lib_call {A} c (report : A -> outcome) f :
  (forall o, proba_returned (Ev c o) = false) -> crashes (lib_call c report f).
Proof. intros H. by apply crashes_silent, emits_lib_call. Qed.

Lemma crashes_bind {A B} (m : M A) (k : A -> M B) :
  crashes m -> (forall a, crashes (k a)) -> crashes (bind m k).
Proof.
  intros Hm Hk. apply traces_bind. eapply traces_conseq; [exact Hm|].
  intros evs1 [a|e] H1.
  - eapply traces_conseq; [apply Hk|].
    intros evs2 r2 H2 ev Hev Hp. apply elem_of_app in Hev as [Hev|Hev].
    + by specialize (H1 ev Hev Hp).
    + by apply (H2 ev).
  - intros ev Hev Hp. specialize (H1 ev Hev Hp). by injection H1 as ->.
Qed.

Lemma crashes_try {A} (body handler : M A) :
  crashes body -> crashes handler ->
  crashes (try_except_ValueError body handler).
Proof.
  intros Hb Hh. apply traces_try. eapply traces_conseq; [exact Hb|].
  intros evs1 [a|e] H1; [done|]. destruct e; try done.
  eapply traces_conseq; [exact Hh|].
  intros evs2 r2 H2 ev Hev Hp. apply elem_of_app in Hev as [Hev|Hev].
  - by specialize (H1 ev Hev Hp).
  - by apply (H2 ev).
Qed.

Lemma crashes_for_each {B S} (xs : list B) (body : B -> S -> M S) (s : S) :
  (forall x s', crashes (body x s')) -> crashes (for_each xs body s).
Proof.
  intros Hb. revert s. induction xs as [|x xs IH]; intros s; simpl.
  - apply crashes_ret.
  - by apply crashes_bind.
Qed.

Lemma fails_bind_l {A B} (m : M A) (k : A -> M B) : fails m -> fails (bind m k).
Proof.
  intros Hm. apply traces_bind. eapply traces_conseq; [exact Hm|].
  by intros evs1 [a|e] H1.
Qed.

Lemma fails_bind_r {A B} (m : M A) (k : A -> M B) :
  sound m -> (forall a, fails (k a)) -> fails (bind m k).
Proof.
  intros Hm Hk. apply traces_bind. eapply traces_conseq; [exact Hm|].
  intros evs1 [a|e] _; [|done].
  eapply traces_conseq; [apply Hk|]. by intros evs2 r2 H2.
Qed.

Section OneColumn.
Hypothesis one_column : one_column_proba.

Lemma score_crashes st clf X y : crashes (score st clf X y).
Proof.
  unfold score. apply traces_bind, traces_lib_call. intros s.
  destruct (svc_predict_proba clf X s).2 as [P|e] eqn:HP.
  - apply one_column in HP.
    assert (Hc : column_of 1 P = Raise IndexError).
    { unfold column_of. destruct (Nat.ltb_spec 1 (ncols P)); [lia | done]. }
    rewrite Hc. apply traces_bind, traces_lift. by intros ev.
  - intros ev Hev. apply list_elem_of_singleton in Hev as ->. done.
Qed.

Lemma score_fails st clf X y : fails (score st clf X y).
Proof.
  unfold score. apply traces_bind, traces_lib_call. intros s.
  destruct (svc_predict_proba clf X s).2 as [P|e] eqn:HP; [|done].
  apply one_column in HP.
  assert (Hc : column_of 1 P = Raise IndexError).
  { unfold column_of. destruct (Nat.ltb_spec 1 (ncols P)); [lia | done]. }
  rewrite Hc. by apply traces_bind, traces_lift.
Qed.

Lemma JRD_sampling_np_crashes X n sigma alpha lr n_iter weighted n_rff plot :
  crashes (JRD_sampling_np X (Z.of_nat n) sigma alpha lr n_iter weighted n_rff plot).
Proof.
  apply crashes_silent.
  eapply emits_conseq; [apply JRD_sampling_np_calls; lia | | done].
  intros [c o]. unfold JRD_call. simpl. by destruct c.
Qed.

Lemma tune_and_fit_crashes st Xsub Xtr ytr : crashes (tune_and_fit st Xsub Xtr ytr).
Proof.
  unfold tune_and_fit.
  repeat (apply crashes_bind; [by apply crashes_lib_call | intros ?]).
  by apply crashes_lib_call.
Qed.

Lemma nested_candidate_crashes maj_label min_label alpha n_rff Xmaj_cv Xmin_cv
    Xtest_ Ytest_ i_sigma AUC_cv :
  crashes (nested_candidate maj_label min_label alpha n_rff Xmaj_cv Xmin_cv
             Xtest_ Ytest_ i_sigma AUC_cv).
Proof.
  unfold nested_candidate.
  apply crashes_bind; [apply JRD_sampling_np_crashes | intros Xmaj_cv_].
  apply crashes_bind; [apply crashes_lift | intros Xtrain_cv].
  apply crashes_bind; [apply tune_and_fit_crashes | intros clf].
  apply crashes_try; [|apply crashes_ret].
  apply crashes_bind; [apply score_crashes | intros v]. apply crashes_lift.
Qed.

Lemma select_sigma_crashes maj_label min_label alpha n_sigmas n_rff Xtrain Ytrain :
  crashes (select_sigma maj_label min_label alpha n_sigmas n_rff Xtrain Ytrain).
Proof.
  unfold select_sigma, nested_cv.
  apply crashes_bind;
    [|intros cv; apply crashes_bind; [apply crashes_lift|];
      intros best; apply crashes_lift].
  apply crashes_bind; [by apply crashes_lib_call|].
  intros [[[Xtrain_ Xtest_] Ytrain_] Ytest_].
  apply crashes_bind; [apply crashes_lift | intros Xmaj_cv].
  apply crashes_bind; [apply crashes_lift | intros Xmin_cv].
  apply crashes_bind; [by apply crashes_lib_call | intros D].
  apply crashes_bind; [|intros AUC_cv; apply crashes_ret].
  apply crashes_for_each. intros i_sigma AUC_cv.
  apply nested_candidate_crashes.
Qed.

Lemma load_dataset_crashes dataset fold : crashes (load_dataset dataset fold).
Proof.
  unfold load_dataset.
  do 2 (apply crashes_bind; [by apply crashes_lib_call | intros ?]).
  do 3 (apply crashes_bind; [apply crashes_lift | intros ?]).
  apply crashes_ret.
Qed.

Lemma train_fold_crashes dataset n_rff alpha n_sigmas fold AUC :
  crashes (train_fold dataset n_rff alpha n_sigmas fold AUC).
Proof.
  unfold train_fold.
  apply crashes_bind; [by apply crashes_emit | intros _].
  apply crashes_bind; [apply load_dataset_crashes|].
  intros [[[Xtrain Ytrain] Xtest] Ytest].
  do 2 (apply crashes_bind; [by apply crashes_lib_call | intros ?]).
  do 6 (apply crashes_bind; [apply crashes_lift | intros ?]).
  apply crashes_bind; [apply select_sigma_crashes | intros sigma].
  apply crashes_bind; [apply JRD_sampling_np_crashes | intros Xmaj_].
  apply crashes_bind; [apply crashes_lift | intros Xtrain_].
  apply crashes_bind; [apply tune_and_fit_crashes | intros clf].
  apply crashes_bind; [apply score_crashes | intros v]. apply crashes_lift.
Qed.

Lemma train_fold_fails dataset n_rff alpha n_sigmas fold AUC :
  fails (train_fold dataset n_rff alpha n_sigmas fold AUC).
Proof.
  unfold train_fold.
  apply fails_bind_r; [apply sound_emit | intros _].
  apply fails_bind_r; [apply load_dataset_sound|].
  intros [[[Xtrain Ytrain] Xtest] Ytest].
  do 2 (apply fails_bind_r; [by apply sound_lib_call | intros ?]).
  do 6 (apply fails_bind_r; [apply sound_lift | intros ?]).
  apply fails_bind_r; [apply select_sigma_sound | intros sigma].
  apply fails_bind_r; [apply JRD_sampling_np_sound; lia | intros Xmaj_].
  apply fails_bind_r; [apply sound_lift | intros Xtrain_].
  apply fails_bind_r; [apply tune_and_fit_sound | intros clf].
  apply fails_bind_l, score_fails.
Qed.

(** X10.  The guard of the nested loop is for [ValueError] only.  With a
    [predict_proba] whose array has a single column, the [[:, 1]] of the
    guarded statement raises [IndexError]: a candidate of the nested loop
    whose [predict_proba] returned ends in [IndexError], not in the
    handler; the same holds for [train_imbalanced] as a whole, which never
    returns. *)
Theorem train_imbalanced_IndexError (dataset : string) (n_rff : option Z)
    (w : world) :
  let run := train_imbalanced dataset n_rff w in
  is_ok run.2 = false /\
  (exists evs,
     w_log run.1 = w_log w ++ evs /\
     forall st X, Ev (PredictProba st X) Returned ∈ evs ->
                  run.2 = Raise IndexError) /\
  (forall maj_label min_label alpha Xmaj_cv Xmin_cv Xtest_ Ytest_ i_sigma
          AUC_cv w',
     let body := nested_candidate maj_label min_label alpha n_rff Xmaj_cv
                   Xmin_cv Xtest_ Ytest_ i_sigma AUC_cv w' in
     exists evs,
       w_log body.1 = w_log w' ++ evs /\
       forall X, Ev (PredictProba Nested X) Returned ∈ evs ->
                 body.2 = Raise IndexError).
Proof.
  intros run. subst run. split; [|split].
  - assert (H : fails (train_imbalanced dataset n_rff)).
    { unfold train_imbalanced.
      apply fails_bind_r; [apply sound_emit | intros _].
      apply fails_bind_l. simpl. apply fails_bind_l, train_fold_fails. }
    by destruct (H w) as (evs & _ & Hr).
  - assert (H : crashes (train_imbalanced dataset n_rff)).
    { unfold train_imbalanced.
      apply crashes_bind; [by apply crashes_emit | intros _].
      apply crashes_bind.
      - apply crashes_for_each. intros fold AUC. apply train_fold_crashes.
      - intros AUC. apply crashes_bind; [by apply crashes_emit | intros _].
        apply crashes_ret. }
    destruct (H w) as (evs & Hlog & Hr). exists evs. split; [done|].
    intros st X Hev. by apply (Hr _ Hev).
  - intros maj_label min_label alpha Xmaj_cv Xmin_cv Xtest_ Ytest_ i_sigma
      AUC_cv w' body. subst body.
    destruct (nested_candidate_crashes maj_label min_label alpha n_rff Xmaj_cv
                Xmin_cv Xtest_ Ytest_ i_sigma AUC_cv w') as (evs & Hlog & Hr).
    exists evs. split; [done|]. intros X Hev. by apply (Hr _ Hev).
Qed.

End OneColumn.

End CrashesFacts.

(** ** The grid of [gamma] *)

Section Grid.
Context {L : Libs}.

(** X11.  The grid of the search, for the nested and for the final model:
    every grid search is on the training set of the call, with
    [np.logspace(0, 3, 7)] for [C] and 7 values for [gamma]; with [s0] the
    median of the pairwise distances of the subsample, positive, the
    [i]-th [gamma] is [1 / (2 x^2)] for the bandwidth
    [x = 0.01 s0 + i (3 s0 - 0.01 s0) / 6], the values are positive and
    strictly decreasing, from [5000 / s0^2] down to [1 / (18 s0^2)]. *)
Theorem tune_and_fit_gamma_range (st : site) (Xsub Xtr : ndarray) (ytr : list Q)
    (w : world) :
  let run := tune_and_fit st Xsub Xtr ytr w in
  exists evs,
    w_log run.1 = w_log w ++ evs /\
    forall st' X y gamma_range C_range o,
      Ev (GridSearchFit st' X y gamma_range C_range) o ∈ evs ->
      X = Xtr /\ y = ytr /\ C_range = np_logspace 0 3 7 /\
      length gamma_range = 7 /\
      exists D,
        let s0 := np_nanmedian D in
        (exists s, (pairwise_distances Xsub s).2 = Ok D) /\
        ((0 < s0)%Q ->
         (forall i g, gamma_range !! i = Some g ->
            (g == gamma_of (grid_bandwidth s0 i))%Q /\ (0 < g)%Q) /\
         (forall i j gi gj, i < j -> gamma_range !! i = Some gi ->
            gamma_range !! j = Some gj -> (gj < gi)%Q) /\
         (forall g, gamma_range !! 0 = Some g -> (g == 5000 / s0 ^ 2)%Q) /\
         (forall g, gamma_range !! 6 = Some g -> (g == 1 / (18 * s0 ^ 2))%Q)).
Proof.
  intros run. subst run.
  assert (H : traces (tune_and_fit st Xsub Xtr ytr) (fun evs _ =>
    forall st' X y gamma_range C_range o,
      Ev (GridSearchFit st' X y gamma_range C_range) o ∈ evs ->
      X = Xtr /\ y = ytr /\ C_range = np_logspace 0 3 7 /\
      exists D,
        (exists s, (pairwise_distances Xsub s).2 = Ok D) /\
        gamma_range =
          map (fun x => (1 / (2 * x ^ 2))%Q)
            (np_linspace (0.01 * np_nanmedian D) (3 * np_nanmedian D) 7))).
  { unfold tune_and_fit. apply traces_bind, traces_lib_call. intros s.
    destruct (pairwise_distances Xsub s).2 as [D|e] eqn:HD.
    2: { intros ? ? ? ? ? ? Hev. apply list_elem_of_singleton in Hev. done. }
    apply traces_bind, traces_lib_call. intros s'.
    assert (Hgrid : forall o st' X y gamma_range C_range o' tl,
      (forall ev, ev ∈ tl -> forall a b c d e, ev_call ev <> GridSearchFit a b c d e) ->
      Ev (GridSearchFit st' X y gamma_range C_range) o' ∈
        [Ev (PairwiseDistances Xsub) Returned] ++
        Ev (GridSearchFit st Xtr ytr
              (map (fun x => (1 / (2 * x ^ 2))%Q)
                 (np_linspace (0.01 * np_nanmedian D) (3 * np_nanmedian D) 7))
              (np_logspace 0 3 7)) o :: tl ->
      X = Xtr /\ y = ytr /\ C_range = np_logspace 0 3 7 /\
      exists D',
        (exists s, (pairwise_distances Xsub s).2 = Ok D') /\
        gamma_range =
          map (fun x => (1 / (2 * x ^ 2))%Q)
            (np_linspace (0.01 * np_nanmedian D') (3 * np_nanmedian D') 7)).
    { intros o st' X y g C o' tl Htl Hev. simpl in Hev.
      rewrite !elem_of_cons in Hev. destruct Hev as [Hev|[Hev|Hev]]; [done| |].
      - injection Hev as -> -> -> -> -> ->. repeat split. exists D.
        split; [by exists s | done].
      - by destruct (Htl _ Hev st' X y g C). }
    destruct (grid_search_fit _ _ _ _ s').2 as [best|e].
    - apply traces_lib_call. intros s''.
      intros st' X y g C o'. apply Hgrid.
      intros ev Hev. apply list_elem_of_singleton in Hev as ->. done.
    - intros st' X y g C o'. apply Hgrid. by intros ev ?%elem_of_nil. }
  destruct (H w) as (evs & Hlog & Hev). exists evs. split; [done|].
  intros st' X y gamma_range C_range o Hin.
  destruct (Hev _ _ _ _ _ _ Hin) as (-> & -> & -> & D & HD & ->).
  do 3 (split; [done|]).
  split; [by rewrite length_map, np_linspace_length|].
  exists D. cbv zeta. split; [done|].
  intros Hs0. split; [|split; [|split]].
  - intros i g Hg. apply gamma_range_lookup in Hg as [_ Hg].
    split; [done|]. rewrite Hg.
    by apply gamma_of_pos, grid_bandwidth_pos.
  - intros i j gi gj Hij Hi Hj.
    apply gamma_range_lookup in Hi as [_ ->].
    apply gamma_range_lookup in Hj as [_ ->].
    apply gamma_of_lt; [by apply grid_bandwidth_pos | by apply grid_bandwidth_lt].
  - intros g Hg. apply gamma_range_lookup in Hg as [_ ->].
    unfold gamma_of, grid_bandwidth. simpl. field. lra.
  - intros g Hg. apply gamma_range_lookup in Hg as [_ ->].
    unfold gamma_of, grid_bandwidth. simpl. field. lra.
Qed.

End Grid.


(** ** The cells of the notebook *)

(** *** The names of the files *)

Lemma list_ascii_of_string_app (a b : string) :
  list_ascii_of_string (a +:+ b) =
  list_ascii_of_string a ++ list_ascii_of_string b.
Proof. induction a as [|c a IH]; [done|]. simpl. by rewrite IH. Qed.

Lemma string_app_inj (a b s t : string) :
  String.length s = String.length t ->
  a +:+ s = b +:+ t -> a = b /\ s = t.
Proof.
  intros Hlen Heq. apply (f_equal list_ascii_of_string) in Heq.
  rewrite !list_ascii_of_string_app in Heq.
  apply app_inj_2 in Heq as [Ha Hs].
  - split.
    + by rewrite <- (string_of_list_ascii_of_string a),
                 <- (string_of_list_ascii_of_string b), Ha.
    + by rewrite <- (string_of_list_ascii_of_string s),
                 <- (string_of_list_ascii_of_string t), Hs.
  - clear Heq. revert t Hlen.
    induction s as [|c s IH]; intros [|c' t]; simpl; try done.
    intros [= H]. by rewrite (IH t).
Qed.

Lemma fold_cases (fold : Z) :
  fold ∈ seqZ 1 5 ->
  fold = 1%Z \/ fold = 2%Z \/ fold = 3%Z \/ fold = 4%Z \/ fold = 5%Z.
Proof. rewrite elem_of_seqZ. lia. Qed.

Lemma fold_file_inj (d d' : string) (fold fold' : Z) (k k' : string) :
  fold ∈ seqZ 1 5 -> fold' ∈ seqZ 1 5 ->
  k ∈ ["tra.dat"; "tst.dat"] -> k' ∈ ["tra.dat"; "tst.dat"] ->
  "./Imbalanced_data/" +:+ d +:+ "-5-" +:+ pretty fold +:+ k =
  "./Imbalanced_data/" +:+ d' +:+ "-5-" +:+ pretty fold' +:+ k' ->
  d = d' /\ fold = fold' /\ k = k'.
Proof.
  intros Hf Hf' Hk Hk' Heq. simpl in Heq. injection Heq as Heq.
  apply fold_cases in Hf, Hf'.
  rewrite !elem_of_cons, elem_of_nil in Hk, Hk'.
  destruct_or!; subst; try done;
    change ("" +:+ ?s)%string with s in Heq;
    (apply string_app_inj in Heq as [-> Hs]; [|by vm_compute]);
    vm_compute in Hs; first [discriminate Hs | done].
Qed.

Lemma train_file_inj d d' fold fold' :
  fold ∈ seqZ 1 5 -> fold' ∈ seqZ 1 5 ->
  train_file d fold = train_file d' fold' -> d = d' /\ fold = fold'.
Proof.
  intros Hf Hf' Heq.
  destruct (fold_file_inj d d' fold fold' "tra.dat" "tra.dat") as (? & ? & _);
    rewrite ?elem_of_cons; auto.
Qed.

Lemma test_file_inj d d' fold fold' :
  fold ∈ seqZ 1 5 -> fold' ∈ seqZ 1 5 ->
  test_file d fold = test_file d' fold' -> d = d' /\ fold = fold'.
Proof.
  intros Hf Hf' Heq.
  destruct (fold_file_inj d d' fold fold' "tst.dat" "tst.dat") as (? & ? & _);
    rewrite ?elem_of_cons; auto.
Qed.

Lemma train_file_not_test d d' fold fold' :
  fold ∈ seqZ 1 5 -> fold' ∈ seqZ 1 5 ->
  train_file d fold <> test_file d' fold'.
Proof.
  intros Hf Hf' Heq.
  destruct (fold_file_inj d d' fold fold' "tra.dat" "tst.dat") as (_ & _ & H);
    rewrite ?elem_of_cons; auto. discriminate H.
Qed.

Lemma dataset_files_elem (d path : string) :
  path ∈ dataset_files d ->
  exists fold, fold ∈ seqZ 1 5 /\
               (path = train_file d fold \/ path = test_file d fold).
Proof.
  unfold dataset_files. rewrite list_elem_of_bind.
  intros (fold & Hp & Hf). exists fold. split; [done|].
  rewrite !elem_of_cons, elem_of_nil in Hp. tauto.
Qed.

Lemma dataset_files_inj d d' path :
  path ∈ dataset_files d -> path ∈ dataset_files d' -> d = d'.
Proof.
  intros (f & Hf & H)%dataset_files_elem (f' & Hf' & H')%dataset_files_elem.
  destruct H as [-> | ->], H' as [H' | H'].
  - by apply train_file_inj in H' as [? _].
  - by apply train_file_not_test in H'.
  - symmetry in H'. by apply train_file_not_test in H'.
  - by apply test_file_inj in H' as [? _].
Qed.

Lemma dataset_files_NoDup d : NoDup (dataset_files d).
Proof.
  unfold dataset_files. apply NoDup_bind.
  - intros f f' path Hf Hf' Hp Hp'.
    rewrite !elem_of_cons, elem_of_nil in Hp, Hp'.
    destruct Hp as [-> | [-> | []]], Hp' as [H | [H | []]].
    + by apply train_file_inj in H as [_ ?].
    + by apply train_file_not_test in H.
    + symmetry in H. by apply train_file_not_test in H.
    + by apply test_file_inj in H as [_ ?].
  - intros f Hf. apply NoDup_cons. split.
    + rewrite elem_of_cons, elem_of_nil. intros [H | []].
      by apply train_file_not_test in H.
    + apply NoDup_singleton.
  - apply NoDup_seqZ.
Qed.

(** X5.  The files of the experiments.  The list of the notebook has 44
    names, all different.  The training and the test file of a fold are
    never the same file, and a file name determines the data set and the
    fold; so the 10 files of a data set are different files, and so are the
    440 files of the 44 data sets. *)
Theorem dataset_files_distinct :
  length datasets = 44 /\
  NoDup datasets /\
  NoDup (datasets ≫= dataset_files) /\
  (forall ds : list string, NoDup ds -> NoDup (ds ≫= dataset_files)) /\
  (forall d d' fold fold',
     fold ∈ seqZ 1 5 -> fold' ∈ seqZ 1 5 ->
     (train_file d fold = train_file d' fold' -> d = d' /\ fold = fold') /\
     (test_file d fold = test_file d' fold' -> d = d' /\ fold = fold') /\
     train_file d fold <> test_file d' fold').
Proof.
  assert (Hnodup : NoDup datasets).
  { apply (bool_decide_unpack _). by vm_compute. }
  assert (Hall : forall ds : list string, NoDup ds -> NoDup (ds ≫= dataset_files)).
  { intros ds Hds. apply NoDup_bind; [|intros; apply dataset_files_NoDup | done].
    intros d d' path _ _. apply dataset_files_inj. }
  split; [reflexivity|]. split; [done|]. split; [by apply Hall|].
  split; [done|].
  intros d d' fold fold' Hf Hf'. split; [|split].
  - by apply train_file_inj.
  - by apply test_file_inj.
  - by apply train_file_not_test.
Qed.


Section CellsFacts.
Context {L : Libs}.

Lemma demo_emits (make_moons : nat -> Q -> Z -> ndarray * list Z) :
  emits (demo_call (make_moons 300 0.08%Q 1%Z).1) (demo make_moons)
    (fun Y => exists scaler X s,
       (scaler_fit_transform (make_moons 300 0.08%Q 1%Z).1 s).2
         = Ok (scaler, X) /\
       shape Y = (20, ncols X)).
Proof.
  unfold demo. destruct (make_moons _ _ _) as [X y]. simpl.
  eapply emits_bind
    with (R1 := fun fitted => exists s, (scaler_fit_transform X s).2 = Ok fitted).
  - apply emits_lib_call; [intros o; by left | intros s a Ha; by exists s].
  - intros [scaler X'] [s Hs]. simpl.
    eapply emits_conseq; [apply JRD_sampling_np_calls; lia | |].
    + intros ev Hev. right. by exists scaler, X', s.
    + intros Y HY. by exists scaler, X', s.
Qed.

Lemma demo_tally k (make_moons : nat -> Q -> Z -> ndarray * list Z) :
  costs k (demo make_moons) (sampling_cost 300 true k).
Proof.
  unfold demo. destruct (make_moons _ _ _) as [X y].
  eapply costs_eq.
  - eapply costs_bind;
      [by apply (costs_lib_call _ _ _ _ false); destruct k | intros fitted].
    apply JRD_sampling_np_tally; lia.
  - done.
Qed.

(** X12.  The demonstration cell: the moons are normalised, then subsampled
    by one [JRD_sampling] on the normalised points, for 20 samples, with
    [sigma = 0.5], [alpha = 1.01], learning rate 0.1, weighted, without
    random features and with plotting; no other call is made.  A run that
    returns gives 20 points of the width of the normalised data, after one
    draw, one figure, and 300 evaluations of the divergence, each followed
    by an Adam step and a frame. *)
Theorem demo_calls (make_moons : nat -> Q -> Z -> ndarray * list Z)
    (w : world) :
  let run := demo make_moons w in
  let moons := (make_moons 300 0.08%Q 1%Z).1 in
  exists evs,
    w_log run.1 = w_log w ++ evs /\
    Forall (demo_call moons) evs /\
    (forall Y, run.2 = Ok Y ->
       exists scaler X s,
         (scaler_fit_transform moons s).2 = Ok (scaler, X) /\
         shape Y = (20, ncols X)) /\
    (is_ok run.2 = true ->
     count_calls (counts_as Samplings) evs = 1 /\
     count_calls (counts_as Figures) evs = 1 /\
     count_calls (counts_as Divergences) evs = 300 /\
     count_calls (counts_as Steps) evs = 300 /\
     count_calls (counts_as Frames) evs = 300).
Proof.
  intros run moons. subst run moons.
  destruct (demo_emits make_moons w) as (evs & Hlog & Hall & HR).
  exists evs. split; [done|]. split; [done|]. split; [done|].
  intros Hok.
  assert (Hk : forall k, count_calls (counts_as k) evs = sampling_cost 300 true k).
  { intros k. destruct (demo_tally k make_moons w) as (evs' & Hlog' & H').
    rewrite Hlog in Hlog'. apply app_inv_head in Hlog'. subst evs'. by apply H'. }
  rewrite !Hk. by vm_compute.
Qed.

(** X13.  The two experiment cells run [train_imbalanced] on the first data
    set of the list, ['abalone9-18'], the first without random Fourier
    features and the second with 250 of them: every call is one that
    [train_imbalanced] makes for that data set and that [n_rff], so only
    the 10 files of ['abalone9-18'] are read and every divergence of the
    second cell is evaluated with [n_rff = 250]; what a cell returns has 5
    entries. *)
Theorem experiment_calls (n_rff : option Z) (w : world) :
  let run := experiment n_rff w in
  (exists evs,
     w_log run.1 = w_log w ++ evs /\
     Forall (pipeline_call "abalone9-18" n_rff) evs /\
     (forall AUC, run.2 = Ok AUC -> length AUC = 5)) /\
  run = train_imbalanced "abalone9-18" n_rff w /\
  experiment_exact = experiment None /\
  experiment_rff = experiment (Some 250%Z).
Proof.
  intros run. subst run.
  assert (Hrun : experiment n_rff w = train_imbalanced "abalone9-18" n_rff w)
    by reflexivity.
  split; [|done]. rewrite Hrun.
  destruct (train_imbalanced_pipeline "abalone9-18" n_rff w)
    as (evs & Hlog & Hall & HR).
  by exists evs.
Qed.

End CellsFacts.

(** ** Instances of the theorems on the small library *)


Lemma toy_frame_keel : keel_frame toy_frame.
Proof.
  eexists [_], _. split; [reflexivity|]. split; [done|].
  split; [|by each_call done].
  each_call idtac; auto.
Qed.

Lemma toy_contract : @libs_contract toy_libs.
Proof.
  split; simpl.
  - intros _ _. exists toy_frame. split; [done | apply toy_frame_keel].
  - intros X _. by exists tt, (mk_ndarray Float64 (ncols X) (rows X)).
  - done.
  - intros X y _ _ _ H. by exists X, X, y, y.
  - done.
  - done.
  - intros sigma alpha weighted n_rff Xd Yd s. reflexivity.
  - done.
  - done.
  - intros _ X _. exists (toy_proba X). split; [done | simpl; lia].
  - done.
Qed.

Lemma JRD_sampling_shape_witness :
  exists evs,
    w_log (JRD_sampling 0 2 1 1.01 0.1 3 true None false toy_world).1
      = w_log toy_world ++ evs /\
    forall Y,
      (JRD_sampling 0 2 1 1.01 0.1 3 true None false toy_world).2 = Ok Y ->
      exists cY,
        w_heap (JRD_sampling 0 2 1 1.01 0.1 3 true None false toy_world).1 !! Y
          = Some cY /\
        shape (c_data cY) = (2, 1) /\
        wf_ndarray (c_data cY) /\
        dtype (c_data cY) = Float64.
Proof.
  destruct (JRD_sampling_shape 0 2 1 1.01 0.1 3 true None false
              (mk_cell toy_X None) toy_world) as (evs & Hlog & Hret & _).
  - reflexivity.
  - lia.
  - exists evs. split; [exact Hlog | exact Hret].
Defined.

Lemma JRD_sampling_iterations_witness :
  exists evs,
    w_log (JRD_sampling 0 2 1 1.01 0.1 3 true None false toy_world).1
      = w_log toy_world ++ evs /\
    Z.of_nat (count_calls is_divergence_call evs) = 3%Z /\
    Z.of_nat (count_calls is_step_call evs) = 3%Z.
Proof.
  destruct (JRD_sampling_iterations 0 2 1 1.01 0.1 3 true None false
              (mk_cell toy_X None) toy_world)
    as (evs & Hlog & _ & _ & Heq & Hok).
  - reflexivity.
  - lia.
  - lia.
  - exists evs. split; [exact Hlog|]. apply Heq, Hok.
    + reflexivity.
    + intros H. discriminate H.
    + reflexivity.
    + intros Xd Yd s. reflexivity.
    + intros H. discriminate H.
Defined.

Lemma JRD_sampling_frame_witness :
  w_heap (JRD_sampling 0 2 1 1.01 0.1 3 true None false toy_world).1 !! 0
    = Some (mk_cell toy_X None).
Proof.
  exact (proj1 (JRD_sampling_frame 0 2 1 1.01 0.1 3 true None false toy_world)).
Defined.


Lemma JRD_sampling_is_descent_witness :
  let run := JRD_sampling 0 2 1 1.01 0.1 3 true None false toy_world in
  exists evs r,
    w_log run.1 = w_log toy_world ++ evs /\
    samples 0 1 toy_X 2 1 1.01 0.1 3 true None false O evs (w_lib run.1) r /\
    match r with
    | Ok Y => run.2 = Ok 2 /\
              exists g, w_heap run.1 !! 2 = Some (mk_cell Y g)
    | Raise e => run.2 = Raise e
    end.
Proof.
  exact (JRD_sampling_is_descent 0 2 1 1.01 0.1 3 true None false
           (mk_cell toy_X None) toy_world eq_refl).
Defined.


Lemma train_imbalanced_balanced_witness :
  exists evs,
    w_log (train_imbalanced "d" None toy_start).1 = w_log toy_start ++ evs /\
    Forall (balanced_fit "d" None 1.01) evs.
Proof.
  exact (train_imbalanced_balanced "d" None toy_start).
Defined.

Lemma train_imbalanced_folds_witness :
  exists AUC,
    (train_imbalanced "d" None toy_start).2 = Ok AUC /\ length AUC = 5.
Proof.
  exact (proj2 (train_imbalanced_folds "d" None toy_start) toy_contract).
Defined.

Lemma train_fold_bandwidth_witness :
  exists AUC' evs d,
    (train_fold "d" None 1.01 10 1 (np_zeros 5) toy_start).2 = Ok AUC' /\
    w_log (train_fold "d" None 1.01 10 1 (np_zeros 5) toy_start).1
      = w_log toy_start ++ evs /\
    fold_calls "d" None 1.01 10 1 (np_zeros 5) d evs AUC' /\
    length (fd_sigmas d) = 10.
Proof.
  destruct (@train_fold_total toy_libs toy_contract "d" None 1.01 10 1
              (np_zeros 5) ltac:(lia) ltac:(simpl; lia) toy_start)
    as (evs0 & _ & AUC' & Hr & _).
  destruct (train_fold_bandwidth "d" None 1 (np_zeros 5) toy_start AUC' Hr)
    as (evs & d & Hlog & _ & _ & Hfold & _ & _ & Hlen & _).
  exists AUC', evs, d. split; [exact Hr|]. split; [exact Hlog|].
  split; [exact Hfold | exact Hlen].
Defined.

Lemma load_dataset_labels_witness :
  (load_dataset "d" 1 toy_start).2 =
  Ok (mk_ndarray Float64 1 [[0.5]; [1.5]; [2.5]; [3.5]; [4.5]]%Q,
      [0; 0; 0; 1; 1]%Z,
      mk_ndarray Float64 1 [[0.5]; [1.5]; [2.5]; [3.5]; [4.5]]%Q,
      [[0]; [0]; [0]; [1]; [1]]%Z).
Proof.
  destruct (load_dataset_labels "d" 1 toy_start toy_frame toy_frame O O
              (ObjCol [PStr " negative"; PStr " negative"; PStr " negative";
                       PStr " positive"; PStr " positive"])
              (ObjCol [PStr " negative"; PStr " negative"; PStr " negative";
                       PStr " positive"; PStr " positive"]))
    as (Hrun & _).
  - reflexivity.
  - reflexivity.
  - reflexivity.
  - reflexivity.
  - rewrite Hrun. vm_compute. reflexivity.
Defined.

(** *** Instances of the further theorems *)

Lemma JRD_sampling_no_iteration_witness :
  (@JRD_sampling toy_libs 0 2 1 1.01 0.1 0 true None false toy_world).2 = Ok 2 /\
  w_heap (@JRD_sampling toy_libs 0 2 1 1.01 0.1 0 true None false toy_world).1 !! 2
    = Some (mk_cell (@initial_candidate toy_libs 2 1 O) None).
Proof.
  destruct (@JRD_sampling_no_iteration toy_libs 0 2 1 1.01 0.1 0 true None false
              (mk_cell toy_X None) toy_world)
    as (Hr & _ & (Y0 & Hheap & _ & HY0) & _).
  - reflexivity.
  - lia.
  - lia.
  - reflexivity.
  - reflexivity.
  - intros H. discriminate H.
  - split; [exact Hr|]. rewrite (HY0 eq_refl) in Hheap. exact Hheap.
Defined.

Lemma JRD_sampling_negative_samples_witness :
  (@JRD_sampling toy_libs 0 (-1) 1 1.01 0.1 3 true None false toy_world).2
    = Raise ValueError /\
  w_heap (@JRD_sampling toy_libs 0 (-1) 1 1.01 0.1 3 true None false toy_world).1
    = [mk_cell toy_X None].
Proof.
  destruct (@JRD_sampling_negative_samples toy_libs 0 (-1) 1 1.01 0.1 3 true None
              false (mk_cell toy_X None) toy_world)
    as (Hr & Hheap & _).
  - reflexivity.
  - lia.
  - split; [exact Hr | exact Hheap].
Defined.

Lemma load_dataset_numeric_labels_witness :
  (@load_dataset numeric_label_libs "d" 1
     (@mk_world numeric_label_libs O [] [])).2 =
  Ok (mk_ndarray Float64 2 [[0.5; 0]; [1.5; 0]; [2.5; 1]]%Q, [0; 0; 1]%Z,
      mk_ndarray Float64 2 [[0.5; 0]; [1.5; 0]; [2.5; 1]]%Q,
      [[0]; [0]; [1]]%Z) /\
  column_of 1 (mk_ndarray Float64 2 [[0.5; 0]; [1.5; 0]; [2.5; 1]]%Q)
    = Ok (map inject_Z [0; 0; 1]%Z).
Proof.
  assert (Hrun : (@load_dataset numeric_label_libs "d" 1
                    (@mk_world numeric_label_libs O [] [])).2 =
    Ok (mk_ndarray Float64 2 [[0.5; 0]; [1.5; 0]; [2.5; 1]]%Q, [0; 0; 1]%Z,
        mk_ndarray Float64 2 [[0.5; 0]; [1.5; 0]; [2.5; 1]]%Q,
        [[0]; [0]; [1]]%Z)).
  { vm_compute. reflexivity. }
  split; [exact Hrun|].
  destruct (@load_dataset_numeric_labels numeric_label_libs "d" 1
              (@mk_world numeric_label_libs O [] [])
              numeric_label_frame numeric_label_frame O O
              [FloatCol [0.5; 1.5; 2.5]%Q] [0; 0; 1]%Z
              eq_refl eq_refl eq_refl
              ltac:(by repeat constructor)
              _ _ _ _ Hrun) as (_ & _ & Hcol).
  exact Hcol.
Defined.

Lemma train_fold_classes_witness :
  exists AUC' evs d,
    (@train_fold toy_libs "d" None 1.01 10 1 (np_zeros 5) toy_start).2 = Ok AUC' /\
    @fold_calls toy_libs "d" None 1.01 10 1 (np_zeros 5) d evs AUC' /\
    0 < count_class (Z.of_nat (fd_maj d)) (fd_Ytrain d) /\
    nrows (fd_Xmaj d) = count_class (Z.of_nat (fd_maj d)) (fd_Ytrain d) /\
    nrows (fd_Xmin d) = count_class (Z.of_nat (fd_min d)) (fd_Ytrain d).
Proof.
  destruct (@train_fold_total toy_libs toy_contract "d" None 1.01 10 1
              (np_zeros 5) ltac:(lia) ltac:(simpl; lia) toy_start)
    as (evs0 & _ & AUC' & Hr & _).
  destruct (@train_fold_classes toy_libs "d" None 1.01 10 1 (np_zeros 5)
              toy_start AUC' Hr)
    as (evs & d & _ & Hf & _ & _ & Hpos & _ & _ & _ & Hmaj & Hmin & _).
  exists AUC', evs, d.
  split; [exact Hr|]. split; [exact Hf|]. split; [exact Hpos|].
  split; [exact Hmaj | exact Hmin].
Defined.

Lemma train_fold_negative_label_witness :
  (@train_fold signed_label_libs "d" None 1.01 10 1 (np_zeros 5)
     (@mk_world signed_label_libs O [] [])).2 = Raise ValueError.
Proof.
  refine (proj1 (@train_fold_negative_label signed_label_libs "d" None 1.01 10 1
    (np_zeros 5) (@mk_world signed_label_libs O [] [])
    signed_label_frame signed_label_frame
    (ObjCol [PStr " -1"; PStr " -1"; PStr " 1"]) [-1; -1; 1]%Z [-1; -1; 1]%Z
    O O O O tt _ _ eq_refl eq_refl eq_refl _ _ _ eq_refl eq_refl)).
  - vm_compute. reflexivity.
  - vm_compute. reflexivity.
  - repeat constructor.
Defined.

Lemma train_imbalanced_cost_witness :
  exists evs,
    w_log (@train_imbalanced toy_libs "d" None toy_start).1
      = w_log toy_start ++ evs /\
    Z.of_nat (count_calls (counts_as Samplings) evs) = 55%Z /\
    Z.of_nat (count_calls (counts_as Divergences) evs) = 6600%Z.
Proof.
  destruct (@train_imbalanced_total toy_libs toy_contract "d" None toy_start)
    as (evs0 & _ & AUC & Hr & _).
  destruct (@train_imbalanced_cost toy_libs "d" None toy_start)
    as (evs & Hlog & _ & Hs & Hd & _).
  - by rewrite Hr.
  - exists evs. split; [exact Hlog|]. split; [exact Hs | exact Hd].
Defined.

Lemma one_column_libs_proba : @one_column_proba one_column_libs.
Proof. intros clf X s P. simpl. intros [= <-]. simpl. lia. Qed.

Lemma train_imbalanced_IndexError_witness :
  is_ok (@train_imbalanced one_column_libs "d" None
           (@mk_world one_column_libs O [] [])).2 = false.
Proof.
  exact (proj1 (@train_imbalanced_IndexError one_column_libs
                  one_column_libs_proba "d" None
                  (@mk_world one_column_libs O [] []))).
Defined.

(** ** Where the documentation and the notebook part *)

(** The label [' 3'] is neither [' positive'] nor [' negative'], and the
    conversion does not fail: it is read as the integer 3.  The feature
    arrays are returned as floats. *)
Lemma load_dataset_other_label :
  last other_label_frame = Some (ObjCol [PStr " positive"; PStr " 3"]) /\
  (@load_dataset other_label_libs "d" 1 (@mk_world other_label_libs O [] [])).2 =
  Ok (mk_ndarray Float64 1 [[0.5]; [1.5]]%Q, [1; 3]%Z,
      mk_ndarray Float64 1 [[0.5]; [1.5]]%Q, [[1]; [3]]%Z).
Proof. split; vm_compute; reflexivity. Qed.

(** An array of integers makes [torch.tensor(..., requires_grad = True,
    dtype = X.dtype)] raise [RuntimeError]; with [plot] set, an array of one
    column makes the redraw of the first iteration raise [IndexError], at
    [X[:, 1]].  In both cases [n_samples] is 2 and no array is returned. *)
Lemma JRD_sampling_no_array :
  shape int_X = (3, 1) /\
  (JRD_sampling 0 2 1 1.01 0.1 3 true None false int_world).2
    = Raise RuntimeError /\
  shape toy_X = (3, 1) /\
  (JRD_sampling 0 2 1 1.01 0.1 3 true None true toy_world).2
    = Raise IndexError.
Proof. vm_compute. repeat split; reflexivity. Qed.

(** The training file of the fold has one row of each class.  Both
    [maj_label] and [min_label] are then 0, and each of the 22 fits of the
    fold, the 20 of the nested cross-validation and the 2 for the final
    model, is on a training set in which the label 1 does not occur. *)
Lemma train_fold_tie :
  let start := @mk_world tie_libs O [] [] in
  let run := @train_fold tie_libs "d" None 1.01 10 1 (np_zeros 5) start in
  (@load_dataset tie_libs "d" 1 start).2 =
    Ok (mk_ndarray Float64 1 [[0.5]; [1.5]]%Q, [0; 1]%Z,
        mk_ndarray Float64 1 [[0.5]; [1.5]]%Q, [[0]; [1]]%Z) /\
  run.2 = Ok [0.5; 0; 0; 0; 0]%Q /\
  omap fit_labels (w_log run.1) = replicate 22 [0; 0]%Q.
Proof. vm_compute. repeat split; reflexivity. Qed.

